(** * Gmail Bundles userscript: a shallow embedding of gmail-bundles-userscript.js

    The script keeps one process-wide [state] object and reads and writes the
    rows of Gmail's visible message table.  Here

    - JS strings are [string]s whose characters stand for the code units
      0..255 (so U+00A0, the non-breaking space, is the single character 160);
    - the JS objects the script uses as dictionaries ([state.bundles],
      [state.bundlesVisibility], [state.bundlesUnread]) are association lists
      of their own properties in insertion order, which is the order
      [Object.keys] enumerates label texts in, labels that look like array
      indices apart (the statements that depend on that order assume there is
      none); the members an object literal inherits from Object.prototype
      matter where the script looks a label up in a fresh object, in
      [setBundleStateToEmails], which throws for such a label;
    - the visible message table is the list of its rows in document order,
      a row being a real message row or a synthetic bundle row; the script
      holds references to rows, which are row identifiers here, and every
      mutation of a row goes through the table, so that all holders of a
      reference see it.  The table is all of the document the model has: a
      row the host has taken out of it cannot be read any more, and other
      (offscreen) lists are not there;
    - a function of the script is a computation over the world (state and
      table) that either returns or throws; a throw keeps the mutations made
      before it, as in JS;
    - class and attribute selectors built from a label text select the rows
      bound to that label, which is what a browser does for a label made of
      letters, digits, [-] and [_] (the statements about the rows the script
      inserts assume such labels);
    - of the HTML a browser parses only the entity the script itself writes
      and accounts for ([&nbsp;]) is decoded, and [state.bundleTemplateHTML]
      is given by the content of the three slots of the markup;
    - a world carries a record of what was done to the document (template
      derivations, insertions and removals of synthetic rows, writes to the
      slots); the script's functions add to it and never read it. *)

From Stdlib Require Import List String Ascii Bool Arith NArith Lia DecimalString.
Import ListNotations.
Local Open Scope string_scope.
Local Open Scope list_scope.

(** ** JS strings *)

Module JsString.

(** Code units that [String.prototype.trim] strips, among 0..255:
    TAB, LF, VT, FF, CR, SPACE and U+00A0. *)
Definition isWhiteSpace (c : ascii) : bool :=
  let n := nat_of_ascii c in
  Nat.eqb n 9 || Nat.eqb n 10 || Nat.eqb n 11 || Nat.eqb n 12 || Nat.eqb n 13
  || Nat.eqb n 32 || Nat.eqb n 160.

Fixpoint trimStart (s : string) : string :=
  match s with
  | String c s' => if isWhiteSpace c then trimStart s' else s
  | EmptyString => EmptyString
  end.

Fixpoint rev (s : string) : string :=
  match s with
  | EmptyString => EmptyString
  | String c s' => rev s' ++ String c EmptyString
  end.

Definition trimEnd (s : string) : string := rev (trimStart (rev s)).

(** [s.trim()] *)
Definition trim (s : string) : string := trimEnd (trimStart s).

(** [arr.join(sep)] on an array of strings *)
Fixpoint join (sep : string) (l : list string) : string :=
  match l with
  | [] => ""
  | [x] => x
  | x :: rest => x ++ sep ++ join sep rest
  end.

(** [s.replace(/pat/g, by)] for a literal, non-empty pattern: scan from the
    left, and after a match go on behind it.  [skip] counts the characters
    of a match still to be passed over. *)
Fixpoint replaceAllFrom (pat by_ : string) (skip : nat) (s : string) : string :=
  match s with
  | EmptyString => EmptyString
  | String c s' =>
    match skip with
    | S k => replaceAllFrom pat by_ k s'
    | O =>
      if prefix pat s
      then by_ ++ replaceAllFrom pat by_ (String.length pat - 1) s'
      else String c (replaceAllFrom pat by_ 0 s')
    end
  end.

Definition replaceAll (pat by_ s : string) : string := replaceAllFrom pat by_ 0 s.

(** Template literal [`${n}`] for an array length. *)
Definition ofNat (n : nat) : string := NilEmpty.string_of_uint (Nat.to_uint n).

End JsString.

(** ** JS objects used as dictionaries *)

Module JsObject.

Section Obj.
Context {V : Type}.

Definition t := list (string * V).

(** [o[k]] as far as the properties of [o] itself go; [None] is [undefined].
    For the names of [prototypeNames] below a JS object literal has more to
    give than its own properties. *)
Fixpoint get (k : string) (o : t) : option V :=
  match o with
  | [] => None
  | (k', v) :: o' => if String.eqb k k' then Some v else get k o'
  end.

(** [o[k] = v]: an existing property keeps its place, a new one goes last. *)
Fixpoint set (k : string) (v : V) (o : t) : t :=
  match o with
  | [] => [(k, v)]
  | (k', v') :: o' =>
    if String.eqb k k' then (k', v) :: o' else (k', v') :: set k v o'
  end.

(** [delete o[k]] *)
Fixpoint delete (k : string) (o : t) : t :=
  match o with
  | [] => []
  | (k', v') :: o' =>
    if String.eqb k k' then delete k o' else (k', v') :: delete k o'
  end.

(** [Object.keys(o)]: the properties in the order they were added in, which
    is what a browser gives for names that are not strings of digits (those
    it lists first, in numeric order). *)
Definition keys (o : t) : list string := map fst o.

End Obj.

Arguments t : clear implicits.

(** The members of [Object.prototype].  On an object literal [o] that has no
    property [k] of its own, [o[k]] for one of these names is the inherited
    member: a function, or the prototype itself for [__proto__]; it is
    truthy, and it has no [push]. *)
Definition prototypeNames : list string :=
  ["constructor"; "hasOwnProperty"; "isPrototypeOf"; "propertyIsEnumerable";
   "toLocaleString"; "toString"; "valueOf"; "__proto__";
   "__defineGetter__"; "__defineSetter__"; "__lookupGetter__"; "__lookupSetter__"].

Definition inherited (k : string) : bool := existsb (String.eqb k) prototypeNames.

End JsObject.

(** [arr.includes(x)] / [arr.indexOf(x)] on arrays of strings *)
Definition includes (x : string) (l : list string) : bool :=
  existsb (String.eqb x) l.

Fixpoint indexOf {A : Type} (eqb : A -> A -> bool) (x : A) (l : list A) : option nat :=
  match l with
  | [] => None
  | y :: l' => if eqb x y then Some 0 else option_map S (indexOf eqb x l')
  end.

(** ** Constants of the script *)

Definition EMAIL_DEFAULT_DISPLAY : string := "flex".
Definition EMAIL_SENDERS_SEPARATOR : string := "&nbsp;&nbsp;|&nbsp;&nbsp;".
Definition UNICODE_NBSP : string := String (ascii_of_nat 160) EmptyString.
Definition MAX_SENDERS_BUNDLE_DESC : nat := 3.
Definition BUNDLE_UPDATE_DELAY : nat := 100.

(** ** The rows of the message table *)

(** A label chip of a message row: the [.at] wrapper with its background
    colour, and the [.av] text with its colour. *)
Record LabelChip := mkChip {
  chipText : string;
  chipBackground : string;
  chipColor : string
}.

(** A real message row ([.zA]) with what the script reads and writes on it. *)
Record Email := mkEmail {
  eid : nat;                  (* identity of the DOM node *)
  labels : list LabelChip;    (* [.av] elements, in document order *)
  unread : bool;              (* class [zE] *)
  sender : string;            (* text of [.bA4] / [.yW .yP] *)
  subject : string;           (* text of [.bog] *)
  sentDate : string;          (* text of [.xW span span] *)
  hiddenClass : bool;         (* class [_js-hidden-email] *)
  isBundledClass : bool;      (* class [_js-is-bundled] *)
  display : string            (* [style.display] *)
}.

(** A synthetic bundle row: an instance of the template, bound to one label
    by its class [_js-bundle-<label>] and its [data-bundlename]. *)
Record BundleRow := mkBundleRow {
  bid : nat;                  (* identity of the DOM node *)
  bundlename : string;
  nameHTML : string;          (* innerHTML of the [data-bundle] slot *)
  subjectHTML : string;       (* innerHTML of the [data-subject] slot *)
  dateText : string;          (* innerText of the [data-date] slot *)
  backgroundColor : string;
  textColor : string
}.

Inductive Row :=
| EmailRow (e : Email)
| SyntheticRow (b : BundleRow).

(** A reference to a row, as held in a JS variable or array. *)
Inductive Ref :=
| EmailRef (i : nat)
| BundleRef (i : nat).

Definition refOf (r : Row) : Ref :=
  match r with
  | EmailRow e => EmailRef (eid e)
  | SyntheticRow b => BundleRef (bid b)
  end.

Definition Ref_eqb (a b : Ref) : bool :=
  match a, b with
  | EmailRef i, EmailRef j => Nat.eqb i j
  | BundleRef i, BundleRef j => Nat.eqb i j
  | _, _ => false
  end.

(** [state.bundleTemplateHTML]: the markup string, given by what it
    determines.  [EmptyHTML] is the initial [''], the only falsy value; the
    markup derived from a row carries that row's content in its three slots. *)
Inductive TemplateHTML :=
| EmptyHTML
| Markup (slotName slotSubject slotDate : string).

Record State := mkState {
  bundleTemplateHTML : TemplateHTML;
  bundles : JsObject.t (list nat);       (* [bundleName] : $email[] *)
  bundlesVisibility : JsObject.t bool;   (* [bundleName] : is the bundle open *)
  bundlesUnread : JsObject.t bool;       (* [bundleName] : has an unread email *)
  bundlesOrder : list string
}.

(** What the script does to the document, recorded for the statements that
    count such operations or speak of their order; the script itself never
    reads this record.  [EvShowUnbundled] is the call of [showUnbundledEmails]
    the orphan pass makes for an orphan that is open. *)
Inductive Effect :=
| EvDeriveTemplate
| EvInsertBundle (bundleName : string)
| EvRemoveBundle (bundleName : string)
| EvShowUnbundled (bundleName : string)
| EvSetName (bundleName html : string)
| EvSetSenders (bundleName html : string)
| EvSetDate (bundleName text : string).

Record World := mkWorld {
  state : State;
  emailTable : option (list Row);   (* [.BltHke[role=main] .F], if on a list page *)
  effects : list Effect             (* oldest first *)
}.

(** ** Computations of the script *)

Inductive Outcome (A : Type) :=
| Returns (a : A) (w : World)
| Throws (w : World).
Arguments Returns {A} a w.
Arguments Throws {A} w.

Definition Js (A : Type) : Type := World -> Outcome A.

Definition ret {A} (a : A) : Js A := fun w => Returns a w.

Definition bind {A B} (c : Js A) (k : A -> Js B) : Js B :=
  fun w => match c w with
           | Returns a w' => k a w'
           | Throws w' => Throws w'
           end.

Definition throw {A} : Js A := fun w => Throws w.

Notation "x <- c1 ;; c2" := (bind c1 (fun x => c2))
  (at level 61, c1 at next level, right associativity).
Notation "c1 ;; c2" := (bind c1 (fun _ => c2))
  (at level 61, right associativity).

Definition worldOf {A} (o : Outcome A) : World :=
  match o with Returns _ w => w | Throws w => w end.

Definition getState : Js State := fun w => Returns (state w) w.

Definition modifyState (f : State -> State) : Js unit :=
  fun w => Returns tt (mkWorld (f (state w)) (emailTable w) (effects w)).

Definition getRows : Js (list Row) :=
  fun w => Returns (match emailTable w with Some rows => rows | None => [] end) w.

Definition modifyRows (f : list Row -> list Row) : Js unit :=
  fun w => Returns tt (mkWorld (state w) (option_map f (emailTable w)) (effects w)).

Definition emit (ev : Effect) : Js unit :=
  fun w => Returns tt (mkWorld (state w) (emailTable w) (effects w ++ [ev])).

(** [arr.forEach(f)] *)
Fixpoint forEach {A} (l : list A) (f : A -> Js unit) : Js unit :=
  match l with
  | [] => ret tt
  | x :: l' => f x ;; forEach l' f
  end.

(** Member access on a value that may be [undefined] or [null] throws a
    TypeError. *)
Definition defined {A} (o : option A) : Js A :=
  match o with Some a => ret a | None => throw end.

(** ** Reading and writing rows through the table *)

Fixpoint findEmail (i : nat) (rows : list Row) : option Email :=
  match rows with
  | [] => None
  | EmailRow e :: rows' => if Nat.eqb (eid e) i then Some e else findEmail i rows'
  | SyntheticRow _ :: rows' => findEmail i rows'
  end.

Fixpoint findRow (r : Ref) (rows : list Row) : option Row :=
  match rows with
  | [] => None
  | row :: rows' => if Ref_eqb (refOf row) r then Some row else findRow r rows'
  end.

(** Apply [f] to the message row [i] refers to. *)
Definition onEmail (i : nat) (f : Email -> Email) (row : Row) : Row :=
  match row with
  | EmailRow e => if Nat.eqb (eid e) i then EmailRow (f e) else row
  | SyntheticRow _ => row
  end.

(** Apply [f] to the synthetic row [i] refers to. *)
Definition onBundle (i : nat) (f : BundleRow -> BundleRow) (row : Row) : Row :=
  match row with
  | SyntheticRow b => if Nat.eqb (bid b) i then SyntheticRow (f b) else row
  | EmailRow _ => row
  end.

Definition updateEmail (i : nat) (f : Email -> Email) : Js unit :=
  modifyRows (map (onEmail i f)).

Definition updateBundle (i : nat) (f : BundleRow -> BundleRow) : Js unit :=
  modifyRows (map (onBundle i f)).

(** Reading a property of the message row a reference points to.  The model
    has the rows of the table only: a reference to a row that is not in the
    table has nothing to read, and the computation stops. *)
Definition email (i : nat) : Js Email :=
  rows <- getRows ;; defined (findEmail i rows).

(** [classList.add(HIDDEN_EMAIL_CLASS); style.display = d] and the reverse *)
Definition setHidden (h : bool) (d : string) (e : Email) : Email :=
  mkEmail (eid e) (labels e) (unread e) (sender e) (subject e) (sentDate e)
          h (isBundledClass e) d.

(** [classList.add(IS_BUNDLED_CLASS)] *)
Definition addIsBundled (e : Email) : Email :=
  mkEmail (eid e) (labels e) (unread e) (sender e) (subject e) (sentDate e)
          (hiddenClass e) true (display e).

Definition setNameHTML (html : string) (b : BundleRow) : BundleRow :=
  mkBundleRow (bid b) (bundlename b) html (subjectHTML b) (dateText b)
              (backgroundColor b) (textColor b).

Definition setSubjectHTML (html : string) (b : BundleRow) : BundleRow :=
  mkBundleRow (bid b) (bundlename b) (nameHTML b) html (dateText b)
              (backgroundColor b) (textColor b).

Definition setDateText (text : string) (b : BundleRow) : BundleRow :=
  mkBundleRow (bid b) (bundlename b) (nameHTML b) (subjectHTML b) text
              (backgroundColor b) (textColor b).

(** [innerText] of a slot whose content was given as HTML: the browser shows
    the entity [&nbsp;] as U+00A0. *)
Definition innerText (html : string) : string :=
  JsString.replaceAll "&nbsp;" UNICODE_NBSP html.

Definition emailRefs (rows : list Row) : list nat :=
  flat_map (fun r => match r with EmailRow e => [eid e] | SyntheticRow _ => [] end) rows.

Definition syntheticRows (rows : list Row) : list BundleRow :=
  flat_map (fun r => match r with SyntheticRow b => [b] | EmailRow _ => [] end) rows.

Definition removeRow (r : Ref) (rows : list Row) : list Row :=
  filter (fun row => negb (Ref_eqb (refOf row) r)) rows.

(** [$email.insertAdjacentHTML('beforebegin' | 'afterend', html)]; [None] when
    the row has no parent to insert into. *)
Fixpoint insertAdjacent (isPlacedAfter : bool) (i : nat) (new : Row) (rows : list Row)
  : option (list Row) :=
  match rows with
  | [] => None
  | row :: rows' =>
    if Ref_eqb (refOf row) (EmailRef i)
    then Some (if isPlacedAfter then row :: new :: rows' else new :: row :: rows')
    else option_map (cons row) (insertAdjacent isPlacedAfter i new rows')
  end.

(** An identity no synthetic row of the table has. *)
Definition freshBid (rows : list Row) : nat :=
  S (fold_right Nat.max 0 (map bid (syntheticRows rows))).

(** JS truthiness of a flag read from a dictionary. *)
Definition truthy (v : option bool) : bool :=
  match v with Some true => true | _ => false end.

(** ** State updates *)

Definition withTemplate (t : TemplateHTML) (s : State) : State :=
  mkState t (bundles s) (bundlesVisibility s) (bundlesUnread s) (bundlesOrder s).

Definition withVisibility (v : JsObject.t bool) (s : State) : State :=
  mkState (bundleTemplateHTML s) (bundles s) v (bundlesUnread s) (bundlesOrder s).

Definition withBundles (b : JsObject.t (list nat)) (u : JsObject.t bool)
           (o : list string) (s : State) : State :=
  mkState (bundleTemplateHTML s) b (bundlesVisibility s) u o.

(** ** The script *)

Definition BUNDLE_CLASS_PREFIX : string := "_js-bundle".

Definition getBundleClass (bundleName : string) : string :=
  BUNDLE_CLASS_PREFIX ++ "-" ++ bundleName.

(** [document.querySelector(`.${bundleClass}`)]: the first synthetic row
    carrying the class.  That is what the selector finds when the label in
    the class is made of letters, digits, [-] and [_]; with another character
    in it the text is another selector (a space) or none at all (a slash). *)
Definition querySelectorClass (bundleClass : string) (rows : list Row) : option BundleRow :=
  find (fun b => String.eqb (getBundleClass (bundlename b)) bundleClass) (syntheticRows rows).

(** [document.querySelector(`[data-bundlename="${bundleName}"]`)], likewise
    for a label without quotes and backslashes. *)
Definition querySelectorBundlename (bundleName : string) (rows : list Row) : option BundleRow :=
  find (fun b => String.eqb (bundlename b) bundleName) (syntheticRows rows).

Definition isBundleInDom (bundleName : string) : Js bool :=
  rows <- getRows ;;
  ret (match querySelectorClass (getBundleClass bundleName) rows with
       | Some _ => true | None => false end).

(** The content a template derived from a row has in its slots.  (The
    script turns every [td] of the row's markup into [div]; the tags are
    meant, and the texts of the slots are taken to have no [td] in them.) *)
Definition templateOf (row : Row) : TemplateHTML :=
  match row with
  | EmailRow e => Markup (sender e) (subject e) (sentDate e)
  | SyntheticRow b => Markup (nameHTML b) (subjectHTML b) (dateText b)
  end.

Definition initBundleTemplateHTML : Js unit :=
  s <- getState ;;
  match bundleTemplateHTML s with
  | Markup _ _ _ => ret tt
  | EmptyHTML =>
    emails <- getRows ;;
    (* $emails[$emails.length - 1], then $email.cloneNode(true) *)
    email_ <- defined (nth_error emails (List.length emails - 1)) ;;
    emit EvDeriveTemplate ;;
    modifyState (withTemplate (templateOf email_))
  end.

(** JS truthiness of a name that may be [undefined]: the empty string is
    falsy as well. *)
Definition truthyName (name : option string) : option string :=
  match name with
  | Some EmptyString => None
  | _ => name
  end.

Definition getVisibleBundleName (s : State) : option string :=
  find (fun key => truthy (JsObject.get key (bundlesVisibility s)))
       (JsObject.keys (bundlesVisibility s)).

Definition hideEmails (emails : list nat) : Js unit :=
  forEach emails (fun i =>
    updateEmail i (fun e => if hiddenClass e then e else setHidden true "none" e)).

Definition showUnbundledEmails : Js unit :=
  rows <- getRows ;;
  let emailsToShow :=
    flat_map (fun r => match r with
                       | EmailRow e =>
                         if hiddenClass e && negb (isBundledClass e) then [eid e] else []
                       | SyntheticRow _ => []
                       end) rows in
  forEach emailsToShow (fun i => updateEmail i (setHidden false EMAIL_DEFAULT_DISPLAY)).

(** The [for] loop of [getRecentSenders]: [n] iterations are left. *)
Fixpoint recentSendersLoop (n : nat) (bundle : list nat) : Js (list string) :=
  match n with
  | O => ret []
  | S n' =>
    match bundle with
    | [] => ret []   (* break *)
    | i :: rest =>
      e <- email i ;;
      more <- recentSendersLoop n' rest ;;
      ret (sender e :: more)
    end
  end.

Definition getRecentSenders (bundleName : string) : Js (list string) :=
  s <- getState ;;
  bundle <- defined (JsObject.get bundleName (bundles s)) ;;
  recentSendersLoop MAX_SENDERS_BUNDLE_DESC bundle.

(** The three texts [updateBundleDom] computes. *)
Definition renderBundleName (bundleName : string) (count : nat) (isUnread isBundleOpen : bool)
  : string :=
  let renderedEmailCount := ("[" ++ JsString.ofNat count ++ "]")%string in
  let renderedBundleName := (bundleName ++ " " ++ renderedEmailCount)%string in
  let renderedBundleName :=
    if isUnread
    then ("<strong>" ++ renderedBundleName ++ "</strong>")%string
    else renderedBundleName in
  if isBundleOpen then ("<u>" ++ renderedBundleName ++ "</u>")%string else renderedBundleName.

Definition updateBundleDom (bundleName : string) : Js unit :=
  s <- getState ;;
  let bundle := JsObject.get bundleName (bundles s) in
  let bundleClass := getBundleClass bundleName in
  rows <- getRows ;;
  match querySelectorClass bundleClass rows with
  | None => ret tt   (* console.warn *)
  | Some bundle_ =>
    bundle <- defined bundle ;;
    latestEmail <- (i <- defined (nth_error bundle 0) ;; email i) ;;
    let isBundleOpen := truthy (JsObject.get bundleName (bundlesVisibility s)) in
    let isUnread := unread latestEmail || truthy (JsObject.get bundleName (bundlesUnread s)) in
    let renderedBundleName :=
      renderBundleName bundleName (List.length bundle) isUnread isBundleOpen in
    recentSenders <- getRecentSenders bundleName ;;
    let emailDate := sentDate latestEmail in
    (if String.eqb (JsString.trim (nameHTML bundle_)) (JsString.trim renderedBundleName)
     then ret tt
     else updateBundle (bid bundle_) (setNameHTML renderedBundleName) ;;
          emit (EvSetName bundleName renderedBundleName)) ;;
    (if String.eqb
          (JsString.trim (innerText (subjectHTML bundle_)))
          (JsString.trim
             (JsString.join
                (JsString.replaceAll "&nbsp;" UNICODE_NBSP EMAIL_SENDERS_SEPARATOR)
                recentSenders))
     then ret tt
     else updateBundle (bid bundle_)
                       (setSubjectHTML (JsString.join EMAIL_SENDERS_SEPARATOR recentSenders)) ;;
          emit (EvSetSenders bundleName (JsString.join EMAIL_SENDERS_SEPARATOR recentSenders))) ;;
    (if String.eqb (JsString.trim (dateText bundle_)) (JsString.trim emailDate)
     then ret tt
     else updateBundle (bid bundle_) (setDateText emailDate) ;;
          emit (EvSetDate bundleName emailDate))
  end.

Definition getEmailLabelWrapperOfBundle (email_ : Email) (bundleName : string)
  : option LabelChip :=
  find (fun emailLabel => String.eqb (chipText emailLabel) bundleName) (labels email_).

(** [insertBundleDom($email, bundleName, isPlacedAfter)]; [$email] may be
    [undefined] when the caller read it off an empty array. *)
Definition insertBundleDom (email_ : option nat) (bundleName : string) (isPlacedAfter : bool)
  : Js unit :=
  let bundleClass := getBundleClass bundleName in
  s <- getState ;;
  bundle <- defined (JsObject.get bundleName (bundles s)) ;;
  let latestBundledEmail := nth_error bundle 0 in
  rows <- getRows ;;
  match querySelectorClass bundleClass rows with
  | Some _ => ret tt
  | None =>
    latest <- (i <- defined latestBundledEmail ;; email i) ;;
    let emailLabelWrapper := getEmailLabelWrapperOfBundle latest bundleName in
    i <- defined email_ ;;
    chip <- defined emailLabelWrapper ;;
    match bundleTemplateHTML s with
    | EmptyHTML =>
      (* nothing is inserted, and querySelector(...).addEventListener fails *)
      throw
    | Markup slotName slotSubject slotDate =>
      let new := mkBundleRow (freshBid rows) bundleName slotName slotSubject slotDate
                             (chipBackground chip) (chipColor chip) in
      rows' <- defined (insertAdjacent isPlacedAfter i (SyntheticRow new) rows) ;;
      modifyRows (fun _ => rows') ;;
      emit (EvInsertBundle bundleName) ;;
      updateBundleDom bundleName
    end
  end.

(** [[...order].splice(order.indexOf(bundleName) + 1, order.length)]: the
    names after [bundleName]; all of them when it is not in the array
    ([indexOf] is then -1). *)
Definition bundlesAfter (bundleName : string) (order : list string) : list string :=
  match indexOf String.eqb bundleName order with
  | Some idx => skipn (idx + 1) order
  | None => order
  end.

Definition moveBundleDoms (email_ : option nat) (bundleNames : list string)
           (isPlacedAfter : bool) : Js unit :=
  forEach (rev bundleNames) (fun bundleName =>
    rows <- getRows ;;
    let bundle_ := querySelectorBundlename bundleName rows in
    i <- defined email_ ;;
    (* $email.parentElement is null for a row outside the table *)
    let allEmails := map refOf rows in
    idx <- defined (indexOf Ref_eqb (EmailRef i) allEmails) ;;
    let positionedEmails :=
      if isPlacedAfter then skipn idx allEmails else firstn idx allEmails in
    match bundle_ with
    | None => throw   (* includes(null) is false, then null.remove() *)
    | Some b =>
      if existsb (Ref_eqb (BundleRef (bid b))) positionedEmails
      then ret tt
      else modifyRows (removeRow (BundleRef (bid b))) ;;
           emit (EvRemoveBundle bundleName) ;;
           insertBundleDom email_ bundleName isPlacedAfter
    end).

(** [resetBundleDomsPosition] declares no parameter: what a caller passes
    ([arguments]) is not looked at. *)
Definition resetBundleDomsPosition (arguments : list (list string)) : Js unit :=
  s <- getState ;;
  let bundleNames := JsObject.keys (bundles s) in
  match truthyName (getVisibleBundleName s) with
  | Some visibleBundleName =>
    let visibleBundle := JsObject.get visibleBundleName (bundles s) in
    let bundlesAfterVisibleBundle := bundlesAfter visibleBundleName (bundlesOrder s) in
    visibleBundle <- defined visibleBundle ;;
    moveBundleDoms (nth_error visibleBundle (List.length visibleBundle - 1))
                   bundlesAfterVisibleBundle true
  | None =>
    forEach bundleNames (fun bundleName =>
      s <- getState ;;
      bundle <- defined (JsObject.get bundleName (bundles s)) ;;
      moveBundleDoms (nth_error bundle 0) [bundleName] false)
  end.

(** [arr.splice(idx, 1)] where [idx] comes from [indexOf]: -1 counts from
    the end and takes the last element out. *)
Definition spliceOne {A} (idx : option nat) (l : list A) : list A :=
  match idx with
  | Some k => firstn k l ++ skipn (S k) l
  | None => removelast l
  end.

(** The [bundle.forEach] of [showBundledEmails], with the local array
    [$emailsToHide] it shrinks. *)
Fixpoint unhideBundle (bundle : list nat) (emailsToHide : list nat) : Js (list nat) :=
  match bundle with
  | [] => ret emailsToHide
  | i :: rest =>
    let emailsToHide := spliceOne (indexOf Nat.eqb i emailsToHide) emailsToHide in
    updateEmail i (fun e => if hiddenClass e
                            then setHidden false EMAIL_DEFAULT_DISPLAY e else e) ;;
    unhideBundle rest emailsToHide
  end.

Definition showBundledEmails (bundleName : string) : Js unit :=
  s <- getState ;;
  let bundle := JsObject.get bundleName (bundles s) in
  rows <- getRows ;;
  let emailsToHide := emailRefs rows in
  bundle <- defined bundle ;;
  emailsToHide <- unhideBundle bundle emailsToHide ;;
  hideEmails emailsToHide ;;
  resetBundleDomsPosition [].

(** The local function of [onBundleClick]. *)
Definition turnOffBundleVisibility (bundleName_ : string) : Js unit :=
  s <- getState ;;
  emails <- defined (JsObject.get bundleName_ (bundles s)) ;;
  hideEmails emails ;;
  showUnbundledEmails ;;
  s <- getState ;;
  let bundlesResetPosition := bundlesAfter bundleName_ (bundlesOrder s) in
  resetBundleDomsPosition [bundlesResetPosition].

Definition onBundleClick (bundleName : string) : Js unit :=
  s <- getState ;;
  let visibleBundleName := getVisibleBundleName s in
  (match JsObject.get bundleName (bundlesVisibility s), truthyName visibleBundleName with
   | Some false, Some visibleBundleName =>
     modifyState (fun s =>
       withVisibility (JsObject.set visibleBundleName false (bundlesVisibility s)) s) ;;
     turnOffBundleVisibility visibleBundleName
   | _, _ => ret tt
   end) ;;
  modifyState (fun s =>
    withVisibility
      (JsObject.set bundleName
                    (negb (truthy (JsObject.get bundleName (bundlesVisibility s))))
                    (bundlesVisibility s)) s) ;;
  s <- getState ;;
  (if truthy (JsObject.get bundleName (bundlesVisibility s))
   then showBundledEmails bundleName
   else turnOffBundleVisibility bundleName) ;;
  updateBundleDom bundleName.

(** The local variables [bundles], [bundlesUnread] and [bundlesOrder] of
    [setBundleStateToEmails]. *)
Record Grouping := mkGrouping {
  gBundles : JsObject.t (list nat);
  gBundlesUnread : JsObject.t bool;
  gBundlesOrder : list string
}.

(** The body of [$emailLabels.forEach] for the row [i] and one of its
    labels, when the label names no member of Object.prototype: the local
    [bundles] starts as [{}] and gets properties here only, so [bundles[label]]
    is then [undefined] or the list the label has got so far. *)
Definition groupLabel (i : nat) (isUnread : bool) (g : Grouping) (label : string) : Grouping :=
  let bundlesOrder :=
    match JsObject.get label (gBundles g) with
    | None => gBundlesOrder g ++ [label]
    | Some _ => gBundlesOrder g
    end in
  let members :=
    match JsObject.get label (gBundles g) with
    | None => []
    | Some l => l
    end in
  let bundles := JsObject.set label (members ++ [i]) (gBundles g) in
  let bundlesUnread :=
    if isUnread then JsObject.set label true (gBundlesUnread g) else gBundlesUnread g in
  mkGrouping bundles bundlesUnread bundlesOrder.

(** [$emailLabels.forEach] for the row [i].  For a label that names a member
    of Object.prototype, [bundles[label]] is that member: it is truthy, so
    nothing is pushed on [bundlesOrder] and [bundles[label]] is assigned
    itself, and [bundles[label].push] is not a function: the loop throws
    there, [None]. *)
Fixpoint groupLabels (i : nat) (isUnread : bool) (labels : list string) (g : Grouping)
  : option Grouping :=
  match labels with
  | [] => Some g
  | label :: rest =>
    if JsObject.inherited label then None
    else groupLabels i isUnread rest (groupLabel i isUnread g label)
  end.

(** The label elements ([.av]) of a row; the template a synthetic row is
    made from has them stripped. *)
Definition rowLabels (row : Row) : list string :=
  match row with
  | EmailRow e => map chipText (labels e)
  | SyntheticRow _ => []
  end.

(** The [$emails.forEach] of [setBundleStateToEmails]. *)
Fixpoint groupEmails (emails : list Ref) (g : Grouping) : Js Grouping :=
  match emails with
  | [] => ret g
  | r :: rest =>
    rows <- getRows ;;
    row <- defined (findRow r rows) ;;
    match row with
    | SyntheticRow _ => groupEmails rest g   (* no label elements: return *)
    | EmailRow e =>
      match labels e with
      | [] => groupEmails rest g             (* don't bundle emails with no labels *)
      | emailLabels =>
        updateEmail (eid e) addIsBundled ;;
        g' <- defined (groupLabels (eid e) (unread e) (map chipText emailLabels) g) ;;
        groupEmails rest g'
      end
    end
  end.

Definition setBundleStateToEmails (emails : list Ref) : Js unit :=
  g <- groupEmails emails (mkGrouping [] [] []) ;;
  modifyState (withBundles (gBundles g) (gBundlesUnread g) (gBundlesOrder g)).

(** The orphan pass of [runBundlizer], for one synthetic row. *)
Definition removeIfOrphaned (bundleNames : list string) (bundle_ : BundleRow) : Js unit :=
  let bundleName := bundlename bundle_ in
  if includes bundleName bundleNames then ret tt
  else
    s <- getState ;;
    (if truthy (JsObject.get bundleName (bundlesVisibility s))
     then emit (EvShowUnbundled bundleName) ;; showUnbundledEmails else ret tt) ;;
    modifyState (fun s =>
      withVisibility (JsObject.delete bundleName (bundlesVisibility s)) s) ;;
    modifyRows (removeRow (BundleRef (bid bundle_))) ;;
    emit (EvRemoveBundle bundleName).

Definition runBundlizer : Js unit :=
  initBundleTemplateHTML ;;
  fun w =>
  match emailTable w with
  | None => Returns tt w   (* not on an email list page *)
  | Some emailTable_ =>
    (let emails := map refOf emailTable_ in
     setBundleStateToEmails emails ;;
     s <- getState ;;
     let bundleNames := JsObject.keys (bundles s) in
     rows <- getRows ;;
     forEach (syntheticRows rows) (removeIfOrphaned bundleNames) ;;
     forEach bundleNames (fun bundleName =>
       s <- getState ;;
       bundle <- defined (JsObject.get bundleName (bundles s)) ;;
       let bundleClass := getBundleClass bundleName in
       let latestEmail := nth_error bundle 0 in
       modifyState (fun s =>
         withVisibility
           (JsObject.set bundleName
                         (truthy (JsObject.get bundleName (bundlesVisibility s)))
                         (bundlesVisibility s)) s) ;;
       rows <- getRows ;;
       (match querySelectorClass bundleClass rows with
        | None => insertBundleDom latestEmail bundleName false
        | Some _ => updateBundleDom bundleName
        end) ;;
       s <- getState ;;
       if truthy (JsObject.get bundleName (bundlesVisibility s))
       then ret tt
       else hideEmails bundle) ;;
     resetBundleDomsPosition [] ;;
     s <- getState ;;
     match truthyName (getVisibleBundleName s) with
     | Some visibleBundleName => showBundledEmails visibleBundleName
     | None => ret tt
     end) w
  end.

(** ** The debounce wrapper

    [debounce(func, wait, immediate)] returns a function with one private
    variable [timeout].  The browser side is a table of pending timers and a
    clock in milliseconds; a timer fires when the clock reaches its due time;
    an invocation of [func] is recorded with the time it happens at and the
    arguments it gets.  [wait] is a natural number of milliseconds. *)

Module Debounce.

(** The delay [setTimeout] works with: it takes its second argument as a
    signed 32-bit integer (the number modulo 2^32, the upper half of the
    range read as negative), and a negative delay counts as 0. *)
Definition timerDelay (wait : nat) : nat :=
  let m := (N.of_nat wait mod 4294967296)%N in
  if (m <? 2147483648)%N then N.to_nat m else 0.

Section Wrapper.
Context {Args : Type}.
Variable wait : nat.
Variable immediate : bool.   (* [false] stands for an omitted argument *)

(** The private variable: [undefined] at first, a timer id after a call,
    [null] once the timer has fired.  Timer ids are positive, so truthy. *)
Inductive timeoutVar :=
| Undefined
| Null
| TimerId (id : nat).

(** A pending [later], with the arguments its closure captured. *)
Record Timer := mkTimer {
  timerId : nat;
  due : nat;
  laterArgs : Args
}.

Record St := mkSt {
  timeout : timeoutVar;
  pending : list Timer;            (* the browser's timers, oldest first *)
  nextTimerId : nat;
  invocations : list (nat * Args)  (* calls of [func], oldest first *)
}.

Definition fresh : St := mkSt Undefined [] 1 [].

Definition clearTimeout (v : timeoutVar) (timers : list Timer) : list Timer :=
  match v with
  | TimerId id => filter (fun t => negb (Nat.eqb (timerId t) id)) timers
  | _ => timers
  end.

Definition isTruthy (v : timeoutVar) : bool :=
  match v with TimerId _ => true | _ => false end.

(** The returned function, called at time [now] with [args]. *)
Definition call (now : nat) (args : Args) (st : St) : St :=
  let callNow := immediate && negb (isTruthy (timeout st)) in
  let timers := clearTimeout (timeout st) (pending st) in
  let id := nextTimerId st in
  let timers := timers ++ [mkTimer id (now + timerDelay wait) args] in
  mkSt (TimerId id) timers (S id)
       (if callNow then invocations st ++ [(now, args)] else invocations st).

(** [later], run by the browser at time [now]. *)
Definition later (now : nat) (args : Args) (st : St) : St :=
  mkSt Null (pending st) (nextTimerId st)
       (if immediate then invocations st else invocations st ++ [(now, args)]).

(** The browser lets the clock reach [now]: every timer due by then fires,
    at its due time, oldest first. *)
Definition elapse (now : nat) (st : St) : St :=
  let dueNow := filter (fun t => Nat.leb (due t) now) (pending st) in
  let rest := filter (fun t => negb (Nat.leb (due t) now)) (pending st) in
  fold_left (fun st t => later (due t) (laterArgs t) st) dueNow
            (mkSt (timeout st) rest (nextTimerId st) (invocations st)).

(** A run of the page: the wrapper is called at the given times. *)
Fixpoint run (events : list (nat * Args)) (st : St) : St :=
  match events with
  | [] => st
  | (now, args) :: events' => run events' (call now args (elapse now st))
  end.

End Wrapper.

Arguments timerDelay : simpl never.

End Debounce.

(** ** init

    [init] looks the loading node up and, when it is there, has
    [loadingObserver] watch it.  Each time the browser calls that observer
    back, the callback looks the message table up, makes a new
    [bundlizerObserver] around a new [debounce(runBundlizer,
    BUNDLE_UPDATE_DELAY)], has it watch the table, and runs a cycle at once;
    with no table, [observe] throws for its [null] target, and nothing is
    registered or run.  A mutation of the table is delivered to every
    observer that watches it.  What is kept of a cycle here is the time
    [runBundlizer] is called at. *)

Module Page.

(** What an observer is called with; it stands for the mutation records. *)
Definition Records : Type := string.

Record St := mkSt {
  loadingObserver : bool;                            (* it watches the loading node *)
  bundlizerObservers : list (@Debounce.St Records);  (* their callbacks, oldest first *)
  directRuns : list nat                              (* the calls of [runBundlizer] by
                                                        the callback of [loadingObserver] *)
}.

(** [init()], the loading node being in the document or not. *)
Definition init (loadingNode : bool) : St := mkSt loadingNode [] [].

(** What the browser delivers: mutations of the loading node (the message
    table being in the document or not at that time), mutations of the
    message table. *)
Inductive Signal :=
| LoadingMutation (now : nat) (bundlizerNode : bool)
| TableMutation (now : nat) (records : Records).

(** The clock reaches [now]: the timers due by then fire. *)
Definition elapse (now : nat) (st : St) : St :=
  mkSt (loadingObserver st)
       (map (Debounce.elapse false now) (bundlizerObservers st))
       (directRuns st).

(** The callback of [loadingObserver]. *)
Definition loadingCallback (now : nat) (bundlizerNode : bool) (st : St) : St :=
  if bundlizerNode
  then mkSt (loadingObserver st)
            (bundlizerObservers st ++ [Debounce.fresh])
            (directRuns st ++ [now])
  else st.

Definition deliver (st : St) (signal : Signal) : St :=
  match signal with
  | LoadingMutation now bundlizerNode =>
    let st := elapse now st in
    if loadingObserver st then loadingCallback now bundlizerNode st else st
  | TableMutation now records =>
    let st := elapse now st in
    mkSt (loadingObserver st)
         (map (Debounce.call BUNDLE_UPDATE_DELAY false now records) (bundlizerObservers st))
         (directRuns st)
  end.

Definition run (signals : list Signal) (st : St) : St := fold_left deliver signals st.

(** The times [runBundlizer] has been called at: by the callback of
    [loadingObserver], then by each debounced callback. *)
Definition cycleRuns (st : St) : list nat :=
  directRuns st
  ++ flat_map (fun observer => map fst (Debounce.invocations observer))
              (bundlizerObservers st).

End Page.


(** ** Attributes of an element

    [cleanAttributes] is given an element and edits its attribute list; an
    element is here that list, in the order [element.attributes] has. *)

Module Dom.

(** [s.toLowerCase()] on the code units 0..255: the letters A-Z and the
    Latin-1 capitals U+00C0..U+00DE (but the sign U+00D7) go to their small
    letters, 32 further on. *)
Definition lowerCodeUnit (c : ascii) : ascii :=
  let n := nat_of_ascii c in
  if (Nat.leb 65 n && Nat.leb n 90)
     || (Nat.leb 192 n && Nat.leb n 222 && negb (Nat.eqb n 215))
  then ascii_of_nat (n + 32)
  else c.

Fixpoint toLowerCase (s : string) : string :=
  match s with
  | EmptyString => EmptyString
  | String c s' => String (lowerCodeUnit c) (toLowerCase s')
  end.

(** ASCII lowercase, which the DOM applies to the name given to
    [removeAttribute] on an HTML element of an HTML document. *)
Definition asciiLowerCodeUnit (c : ascii) : ascii :=
  let n := nat_of_ascii c in
  if Nat.leb 65 n && Nat.leb n 90 then ascii_of_nat (n + 32) else c.

Fixpoint asciiLowercase (s : string) : string :=
  match s with
  | EmptyString => EmptyString
  | String c s' => String (asciiLowerCodeUnit c) (asciiLowercase s')
  end.

(** [s.startsWith(p)] *)
Definition startsWith (p s : string) : bool := prefix p s.

Record Attr := mkAttr {
  name : string;    (* [attribute.name], the qualified name *)
  value : string
}.

(** [$node.removeAttribute(qualifiedName)]: the first attribute whose name is
    the ASCII lowercase of [qualifiedName] goes; none goes when there is no
    such attribute. *)
Fixpoint removeAttribute (qualifiedName : string) (attributes : list Attr) : list Attr :=
  match attributes with
  | [] => []
  | attribute :: rest =>
    if String.eqb (name attribute) (asciiLowercase qualifiedName)
    then rest
    else attribute :: removeAttribute qualifiedName rest
  end.

(** The test of [cleanAttributes] on the lower-cased name. *)
Definition isCleanedName (attributeName : string) : bool :=
  startsWith "js" attributeName
  || startsWith "data-" attributeName
  || startsWith "aria-" attributeName
  || String.eqb attributeName "id"
  || String.eqb attributeName "name"
  || String.eqb attributeName "email".

(** [cleanAttributes($node)]: the loop runs over [Array.from($node.attributes)],
    a copy made before it starts, and removes from the element's own list. *)
Definition cleanAttributes (attributes : list Attr) : list Attr :=
  fold_left
    (fun (live : list Attr) (attribute : Attr) =>
       let attributeName := toLowerCase (name attribute) in
       if isCleanedName attributeName
       then removeAttribute (name attribute) live
       else live)
    attributes attributes.

End Dom.
(** * Vocabulary of the statements *)

(** ** The template *)

(** Number of clone/strip passes a world has seen. *)
Definition isDerivation (ev : Effect) : bool :=
  match ev with EvDeriveTemplate => true | _ => false end.

Definition derivations (w : World) : nat :=
  List.length (filter isDerivation (effects w)).

(** The use made of the template: the cached markup, and how often it has
    been derived. *)
Definition templateUse (w : World) : TemplateHTML * nat :=
  (bundleTemplateHTML (state w), derivations w).

(** ** Observations *)

(** [preserves obs c]: whatever [c] does, returning or throwing, the
    observation [obs] of the world is the same after it as before. *)
Definition preserves {X A : Type} (obs : World -> X) (c : Js A) : Prop :=
  forall w, obs (worldOf (c w)) = obs w.

(** An observation that looks neither at the rows of the table nor at the
    record of effects, derivations of the template apart. *)
Class RowBlind {X : Type} (obs : World -> X) : Prop := {
  blind_rows : forall f, preserves obs (modifyRows f);
  blind_emit : forall ev, isDerivation ev = false -> preserves obs (emit ev)
}.

(** The rows of the visible list; none when there is no such list. *)
Definition visibleRows (w : World) : list Row :=
  match emailTable w with Some rows => rows | None => [] end.

(** ** The debounced trigger *)

(** A burst after a call at time [t]: each call comes no earlier than the one
    before it and less than [wait] after it. *)
Fixpoint burstAfter {Args : Type} (wait t : nat) (events : list (nat * Args)) : Prop :=
  match events with
  | [] => True
  | (t', _) :: events' => t <= t' /\ t' < t + wait /\ burstAfter wait t' events'
  end.

(** The mutations of the message table of a burst, as the browser delivers
    them. *)
Definition tableMutations (burst : list (nat * Page.Records)) : list Page.Signal :=
  map (fun c => Page.TableMutation (fst c) (snd c)) burst.

(** The runs of the debounced [runBundlizer] of each [bundlizerObserver]. *)
Definition debouncedRuns (st : Page.St) : list (list (nat * Page.Records)) :=
  map Debounce.invocations (Page.bundlizerObservers st).

(** The mutations of the loading node delivered while the message table is
    in the document. *)
Definition loadedMutations (signals : list Page.Signal) : nat :=
  List.length
    (filter (fun signal =>
               match signal with
               | Page.LoadingMutation _ bundlizerNode => bundlizerNode
               | Page.TableMutation _ _ => false
               end) signals).

(** ** The open flags *)

(** The open flag of a label is [true]. *)
Definition isOpen (label : string) (w : World) : Prop :=
  JsObject.get label (bundlesVisibility (state w)) = Some true.

Definition atMostOneOpen (w : World) : Prop :=
  forall a b, isOpen a w -> isOpen b w -> a = b.

(** The label has an open flag, [true] or [false]. *)
Definition hasFlag (label : string) (w : World) : Prop :=
  JsObject.get label (bundlesVisibility (state w)) <> None.

(** The world a click on the synthetic row of [bundleName] leaves, whether
    the handler returns or throws on the way. *)
Definition click (w : World) (bundleName : string) : World :=
  worldOf (onBundleClick bundleName w).

(** What the first step of [onBundleClick] does to the flags: the open
    bundle, if the clicked one is closed, is closed. *)
Definition closeVisible (bundleName : string) (s : State) : JsObject.t bool :=
  match JsObject.get bundleName (bundlesVisibility s), truthyName (getVisibleBundleName s) with
  | Some false, Some visibleBundleName =>
    JsObject.set visibleBundleName false (bundlesVisibility s)
  | _, _ => bundlesVisibility s
  end.

(** What its second step does: the clicked bundle's flag is negated. *)
Definition toggle (bundleName : string) (v : JsObject.t bool) : JsObject.t bool :=
  JsObject.set bundleName (negb (truthy (JsObject.get bundleName v))) v.

(** At most one flag of a dictionary of flags is [true]. *)
Definition oneOpen (v : JsObject.t bool) : Prop :=
  forall a b, JsObject.get a v = Some true -> JsObject.get b v = Some true -> a = b.

Definition noneOpen (v : JsObject.t bool) : Prop :=
  forall a, JsObject.get a v <> Some true.

(** Two dictionaries have a property for the same names. *)
Definition sameFlagged (v v' : JsObject.t bool) : Prop :=
  forall k, JsObject.get k v' = None <-> JsObject.get k v = None.

(** [onBundleClick] in two parts: closing the bundle that is open, and the
    rest. *)
Definition closeOpenBundle (bundleName : string) (s : State) : Js unit :=
  match JsObject.get bundleName (bundlesVisibility s), truthyName (getVisibleBundleName s) with
  | Some false, Some visibleBundleName =>
    modifyState (fun s =>
      withVisibility (JsObject.set visibleBundleName false (bundlesVisibility s)) s) ;;
    turnOffBundleVisibility visibleBundleName
  | _, _ => ret tt
  end.

Definition toggleAndRender (bundleName : string) : Js unit :=
  modifyState (fun s =>
    withVisibility
      (JsObject.set bundleName
                    (negb (truthy (JsObject.get bundleName (bundlesVisibility s))))
                    (bundlesVisibility s)) s) ;;
  s <- getState ;;
  (if truthy (JsObject.get bundleName (bundlesVisibility s))
   then showBundledEmails bundleName
   else turnOffBundleVisibility bundleName) ;;
  updateBundleDom bundleName.



(** ** Rendering *)

(** The synthetic row rendered for a label, if there is one. *)
Definition renderedRow (bundleName : string) (w : World) : option BundleRow :=
  querySelectorClass (getBundleClass bundleName) (visibleRows w).

(** [senders] are the sender texts of the rows [members] refer to, one for
    one and in that order. *)
Definition sendersOf (rows : list Row) (members : list nat) (senders : list string) : Prop :=
  Forall2 (fun i text => exists e, findEmail i rows = Some e /\ sender e = text)
          members senders.

(** Two texts the comparison of [updateBundleDom] takes for the same. *)
Definition sameText (a b : string) : Prop := JsString.trim a = JsString.trim b.

(** The separator as the browser shows it. *)
Definition shownSeparator : string :=
  JsString.replaceAll "&nbsp;" UNICODE_NBSP EMAIL_SENDERS_SEPARATOR.

(** A text without the character that starts an HTML entity. *)
Definition plain (s : string) : Prop :=
  forall c, In c (list_ascii_of_string s) -> c <> "&"%char.

(** The three guarded writes of [updateBundleDom] on the row they go to:
    the row after the write, and the write if there was one. *)
Definition writeName (bundleName rendered : string) (row : BundleRow)
  : BundleRow * list Effect :=
  if String.eqb (JsString.trim (nameHTML row)) (JsString.trim rendered)
  then (row, [])
  else (setNameHTML rendered row, [EvSetName bundleName rendered]).

Definition writeSenders (bundleName : string) (senders : list string) (row : BundleRow)
  : BundleRow * list Effect :=
  if String.eqb (JsString.trim (innerText (subjectHTML row)))
                (JsString.trim
                   (JsString.join
                      (JsString.replaceAll "&nbsp;" UNICODE_NBSP EMAIL_SENDERS_SEPARATOR)
                      senders))
  then (row, [])
  else (setSubjectHTML (JsString.join EMAIL_SENDERS_SEPARATOR senders) row,
        [EvSetSenders bundleName (JsString.join EMAIL_SENDERS_SEPARATOR senders)]).

Definition writeDate (bundleName date : string) (row : BundleRow)
  : BundleRow * list Effect :=
  if String.eqb (JsString.trim (dateText row)) (JsString.trim date)
  then (row, [])
  else (setDateText date row, [EvSetDate bundleName date]).

(** The writes of [updateBundleDom] among the effects. *)
Definition isRenderWrite (ev : Effect) : bool :=
  match ev with
  | EvSetName _ _ | EvSetSenders _ _ | EvSetDate _ _ => true
  | _ => false
  end.

Definition renderWrites (w : World) : list Effect := filter isRenderWrite (effects w).


(** ** Grouping *)

(** The label elements of a snapshot in document order, each with the row it
    is on: the pairs the two nested loops of [setBundleStateToEmails] go
    through. *)
Definition incidences (rows : list Row) : list (nat * bool * string) :=
  flat_map (fun row =>
              match row with
              | EmailRow e => map (fun c => (eid e, unread e, chipText c)) (labels e)
              | SyntheticRow _ => []
              end) rows.

Definition incidenceRow (p : nat * bool * string) : nat := fst (fst p).
Definition incidenceLabel (p : nat * bool * string) : string := snd p.

(** The rows of a snapshot that carry [label], in snapshot order, one entry
    for each label element with that text. *)
Definition carrying (label : string) (rows : list Row) : list nat :=
  map incidenceRow (filter (fun p => String.eqb (incidenceLabel p) label) (incidences rows)).

(** The distinct elements of a list in the order of their first
    occurrences; [seen] are taken as having occurred already. *)
Fixpoint firstSeenFrom (seen : list string) (l : list string) : list string :=
  match l with
  | [] => []
  | x :: l' =>
    if includes x seen then firstSeenFrom seen l'
    else x :: firstSeenFrom (seen ++ [x]) l'
  end.

Definition firstSeen (l : list string) : list string := firstSeenFrom [] l.

(** The member list of a bundle; empty when there is no such bundle. *)
Definition membersOf (label : string) (w : World) : list nat :=
  match JsObject.get label (bundles (state w)) with
  | Some members => members
  | None => []
  end.

(** The grouping loops as a function of the rows read. *)
Definition groupRow (g : Grouping) (row : Row) : Grouping :=
  match row with
  | EmailRow e => fold_left (groupLabel (eid e) (unread e)) (map chipText (labels e)) g
  | SyntheticRow _ => g
  end.

(** No label chip on the rows has a text that names a member of
    Object.prototype: the labels the grouping can take as keys. *)
Definition ownLabels (rows : list Row) : Prop :=
  forallb (fun row => negb (existsb JsObject.inherited (rowLabels row))) rows = true.

(** The rows whose [IS_BUNDLED_CLASS] the grouping sets: those with a label. *)
Definition labelled (row : Row) : bool :=
  match row with
  | EmailRow e => match labels e with [] => false | _ => true end
  | SyntheticRow _ => false
  end.

Definition markBundled (refs : list Ref) (row : Row) : Row :=
  match row with
  | EmailRow e =>
    if existsb (Ref_eqb (EmailRef (eid e))) refs then EmailRow (addIsBundled e) else row
  | SyntheticRow _ => row
  end.

(** Two rows are the same node with the same labels and read state. *)
Definition sameContent (r r' : Row) : Prop :=
  match r, r' with
  | EmailRow e, EmailRow e' =>
    eid e = eid e' /\ labels e = labels e' /\ unread e = unread e'
  | SyntheticRow b, SyntheticRow b' => bid b = bid b'
  | _, _ => False
  end.

(** One step of the inner loop, on an incidence. *)
Definition groupIncidence (g : Grouping) (p : nat * bool * string) : Grouping :=
  groupLabel (incidenceRow p) (snd (fst p)) g (incidenceLabel p).

(** The keys of the grouping's bundles are its label order. *)
Definition orderedKeys (g : Grouping) : Prop :=
  JsObject.keys (gBundles g) = gBundlesOrder g.

(** The bundles whose synthetic row has been taken out of the table, in the
    order that happened in. *)
Definition removedBundles (w : World) : list string :=
  flat_map (fun ev => match ev with EvRemoveBundle name => [name] | _ => [] end) (effects w).

(** ** Visibility and orphans *)

(** [f] applied to the message rows whose identifier is among [ids]. *)
Definition applyTo (f : Email -> Email) (ids : list nat) (row : Row) : Row :=
  match row with
  | EmailRow e => if existsb (Nat.eqb (eid e)) ids then EmailRow (f e) else row
  | SyntheticRow _ => row
  end.

(** A row [showUnbundledEmails] selects: hidden by the script and without
    the bundled marker. *)
Definition hiddenUnbundled (row : Row) : bool :=
  match row with
  | EmailRow e => hiddenClass e && negb (isBundledClass e)
  | SyntheticRow _ => false
  end.

(** The table after [showUnbundledEmails]. *)
Definition showUnbundled (rows : list Row) : list Row :=
  map (fun row =>
         match row with
         | EmailRow e =>
           if hiddenUnbundled row then EmailRow (setHidden false EMAIL_DEFAULT_DISPLAY e)
           else row
         | SyntheticRow _ => row
         end) rows.

(** The orphan pass of a cycle, [bundleNames] being the labels the recompute
    has found. *)
Definition orphanPass (bundleNames : list string) : Js unit :=
  rows <- getRows ;;
  forEach (syntheticRows rows) (removeIfOrphaned bundleNames).

(** A synthetic row is an orphan when its label is not among the names. *)
Definition isOrphan (bundleNames : list string) (b : BundleRow) : bool :=
  negb (includes (bundlename b) bundleNames).

(** Some orphan among [bs] is bound to a label whose flag in [v] is [true]. *)
Definition openOrphan (bundleNames : list string) (v : JsObject.t bool) (bs : list BundleRow)
  : bool :=
  existsb (fun b => isOrphan bundleNames b && truthy (JsObject.get (bundlename b) v)) bs.

(** Some orphan among [bs] is bound to [label]. *)
Definition orphanLabel (bundleNames : list string) (label : string) (bs : list BundleRow)
  : bool :=
  existsb (fun b => isOrphan bundleNames b && String.eqb (bundlename b) label) bs.

(** The rows the orphan pass keeps: the message rows, and the synthetic rows
    bound to one of the names. *)
Definition keptRow (bundleNames : list string) (row : Row) : bool :=
  match row with
  | EmailRow _ => true
  | SyntheticRow b => includes (bundlename b) bundleNames
  end.

(** What [removeIfOrphaned] does to the flags and the table. *)
Definition orphanStep (bundleNames : list string) (s : JsObject.t bool * list Row)
           (b : BundleRow) : JsObject.t bool * list Row :=
  if isOrphan bundleNames b
  then (JsObject.delete (bundlename b) (fst s),
        removeRow (BundleRef (bid b))
                  (if truthy (JsObject.get (bundlename b) (fst s))
                   then showUnbundled (snd s) else snd s))
  else s.

(** What [removeIfOrphaned] adds to the record for the row [b], the flags
    being [v]: for an orphan the removal, and before it the call that shows
    the unbundled rows if the orphan is open. *)
Definition orphanTrace (bundleNames : list string) (v : JsObject.t bool) (b : BundleRow)
  : list Effect :=
  if isOrphan bundleNames b
  then (if truthy (JsObject.get (bundlename b) v)
        then [EvShowUnbundled (bundlename b)] else [])
       ++ [EvRemoveBundle (bundlename b)]
  else [].

(** What the orphan pass over the rows [bs] adds to the record. *)
Fixpoint orphanEffects (bundleNames : list string) (bs : list BundleRow)
         (v : JsObject.t bool) : list Effect :=
  match bs with
  | [] => []
  | b :: bs' =>
    orphanTrace bundleNames v b
    ++ orphanEffects bundleNames bs'
         (if isOrphan bundleNames b then JsObject.delete (bundlename b) v else v)
  end.

(** The rows the removals of the orphans among [bs] leave in place. *)
Definition notRemoved (bundleNames : list string) (bs : list BundleRow) (row : Row) : bool :=
  negb (existsb (fun b => isOrphan bundleNames b && Ref_eqb (refOf row) (BundleRef (bid b)))
                bs).

(** What a cycle does once the recompute has given it the labels and the
    orphans are gone: render, hide, position, and keep the open bundle's
    members shown. *)
Definition afterOrphans (bundleNames : list string) : Js unit :=
  forEach bundleNames (fun bundleName =>
    s <- getState ;;
    bundle <- defined (JsObject.get bundleName (bundles s)) ;;
    let bundleClass := getBundleClass bundleName in
    let latestEmail := nth_error bundle 0 in
    modifyState (fun s =>
      withVisibility
        (JsObject.set bundleName
                      (truthy (JsObject.get bundleName (bundlesVisibility s)))
                      (bundlesVisibility s)) s) ;;
    rows <- getRows ;;
    (match querySelectorClass bundleClass rows with
     | None => insertBundleDom latestEmail bundleName false
     | Some _ => updateBundleDom bundleName
     end) ;;
    s <- getState ;;
    if truthy (JsObject.get bundleName (bundlesVisibility s))
    then ret tt
    else hideEmails bundle) ;;
  resetBundleDomsPosition [] ;;
  s <- getState ;;
  match truthyName (getVisibleBundleName s) with
  | Some visibleBundleName => showBundledEmails visibleBundleName
  | None => ret tt
  end.

(** ** The life of a page *)

(** What happens on a page: the change detector runs a cycle, or the user
    clicks the synthetic row of a bundle. *)
Inductive PageEvent :=
| Cycle
| Click (bundleName : string).

(** The world an event leaves, whether its handler returns or throws. *)
Definition handle (w : World) (ev : PageEvent) : World :=
  match ev with
  | Cycle => worldOf (runBundlizer w)
  | Click bundleName => worldOf (onBundleClick bundleName w)
  end.

(** * Sample pages *)

(** A sample inbox.

    Four messages, most recent first: Ann's carries Work, Bob's (unread)
    Work and Personal, Cid's no label, Dan's Personal. *)

Module Sample.

Definition chip (text : string) : LabelChip := mkChip text "rgb(1, 2, 3)" "rgb(4, 5, 6)".

Definition ann : Email := mkEmail 1 [chip "Work"] false "Ann" "Minutes" "Nov 2" false false "".
Definition bob : Email :=
  mkEmail 2 [chip "Work"; chip "Personal"] true "Bob" "Lunch" "Nov 1" false false "".
Definition cid : Email := mkEmail 3 [] false "Cid" "Hello" "Oct 30" false false "".
Definition dan : Email := mkEmail 4 [chip "Personal"] false "Dan" "Photos" "Oct 29" false false "".

Definition inbox : list Row := [EmailRow ann; EmailRow bob; EmailRow cid; EmailRow dan].

(** The page when the script starts. *)
Definition start : World := mkWorld (mkState EmptyHTML [] [] [] []) (Some inbox) [].

(** The page after the first cycle. *)
Definition bundled : World := Eval vm_compute in worldOf (runBundlizer start).

(** That page after a click on the row of Work. *)
Definition workOpen : World := Eval vm_compute in worldOf (onBundleClick "Work" bundled).



(** An inbox with one message, whose sender's name has the characters of
    an HTML entity in it. *)
Definition entitySender : Email :=
  mkEmail 1 [chip "News"] false "Q&nbsp;A" "Hi" "Nov 2" false false "".

Definition entityStart : World :=
  mkWorld (mkState EmptyHTML [] [] [] []) (Some [EmailRow entitySender]) [].

Definition entityBundled : World := Eval vm_compute in worldOf (runBundlizer entityStart).

(** What the host does to the table between two cycles: a new message comes
    in at the top; a message loses its labels. *)
Definition arrives (e : Email) (w : World) : World :=
  mkWorld (state w) (option_map (cons (EmailRow e)) (emailTable w)) (effects w).

Definition losesLabels (i : nat) (w : World) : World :=
  mkWorld (state w)
          (option_map
             (map (onEmail i (fun e =>
                mkEmail (eid e) [] (unread e) (sender e) (subject e) (sentDate e)
                        (hiddenClass e) (isBundledClass e) (display e))))
             (emailTable w))
          (effects w).

(** With Work open, Ann's and Bob's messages lose their labels: no row
    carries Work any more. *)
Definition workGone : World := Eval vm_compute in losesLabels 2 (losesLabels 1 workOpen).

(** An inbox with a message under a label named [constructor]. *)
Definition eve : Email :=
  mkEmail 5 [chip "constructor"] false "Eve" "Build" "Oct 28" false false "".

Definition inheritedInbox : list Row := [EmailRow ann; EmailRow eve].

Definition inheritedStart : World :=
  mkWorld (mkState EmptyHTML [] [] [] []) (Some inheritedInbox) [].

(** Ann's message has lost its label Work after the first cycle. *)
Definition labelLost : World := Eval vm_compute in losesLabels 1 bundled.

(** A second inbox: a bill, then a club message.  After the first cycle the
    user opens Bills; then a newer club message comes in, and the next cycle
    puts Clubs before Bills in the label ordering, with Bills still open. *)
Definition bill : Email := mkEmail 1 [chip "Bills"] false "Bea" "Invoice" "Nov 1" false false "".
Definition club : Email := mkEmail 2 [chip "Clubs"] false "Cal" "Meeting" "Oct 30" false false "".
Definition newClub : Email := mkEmail 3 [chip "Clubs"] false "Cy" "Agenda" "Nov 2" false false "".

Definition billsStart : World :=
  mkWorld (mkState EmptyHTML [] [] [] []) (Some [EmailRow bill; EmailRow club]) [].

Definition billsOpen : World :=
  Eval vm_compute in worldOf (onBundleClick "Bills" (worldOf (runBundlizer billsStart))).

Definition reordered : World :=
  Eval vm_compute in worldOf (runBundlizer (arrives newClub billsOpen)).

(** A page that shows no message list. *)
Definition noList : World := mkWorld (mkState EmptyHTML [] [] [] []) None [].

End Sample.
(** * Vocabulary of the further properties *)

(** ** The debounce wrapper *)

(** Calls spaced out after a call at time [t]: each comes more than [wait]
    after the one before it. *)
Fixpoint spacedAfter {Args : Type} (wait t : nat) (events : list (nat * Args)) : Prop :=
  match events with
  | [] => True
  | (t', _) :: events' => t + wait < t' /\ spacedAfter wait t' events'
  end.

Definition spaced {Args : Type} (wait : nat) (events : list (nat * Args)) : Prop :=
  match events with
  | [] => True
  | (t, _) :: events' => spacedAfter wait t events'
  end.

(** The run a call leads to on the trailing edge: [wait] later, with the
    call's arguments. *)
Definition delivered {Args : Type} (wait : nat) (c : nat * Args) : nat * Args :=
  (fst c + wait, snd c).

(** The browser holds no timer of the wrapper and the private variable is
    falsy, or it holds one timer and the private variable names it. *)
Definition onePending {Args : Type} (st : @Debounce.St Args) : Prop :=
  (Debounce.pending st = [] /\ Debounce.isTruthy (Debounce.timeout st) = false) \/
  (exists id due a,
     Debounce.pending st = [Debounce.mkTimer id due a] /\
     Debounce.timeout st = Debounce.TimerId id).

(** The wrapper just after a call at time [t], [runs] being the record of
    the runs of [func] so far. *)
Definition armedWith {Args : Type} (wait id t : nat) (a : Args) (runs : list (nat * Args))
  : Debounce.St :=
  Debounce.mkSt (Debounce.TimerId id) [Debounce.mkTimer id (t + wait) a] (S id) runs.

(** ** Attributes *)

(** The attribute has a name as the HTML parser leaves it: no capital A-Z. *)
Definition parsedName (a : Dom.Attr) : Prop :=
  Dom.asciiLowercase (Dom.name a) = Dom.name a.

(** [cleanAttributes] keeps the attribute. *)
Definition keptAttribute (a : Dom.Attr) : bool :=
  negb (Dom.isCleanedName (Dom.toLowerCase (Dom.name a))).

(** ** Message rows *)

Definition messages (rows : list Row) : list Email :=
  flat_map (fun r => match r with EmailRow e => [e] | SyntheticRow _ => [] end) rows.

(** The message rows of the page in document order, each as it is; [None]
    when the page shows no list. *)
Definition messageRows (w : World) : option (list Email) :=
  option_map messages (emailTable w).

(** What the host owns of a message row: the node, its labels, its read
    state and its texts.  The rest (the two classes and [style.display]) is
    the script's. *)
Definition hostFields (e : Email)
  : nat * list LabelChip * bool * string * string * string :=
  (eid e, labels e, unread e, sender e, subject e, sentDate e).

Definition hostContent (w : World)
  : option (list (nat * list LabelChip * bool * string * string * string)) :=
  option_map (fun rows => map hostFields (messages rows)) (emailTable w).

(** What a synthetic row is apart from its three slots. *)
Definition bundleIdentity (b : BundleRow) : nat * string * string * string :=
  (bid b, bundlename b, backgroundColor b, textColor b).

(** ** The writes of the script

    Every change the script makes to the world is one of these. *)

Inductive Kind :=
| Emits             (* an entry in the record of effects *)
| WritesSlot        (* a slot of a synthetic row *)
| RemovesBundle     (* a synthetic row leaves the table *)
| InsertsBundle     (* a new synthetic row, for a label that has none *)
| WritesMessage     (* the classes or the display of a message row *)
| ClosesFlag        (* the open flags, none becoming [true] *)
| TogglesFlag       (* the open flags *)
| Regroups          (* [bundles], [bundlesUnread], [bundlesOrder] *)
| CachesTemplate.   (* [bundleTemplateHTML] *)

Inductive Write : Kind -> World -> World -> Prop :=
| W_emit ev w :
    Write Emits w (mkWorld (state w) (emailTable w) (effects w ++ [ev]))
| W_slot i f w :
    (forall b, bundleIdentity (f b) = bundleIdentity b) ->
    Write WritesSlot w
          (mkWorld (state w) (option_map (map (onBundle i f)) (emailTable w)) (effects w))
| W_remove i w :
    Write RemovesBundle w
          (mkWorld (state w) (option_map (removeRow (BundleRef i)) (emailTable w)) (effects w))
| W_insert isPlacedAfter i new rows rows' w :
    emailTable w = Some rows ->
    insertAdjacent isPlacedAfter i (SyntheticRow new) rows = Some rows' ->
    bid new = freshBid rows ->
    querySelectorClass (getBundleClass (bundlename new)) rows = None ->
    Write InsertsBundle w (mkWorld (state w) (Some rows') (effects w))
| W_message i f w :
    (forall e, hostFields (f e) = hostFields e) ->
    Write WritesMessage w
          (mkWorld (state w) (option_map (map (onEmail i f)) (emailTable w)) (effects w))
| W_close v w :
    (forall k, JsObject.get k v = Some true ->
               JsObject.get k (bundlesVisibility (state w)) = Some true) ->
    Write ClosesFlag w (mkWorld (withVisibility v (state w)) (emailTable w) (effects w))
| W_toggle v w :
    Write TogglesFlag w (mkWorld (withVisibility v (state w)) (emailTable w) (effects w))
| W_regroup b u o w :
    Write Regroups w (mkWorld (withBundles b u o (state w)) (emailTable w) (effects w))
| W_template t w :
    Write CachesTemplate w (mkWorld (withTemplate t (state w)) (emailTable w) (effects w)).

(** A sequence of writes of the allowed kinds leads from one world to the
    other. *)
Inductive writes (allowed : Kind -> bool) : World -> World -> Prop :=
| writes_none w : writes allowed w w
| writes_more k w w1 w2 :
    allowed k = true -> Write k w w1 -> writes allowed w1 w2 -> writes allowed w w2.

(** Whatever [c] does to the world, returning or throwing, it does by writes
    of the allowed kinds. *)
Definition does {A : Type} (allowed : Kind -> bool) (c : Js A) : Prop :=
  forall w, writes allowed w (worldOf (c w)).

(** The writes of the functions that render and place synthetic rows; of
    those that also hide and show message rows; of the click handler; of a
    cycle. *)
Definition bundleKinds (k : Kind) : bool :=
  match k with
  | Emits | WritesSlot | RemovesBundle | InsertsBundle => true
  | _ => false
  end.

Definition rowKinds (k : Kind) : bool :=
  match k with
  | Emits | WritesSlot | RemovesBundle | InsertsBundle | WritesMessage => true
  | _ => false
  end.

Definition clickKinds (k : Kind) : bool :=
  match k with
  | Regroups | CachesTemplate => false
  | _ => true
  end.

Definition cycleKinds (k : Kind) : bool :=
  match k with
  | TogglesFlag => false
  | _ => true
  end.

(** Every kind of the first set is one of the second. *)
Definition subKinds (a a' : Kind -> bool) : Prop :=
  forall k, a k = true -> a' k = true.

(** The labels the synthetic rows of the page are bound to, in document
    order. *)
Definition boundLabels (w : World) : list string :=
  map bundlename (syntheticRows (visibleRows w)).

(** What a click leaves of [state] alone: the grouping and the template. *)
Definition groupingOf (w : World)
  : JsObject.t (list nat) * JsObject.t bool * list string * TemplateHTML :=
  (bundles (state w), bundlesUnread (state w), bundlesOrder (state w),
   bundleTemplateHTML (state w)).

(** ** Hiding and showing message rows *)

(** What [hideEmails] does to a row it is given, and what [showBundledEmails]
    does to a member of the bundle. *)
Definition hideOne (e : Email) : Email :=
  if hiddenClass e then e else setHidden true "none" e.

Definition unhideOne (e : Email) : Email :=
  if hiddenClass e then setHidden false EMAIL_DEFAULT_DISPLAY e else e.

(** The message row is one of those [ids] refer to. *)
Definition listed (ids : list nat) (e : Email) : bool := existsb (Nat.eqb (eid e)) ids.

(** A message row after [showBundledEmails] for a bundle of [members]. *)
Definition showOnly (members : list nat) (e : Email) : Email :=
  if listed members e then unhideOne e else hideOne e.

(** The local array [$emailsToHide] after the loop of [showBundledEmails]. *)
Definition spliceMembers (bundle : list nat) (emailsToHide : list nat) : list nat :=
  fold_left (fun l i => spliceOne (indexOf Nat.eqb i l) l) bundle emailsToHide.

(** The rows of the table are distinct nodes. *)
Definition distinctRows (w : World) : Prop := NoDup (map refOf (visibleRows w)).




(** ** The recompute *)

(** An unread message row that carries [label]. *)
Definition unreadCarrier (label : string) (row : Row) : bool :=
  match row with
  | EmailRow e => unread e && includes label (map chipText (labels e))
  | SyntheticRow _ => false
  end.

(** ** A cycle, step by step *)

(** The open flag of a label, as [state.bundlesVisibility] has it. *)
Definition flagOf (label : string) (w : World) : option bool :=
  JsObject.get label (bundlesVisibility (state w)).

(** The body of the loop of [runBundlizer] over the bundle names. *)
Definition renderBundle (bundleName : string) : Js unit :=
  s <- getState ;;
  bundle <- defined (JsObject.get bundleName (bundles s)) ;;
  let bundleClass := getBundleClass bundleName in
  let latestEmail := nth_error bundle 0 in
  modifyState (fun s =>
    withVisibility
      (JsObject.set bundleName
                    (truthy (JsObject.get bundleName (bundlesVisibility s)))
                    (bundlesVisibility s)) s) ;;
  rows <- getRows ;;
  (match querySelectorClass bundleClass rows with
   | None => insertBundleDom latestEmail bundleName false
   | Some _ => updateBundleDom bundleName
   end) ;;
  s <- getState ;;
  if truthy (JsObject.get bundleName (bundlesVisibility s))
  then ret tt
  else hideEmails bundle.

(** The end of a cycle: the synthetic rows are put in place, and the open
    bundle, if there is one, is shown. *)
Definition settleCycle : Js unit :=
  resetBundleDomsPosition [] ;;
  s <- getState ;;
  match truthyName (getVisibleBundleName s) with
  | Some visibleBundleName => showBundledEmails visibleBundleName
  | None => ret tt
  end.

(** The message rows of the page; none when it shows no list. *)
Definition messagesOf (w : World) : list Email := messages (visibleRows w).

(** From one world to the other every message row is still there, and one
    that was hidden is still hidden. *)
Definition staysHidden (w w' : World) : Prop :=
  forall e', In e' (messagesOf w') ->
    exists e, In e (messagesOf w) /\ hostFields e' = hostFields e /\
              (hiddenClass e = true -> hiddenClass e' = true).

(** Two worlds have synthetic rows for the same labels. *)
Definition sameLabels (w w' : World) : Prop :=
  forall label, In label (boundLabels w') <-> In label (boundLabels w).

(** The second world has the synthetic rows of the first and one for
    [bundleName]. *)
Definition oneMoreLabel (bundleName : string) (w w' : World) : Prop :=
  forall label, In label (boundLabels w') <-> label = bundleName \/ In label (boundLabels w).

(** The writes of [updateBundleDom]. *)
Definition slotKinds (k : Kind) : bool :=
  match k with
  | Emits | WritesSlot => true
  | _ => false
  end.

(** The nodes of the table, in document order. *)
Definition nodesOf (w : World) : list Ref := map refOf (visibleRows w).

(** ** Label texts *)

(** A character that a class selector, a quoted attribute value, the markup
    of a row and a replacement string all take as it is: an ASCII letter or
    digit, [-] or [_]. *)
Definition identChar (c : ascii) : bool :=
  let n := nat_of_ascii c in
  (Nat.leb 48 n && Nat.leb n 57) || (Nat.leb 65 n && Nat.leb n 90)
  || (Nat.leb 97 n && Nat.leb n 122) || Nat.eqb n 45 || Nat.eqb n 95.

Definition isDigit (c : ascii) : bool :=
  let n := nat_of_ascii c in Nat.leb 48 n && Nat.leb n 57.

Fixpoint allChars (p : ascii -> bool) (s : string) : bool :=
  match s with
  | EmptyString => true
  | String c s' => p c && allChars p s'
  end.

(** A label text the script's use of labels is made for: not empty; made of
    such characters, so that [._js-bundle-<label>] and
    [[data-bundlename="<label>"]] select the rows bound to the label and the
    placeholders of the template take it as it is; no name of a member of
    Object.prototype; and not a string of digits, which [Object.keys] would
    list before the other labels. *)
Definition plainLabel (label : string) : bool :=
  negb (String.eqb label EmptyString)
  && allChars identChar label
  && negb (JsObject.inherited label)
  && negb (allChars isDigit label).

(** The label texts on a page: on the chips of the message rows, on the
    synthetic rows, and in [state]. *)
Definition rowTexts (row : Row) : list string :=
  match row with
  | EmailRow e => map chipText (labels e)
  | SyntheticRow b => [bundlename b]
  end.

Definition pageLabels (w : World) : list string :=
  flat_map rowTexts (visibleRows w)
  ++ JsObject.keys (bundles (state w))
  ++ JsObject.keys (bundlesVisibility (state w))
  ++ JsObject.keys (bundlesUnread (state w))
  ++ bundlesOrder (state w).

Definition plainPage (w : World) : Prop := forallb plainLabel (pageLabels w) = true.

(** A click is on the row of such a label. *)
Definition plainEvent (ev : PageEvent) : Prop :=
  match ev with
  | Cycle => True
  | Click bundleName => plainLabel bundleName = true
  end.

(** ** What a cycle needs to go through *)

(** The message row with the id [i] is in the table and has a chip of the
    label [name]. *)
Definition carries (name : string) (i : nat) (w : World) : Prop :=
  exists e, findEmail i (visibleRows w) = Some e /\
            getEmailLabelWrapperOfBundle e name <> None.

(** [state.bundles] fits the table: the template has been derived, no bundle
    is empty, and every member of a bundle is a message row of the table
    that carries the bundle's label. *)
Definition grouped (w : World) : Prop :=
  bundleTemplateHTML (state w) <> EmptyHTML /\
  forall name members, JsObject.get name (bundles (state w)) = Some members ->
    members <> [] /\ forall i, In i members -> carries name i w.

(** The bundles are on the page: the rows of the table are distinct, the
    names of [state.bundlesOrder] are bundles, every bundle has a synthetic
    row, and every label that is open is a bundle. *)
Definition placed (w : World) : Prop :=
  distinctRows w /\
  (forall name, In name (bundlesOrder (state w)) ->
                In name (JsObject.keys (bundles (state w)))) /\
  (forall name, In name (JsObject.keys (bundles (state w))) -> In name (boundLabels w)) /\
  (forall name, isOpen name w -> In name (JsObject.keys (bundles (state w)))).

(** [w'] is [w] with rows hidden, shown, rendered or moved: [state] and what
    the host wrote in the message rows are the same, and the same labels have
    a synthetic row. *)
Definition rearranged (w w' : World) : Prop :=
  state w' = state w /\ hostContent w' = hostContent w /\
  sameLabels w w' /\ (distinctRows w -> distinctRows w').


(** The page is ready for an event: it shows a list, [state.bundles] fits
    it, the bundles are on the page, every synthetic row is bound to a
    bundle, and no label of the list names a member of Object.prototype. *)
Definition ready (w : World) : Prop :=
  emailTable w <> None /\ grouped w /\ placed w /\
  (forall name, In name (boundLabels w) -> In name (JsObject.keys (bundles (state w)))) /\
  ownLabels (visibleRows w).

(** The handlers of a run of events all return, the host leaving the page
    alone in between; a click needs a synthetic row to click on. *)
Fixpoint goesThrough (evs : list PageEvent) (w : World) : Prop :=
  match evs with
  | [] => True
  | Cycle :: rest => exists w', runBundlizer w = Returns tt w' /\ goesThrough rest w'
  | Click bundleName :: rest =>
    In bundleName (boundLabels w) ->
    exists w', onBundleClick bundleName w = Returns tt w' /\ goesThrough rest w'
  end.
(** * Properties *)

(** ** Running a computation step by step *)

Lemma bind_returns {A B} (c : Js A) (k : A -> Js B) w a w' :
  c w = Returns a w' -> bind c k w = k a w'.
Proof. intros H. unfold bind. rewrite H. reflexivity. Qed.

Lemma bind_throws {A B} (c : Js A) (k : A -> Js B) w w' :
  c w = Throws w' -> bind c k w = Throws w'.
Proof. intros H. unfold bind. rewrite H. reflexivity. Qed.

(** Run the first computation of a [bind] when it returns by computation, or
    by the given equation. *)
Ltac run :=
  match goal with
  | |- context [bind ?c ?k ?w] => rewrite (bind_returns c k w _ _ eq_refl)
  end.

Ltac run_by H := rewrite (bind_returns _ _ _ _ _ H).

(** ** What a computation leaves alone *)

Section Preserves.
Context {X : Type} (obs : World -> X).

Lemma preserves_ret {A} (a : A) : preserves obs (ret a).
Proof. intro w; reflexivity. Qed.

Lemma preserves_throw {A} : preserves obs (@throw A).
Proof. intro w; reflexivity. Qed.

Lemma preserves_defined {A} (o : option A) : preserves obs (defined o).
Proof. destruct o; intro w; reflexivity. Qed.

Lemma preserves_getState : preserves obs getState.
Proof. intro w; reflexivity. Qed.

Lemma preserves_getRows : preserves obs getRows.
Proof. intro w; reflexivity. Qed.

Lemma preserves_bind {A B} (c : Js A) (k : A -> Js B) :
  preserves obs c -> (forall a, preserves obs (k a)) -> preserves obs (bind c k).
Proof.
  intros Hc Hk w. unfold bind. specialize (Hc w).
  destruct (c w) as [a w'|w']; cbn in Hc.
  - rewrite Hk. exact Hc.
  - exact Hc.
Qed.

Lemma preserves_forEach {A} (l : list A) (f : A -> Js unit) :
  (forall x, preserves obs (f x)) -> preserves obs (forEach l f).
Proof.
  intros Hf. induction l as [|x l IH]; cbn.
  - apply preserves_ret.
  - apply preserves_bind; [apply Hf | intros _; exact IH].
Qed.

End Preserves.

Create HintDb frame.
#[export] Hint Resolve preserves_ret preserves_throw preserves_defined preserves_getState
  preserves_getRows : frame.

(** Walk through a computation built from [bind], [forEach], conditionals and
    matches, closing the leaves with the [frame] database. *)
Ltac frame_step :=
  first
    [ solve [auto with frame]
    | apply preserves_bind; [|intros ?]
    | apply preserves_forEach; intros ?
    | apply blind_rows
    | apply blind_emit; reflexivity
    | progress cbv zeta
    | match goal with
      | |- preserves _ (if ?b then _ else _) => destruct b
      | |- preserves _ (match ?x with _ => _ end) => destruct x
      end ].

Ltac frame := cbv zeta; repeat frame_step.

(** Everything the script does to rows (hiding, revealing, rendering,
    inserting, moving) goes through the table and the record of effects. *)
Section RowFunctions.
Context {X : Type} (obs : World -> X) `{RowBlind X obs}.

Lemma preserves_updateEmail i f : preserves obs (updateEmail i f).
Proof. apply blind_rows. Qed.

Lemma preserves_updateBundle i f : preserves obs (updateBundle i f).
Proof. apply blind_rows. Qed.

Lemma preserves_email i : preserves obs (email i).
Proof. unfold email. frame. Qed.

#[local] Hint Resolve preserves_updateEmail preserves_updateBundle preserves_email : frame.

Lemma preserves_hideEmails l : preserves obs (hideEmails l).
Proof. unfold hideEmails. frame. Qed.

Lemma preserves_showUnbundledEmails : preserves obs showUnbundledEmails.
Proof. unfold showUnbundledEmails. frame. Qed.

Lemma preserves_recentSendersLoop n : forall l, preserves obs (recentSendersLoop n l).
Proof. induction n as [|n IH]; intros l; cbn; frame. Qed.

#[local] Hint Resolve preserves_hideEmails preserves_showUnbundledEmails
  preserves_recentSendersLoop : frame.

Lemma preserves_getRecentSenders name : preserves obs (getRecentSenders name).
Proof. unfold getRecentSenders. frame. Qed.

#[local] Hint Resolve preserves_getRecentSenders : frame.

Lemma preserves_updateBundleDom name : preserves obs (updateBundleDom name).
Proof. unfold updateBundleDom. frame. Qed.

#[local] Hint Resolve preserves_updateBundleDom : frame.

Lemma preserves_insertBundleDom e name after :
  preserves obs (insertBundleDom e name after).
Proof. unfold insertBundleDom. frame. Qed.

#[local] Hint Resolve preserves_insertBundleDom : frame.

Lemma preserves_moveBundleDoms e names after :
  preserves obs (moveBundleDoms e names after).
Proof. unfold moveBundleDoms. frame. Qed.

#[local] Hint Resolve preserves_moveBundleDoms : frame.

Lemma preserves_resetBundleDomsPosition args :
  preserves obs (resetBundleDomsPosition args).
Proof. unfold resetBundleDomsPosition. frame. Qed.

Lemma preserves_unhideBundle bundle : forall toHide,
  preserves obs (unhideBundle bundle toHide).
Proof. induction bundle as [|i rest IH]; intros toHide; cbn; frame. Qed.

#[local] Hint Resolve preserves_resetBundleDomsPosition preserves_unhideBundle : frame.

Lemma preserves_showBundledEmails name : preserves obs (showBundledEmails name).
Proof. unfold showBundledEmails. frame. Qed.

Lemma preserves_turnOffBundleVisibility name :
  preserves obs (turnOffBundleVisibility name).
Proof. unfold turnOffBundleVisibility. frame. Qed.

End RowFunctions.

#[export] Hint Resolve preserves_updateEmail preserves_updateBundle preserves_email
  preserves_hideEmails preserves_showUnbundledEmails preserves_getRecentSenders
  preserves_updateBundleDom preserves_insertBundleDom preserves_moveBundleDoms
  preserves_resetBundleDomsPosition preserves_showBundledEmails
  preserves_turnOffBundleVisibility preserves_recentSendersLoop preserves_unhideBundle
  : frame.

(** [state] is such an observation: it is written by the grouping, the
    cycle and the click handler only. *)
#[export] Instance state_RowBlind : RowBlind state.
Proof. split; intros; intro w; reflexivity. Qed.

(** So is the use made of the template: the cached markup, and how often it
    has been derived. *)
#[export] Instance templateUse_RowBlind : RowBlind templateUse.
Proof.
  split.
  - intros f w. reflexivity.
  - intros ev Hev w. unfold templateUse, derivations. cbn.
    rewrite filter_app, length_app. cbn. rewrite Hev. cbn. now rewrite Nat.add_0_r.
Qed.

#[export] Hint Resolve state_RowBlind templateUse_RowBlind : frame.

(** The writes to [state] other than the template's. *)
Lemma preserves_modifyState_template f :
  (forall s, bundleTemplateHTML (f s) = bundleTemplateHTML s) ->
  preserves templateUse (modifyState f).
Proof. intros Hf w. unfold templateUse. cbn. now rewrite Hf. Qed.

#[export] Hint Resolve preserves_modifyState_template : frame.

Lemma preserves_onBundleClick_template bundleName :
  preserves templateUse (onBundleClick bundleName).
Proof. unfold onBundleClick. frame. Qed.

Lemma preserves_groupEmails_template emails : forall g,
  preserves templateUse (groupEmails emails g).
Proof. induction emails as [|r rest IH]; intros g; cbn; frame. Qed.

#[export] Hint Resolve preserves_groupEmails_template : frame.

Lemma preserves_setBundleStateToEmails_template emails :
  preserves templateUse (setBundleStateToEmails emails).
Proof. unfold setBundleStateToEmails. frame. Qed.

Lemma preserves_removeIfOrphaned_template names b :
  preserves templateUse (removeIfOrphaned names b).
Proof. unfold removeIfOrphaned. frame. Qed.

#[export] Hint Resolve preserves_setBundleStateToEmails_template
  preserves_removeIfOrphaned_template : frame.

(** ** Template derivation *)

Lemma initBundleTemplateHTML_cached w :
  bundleTemplateHTML (state w) <> EmptyHTML ->
  initBundleTemplateHTML w = Returns tt w.
Proof.
  intros Hne. unfold initBundleTemplateHTML, bind, getState.
  destruct (bundleTemplateHTML (state w)); [congruence | reflexivity].
Qed.

Lemma initBundleTemplateHTML_returns w w1 :
  initBundleTemplateHTML w = Returns tt w1 ->
  bundleTemplateHTML (state w1) <> EmptyHTML /\
  derivations w1 <= S (derivations w).
Proof.
  unfold initBundleTemplateHTML, bind, getState, getRows.
  destruct (bundleTemplateHTML (state w)) eqn:Ht.
  - destruct (nth_error _ _) as [row|]; cbn; [|discriminate].
    intros [= <-]. cbn. split.
    + destruct row; discriminate.
    + unfold derivations. cbn. rewrite filter_app, length_app. cbn. lia.
  - intros [= <-]. rewrite Ht. split; [discriminate | lia].
Qed.

Lemma initBundleTemplateHTML_template w :
  templateUse (worldOf (initBundleTemplateHTML w)) = templateUse w \/
  (bundleTemplateHTML (state w) = EmptyHTML /\
   bundleTemplateHTML (state (worldOf (initBundleTemplateHTML w))) <> EmptyHTML /\
   derivations (worldOf (initBundleTemplateHTML w)) = S (derivations w)).
Proof.
  unfold initBundleTemplateHTML, bind, getState, getRows.
  destruct (bundleTemplateHTML (state w)) eqn:Ht; [|left; reflexivity].
  destruct (nth_error _ _) as [row|]; cbn; [|left; reflexivity].
  right. split; [reflexivity|]. split.
  - destruct row; discriminate.
  - unfold derivations. cbn. rewrite filter_app, length_app. cbn. lia.
Qed.

(** A cycle uses the template as its call of [initBundleTemplateHTML] does,
    and a click not at all. *)
Lemma runBundlizer_template w :
  templateUse (worldOf (runBundlizer w))
  = templateUse (worldOf (initBundleTemplateHTML w)).
Proof.
  unfold runBundlizer. unfold bind at 1.
  destruct (initBundleTemplateHTML w) as [[] w1|w1]; [|reflexivity].
  cbn [worldOf]. destruct (emailTable w1) as [rows|]; [|reflexivity].
  cbv zeta.
  match goal with |- templateUse (worldOf (?c w1)) = _ =>
    assert (Hc : preserves templateUse c) by frame; apply Hc
  end.
Qed.

Lemma handle_template w ev :
  templateUse (handle w ev) = templateUse w \/
  (bundleTemplateHTML (state w) = EmptyHTML /\
   bundleTemplateHTML (state (handle w ev)) <> EmptyHTML /\
   derivations (handle w ev) = S (derivations w)).
Proof.
  destruct ev as [|bundleName]; cbn [handle].
  - pose proof (runBundlizer_template w) as Hrun.
    destruct (initBundleTemplateHTML_template w) as [H|(H0 & H1 & H2)].
    + left. congruence.
    + right. unfold templateUse in Hrun. injection Hrun as Ht Hd.
      rewrite Ht, Hd. auto.
  - left. apply preserves_onBundleClick_template.
Qed.

Lemma derived_template_kept events : forall w,
  bundleTemplateHTML (state w) <> EmptyHTML ->
  templateUse (fold_left handle events w) = templateUse w.
Proof.
  induction events as [|ev events IH]; intros w Hne; [reflexivity|].
  cbn [fold_left].
  destruct (handle_template w ev) as [H|(H0 & _)]; [|congruence].
  rewrite IH; [exact H|].
  unfold templateUse in H. injection H as Ht _. congruence.
Qed.

Lemma derived_once events : forall w,
  derivations (fold_left handle events w) <= S (derivations w).
Proof.
  induction events as [|ev events IH]; intros w; [cbn; lia|].
  cbn [fold_left].
  destruct (handle_template w ev) as [H|(_ & Hne & Hd)].
  - unfold templateUse in H. injection H as _ Hd. rewrite <- Hd. apply IH.
  - pose proof (derived_template_kept events _ Hne) as H.
    unfold templateUse in H. injection H as _ H. lia.
Qed.

(** C8.  While the cached template is non-empty, [initBundleTemplateHTML] is a
    no-op: it returns and leaves the state, the table and the record of
    effects as they were.  A call that returns leaves a non-empty template
    behind, so the call after it is such a no-op, and the two calls together
    do at most one derivation.  Over the life of a page, whatever cycles and
    clicks it sees, the template is derived at most once more. *)
Theorem template_derived_once (w : World) :
  (bundleTemplateHTML (state w) <> EmptyHTML ->
   initBundleTemplateHTML w = Returns tt w) /\
  (forall w1, initBundleTemplateHTML w = Returns tt w1 ->
     initBundleTemplateHTML w1 = Returns tt w1 /\
     derivations w1 <= S (derivations w)) /\
  (forall events, derivations (fold_left handle events w) <= S (derivations w)).
Proof.
  split; [|split].
  - apply initBundleTemplateHTML_cached.
  - intros w1 H1. apply initBundleTemplateHTML_returns in H1 as [Hne Hle].
    split; [now apply initBundleTemplateHTML_cached | exact Hle].
  - intros events. apply derived_once.
Qed.

Lemma template_derived_once_witness :
  bundleTemplateHTML (state Sample.bundled) <> EmptyHTML /\
  initBundleTemplateHTML Sample.bundled = Returns tt Sample.bundled /\
  exists w1,
    initBundleTemplateHTML Sample.start = Returns tt w1 /\
    initBundleTemplateHTML w1 = Returns tt w1 /\
    derivations w1 <= S (derivations Sample.start).
Proof.
  assert (Hne : bundleTemplateHTML (state Sample.bundled) <> EmptyHTML) by discriminate.
  split; [exact Hne|].
  split; [exact (proj1 (template_derived_once Sample.bundled) Hne)|].
  eexists. split; [reflexivity|].
  exact (proj1 (proj2 (template_derived_once Sample.start)) _ eq_refl).
Defined.

(** C10.  With an empty template cache and no row in the visible list (there
    is no visible list at all, or it is empty), [initBundleTemplateHTML]
    throws at the clone of the missing last row, and so does the cycle, which
    calls it before it looks for the email table; nothing has been changed by
    then. *)
Theorem template_needs_a_row (w : World) :
  bundleTemplateHTML (state w) = EmptyHTML ->
  visibleRows w = [] ->
  initBundleTemplateHTML w = Throws w /\ runBundlizer w = Throws w.
Proof.
  intros Ht Hrows.
  assert (H : initBundleTemplateHTML w = Throws w).
  { unfold initBundleTemplateHTML, bind, getState, getRows.
    rewrite Ht. fold (visibleRows w). rewrite Hrows. reflexivity. }
  split; [exact H|].
  unfold runBundlizer, bind. rewrite H. reflexivity.
Qed.

Lemma template_needs_a_row_witness :
  bundleTemplateHTML (state Sample.noList) = EmptyHTML /\
  visibleRows Sample.noList = [] /\
  initBundleTemplateHTML Sample.noList = Throws Sample.noList /\
  runBundlizer Sample.noList = Throws Sample.noList.
Proof.
  split; [reflexivity|]. split; [reflexivity|].
  exact (template_needs_a_row Sample.noList eq_refl eq_refl).
Defined.

(** ** The debounced trigger *)

Section DebounceModes.
Context {Args : Type}.
Variable wait : nat.
Local Abbreviation d := (Debounce.timerDelay wait).

Lemma elapse_onePending immediate now (st : @Debounce.St Args) :
  onePending st -> onePending (Debounce.elapse immediate now st).
Proof.
  intros [[Hp Ht] | (id & d & a & Hp & Ht)]; unfold Debounce.elapse; rewrite Hp; cbn.
  - left. split; [reflexivity | exact Ht].
  - destruct (Nat.leb d now); cbn.
    + left. split; reflexivity.
    + right. exists id, d, a. split; [reflexivity | exact Ht].
Qed.

Lemma call_onePending immediate now (a : Args) (st : @Debounce.St Args) :
  onePending st ->
  exists id runs,
    Debounce.call wait immediate now a st = armedWith d id now a runs /\
    runs = (if immediate && negb (Debounce.isTruthy (Debounce.timeout st))
            then Debounce.invocations st ++ [(now, a)] else Debounce.invocations st).
Proof.
  intros [[Hp Ht] | (id & d & a' & Hp & Ht)]; unfold Debounce.call, armedWith;
    rewrite Hp; eexists; eexists; (split; [|reflexivity]).
  - destruct (Debounce.timeout st); try discriminate; reflexivity.
  - rewrite Ht. cbn. rewrite Nat.eqb_refl. reflexivity.
Qed.

Lemma armedWith_onePending id t (a : Args) runs : onePending (armedWith d id t a runs).
Proof. right. exists id, (t + d), a. split; reflexivity. Qed.

Lemma run_onePending immediate (events : list (nat * Args)) : forall st,
  onePending st -> onePending (Debounce.run wait immediate events st).
Proof.
  induction events as [|[t a] events IH]; intros st Hst; [exact Hst|].
  cbn [Debounce.run]. apply IH.
  destruct (call_onePending immediate t a _ (elapse_onePending immediate t st Hst))
    as (id & runs & Hcall & _).
  rewrite Hcall. apply armedWith_onePending.
Qed.

Lemma fresh_onePending : onePending (@Debounce.fresh Args).
Proof. left. split; reflexivity. Qed.

(** The clock reaching [now] after a call at [t]: the timer has fired or it
    is still pending. *)
Lemma elapse_armedWith (immediate : bool) now id t (a : Args) runs :
  Debounce.elapse immediate now (armedWith d id t a runs)
  = if Nat.leb (t + d) now
    then Debounce.mkSt Debounce.Null [] (S id)
           (if immediate then runs else runs ++ [(t + d, a)])
    else armedWith d id t a runs.
Proof.
  unfold Debounce.elapse, armedWith; cbn.
  destruct (Nat.leb (t + d) now); cbn; [|reflexivity].
  unfold Debounce.later; cbn. reflexivity.
Qed.

Lemma call_in_burst immediate id t (a : Args) runs t' (a' : Args) :
  t' < t + d ->
  Debounce.call wait immediate t' a' (Debounce.elapse immediate t' (armedWith d id t a runs))
  = armedWith d (S id) t' a' runs.
Proof.
  intros Hlt. rewrite elapse_armedWith.
  assert (Hleb : Nat.leb (t + d) t' = false) by (apply Nat.leb_gt; lia).
  rewrite Hleb. unfold Debounce.call, armedWith; cbn.
  rewrite Nat.eqb_refl, andb_false_r. reflexivity.
Qed.

Lemma call_after_quiet (immediate : bool) id t (a : Args) runs t' (a' : Args) :
  t + d <= t' ->
  Debounce.call wait immediate t' a' (Debounce.elapse immediate t' (armedWith d id t a runs))
  = armedWith d (S id) t' a'
      (if immediate then runs ++ [(t', a')] else runs ++ [(t + d, a)]).
Proof.
  intros Hle. rewrite elapse_armedWith.
  assert (Hleb : Nat.leb (t + d) t' = true) by (apply Nat.leb_le; lia).
  rewrite Hleb. unfold Debounce.call, armedWith; cbn.
  destruct immediate; reflexivity.
Qed.

Lemma last_cons_default {A} (x : A) (l : list A) (d d' : A) :
  last (x :: l) d = last (x :: l) d'.
Proof.
  revert x. induction l as [|y l IH]; intros x; [reflexivity|].
  change (last (x :: y :: l) d) with (last (y :: l) d).
  change (last (x :: y :: l) d') with (last (y :: l) d'). apply IH.
Qed.

Lemma last_cons_cons {A} (x : A) (l : list A) (d : A) :
  last (x :: l) d = last l x.
Proof.
  destruct l as [|y l]; [reflexivity|].
  change (last (x :: y :: l) d) with (last (y :: l) d). apply last_cons_default.
Qed.

Lemma run_burst immediate (events : list (nat * Args)) : forall id t a runs,
  burstAfter d t events ->
  exists id',
    Debounce.run wait immediate events (armedWith d id t a runs)
    = armedWith d id' (fst (last events (t, a))) (snd (last events (t, a))) runs.
Proof.
  induction events as [|[t' a'] events IH]; intros id t a runs Hb.
  - exists id. reflexivity.
  - destruct Hb as (_ & Hlt & Hb). cbn [Debounce.run].
    rewrite call_in_burst by exact Hlt.
    destruct (IH (S id) t' a' runs Hb) as [id' Hrun]. exists id'.
    rewrite Hrun, last_cons_cons. reflexivity.
Qed.

Lemma run_spaced (immediate : bool) (events : list (nat * Args)) : forall id t a runs,
  spacedAfter d t events ->
  exists id',
    Debounce.run wait immediate events (armedWith d id t a runs)
    = armedWith d id' (fst (last events (t, a))) (snd (last events (t, a)))
        (runs ++ if immediate then events
                 else map (delivered d) (removelast ((t, a) :: events))).
Proof.
  induction events as [|[t' a'] events IH]; intros id t a runs Hs.
  - exists id. cbn. destruct immediate; rewrite app_nil_r; reflexivity.
  - destruct Hs as (Hlt & Hs). cbn [Debounce.run].
    rewrite call_after_quiet by lia.
    destruct (IH (S id) t' a'
                (if immediate then runs ++ [(t', a')] else runs ++ [(t + d, a)]) Hs)
      as [id' Hrun].
    exists id'. rewrite Hrun, last_cons_cons. f_equal.
    destruct immediate; rewrite <- app_assoc; reflexivity.
Qed.

Lemma run_count (immediate : bool) (events : list (nat * Args)) :
  forall (st : @Debounce.St Args) (n : nat),
  onePending st ->
  List.length (Debounce.invocations st)
  + (if immediate then 0 else List.length (Debounce.pending st)) <= n ->
  let st' := Debounce.run wait immediate events st in
  List.length (Debounce.invocations st')
  + (if immediate then 0 else List.length (Debounce.pending st')) <= n + List.length events.
Proof.
  induction events as [|[t a] events IH]; intros st n Hst Hn; cbn [Debounce.run].
  - cbn. lia.
  - cbn [List.length]. replace (n + S (List.length events)) with (S n + List.length events) by lia.
    apply IH.
    + destruct (call_onePending immediate t a _ (elapse_onePending immediate t st Hst))
        as (id & runs & Hcall & _).
      rewrite Hcall. apply armedWith_onePending.
    + destruct Hst as [[Hp Ht] | (id & d & a' & Hp & Ht)].
      * unfold Debounce.elapse, Debounce.call. rewrite Hp in *. cbn.
        rewrite Ht. destruct (Debounce.timeout st); try discriminate;
          destruct immediate; cbn in *; rewrite ?length_app; cbn; lia.
      * unfold Debounce.elapse. rewrite Hp in *. cbn.
        destruct (Nat.leb d t); cbn; unfold Debounce.call; cbn.
        -- destruct immediate; cbn in *; rewrite ?length_app; cbn; lia.
        -- rewrite Ht. cbn. rewrite Nat.eqb_refl. cbn.
           destruct immediate; cbn in *; lia.
Qed.

Lemma elapse_count (immediate : bool) now (st : @Debounce.St Args) :
  onePending st ->
  List.length (Debounce.invocations (Debounce.elapse immediate now st))
  <= List.length (Debounce.invocations st)
     + (if immediate then 0 else List.length (Debounce.pending st)).
Proof.
  intros [[Hp Ht] | (id & d & a' & Hp & Ht)]; unfold Debounce.elapse; rewrite Hp; cbn.
  - lia.
  - destruct (Nat.leb d now); cbn; destruct immediate; cbn; rewrite ?length_app; cbn; lia.
Qed.

(** A burst on the trailing edge, whatever the wrapper has been through
    before: [func] does not run while the burst lasts, nor before the delay
    after its last call has elapsed; it runs once when it has. *)
Lemma burst_trailing (st : @Debounce.St Args) t0 (a0 : Args) (events : list (nat * Args)) :
  onePending st ->
  burstAfter d t0 events ->
  let final := last events (t0, a0) in
  let st' := Debounce.run wait false ((t0, a0) :: events) st in
  let runs := Debounce.invocations (Debounce.elapse false t0 st) in
  Debounce.invocations st' = runs /\
  (forall now, now < fst final + d ->
     Debounce.invocations (Debounce.elapse false now st') = runs) /\
  (forall now, fst final + d <= now ->
     Debounce.invocations (Debounce.elapse false now st') = runs ++ [(fst final + d, snd final)]).
Proof.
  intros Hst Hb final st' runs. subst st'. cbn [Debounce.run].
  destruct (call_onePending false t0 a0 _ (elapse_onePending false t0 st Hst))
    as (id & runs' & Hcall & Hruns).
  cbn [andb] in Hruns. subst runs'. rewrite Hcall.
  destruct (run_burst false events id t0 a0 runs Hb) as [id' Hrun]. fold runs. rewrite Hrun.
  fold final. split; [reflexivity|]. split; intros now Hnow; rewrite elapse_armedWith.
  - assert (Hleb : Nat.leb (fst final + d) now = false) by (apply Nat.leb_gt; lia).
    rewrite Hleb. reflexivity.
  - assert (Hleb : Nat.leb (fst final + d) now = true) by (apply Nat.leb_le; lia).
    rewrite Hleb. reflexivity.
Qed.

End DebounceModes.

(** A delay that [setTimeout] takes as it is. *)
Lemma timerDelay_small (wait : nat) :
  (N.of_nat wait <= 2147483647)%N -> Debounce.timerDelay wait = wait.
Proof.
  intros H. unfold Debounce.timerDelay. cbv zeta.
  assert (Hlt : (N.of_nat wait < 2147483648)%N) by lia.
  rewrite N.mod_small by lia.
  apply N.ltb_lt in Hlt. rewrite Hlt. apply Nat2N.id.
Qed.

Lemma timerDelay_BUNDLE_UPDATE_DELAY :
  Debounce.timerDelay BUNDLE_UPDATE_DELAY = BUNDLE_UPDATE_DELAY.
Proof. vm_compute. reflexivity. Qed.

(** ** The observers of the page *)

Lemma onePending_deliver (st : Page.St) (signal : Page.Signal) :
  Forall onePending (Page.bundlizerObservers st) ->
  Forall onePending (Page.bundlizerObservers (Page.deliver st signal)).
Proof.
  intros Hst.
  assert (Hel : forall now, Forall onePending
                  (map (Debounce.elapse false now) (Page.bundlizerObservers st))).
  { intros now. apply Forall_map. revert Hst. apply Forall_impl.
    intros o. apply elapse_onePending. }
  destruct signal as [now node | now records]; cbn.
  - destruct (Page.loadingObserver st); [|apply Hel].
    destruct node; cbn; [|apply Hel].
    apply Forall_app. split; [apply Hel|]. constructor; [apply fresh_onePending|constructor].
  - apply Forall_map. specialize (Hel now). revert Hel. apply Forall_impl.
    intros o Ho.
    destruct (call_onePending BUNDLE_UPDATE_DELAY false now records o Ho)
      as (id & runs & Hcall & _).
    rewrite Hcall. apply armedWith_onePending.
Qed.

Lemma onePending_run (signals : list Page.Signal) : forall st,
  Forall onePending (Page.bundlizerObservers st) ->
  Forall onePending (Page.bundlizerObservers (Page.run signals st)).
Proof.
  induction signals as [|signal signals IH]; intros st Hst; [exact Hst|].
  apply IH, onePending_deliver, Hst.
Qed.

(** Every mutation of the loading node that finds the table adds an
    observer. *)
Lemma observers_run (signals : list Page.Signal) : forall st,
  Page.loadingObserver (Page.run signals st) = Page.loadingObserver st /\
  List.length (Page.bundlizerObservers (Page.run signals st))
  = List.length (Page.bundlizerObservers st)
    + (if Page.loadingObserver st then loadedMutations signals else 0).
Proof.
  induction signals as [|signal signals IH]; intros st.
  - split; [reflexivity|]. destruct (Page.loadingObserver st); cbn; lia.
  - destruct (IH (Page.deliver st signal)) as [Hlo Hlen].
    change (Page.run (signal :: signals) st) with (Page.run signals (Page.deliver st signal)).
    assert (Hd : Page.loadingObserver (Page.deliver st signal) = Page.loadingObserver st).
    { destruct signal as [now node | now records]; cbn; [|reflexivity].
      destruct (Page.loadingObserver st) eqn:E; [|exact E]. destruct node; exact E. }
    rewrite Hlo, Hlen, Hd. split; [reflexivity|].
    destruct signal as [now node | now records]; cbn.
    + destruct (Page.loadingObserver st); cbn; [|rewrite length_map; lia].
      destruct node; cbn; rewrite ?length_app, length_map; cbn; unfold loadedMutations; lia.
    + rewrite !length_map. destruct (Page.loadingObserver st); unfold loadedMutations; cbn; lia.
Qed.

(** A burst of mutations of the table calls each debounced callback at each
    of them. *)
Lemma run_tableMutations (burst : list (nat * Page.Records)) : forall st,
  Page.run (tableMutations burst) st
  = Page.mkSt (Page.loadingObserver st)
              (map (Debounce.run BUNDLE_UPDATE_DELAY false burst) (Page.bundlizerObservers st))
              (Page.directRuns st).
Proof.
  induction burst as [|[t a] burst IH]; intros st.
  - cbn. rewrite map_id. destruct st; reflexivity.
  - change (Page.run (tableMutations ((t, a) :: burst)) st)
      with (Page.run (tableMutations burst) (Page.deliver st (Page.TableMutation t a))).
    rewrite IH. cbn. rewrite !map_map. reflexivity.
Qed.

Lemma cycleRuns_debounced (st : Page.St) :
  Page.cycleRuns st = Page.directRuns st ++ List.concat (map (map fst) (debouncedRuns st)).
Proof.
  unfold Page.cycleRuns, debouncedRuns. rewrite flat_map_concat_map, map_map. reflexivity.
Qed.

Lemma length_runs_snoc {A B} (f : A -> B) (x : A) (runs : list (list A)) :
  List.length (List.concat (map (map f) (map (fun r => r ++ [x]) runs)))
  = List.length (List.concat (map (map f) runs)) + List.length runs.
Proof.
  induction runs as [|r runs IH]; [reflexivity|].
  cbn. rewrite !length_app, !length_map, length_app, IH. cbn. lia.
Qed.

(** C9.  On a page that has been through any mutations of the loading node
    and of the table, a burst of mutations of the table, each less than the
    debounce window after the one before it, calls the debounced callback of
    every [bundlizerObserver], and there is one observer for each mutation of
    the loading node delivered while the table was there (none when [init]
    found no loading node).  No cycle runs while the burst lasts, nor before
    the window after its last mutation has elapsed; once it has, each
    observer has run one cycle, at that time: the cycle has run once for
    every observer, so once only when the loading node was mutated once. *)
Theorem burst_runs_cycle_once_per_observer
        (loadingNode : bool) (history : list Page.Signal)
        (t0 : nat) (r0 : Page.Records) (rest : list (nat * Page.Records)) :
  burstAfter BUNDLE_UPDATE_DELAY t0 rest ->
  let burst := (t0, r0) :: rest in
  let final := last burst (t0, r0) in
  let page := Page.run history (Page.init loadingNode) in
  let before := Page.elapse t0 page in
  let after := Page.run (tableMutations burst) page in
  List.length (Page.bundlizerObservers page)
  = (if loadingNode then loadedMutations history else 0) /\
  Page.cycleRuns after = Page.cycleRuns before /\
  (forall now, now < fst final + BUNDLE_UPDATE_DELAY ->
     Page.cycleRuns (Page.elapse now after) = Page.cycleRuns before) /\
  (forall now, fst final + BUNDLE_UPDATE_DELAY <= now ->
     Page.directRuns (Page.elapse now after) = Page.directRuns before /\
     debouncedRuns (Page.elapse now after)
     = map (fun runs => runs ++ [(fst final + BUNDLE_UPDATE_DELAY, snd final)])
           (debouncedRuns before) /\
     List.length (Page.cycleRuns (Page.elapse now after))
     = List.length (Page.cycleRuns before) + List.length (Page.bundlizerObservers page)).
Proof.
  intros Hb burst final page before after.
  assert (Hfinal : final = last rest (t0, r0)) by apply last_cons_cons.
  assert (Hpending : Forall onePending (Page.bundlizerObservers page)).
  { apply onePending_run. constructor. }
  assert (Hafter : after
                   = Page.mkSt (Page.loadingObserver page)
                       (map (Debounce.run BUNDLE_UPDATE_DELAY false burst)
                            (Page.bundlizerObservers page))
                       (Page.directRuns page)) by apply run_tableMutations.
  rewrite <- timerDelay_BUNDLE_UPDATE_DELAY in Hb.
  assert (Heach : forall o, In o (Page.bundlizerObservers page) ->
            let o' := Debounce.run BUNDLE_UPDATE_DELAY false burst o in
            let runs := Debounce.invocations (Debounce.elapse false t0 o) in
            Debounce.invocations o' = runs /\
            (forall now, now < fst final + BUNDLE_UPDATE_DELAY ->
               Debounce.invocations (Debounce.elapse false now o') = runs) /\
            (forall now, fst final + BUNDLE_UPDATE_DELAY <= now ->
               Debounce.invocations (Debounce.elapse false now o')
               = runs ++ [(fst final + BUNDLE_UPDATE_DELAY, snd final)])).
  { intros o Ho. rewrite Forall_forall in Hpending.
    pose proof (burst_trailing BUNDLE_UPDATE_DELAY o t0 r0 rest (Hpending o Ho) Hb) as H.
    cbv zeta in H. rewrite timerDelay_BUNDLE_UPDATE_DELAY, <- Hfinal in H. exact H. }
  assert (Hruns : debouncedRuns after = debouncedRuns before).
  { rewrite Hafter. unfold debouncedRuns, before. cbn. rewrite !map_map.
    apply map_ext_in. intros o Ho. apply (Heach o Ho). }
  assert (Hquiet : forall now, now < fst final + BUNDLE_UPDATE_DELAY ->
            debouncedRuns (Page.elapse now after) = debouncedRuns before).
  { intros now Hnow. rewrite Hafter. unfold debouncedRuns, before. cbn. rewrite !map_map.
    apply map_ext_in. intros o Ho. now apply (Heach o Ho). }
  assert (Hdone : forall now, fst final + BUNDLE_UPDATE_DELAY <= now ->
            debouncedRuns (Page.elapse now after)
            = map (fun runs => runs ++ [(fst final + BUNDLE_UPDATE_DELAY, snd final)])
                  (debouncedRuns before)).
  { intros now Hnow. rewrite Hafter. unfold debouncedRuns, before. cbn. rewrite !map_map.
    apply map_ext_in. intros o Ho. now apply (Heach o Ho). }
  assert (Hdirect : forall now, Page.directRuns (Page.elapse now after) = Page.directRuns before).
  { intros now. rewrite Hafter. reflexivity. }
  split; [|split; [|split]].
  - destruct (observers_run history (Page.init loadingNode)) as [_ Hlen].
    fold page in Hlen. rewrite Hlen. reflexivity.
  - rewrite !cycleRuns_debounced, Hruns, Hafter. reflexivity.
  - intros now Hnow. rewrite !cycleRuns_debounced, (Hquiet now Hnow), Hdirect. reflexivity.
  - intros now Hnow. split; [apply Hdirect|]. split; [now apply Hdone|].
    rewrite !cycleRuns_debounced, (Hdone now Hnow), Hdirect, !length_app, length_runs_snoc.
    unfold debouncedRuns, before. cbn. rewrite !length_map. lia.
Qed.

Lemma burst_runs_cycle_once_per_observer_witness :
  let history := [Page.LoadingMutation 0 true; Page.LoadingMutation 5 true] in
  let burst := [(1000, "m1"); (1040, "m2"); (1130, "m3")] in
  let after := Page.run (tableMutations burst) (Page.run history (Page.init true)) in
  burstAfter BUNDLE_UPDATE_DELAY 1000 [(1040, "m2"); (1130, "m3")] /\
  List.length (Page.bundlizerObservers (Page.run history (Page.init true))) = 2 /\
  Page.cycleRuns (Page.elapse 1229 after) = [0; 5] /\
  Page.cycleRuns (Page.elapse 1230 after) = [0; 5; 1230; 1230] /\
  debouncedRuns (Page.elapse 1230 after) = [[(1230, "m3")]; [(1230, "m3")]].
Proof.
  intros history burst after.
  assert (Hb : burstAfter BUNDLE_UPDATE_DELAY 1000 [(1040, "m2"); (1130, "m3")]).
  { cbn. unfold BUNDLE_UPDATE_DELAY. lia. }
  destruct (burst_runs_cycle_once_per_observer true history 1000 "m1" _ Hb)
    as (Hlen & _ & Hquiet & Hdone).
  split; [exact Hb|]. split; [exact Hlen|]. split; [|split].
  - assert (H : 1229 < fst (last [(1000, "m1"); (1040, "m2"); (1130, "m3")] (1000, "m1"))
                     + BUNDLE_UPDATE_DELAY) by (cbn; unfold BUNDLE_UPDATE_DELAY; lia).
    etransitivity; [exact (Hquiet 1229 H) | reflexivity].
  - vm_compute. reflexivity.
  - assert (H : fst (last [(1000, "m1"); (1040, "m2"); (1130, "m3")] (1000, "m1"))
                + BUNDLE_UPDATE_DELAY <= 1230) by (cbn; unfold BUNDLE_UPDATE_DELAY; lia).
    destruct (Hdone 1230 H) as (_ & Hruns & _).
    etransitivity; [exact Hruns | reflexivity].
Defined.

(** ** Dictionaries *)

Lemma get_set {V} (k k' : string) (v : V) (o : JsObject.t V) :
  JsObject.get k (JsObject.set k' v o)
  = if String.eqb k k' then Some v else JsObject.get k o.
Proof.
  induction o as [|[k0 v0] o IH]; cbn.
  - destruct (String.eqb k k'); reflexivity.
  - destruct (String.eqb k' k0) eqn:E0; cbn.
    + apply String.eqb_eq in E0; subst k0.
      destruct (String.eqb k k'); reflexivity.
    + destruct (String.eqb k k0) eqn:E1.
      * apply String.eqb_eq in E1; subst k0.
        rewrite String.eqb_sym, E0. reflexivity.
      * exact IH.
Qed.

Lemma get_set_same {V} (k : string) (v : V) (o : JsObject.t V) :
  JsObject.get k (JsObject.set k v o) = Some v.
Proof. rewrite get_set, String.eqb_refl. reflexivity. Qed.

Lemma get_set_other {V} (k k' : string) (v : V) (o : JsObject.t V) :
  k <> k' -> JsObject.get k (JsObject.set k' v o) = JsObject.get k o.
Proof.
  intros Hne. rewrite get_set.
  destruct (String.eqb k k') eqn:E; [apply String.eqb_eq in E; congruence | reflexivity].
Qed.

Lemma get_in_keys {V} (k : string) (o : JsObject.t V) :
  In k (JsObject.keys o) <-> JsObject.get k o <> None.
Proof.
  induction o as [|[k0 v0] o IH]; cbn.
  - split; [tauto | congruence].
  - destruct (String.eqb k k0) eqn:E.
    + apply String.eqb_eq in E. split; [discriminate | auto].
    + apply String.eqb_neq in E. rewrite <- IH. split; [intros [H|H]; congruence || auto | auto].
Qed.

Lemma keys_set_present {V} (k : string) (v : V) (o : JsObject.t V) :
  JsObject.get k o <> None -> JsObject.keys (JsObject.set k v o) = JsObject.keys o.
Proof.
  induction o as [|[k0 v0] o IH]; cbn; [congruence|].
  destruct (String.eqb k k0); cbn; [reflexivity|].
  intros H. f_equal. apply IH, H.
Qed.

(** ** Exclusivity of the open flag *)

Lemma getVisibleBundleName_open s v :
  getVisibleBundleName s = Some v ->
  JsObject.get v (bundlesVisibility s) = Some true.
Proof.
  unfold getVisibleBundleName. intros H. apply find_some in H as [_ H].
  destruct (JsObject.get v (bundlesVisibility s)) as [[|]|]; cbn in H; congruence.
Qed.

Lemma getVisibleBundleName_none s k :
  getVisibleBundleName s = None ->
  JsObject.get k (bundlesVisibility s) <> Some true.
Proof.
  unfold getVisibleBundleName. intros H Hk.
  assert (Hin : In k (JsObject.keys (bundlesVisibility s))).
  { apply get_in_keys. congruence. }
  apply (find_none _ _ H) in Hin. rewrite Hk in Hin. discriminate.
Qed.

Lemma noneOpen_oneOpen v : noneOpen v -> oneOpen v.
Proof. intros H a b Ha. destruct (H a Ha). Qed.

Lemma oneOpen_set_false v k : oneOpen v -> oneOpen (JsObject.set k false v).
Proof.
  intros H a b. rewrite !get_set.
  destruct (String.eqb a k); [discriminate|].
  destruct (String.eqb b k); [discriminate|]. apply H.
Qed.

Lemma noneOpen_close v k :
  oneOpen v -> JsObject.get k v = Some true -> noneOpen (JsObject.set k false v).
Proof.
  intros H Hk a. rewrite get_set.
  destruct (String.eqb a k) eqn:E; [discriminate|].
  intros Ha. apply String.eqb_neq in E. apply E. exact (H a k Ha Hk).
Qed.

Lemma oneOpen_open v k : noneOpen v -> oneOpen (JsObject.set k true v).
Proof.
  intros H a b. rewrite !get_set.
  destruct (String.eqb a k) eqn:Ea; destruct (String.eqb b k) eqn:Eb; intros Ha Hb.
  - apply String.eqb_eq in Ea, Eb. congruence.
  - destruct (H b Hb).
  - destruct (H a Ha).
  - destruct (H a Ha).
Qed.

Lemma sameFlagged_set v k x :
  JsObject.get k v <> None -> sameFlagged v (JsObject.set k x v).
Proof.
  intros Hk k'. rewrite get_set.
  destruct (String.eqb k' k) eqn:E; [|tauto].
  apply String.eqb_eq in E; subst k'. split; [discriminate | tauto].
Qed.

Lemma sameFlagged_refl v : sameFlagged v v.
Proof. intros k; tauto. Qed.

Lemma sameFlagged_trans v1 v2 v3 :
  sameFlagged v1 v2 -> sameFlagged v2 v3 -> sameFlagged v1 v3.
Proof. intros H12 H23 k. specialize (H12 k). specialize (H23 k). tauto. Qed.

(** The two writes of [onBundleClick] keep at most one flag [true], provided
    the clicked label has a flag and no flag is kept under the empty name
    (which [getVisibleBundleName]'s caller would take for "no bundle open"). *)
Lemma click_flags_exclusive s bundleName :
  oneOpen (bundlesVisibility s) ->
  JsObject.get "" (bundlesVisibility s) = None ->
  JsObject.get bundleName (bundlesVisibility s) <> None ->
  oneOpen (closeVisible bundleName s) /\
  oneOpen (toggle bundleName (closeVisible bundleName s)) /\
  sameFlagged (bundlesVisibility s) (closeVisible bundleName s) /\
  sameFlagged (bundlesVisibility s) (toggle bundleName (closeVisible bundleName s)).
Proof.
  intros Hone Hempty Hflag. unfold closeVisible, toggle.
  destruct (JsObject.get bundleName (bundlesVisibility s)) as [[|]|] eqn:Hn;
    [| |congruence].
  - (* the clicked bundle is open: it is closed *)
    rewrite Hn; cbn. split; [exact Hone|]. split; [now apply oneOpen_set_false|].
    split; [apply sameFlagged_refl|]. apply sameFlagged_set. congruence.
  - (* the clicked bundle is closed *)
    destruct (getVisibleBundleName s) as [v|] eqn:Hv; cbn.
    + pose proof (getVisibleBundleName_open _ _ Hv) as Hopen.
      destruct v as [|c v']; [congruence|].
      set (v := String c v') in *.
      assert (Hnone : noneOpen (JsObject.set v false (bundlesVisibility s)))
        by now apply noneOpen_close.
      assert (Hsame : sameFlagged (bundlesVisibility s)
                                  (JsObject.set v false (bundlesVisibility s)))
        by (apply sameFlagged_set; congruence).
      assert (Hget : JsObject.get bundleName (JsObject.set v false (bundlesVisibility s))
                     = Some false).
      { rewrite get_set. destruct (String.eqb bundleName v); [reflexivity | exact Hn]. }
      rewrite Hget; cbn. split; [now apply noneOpen_oneOpen|].
      split; [now apply oneOpen_open|]. split; [exact Hsame|].
      eapply sameFlagged_trans; [exact Hsame|].
      apply sameFlagged_set. congruence.
    + rewrite Hn; cbn.
      assert (Hnone : noneOpen (bundlesVisibility s))
        by (intros a; now apply getVisibleBundleName_none).
      split; [exact Hone|]. split; [now apply oneOpen_open|].
      split; [apply sameFlagged_refl|]. apply sameFlagged_set. congruence.
Qed.

Section ClickPhases.
Variable bundleName : string.

Lemma onBundleClick_phases :
  onBundleClick bundleName
  = (s <- getState ;; closeOpenBundle bundleName s ;; toggleAndRender bundleName).
Proof. reflexivity. Qed.

Lemma closeOpenBundle_flags w :
  bundlesVisibility (state (worldOf (closeOpenBundle bundleName (state w) w)))
  = closeVisible bundleName (state w).
Proof.
  unfold closeOpenBundle, closeVisible.
  destruct (JsObject.get bundleName (bundlesVisibility (state w))) as [[|]|];
    try reflexivity.
  destruct (truthyName (getVisibleBundleName (state w))) as [v|]; [|reflexivity].
  unfold bind, modifyState.
  match goal with |- context [turnOffBundleVisibility v ?w1] =>
    pose proof (preserves_turnOffBundleVisibility state v w1) as Hk;
    destruct (turnOffBundleVisibility v w1); cbn in Hk |- *; rewrite Hk; reflexivity
  end.
Qed.

Lemma preserves_renderClicked :
  preserves state
    (s <- getState ;;
     (if truthy (JsObject.get bundleName (bundlesVisibility s))
      then showBundledEmails bundleName
      else turnOffBundleVisibility bundleName) ;;
     updateBundleDom bundleName).
Proof. frame. Qed.

Lemma toggleAndRender_flags w :
  bundlesVisibility (state (worldOf (toggleAndRender bundleName w)))
  = toggle bundleName (bundlesVisibility (state w)).
Proof.
  unfold toggleAndRender. run. rewrite preserves_renderClicked. reflexivity.
Qed.

(** The flags a click leaves are those of its first write when the handler
    throws while closing the open bundle, and those of both writes
    otherwise. *)
Lemma click_flags w :
  bundlesVisibility (state (click w bundleName)) = closeVisible bundleName (state w) \/
  bundlesVisibility (state (click w bundleName))
  = toggle bundleName (closeVisible bundleName (state w)).
Proof.
  assert (Hw : click w bundleName
               = match closeOpenBundle bundleName (state w) w with
                 | Returns _ w1 => worldOf (toggleAndRender bundleName w1)
                 | Throws w1 => w1
                 end).
  { unfold click. rewrite onBundleClick_phases. unfold bind, getState.
    destruct (closeOpenBundle bundleName (state w) w); reflexivity. }
  rewrite Hw. pose proof (closeOpenBundle_flags w) as H1.
  destruct (closeOpenBundle bundleName (state w) w) as [[] w1|w1]; cbn [worldOf] in H1.
  - right. rewrite toggleAndRender_flags, H1. reflexivity.
  - left. exact H1.
Qed.

End ClickPhases.

Lemma click_invariant w bundleName :
  atMostOneOpen w ->
  JsObject.get "" (bundlesVisibility (state w)) = None ->
  hasFlag bundleName w ->
  atMostOneOpen (click w bundleName) /\
  sameFlagged (bundlesVisibility (state w)) (bundlesVisibility (state (click w bundleName))).
Proof.
  intros Hone Hempty Hflag.
  destruct (click_flags_exclusive (state w) bundleName Hone Hempty Hflag)
    as (H1 & H2 & S1 & S2).
  unfold atMostOneOpen, isOpen.
  destruct (click_flags bundleName w) as [E|E]; rewrite E; auto.
Qed.

Lemma clicks_invariant clicked : forall w,
  atMostOneOpen w ->
  JsObject.get "" (bundlesVisibility (state w)) = None ->
  Forall (fun name => hasFlag name w) clicked ->
  forall n, atMostOneOpen (fold_left click (firstn n clicked) w).
Proof.
  induction clicked as [|name clicked IH]; intros w Hone Hempty Hall n.
  - rewrite firstn_nil. exact Hone.
  - destruct n as [|n]; [exact Hone|].
    cbn [firstn fold_left]. inversion Hall as [|? ? Hname Hrest]; subst.
    destruct (click_invariant w name Hone Hempty Hname) as [Hone' Hsame].
    apply IH.
    + exact Hone'.
    + apply Hsame. exact Hempty.
    + apply Forall_impl with (2 := Hrest). unfold hasFlag.
      intros k Hk Hk'. apply Hk. apply Hsame. exact Hk'.
Qed.

(** C2.  Start with every label closed and click synthetic bundle rows in any
    order, any number of times: after each click at most one label has its
    open flag [true].  A synthetic row is bound to a label that has a flag
    (the cycle writes the flag before it inserts the row), and Gmail has no
    label with an empty name.  The count holds after a handler that throws,
    too. *)
Theorem single_open_bundle (w : World) (clicked : list string) :
  (forall label, ~ isOpen label w) ->
  JsObject.get "" (bundlesVisibility (state w)) = None ->
  Forall (fun bundleName => hasFlag bundleName w) clicked ->
  forall n, atMostOneOpen (fold_left click (firstn n clicked) w).
Proof.
  intros Hclosed Hempty Hall. apply clicks_invariant; auto.
  intros a b Ha. destruct (Hclosed a Ha).
Qed.

Lemma single_open_bundle_witness :
  (forall label, ~ isOpen label Sample.bundled) /\
  atMostOneOpen
    (fold_left click (firstn 3 ["Work"; "Personal"; "Personal"; "Work"]) Sample.bundled).
Proof.
  assert (Hclosed : forall label, ~ isOpen label Sample.bundled).
  { intros label. unfold isOpen.
    change (bundlesVisibility (state Sample.bundled))
      with [("Work", false); ("Personal", false)].
    cbn. destruct (String.eqb label "Work"); [discriminate|].
    destruct (String.eqb label "Personal"); discriminate. }
  split; [exact Hclosed|].
  apply (single_open_bundle Sample.bundled ["Work"; "Personal"; "Personal"; "Work"]).
  - exact Hclosed.
  - reflexivity.
  - repeat constructor; unfold hasFlag; vm_compute; discriminate.
Defined.

(** ** Rendering a bundle row *)

Lemma querySelectorClass_update cls rows row i f :
  (forall b, bundlename (f b) = bundlename b) ->
  querySelectorClass cls rows = Some row ->
  bid row = i ->
  querySelectorClass cls (map (onBundle i f) rows) = Some (f row).
Proof.
  intros Hf. unfold querySelectorClass.
  induction rows as [|[e|b] rows IH]; cbn -[getBundleClass String.eqb]; intros Hq Hi.
  - discriminate.
  - apply IH; assumption.
  - revert Hq. destruct (Nat.eqb (bid b) i) eqn:Eb; cbn -[getBundleClass String.eqb].
    + rewrite Hf.
      destruct (String.eqb (getBundleClass (bundlename b)) cls) eqn:Ec; intros Hq.
      * congruence.
      * apply IH; assumption.
    + destruct (String.eqb (getBundleClass (bundlename b)) cls) eqn:Ec; intros Hq.
      * injection Hq as ->. apply Nat.eqb_neq in Eb. congruence.
      * apply IH; assumption.
Qed.

Lemma findEmail_update_bundle i f j rows :
  findEmail j (map (onBundle i f) rows) = findEmail j rows.
Proof.
  induction rows as [|[e|b] rows IH]; cbn; [reflexivity| |].
  - destruct (Nat.eqb (eid e) j); [reflexivity | exact IH].
  - destruct (Nat.eqb (bid b) i); exact IH.
Qed.

Lemma email_returns w i e :
  findEmail i (visibleRows w) = Some e -> email i w = Returns e w.
Proof.
  unfold email, bind, getRows, visibleRows. intros H. cbn. rewrite H. reflexivity.
Qed.

Lemma recentSendersLoop_returns w n : forall members,
  Forall (fun i => findEmail i (visibleRows w) <> None) (firstn n members) ->
  exists senders,
    recentSendersLoop n members w = Returns senders w /\
    sendersOf (visibleRows w) (firstn n members) senders.
Proof.
  induction n as [|n IH]; intros members Hall.
  - exists []. split; [reflexivity | constructor].
  - destruct members as [|i rest].
    + exists []. split; [reflexivity | constructor].
    + cbn [firstn] in Hall |- *. inversion Hall as [|? ? Hi Hrest]; subst.
      destruct (IH rest Hrest) as (senders & Hrun & Hs).
      destruct (findEmail i (visibleRows w)) as [e|] eqn:He; [|congruence].
      exists (sender e :: senders). split.
      * cbn [recentSendersLoop]. unfold bind at 1.
        rewrite (email_returns _ _ _ He). unfold bind. rewrite Hrun. reflexivity.
      * constructor; [exists e; auto | exact Hs].
Qed.



Lemma visibleRows_modify f w :
  visibleRows (mkWorld (state w) (option_map f (emailTable w)) (effects w))
  = match emailTable w with Some rows => f rows | None => [] end.
Proof. unfold visibleRows. cbn. destruct (emailTable w); reflexivity. Qed.

(** One guarded write: [skip] is the outcome of the comparison. *)
Lemma guarded_write bundleName w row i (skip : bool) f ev :
  renderedRow bundleName w = Some row ->
  bid row = i ->
  (forall b, bundlename (f b) = bundlename b) ->
  exists w',
    (if skip then ret tt else updateBundle i f ;; emit ev) w = Returns tt w' /\
    state w' = state w /\
    renderedRow bundleName w' = Some (if skip then row else f row) /\
    effects w' = effects w ++ (if skip then [] else [ev]) /\
    (forall j, findEmail j (visibleRows w') = findEmail j (visibleRows w)).
Proof.
  intros Hrow Hi Hf. destruct skip.
  - exists w. rewrite app_nil_r. auto.
  - exists (mkWorld (state w) (option_map (map (onBundle i f)) (emailTable w))
                    (effects w ++ [ev])).
    split; [reflexivity|]. split; [reflexivity|].
    split; [|split; [reflexivity|]].
    + unfold renderedRow, visibleRows in *. cbn [emailTable].
      destruct (emailTable w) as [rows|]; cbn [option_map].
      * now apply querySelectorClass_update.
      * discriminate.
    + intros j. unfold visibleRows. cbn [emailTable].
      destruct (emailTable w); [apply findEmail_update_bundle | reflexivity].
Qed.

Lemma getRecentSenders_returns w bundleName members senders :
  JsObject.get bundleName (bundles (state w)) = Some members ->
  recentSendersLoop MAX_SENDERS_BUNDLE_DESC members w = Returns senders w ->
  getRecentSenders bundleName w = Returns senders w.
Proof.
  intros Hmem Hloop. unfold getRecentSenders. run. rewrite Hmem. run. exact Hloop.
Qed.

Lemma updateBundleDom_returns w bundleName row members i latest :
  renderedRow bundleName w = Some row ->
  JsObject.get bundleName (bundles (state w)) = Some members ->
  nth_error members 0 = Some i ->
  findEmail i (visibleRows w) = Some latest ->
  Forall (fun j => findEmail j (visibleRows w) <> None)
         (firstn MAX_SENDERS_BUNDLE_DESC members) ->
  exists senders w',
    sendersOf (visibleRows w) (firstn MAX_SENDERS_BUNDLE_DESC members) senders /\
    updateBundleDom bundleName w = Returns tt w' /\
    state w' = state w /\
    let rendered :=
      renderBundleName bundleName (List.length members)
        (unread latest || truthy (JsObject.get bundleName (bundlesUnread (state w))))
        (truthy (JsObject.get bundleName (bundlesVisibility (state w)))) in
    let r1 := writeName bundleName rendered row in
    let r2 := writeSenders bundleName senders (fst r1) in
    let r3 := writeDate bundleName (sentDate latest) (fst r2) in
    renderedRow bundleName w' = Some (fst r3) /\
    effects w' = effects w ++ snd r1 ++ snd r2 ++ snd r3 /\
    (forall j, findEmail j (visibleRows w') = findEmail j (visibleRows w)).
Proof.
  intros Hrow Hmem Hi Hlatest Hall.
  destruct (recentSendersLoop_returns w _ members Hall) as (senders & Hloop & Hs).
  exists senders.
  unfold updateBundleDom. cbv zeta.
  run. run. pose proof Hrow as Hq. unfold renderedRow in Hq.
  change (match emailTable w with Some rows => rows | None => [] end) with (visibleRows w).
  rewrite Hq, Hmem. run. rewrite Hi.
  assert (Hl : (i0 <- defined (Some i) ;; email i0) w = Returns latest w).
  { run. now apply email_returns. }
  run_by Hl.
  run_by (getRecentSenders_returns _ _ _ _ Hmem Hloop).
  set (rendered := renderBundleName _ _ _ _).
  remember (String.eqb (JsString.trim (nameHTML row)) (JsString.trim rendered)) as b1 eqn:E1.
  remember (String.eqb
              (JsString.trim (innerText (subjectHTML row)))
              (JsString.trim
                 (JsString.join
                    (JsString.replaceAll "&nbsp;" UNICODE_NBSP EMAIL_SENDERS_SEPARATOR)
                    senders))) as b2 eqn:E2.
  remember (String.eqb (JsString.trim (dateText row)) (JsString.trim (sentDate latest)))
    as b3 eqn:E3.
  destruct (guarded_write bundleName w row (bid row) b1
              (setNameHTML rendered) (EvSetName bundleName rendered) Hrow eq_refl)
    as (w1 & Hrun1 & Hst1 & Hrow1 & Hev1 & Hem1); [reflexivity|].
  run_by Hrun1.
  destruct (guarded_write bundleName w1 _ (bid row) b2
              (setSubjectHTML (JsString.join EMAIL_SENDERS_SEPARATOR senders))
              (EvSetSenders bundleName (JsString.join EMAIL_SENDERS_SEPARATOR senders))
              Hrow1)
    as (w2 & Hrun2 & Hst2 & Hrow2 & Hev2 & Hem2);
    [destruct b1; reflexivity | reflexivity |].
  run_by Hrun2.
  destruct (guarded_write bundleName w2 _ (bid row) b3
              (setDateText (sentDate latest)) (EvSetDate bundleName (sentDate latest))
              Hrow2)
    as (w3 & Hrun3 & Hst3 & Hrow3 & Hev3 & Hem3);
    [destruct b1, b2; reflexivity | reflexivity |].
  assert (F1 : writeName bundleName rendered row
               = if b1 then (row, [])
                 else (setNameHTML rendered row, [EvSetName bundleName rendered])).
  { unfold writeName. rewrite <- E1. reflexivity. }
  assert (F2 : forall r, subjectHTML r = subjectHTML row ->
               writeSenders bundleName senders r
               = if b2 then (r, [])
                 else (setSubjectHTML (JsString.join EMAIL_SENDERS_SEPARATOR senders) r,
                       [EvSetSenders bundleName
                          (JsString.join EMAIL_SENDERS_SEPARATOR senders)])).
  { intros r Hr. unfold writeSenders. rewrite Hr, <- E2. reflexivity. }
  assert (F3 : forall r, dateText r = dateText row ->
               writeDate bundleName (sentDate latest) r
               = if b3 then (r, [])
                 else (setDateText (sentDate latest) r,
                       [EvSetDate bundleName (sentDate latest)])).
  { intros r Hr. unfold writeDate. rewrite Hr, <- E3. reflexivity. }
  clear E1 E2 E3.
  exists w3. split; [exact Hs|]. split; [exact Hrun3|].
  split; [congruence|].
  rewrite F1, F2 by (destruct b1; reflexivity).
  rewrite F3 by (destruct b1, b2; reflexivity).
  split; [|split].
  - rewrite Hrow3. destruct b1, b2, b3; reflexivity.
  - rewrite Hev3, Hev2, Hev1, <- !app_assoc. destruct b1, b2, b3; reflexivity.
  - intros j. rewrite Hem3, Hem2, Hem1. reflexivity.
Qed.

Lemma shownSeparator_eq :
  shownSeparator = JsString.replaceAll "&nbsp;" UNICODE_NBSP EMAIL_SENDERS_SEPARATOR.
Proof. reflexivity. Qed.


Lemma writeName_shows bundleName rendered row :
  sameText (nameHTML (fst (writeName bundleName rendered row))) rendered.
Proof.
  unfold writeName, sameText.
  destruct (String.eqb _ _) eqn:E; cbn [fst nameHTML setNameHTML].
  - now apply String.eqb_eq.
  - reflexivity.
Qed.

Lemma writeName_keeps bundleName rendered row :
  subjectHTML (fst (writeName bundleName rendered row)) = subjectHTML row /\
  dateText (fst (writeName bundleName rendered row)) = dateText row.
Proof. unfold writeName. destruct (String.eqb _ _); split; reflexivity. Qed.

Lemma writeSenders_shows bundleName senders row :
  subjectHTML (fst (writeSenders bundleName senders row))
  = JsString.join EMAIL_SENDERS_SEPARATOR senders \/
  sameText (innerText (subjectHTML (fst (writeSenders bundleName senders row))))
           (JsString.join shownSeparator senders).
Proof.
  unfold writeSenders, sameText. rewrite shownSeparator_eq.
  destruct (String.eqb _ _) eqn:E; cbn [fst subjectHTML setSubjectHTML].
  - right. now apply String.eqb_eq.
  - left. reflexivity.
Qed.

Lemma writeSenders_keeps bundleName senders row :
  nameHTML (fst (writeSenders bundleName senders row)) = nameHTML row /\
  dateText (fst (writeSenders bundleName senders row)) = dateText row.
Proof. unfold writeSenders. destruct (String.eqb _ _); split; reflexivity. Qed.

Lemma writeDate_shows bundleName date row :
  sameText (dateText (fst (writeDate bundleName date row))) date.
Proof.
  unfold writeDate, sameText.
  destruct (String.eqb _ _) eqn:E; cbn [fst dateText setDateText].
  - now apply String.eqb_eq.
  - reflexivity.
Qed.

Lemma writeDate_keeps bundleName date row :
  nameHTML (fst (writeDate bundleName date row)) = nameHTML row /\
  subjectHTML (fst (writeDate bundleName date row)) = subjectHTML row.
Proof. unfold writeDate. destruct (String.eqb _ _); split; reflexivity. Qed.



(** ** Rendering twice *)

Lemma sendersOf_functional rows members senders senders' :
  sendersOf rows members senders -> sendersOf rows members senders' -> senders = senders'.
Proof.
  intros H. revert senders'. induction H as [|i text members senders (e & He & Ht) _ IH];
    intros senders' H'; inversion H' as [|? text' ? senders'' (e' & He' & Ht') Hrest]; subst.
  - reflexivity.
  - f_equal; [congruence | now apply IH].
Qed.

Lemma sendersOf_ext rows rows' members senders :
  (forall j, findEmail j rows' = findEmail j rows) ->
  sendersOf rows members senders -> sendersOf rows' members senders.
Proof.
  intros Hext H. induction H as [|i text members senders (e & He & Ht) _ IH];
    constructor; [|exact IH].
  exists e. rewrite Hext. auto.
Qed.

Lemma writeName_skip bundleName rendered row :
  sameText (nameHTML row) rendered -> writeName bundleName rendered row = (row, []).
Proof.
  unfold sameText, writeName. intros H. apply String.eqb_eq in H. rewrite H. reflexivity.
Qed.

Lemma writeSenders_skip bundleName senders row :
  sameText (innerText (subjectHTML row)) (JsString.join shownSeparator senders) ->
  writeSenders bundleName senders row = (row, []).
Proof.
  unfold sameText, writeSenders. rewrite shownSeparator_eq. intros H.
  apply String.eqb_eq in H. rewrite H. reflexivity.
Qed.

Lemma writeDate_skip bundleName date row :
  sameText (dateText row) date -> writeDate bundleName date row = (row, []).
Proof.
  unfold sameText, writeDate. intros H. apply String.eqb_eq in H. rewrite H. reflexivity.
Qed.

(** A second [updateBundleDom] right after a first one writes nothing,
    provided the browser shows the senders the first call wrote as the text
    the comparison expects (which it does unless a sender's own text holds
    the characters of the entity). *)
Lemma updateBundleDom_twice w bundleName row members i latest :
  renderedRow bundleName w = Some row ->
  JsObject.get bundleName (bundles (state w)) = Some members ->
  nth_error members 0 = Some i ->
  findEmail i (visibleRows w) = Some latest ->
  Forall (fun j => findEmail j (visibleRows w) <> None)
         (firstn MAX_SENDERS_BUNDLE_DESC members) ->
  (forall senders,
     sendersOf (visibleRows w) (firstn MAX_SENDERS_BUNDLE_DESC members) senders ->
     sameText (innerText (JsString.join EMAIL_SENDERS_SEPARATOR senders))
              (JsString.join shownSeparator senders)) ->
  exists w1 w2,
    updateBundleDom bundleName w = Returns tt w1 /\
    updateBundleDom bundleName w1 = Returns tt w2 /\
    effects w2 = effects w1.
Proof.
  intros Hrow Hmem Hi Hlatest Hall Hshown.
  destruct (updateBundleDom_returns w bundleName row members i latest
              Hrow Hmem Hi Hlatest Hall)
    as (senders & w1 & Hs & Hrun1 & Hst1 & Hrow1 & _ & Hem1).
  cbv zeta in Hrow1.
  assert (Hmem1 : JsObject.get bundleName (bundles (state w1)) = Some members)
    by (rewrite Hst1; exact Hmem).
  assert (Hlatest1 : findEmail i (visibleRows w1) = Some latest)
    by (rewrite Hem1; exact Hlatest).
  assert (Hall1 : Forall (fun j => findEmail j (visibleRows w1) <> None)
                         (firstn MAX_SENDERS_BUNDLE_DESC members)).
  { apply Forall_impl with (2 := Hall). intros j Hj. rewrite Hem1. exact Hj. }
  destruct (updateBundleDom_returns w1 bundleName _ members i latest
              Hrow1 Hmem1 Hi Hlatest1 Hall1)
    as (senders' & w2 & Hs' & Hrun2 & _ & _ & Hev2 & _).
  cbv zeta in Hev2. rewrite Hst1 in Hev2.
  assert (senders' = senders) as ->.
  { eapply sendersOf_functional; [exact Hs'|]. eapply sendersOf_ext; [exact Hem1 | exact Hs]. }
  exists w1, w2. split; [exact Hrun1|]. split; [exact Hrun2|].
  rewrite Hev2.
  rewrite writeName_skip.
  2:{ rewrite (proj1 (writeDate_keeps _ _ _)), (proj1 (writeSenders_keeps _ _ _)).
      apply writeName_shows. }
  cbn [fst snd]. rewrite writeSenders_skip.
  2:{ rewrite (proj2 (writeDate_keeps _ _ _)).
      destruct (writeSenders_shows bundleName senders
                  (fst (writeName bundleName
                          (renderBundleName bundleName (List.length members)
                             (unread latest
                              || truthy (JsObject.get bundleName (bundlesUnread (state w))))
                             (truthy (JsObject.get bundleName (bundlesVisibility (state w)))))
                          row))) as [E|E];
        [rewrite E; apply Hshown, Hs | exact E]. }
  cbn [fst snd]. rewrite writeDate_skip by apply writeDate_shows.
  cbn [snd]. rewrite !app_nil_r. reflexivity.
Qed.

Lemma prefix_empty s : prefix "" s = true.
Proof. destruct s; reflexivity. Qed.

Lemma innerText_separator rest :
  innerText (EMAIL_SENDERS_SEPARATOR ++ rest) = (shownSeparator ++ innerText rest)%string.
Proof.
  unfold innerText, shownSeparator, JsString.replaceAll. cbn.
  rewrite prefix_empty. reflexivity.
Qed.

Lemma innerText_plain s rest :
  plain s -> innerText (s ++ rest) = (s ++ innerText rest)%string.
Proof.
  unfold innerText, JsString.replaceAll.
  induction s as [|c s IH]; intros Hp; [reflexivity|].
  assert (Hc : c <> "&"%char) by (apply Hp; cbn; auto).
  assert (Hs : plain s) by (intros x Hx; apply Hp; cbn; auto).
  cbn [append JsString.replaceAllFrom].
  assert (Hpre : prefix "&nbsp;" (String c (s ++ rest)) = false).
  { cbn [prefix]. destruct (ascii_dec "&" c) as [E|E]; [congruence | reflexivity]. }
  rewrite Hpre. f_equal. apply IH, Hs.
Qed.

Lemma append_empty s : (s ++ "")%string = s.
Proof. induction s as [|c s IH]; cbn; [|rewrite IH]; reflexivity. Qed.

(** Senders without an ampersand in their texts are shown as the comparison
    expects. *)
Lemma plain_senders_shown senders :
  Forall plain senders ->
  innerText (JsString.join EMAIL_SENDERS_SEPARATOR senders)
  = JsString.join shownSeparator senders.
Proof.
  induction senders as [|x rest IH]; intros Hall; [reflexivity|].
  inversion Hall as [|? ? Hx Hrest]; subst.
  destruct rest as [|y rest].
  - cbn [JsString.join]. rewrite <- (append_empty x) at 1.
    rewrite innerText_plain by exact Hx. cbn. apply append_empty.
  - change (JsString.join EMAIL_SENDERS_SEPARATOR (x :: y :: rest))
      with (x ++ EMAIL_SENDERS_SEPARATOR
              ++ JsString.join EMAIL_SENDERS_SEPARATOR (y :: rest))%string.
    change (JsString.join shownSeparator (x :: y :: rest))
      with (x ++ shownSeparator ++ JsString.join shownSeparator (y :: rest))%string.
    rewrite innerText_plain by exact Hx.
    rewrite innerText_separator, IH by exact Hrest. reflexivity.
Qed.

(** So with such senders a second [updateBundleDom] writes nothing. *)
Lemma updateBundleDom_twice_plain w bundleName row members i latest :
  renderedRow bundleName w = Some row ->
  JsObject.get bundleName (bundles (state w)) = Some members ->
  nth_error members 0 = Some i ->
  findEmail i (visibleRows w) = Some latest ->
  Forall (fun j => exists e, findEmail j (visibleRows w) = Some e /\ plain (sender e))
         (firstn MAX_SENDERS_BUNDLE_DESC members) ->
  exists w1 w2,
    updateBundleDom bundleName w = Returns tt w1 /\
    updateBundleDom bundleName w1 = Returns tt w2 /\
    effects w2 = effects w1.
Proof.
  intros Hrow Hmem Hi Hlatest Hall.
  apply (updateBundleDom_twice w bundleName row members i latest); auto.
  - apply Forall_impl with (2 := Hall). intros j (e & He & _). congruence.
  - intros senders Hs. unfold sameText. f_equal. apply plain_senders_shown.
    unfold sendersOf in Hs. revert Hs Hall.
    generalize (firstn MAX_SENDERS_BUNDLE_DESC members) as l.
    intros l Hs. induction Hs as [|j text l senders Hj _ IH]; intros Hall;
      constructor.
    + destruct Hj as (e & He & Ht).
      inversion Hall as [|? ? He' _]; subst.
      destruct He' as (e' & He' & Hp).
      rewrite He in He'. injection He' as <-. exact Hp.
    + apply IH. now inversion Hall.
Qed.

(** C5.  The second of two [updateBundleDom] calls in a row does write when a
    sender's text has the characters [&nbsp;] in it.  The first call wrote
    the senders as HTML; the browser shows the entity as U+00A0, while the
    text the script compares with has only its separator normalized, so the
    comparison finds a difference on every call and the senders slot is
    written again, with the state and the row untouched in between. *)
Theorem update_rewrites_entity_sender :
  exists w1 w2,
    updateBundleDom "News" Sample.entityBundled = Returns tt w1 /\
    updateBundleDom "News" w1 = Returns tt w2 /\
    renderWrites w2 = renderWrites w1 ++ [EvSetSenders "News" "Q&nbsp;A"] /\
    state w2 = state w1 /\ emailTable w2 = emailTable w1.
Proof.
  eexists. eexists. split; [vm_compute; reflexivity|].
  split; [vm_compute; reflexivity|]. vm_compute. auto.
Qed.

(** ** Grouping *)

Lemma refOf_onEmail i f row :
  (forall e, eid (f e) = eid e) -> refOf (onEmail i f row) = refOf row.
Proof.
  intros Hf. destruct row as [e|b]; cbn; [|reflexivity].
  destruct (Nat.eqb (eid e) i); cbn; [rewrite Hf|]; reflexivity.
Qed.

Lemma findRow_map_onEmail ref i f tbl :
  (forall e, eid (f e) = eid e) ->
  findRow ref (map (onEmail i f) tbl) = option_map (onEmail i f) (findRow ref tbl).
Proof.
  intros Hf. induction tbl as [|row tbl IH]; cbn; [reflexivity|].
  rewrite refOf_onEmail by exact Hf.
  destruct (Ref_eqb (refOf row) ref); [reflexivity | exact IH].
Qed.

Lemma sameContent_marked r r' i :
  sameContent r r' -> sameContent r (onEmail i addIsBundled r').
Proof.
  destruct r as [e|b], r' as [e'|b']; cbn; try tauto.
  destruct (Nat.eqb (eid e') i); cbn; tauto.
Qed.

Lemma Ref_eqb_eq a b : Ref_eqb a b = true <-> a = b.
Proof.
  destruct a as [i|i], b as [j|j]; cbn; rewrite ?Nat.eqb_eq;
    split; intros H; try discriminate; congruence.
Qed.

Lemma Ref_eqb_refl a : Ref_eqb a a = true.
Proof. now apply Ref_eqb_eq. Qed.

Lemma markBundled_nil tbl : map (markBundled []) tbl = tbl.
Proof.
  induction tbl as [|[e|b] tbl IH]; cbn; [reflexivity | |]; now rewrite IH.
Qed.

Lemma markBundled_cons i refs tbl :
  map (markBundled refs) (map (onEmail i addIsBundled) tbl)
  = map (markBundled (EmailRef i :: refs)) tbl.
Proof.
  rewrite map_map. apply map_ext. intros [e|b]; [|reflexivity].
  cbn [onEmail markBundled existsb Ref_eqb].
  destruct (Nat.eqb (eid e) i) eqn:E; cbn [orb markBundled].
  - cbn [eid addIsBundled].
    destruct (existsb (Ref_eqb (EmailRef (eid e))) refs); reflexivity.
  - reflexivity.
Qed.

Lemma groupLabels_own i isUnread : forall ls g,
  existsb JsObject.inherited ls = false ->
  groupLabels i isUnread ls g = Some (fold_left (groupLabel i isUnread) ls g).
Proof.
  induction ls as [|label ls IH]; intros g H; [reflexivity|].
  cbn [existsb] in H. apply orb_false_iff in H as [Hl Hrest].
  cbn [groupLabels fold_left]. rewrite Hl. apply IH. exact Hrest.
Qed.

Lemma groupLabels_inherited i isUnread : forall ls g,
  existsb JsObject.inherited ls = true -> groupLabels i isUnread ls g = None.
Proof.
  induction ls as [|label ls IH]; intros g H; [discriminate|].
  cbn [groupLabels]. destruct (JsObject.inherited label) eqn:Hl; [reflexivity|].
  apply IH. cbn [existsb] in H. rewrite Hl in H. exact H.
Qed.

Lemma ownLabels_cons row rows :
  ownLabels (row :: rows)
  <-> existsb JsObject.inherited (rowLabels row) = false /\ ownLabels rows.
Proof.
  unfold ownLabels. cbn [forallb]. rewrite andb_true_iff, negb_true_iff. reflexivity.
Qed.

(** The loop over the rows: it returns the grouping of the rows read, and
    has set the marker on the rows with a label. *)
Lemma groupEmails_returns st ev : forall todo tbl g,
  ownLabels todo ->
  (forall r, In r todo -> exists r', findRow (refOf r) tbl = Some r' /\ sameContent r r') ->
  groupEmails (map refOf todo) g (mkWorld st (Some tbl) ev)
  = Returns (fold_left groupRow todo g)
            (mkWorld st (Some (map (markBundled (map refOf (filter labelled todo))) tbl)) ev).
Proof.
  induction todo as [|r todo IH]; intros tbl g Hown Hfound.
  - cbn. rewrite markBundled_nil. reflexivity.
  - apply ownLabels_cons in Hown as [Hr Hown].
    destruct (Hfound r (or_introl eq_refl)) as (r' & Hr' & Hsame).
    assert (Hrest : forall i x, In x todo ->
              exists x', findRow (refOf x) (map (onEmail i addIsBundled) tbl) = Some x'
                         /\ sameContent x x').
    { intros i x Hx. destruct (Hfound x (or_intror Hx)) as (x' & Hx' & Hs).
      exists (onEmail i addIsBundled x'). split.
      - rewrite findRow_map_onEmail by reflexivity. rewrite Hx'. reflexivity.
      - now apply sameContent_marked. }
    cbn [map groupEmails]. run. cbn [emailTable]. rewrite Hr'. run.
    destruct r as [e|b], r' as [e'|b']; cbn in Hsame; try contradiction.
    + destruct Hsame as (Hid & Hlab & Hun).
      cbn [fold_left groupRow filter labelled]. rewrite <- Hlab, <- Hun, <- Hid.
      destruct (labels e) as [|c cs] eqn:Hl.
      * cbn [map fold_left]. apply IH; [exact Hown|]. intros x Hx. apply Hfound. now right.
      * run. cbn [rowLabels] in Hr. rewrite Hl in Hr.
        rewrite (groupLabels_own _ _ _ g Hr). run.
        unfold updateEmail, modifyRows. cbn [state emailTable effects option_map].
        rewrite IH by (exact Hown || apply Hrest).
        cbn [map refOf]. rewrite markBundled_cons. reflexivity.
    + cbn [fold_left groupRow filter labelled]. apply IH; [exact Hown|].
      intros x Hx. apply Hfound. now right.
Qed.

Lemma groupRows_incidences rows : forall g,
  fold_left groupRow rows g = fold_left groupIncidence (incidences rows) g.
Proof.
  induction rows as [|row rows IH]; intros g; [reflexivity|].
  cbn [fold_left incidences flat_map]. fold (incidences rows).
  rewrite fold_left_app, IH. f_equal.
  destruct row as [e|b]; [|reflexivity]. cbn [groupRow].
  generalize (labels e) as cs. intros cs. revert g.
  induction cs as [|c cs IHc]; intros g; [reflexivity|]. cbn [map fold_left].
  rewrite IHc. reflexivity.
Qed.

Lemma includes_In x l : includes x l = true <-> In x l.
Proof.
  unfold includes. rewrite existsb_exists. split.
  - intros (y & Hy & E). apply String.eqb_eq in E. now subst.
  - intros H. exists x. split; [exact H | apply String.eqb_refl].
Qed.

Lemma keys_set_absent {V} (k : string) (v : V) (o : JsObject.t V) :
  JsObject.get k o = None -> JsObject.keys (JsObject.set k v o) = JsObject.keys o ++ [k].
Proof.
  induction o as [|[k0 v0] o IH]; cbn; [reflexivity|].
  destruct (String.eqb k k0); [discriminate|]. cbn. intros H. f_equal. apply IH, H.
Qed.

Lemma groupIncidence_keys g p :
  orderedKeys g -> orderedKeys (groupIncidence g p).
Proof.
  unfold orderedKeys, groupIncidence, groupLabel. cbn [gBundles gBundlesOrder].
  intros H. destruct (JsObject.get (incidenceLabel p) (gBundles g)) eqn:E.
  - rewrite keys_set_present by congruence. exact H.
  - rewrite keys_set_absent by exact E. now rewrite H.
Qed.

(** The label order after the loops: the labels known before, then the new
    ones in the order they were first seen. *)
Lemma group_order inc : forall g,
  orderedKeys g ->
  orderedKeys (fold_left groupIncidence inc g) /\
  gBundlesOrder (fold_left groupIncidence inc g)
  = gBundlesOrder g ++ firstSeenFrom (gBundlesOrder g) (map incidenceLabel inc).
Proof.
  induction inc as [|p inc IH]; intros g Hk.
  - cbn. rewrite app_nil_r. auto.
  - cbn [fold_left map firstSeenFrom].
    destruct (IH (groupIncidence g p) (groupIncidence_keys g p Hk)) as [Hk' Ho].
    split; [exact Hk'|]. rewrite Ho.
    unfold groupIncidence, groupLabel. cbn [gBundlesOrder].
    destruct (JsObject.get (incidenceLabel p) (gBundles g)) eqn:E.
    + assert (Hin : includes (incidenceLabel p) (gBundlesOrder g) = true).
      { apply includes_In. rewrite <- Hk. apply get_in_keys. congruence. }
      rewrite Hin. reflexivity.
    + assert (Hin : includes (incidenceLabel p) (gBundlesOrder g) = false).
      { destruct (includes _ _) eqn:Ei; [|reflexivity].
        apply includes_In in Ei. rewrite <- Hk in Ei. apply get_in_keys in Ei.
        congruence. }
      rewrite Hin, <- app_assoc. reflexivity.
Qed.

(** The member lists after the loops: what a list held before, then the
    rows that carry the label, in the order they were met. *)
Lemma group_members label inc : forall g,
  JsObject.get label (gBundles (fold_left groupIncidence inc g))
  = match filter (fun p => String.eqb (incidenceLabel p) label) inc with
    | [] => JsObject.get label (gBundles g)
    | new =>
      Some (match JsObject.get label (gBundles g) with Some old => old | None => [] end
            ++ map incidenceRow new)
    end.
Proof.
  induction inc as [|p inc IH]; intros g; [reflexivity|].
  cbn [fold_left filter]. rewrite IH.
  unfold groupIncidence, groupLabel. cbn [gBundles].
  destruct (String.eqb (incidenceLabel p) label) eqn:E.
  - apply String.eqb_eq in E. rewrite E, get_set_same.
    destruct (filter _ inc) as [|q new]; cbn [map].
    + reflexivity.
    + rewrite <- app_assoc. reflexivity.
  - apply String.eqb_neq in E. rewrite get_set_other by congruence. reflexivity.
Qed.

Lemma sameContent_refl r : sameContent r r.
Proof. destruct r; cbn; auto. Qed.

Lemma findRow_In ref rows row : findRow ref rows = Some row -> In row rows /\ refOf row = ref.
Proof.
  induction rows as [|r rows IH]; cbn; [discriminate|].
  destruct (Ref_eqb (refOf r) ref) eqn:E.
  - intros [= <-]. apply Ref_eqb_eq in E. auto.
  - intros H. destruct (IH H). auto.
Qed.

(** In a table whose nodes are distinct, a reference finds its row. *)
Lemma findRow_NoDup rows row :
  NoDup (map refOf rows) -> In row rows -> findRow (refOf row) rows = Some row.
Proof.
  induction rows as [|r rows IH]; cbn; [tauto|].
  intros Hnd Hin. inversion Hnd as [|? ? Hnotin Hnd']; subst.
  destruct (Ref_eqb (refOf r) (refOf row)) eqn:E.
  - destruct Hin as [->|Hin]; [reflexivity|].
    apply Ref_eqb_eq in E. exfalso. apply Hnotin. rewrite E. now apply in_map.
  - destruct Hin as [->|Hin]; [rewrite Ref_eqb_refl in E; discriminate|].
    now apply IH.
Qed.

Lemma NoDup_same_email rows e e' :
  NoDup (map refOf rows) -> In (EmailRow e) rows -> In (EmailRow e') rows ->
  eid e = eid e' -> e = e'.
Proof.
  intros Hnd He He' Hid.
  pose proof (findRow_NoDup rows _ Hnd He) as H1.
  pose proof (findRow_NoDup rows _ Hnd He') as H2.
  cbn [refOf] in H1, H2. rewrite Hid in H1. congruence.
Qed.

Lemma carrying_In label rows i :
  In i (carrying label rows) <->
  exists e, In (EmailRow e) rows /\ eid e = i /\ In label (map chipText (labels e)).
Proof.
  unfold carrying, incidences. rewrite in_map_iff. split.
  - intros (p & Hp & Hin). apply filter_In in Hin as [Hin Hl].
    apply String.eqb_eq in Hl. apply in_flat_map in Hin as (row & Hrow & Hin).
    destruct row as [e|b]; [|destruct Hin].
    apply in_map_iff in Hin as (c & Hc & Hin). subst p. cbn in Hp, Hl.
    exists e. repeat split; auto. subst label. now apply in_map.
  - intros (e & He & Hid & Hl). apply in_map_iff in Hl as (c & Hc & Hin).
    exists (eid e, unread e, chipText c). split; [exact Hid|].
    apply filter_In. split.
    + apply in_flat_map. exists (EmailRow e). split; [exact He|].
      apply in_map_iff. exists c. auto.
    + cbn. rewrite Hc. apply String.eqb_refl.
Qed.

(** With a label that names a member of Object.prototype on one of the rows,
    the loop throws. *)
Lemma groupEmails_throws st ev : forall todo tbl g,
  ~ ownLabels todo ->
  (forall r, In r todo -> exists r', findRow (refOf r) tbl = Some r' /\ sameContent r r') ->
  exists w', groupEmails (map refOf todo) g (mkWorld st (Some tbl) ev) = Throws w'
             /\ state w' = st.
Proof.
  induction todo as [|r todo IH]; intros tbl g Hown Hfound.
  - exfalso. apply Hown. reflexivity.
  - destruct (Hfound r (or_introl eq_refl)) as (r' & Hr' & Hsame).
    assert (Hrest : forall i x, In x todo ->
              exists x', findRow (refOf x) (map (onEmail i addIsBundled) tbl) = Some x'
                         /\ sameContent x x').
    { intros i x Hx. destruct (Hfound x (or_intror Hx)) as (x' & Hx' & Hs).
      exists (onEmail i addIsBundled x'). split.
      - rewrite findRow_map_onEmail by reflexivity. rewrite Hx'. reflexivity.
      - now apply sameContent_marked. }
    assert (Hcases : existsb JsObject.inherited (rowLabels r) = true
                     \/ (existsb JsObject.inherited (rowLabels r) = false
                         /\ ~ ownLabels todo)).
    { destruct (existsb JsObject.inherited (rowLabels r)) eqn:Hr; [now left | right].
      split; [reflexivity|]. intros H. apply Hown. apply ownLabels_cons. auto. }
    cbn [map groupEmails]. run. cbn [emailTable]. rewrite Hr'. run.
    destruct r as [e|b], r' as [e'|b']; cbn in Hsame; try contradiction.
    + destruct Hsame as (Hid & Hlab & Hun). cbn [rowLabels] in Hcases.
      rewrite <- Hlab, <- Hun, <- Hid.
      destruct (labels e) as [|c cs] eqn:Hl.
      * destruct Hcases as [H|[_ H]]; [discriminate|].
        apply IH; [exact H|]. intros x Hx. apply Hfound. now right.
      * run. destruct Hcases as [H|[H Htodo]].
        -- rewrite (groupLabels_inherited _ _ _ g H). eexists. split; reflexivity.
        -- rewrite (groupLabels_own _ _ _ g H). run.
           unfold updateEmail, modifyRows. cbn [state emailTable effects option_map].
           apply IH; [exact Htodo | apply Hrest].
    + destruct Hcases as [H|[_ H]]; [discriminate|].
      apply IH; [exact H|]. intros x Hx. apply Hfound. now right.
Qed.

Lemma setBundleStateToEmails_returns w rows :
  emailTable w = Some rows ->
  NoDup (map refOf rows) ->
  ownLabels rows ->
  let g := fold_left groupIncidence (incidences rows) (mkGrouping [] [] []) in
  setBundleStateToEmails (map refOf rows) w
  = Returns tt
      (mkWorld (withBundles (gBundles g) (gBundlesUnread g) (gBundlesOrder g) (state w))
               (Some (map (markBundled (map refOf (filter labelled rows))) rows))
               (effects w)).
Proof.
  intros Htbl Hnd Hown g. destruct w as [st tbl ev]. cbn in Htbl. subst tbl.
  unfold setBundleStateToEmails.
  rewrite (bind_returns _ _ _ _ _
             (groupEmails_returns st ev rows rows (mkGrouping [] [] []) Hown
                (fun r Hr => ex_intro _ r (conj (findRow_NoDup rows r Hnd Hr)
                                                (sameContent_refl r))))).
  rewrite groupRows_incidences. reflexivity.
Qed.

(** The recompute throws when a label on the rows names a member of
    Object.prototype, and [state] is then as before. *)
Lemma setBundleStateToEmails_throws w rows :
  emailTable w = Some rows ->
  NoDup (map refOf rows) ->
  ~ ownLabels rows ->
  exists w', setBundleStateToEmails (map refOf rows) w = Throws w'.
Proof.
  intros Htbl Hnd Hown. destruct w as [st tbl ev]. cbn in Htbl. subst tbl.
  destruct (groupEmails_throws st ev rows rows (mkGrouping [] [] []) Hown
              (fun r Hr => ex_intro _ r (conj (findRow_NoDup rows r Hnd Hr)
                                              (sameContent_refl r))))
    as (w' & Hthrows & _).
  exists w'. unfold setBundleStateToEmails. apply bind_throws. exact Hthrows.
Qed.

(** [state] is then as it was: the three assignments that end the function
    are not reached. *)
Lemma setBundleStateToEmails_throws_state w rows :
  emailTable w = Some rows ->
  NoDup (map refOf rows) ->
  ~ ownLabels rows ->
  exists w', setBundleStateToEmails (map refOf rows) w = Throws w' /\ state w' = state w.
Proof.
  intros Htbl Hnd Hown. destruct w as [st tbl ev]. cbn in Htbl. subst tbl.
  destruct (groupEmails_throws st ev rows rows (mkGrouping [] [] []) Hown
              (fun r Hr => ex_intro _ r (conj (findRow_NoDup rows r Hnd Hr)
                                              (sameContent_refl r))))
    as (w' & Hthrows & Hstate).
  exists w'. split; [|exact Hstate].
  unfold setBundleStateToEmails. apply bind_throws. exact Hthrows.
Qed.

Lemma ownLabels_dec rows : ownLabels rows \/ ~ ownLabels rows.
Proof.
  unfold ownLabels. destruct (forallb _ rows); [now left | right; discriminate].
Qed.

(** So a recompute that returns ran over labels that can be keys. *)
Lemma setBundleStateToEmails_own w rows w' :
  emailTable w = Some rows ->
  NoDup (map refOf rows) ->
  setBundleStateToEmails (map refOf rows) w = Returns tt w' ->
  ownLabels rows.
Proof.
  intros Htbl Hnd Hrun. destruct (ownLabels_dec rows) as [H|H]; [exact H|].
  destruct (setBundleStateToEmails_throws w rows Htbl Hnd H) as [w'' Hthrows].
  congruence.
Qed.

(** The recompute in full: the world it returns. *)
Lemma recompute_members w rows :
  emailTable w = Some rows ->
  NoDup (map refOf rows) ->
  ownLabels rows ->
  exists w',
    setBundleStateToEmails (map refOf rows) w = Returns tt w' /\
    visibleRows w' = map (markBundled (map refOf (filter labelled rows))) rows /\
    (forall label, membersOf label w' = carrying label rows) /\
    bundlesOrder (state w') = firstSeen (map incidenceLabel (incidences rows)) /\
    JsObject.keys (bundles (state w')) = bundlesOrder (state w').
Proof.
  intros Htbl Hnd Hown. eexists. split; [now apply setBundleStateToEmails_returns|].
  split; [reflexivity|].
  destruct (group_order (incidences rows) (mkGrouping [] [] []) eq_refl) as [Hk Ho].
  split; [|split].
  - intros label. unfold membersOf. cbn [state bundles withBundles].
    rewrite group_members. unfold carrying. cbn [gBundles JsObject.get].
    destruct (filter _ (incidences rows)); reflexivity.
  - cbn [state bundlesOrder withBundles]. exact Ho.
  - cbn [state bundles bundlesOrder withBundles]. exact Hk.
Qed.

Lemma carrying_iff rows label e :
  NoDup (map refOf rows) ->
  In (EmailRow e) rows ->
  (In (eid e) (carrying label rows) <-> In label (map chipText (labels e))).
Proof.
  intros Hnd He. rewrite carrying_In. split.
  - intros (e' & He' & Hid & Hl).
    now rewrite (NoDup_same_email rows e e' Hnd He He' (eq_sym Hid)).
  - intros Hl. exists e. auto.
Qed.

(** C1.  A label can have the name of a member of Object.prototype
    ([constructor], [toString], ...).  The recompute over a snapshot of rows
    (distinct nodes of the table) one of which carries such a label throws:
    [bundles[label]] is the inherited member, not a member list.  [state] is
    then as it was before the recompute, so no row of the snapshot has been
    put into the bundle of a label it carries. *)
Theorem recompute_throws_on_inherited_label (w : World) (rows : list Row) :
  emailTable w = Some rows ->
  NoDup (map refOf rows) ->
  ~ ownLabels rows ->
  exists w',
    setBundleStateToEmails (map refOf rows) w = Throws w' /\
    state w' = state w /\
    (forall label, membersOf label w' = membersOf label w).
Proof.
  intros Htbl Hnd Hown.
  destruct (setBundleStateToEmails_throws_state w rows Htbl Hnd Hown) as (w' & Hrun & Hstate).
  exists w'. split; [exact Hrun|]. split; [exact Hstate|].
  intros label. unfold membersOf. rewrite Hstate. reflexivity.
Qed.

Lemma recompute_throws_on_inherited_label_witness :
  NoDup (map refOf Sample.inheritedInbox) /\
  ~ ownLabels Sample.inheritedInbox /\
  exists w',
    setBundleStateToEmails (map refOf Sample.inheritedInbox) Sample.inheritedStart = Throws w' /\
    membersOf "Work" w' = [] /\
    membersOf "constructor" w' = [].
Proof.
  assert (Hnd : NoDup (map refOf Sample.inheritedInbox)).
  { cbn. repeat constructor; cbn; intuition discriminate. }
  assert (Hown : ~ ownLabels Sample.inheritedInbox) by (vm_compute; discriminate).
  split; [exact Hnd|]. split; [exact Hown|].
  destruct (recompute_throws_on_inherited_label Sample.inheritedStart Sample.inheritedInbox
              eq_refl Hnd Hown) as (w' & Hrun & _ & Hmem).
  exists w'. split; [exact Hrun|]. rewrite !Hmem. split; reflexivity.
Defined.

(** X30.  When no label on the rows has the name of a member of
    Object.prototype, the recompute over a snapshot of rows (distinct nodes
    of the table) returns, and then: the member list of a label is the rows
    that carry the label, in snapshot order; so a row is in the list of a
    label if and only if it carries the label, and a row with labels A and B
    is in both lists; the label ordering is the order the labels are first
    seen in over the snapshot. *)
Theorem grouping_correct (w : World) (rows : list Row) :
  emailTable w = Some rows ->
  NoDup (map refOf rows) ->
  ownLabels rows ->
  exists w',
    setBundleStateToEmails (map refOf rows) w = Returns tt w' /\
    (forall label, membersOf label w' = carrying label rows) /\
    (forall label e, In (EmailRow e) rows ->
       (In (eid e) (membersOf label w') <-> In label (map chipText (labels e)))) /\
    (forall a b e, In (EmailRow e) rows ->
       In a (map chipText (labels e)) -> In b (map chipText (labels e)) ->
       In (eid e) (membersOf a w') /\ In (eid e) (membersOf b w')) /\
    bundlesOrder (state w') = firstSeen (map incidenceLabel (incidences rows)).
Proof.
  intros Htbl Hnd Hown.
  destruct (recompute_members w rows Htbl Hnd Hown) as (w' & Hrun & _ & Hmem & Ho & _).
  exists w'. split; [exact Hrun|]. split; [exact Hmem|]. split; [|split].
  - intros label e He. rewrite Hmem. now apply carrying_iff.
  - intros a b e He Ha Hb. rewrite !Hmem. split; now apply carrying_iff.
  - exact Ho.
Qed.

Lemma grouping_correct_witness :
  NoDup (map refOf Sample.inbox) /\
  exists w',
    setBundleStateToEmails (map refOf Sample.inbox) Sample.start = Returns tt w' /\
    membersOf "Work" w' = [1; 2] /\
    membersOf "Personal" w' = [2; 4] /\
    bundlesOrder (state w') = ["Work"; "Personal"].
Proof.
  assert (Hnd : NoDup (map refOf Sample.inbox)).
  { cbn. repeat constructor; cbn; intuition discriminate. }
  split; [exact Hnd|].
  destruct (grouping_correct Sample.start Sample.inbox eq_refl Hnd eq_refl)
    as (w' & Hrun & Hmem & _ & _ & Ho).
  exists w'. split; [exact Hrun|]. rewrite !Hmem, Ho. repeat split.
Defined.

(** ** Closing the open bundle *)

(** [resetBundleDomsPosition] does the same whatever it is passed. *)
Lemma resetBundleDomsPosition_ignores_arguments args args' :
  resetBundleDomsPosition args = resetBundleDomsPosition args'.
Proof. reflexivity. Qed.

(** C3.  On the page [Sample.reordered] Bills is open and comes last in the
    label ordering, so no bundle is ordered after it; a click on Clubs closes
    Bills first, and that step takes the row of Clubs, which is ordered
    before Bills, out of the table and inserts it again in front of the
    newest club message.  [turnOffBundleVisibility] does compute the bundles
    ordered after the one it closes and passes them on, but
    [resetBundleDomsPosition] takes no argument and goes through all
    bundles. *)
Theorem closing_repositions_earlier_bundle :
  getVisibleBundleName (state Sample.reordered) = Some "Bills" /\
  bundlesOrder (state Sample.reordered) = ["Clubs"; "Bills"] /\
  bundlesAfter "Bills" (bundlesOrder (state Sample.reordered)) = [] /\
  option_map (map refOf) (emailTable Sample.reordered)
  = Some [EmailRef 3; BundleRef 1; EmailRef 1; BundleRef 2; EmailRef 2] /\
  exists w',
    closeOpenBundle "Clubs" (state Sample.reordered) Sample.reordered = Returns tt w' /\
    removedBundles w' = removedBundles Sample.reordered ++ ["Clubs"] /\
    option_map (map refOf) (emailTable w')
    = Some [BundleRef 2; EmailRef 3; BundleRef 1; EmailRef 1; EmailRef 2].
Proof.
  repeat (split; [reflexivity|]).
  eexists. split; [vm_compute; reflexivity|]. split; reflexivity.
Qed.

(** ** Rows without labels *)

(** The recompute leaves a row without labels as it is (so without the
    marker if it had none), and puts it in no bundle. *)
Lemma unlabelled_row_untouched w rows e :
  emailTable w = Some rows ->
  NoDup (map refOf rows) ->
  ownLabels rows ->
  In (EmailRow e) rows ->
  labels e = [] ->
  exists w',
    setBundleStateToEmails (map refOf rows) w = Returns tt w' /\
    In (EmailRow e) (visibleRows w') /\
    forall label, ~ In (eid e) (membersOf label w').
Proof.
  intros Htbl Hnd Hown He Hl.
  destruct (recompute_members w rows Htbl Hnd Hown) as (w' & Hrun & Hrows & Hmem & _).
  exists w'. split; [exact Hrun|]. split.
  - rewrite Hrows. apply in_map_iff. exists (EmailRow e). split; [|exact He].
    cbn [markBundled].
    destruct (existsb _ _) eqn:E; [|reflexivity]. exfalso.
    apply existsb_exists in E as (ref & Hin & Href). apply Ref_eqb_eq in Href. subst ref.
    apply in_map_iff in Hin as (r & Hr & Hin). apply filter_In in Hin as [Hin Hlab].
    destruct r as [e'|b]; [|discriminate]. cbn in Hr. injection Hr as Hid.
    rewrite (NoDup_same_email rows e' e Hnd Hin He Hid) in Hlab.
    cbn in Hlab. rewrite Hl in Hlab. discriminate.
  - intros label Hin. rewrite Hmem in Hin.
    apply (carrying_iff rows label e Hnd He) in Hin. rewrite Hl in Hin. exact Hin.
Qed.

(** C4.  On the page [Sample.labelLost] Ann's message, bundled and hidden by
    the first cycle, has no label any more.  The next cycle returns with no
    bundle open and the message in no bundle, but the message still has the
    marker and is still hidden: the script sets the marker and never takes
    it off, and [showUnbundledEmails] passes over rows that have it.  Opening
    and closing a bundle afterwards leaves the message hidden, too. *)
Theorem row_that_lost_labels_stays_hidden :
  exists e w' e',
    findEmail 1 (visibleRows Sample.labelLost) = Some e /\ labels e = [] /\
    runBundlizer Sample.labelLost = Returns tt w' /\
    getVisibleBundleName (state w') = None /\
    JsObject.keys (bundles (state w')) = ["Work"; "Personal"] /\
    membersOf "Work" w' = [2] /\ membersOf "Personal" w' = [2; 4] /\
    findEmail 1 (visibleRows w') = Some e' /\
    labels e' = [] /\ isBundledClass e' = true /\ hiddenClass e' = true /\
    showUnbundledEmails w' = Returns tt w' /\
    findEmail 1 (visibleRows (click (click w' "Work") "Work")) = Some e'.
Proof.
  eexists. eexists. eexists.
  split; [vm_compute; reflexivity|]. split; [reflexivity|].
  split; [vm_compute; reflexivity|].
  repeat (split; [reflexivity|]). vm_compute. reflexivity.
Qed.

(** ** Hiding and revealing rows *)

Lemma applyTo_nil f rows : map (applyTo f []) rows = rows.
Proof. induction rows as [|[e|b] rows IH]; cbn; [reflexivity| |]; now rewrite IH. Qed.

Lemma applyTo_cons f i ids rows :
  (forall e, eid (f e) = eid e) ->
  (forall e, f (f e) = f e) ->
  map (applyTo f ids) (map (onEmail i f) rows) = map (applyTo f (i :: ids)) rows.
Proof.
  intros Hid Hidem. rewrite map_map. apply map_ext. intros [e|b]; [|reflexivity].
  cbn [onEmail applyTo existsb].
  destruct (Nat.eqb (eid e) i); cbn [orb applyTo]; [|reflexivity].
  rewrite Hid, Hidem. destruct (existsb _ ids); reflexivity.
Qed.

(** A [forEach] that updates one row after the other comes to one pass over
    the table. *)
Lemma forEach_updateEmail f st ev :
  (forall e, eid (f e) = eid e) ->
  (forall e, f (f e) = f e) ->
  forall ids tbl,
    forEach ids (fun i => updateEmail i f) (mkWorld st tbl ev)
    = Returns tt (mkWorld st (option_map (map (applyTo f ids)) tbl) ev).
Proof.
  intros Hid Hidem. induction ids as [|i ids IH]; intros tbl.
  - cbn. destruct tbl as [rows|]; cbn; [rewrite applyTo_nil|]; reflexivity.
  - cbn [forEach]. run. unfold updateEmail, modifyRows.
    cbn [state emailTable effects]. rewrite IH.
    destruct tbl as [rows|]; cbn [option_map]; [|reflexivity].
    rewrite applyTo_cons by assumption. reflexivity.
Qed.

Lemma in_emailRow_ids (sel : Row -> bool) rows i :
  In i (flat_map (fun r => match r with
                           | EmailRow e => if sel (EmailRow e) then [eid e] else []
                           | SyntheticRow _ => []
                           end) rows)
  <-> exists e, In (EmailRow e) rows /\ sel (EmailRow e) = true /\ eid e = i.
Proof.
  rewrite in_flat_map. split.
  - intros ([e|b] & Hin & Hi); [|destruct Hi].
    destruct (sel (EmailRow e)) eqn:E; [|destruct Hi].
    destruct Hi as [Hi|[]]. eauto.
  - intros (e & Hin & Hsel & Hi). exists (EmailRow e). split; [exact Hin|].
    rewrite Hsel. now left.
Qed.

Lemma showUnbundledEmails_returns st rows ev :
  NoDup (map refOf rows) ->
  showUnbundledEmails (mkWorld st (Some rows) ev)
  = Returns tt (mkWorld st (Some (showUnbundled rows)) ev).
Proof.
  intros Hnd. unfold showUnbundledEmails. run. cbn [emailTable].
  rewrite forEach_updateEmail by reflexivity. cbn [option_map].
  do 3 f_equal. unfold showUnbundled. apply map_ext_in.
  intros [e|b] Hin; [|reflexivity]. cbn [applyTo hiddenUnbundled].
  destruct (hiddenClass e && negb (isBundledClass e)) eqn:Hsel.
  - assert (H : existsb (Nat.eqb (eid e))
                  (flat_map (fun r => match r with
                                      | EmailRow e0 =>
                                        if hiddenClass e0 && negb (isBundledClass e0)
                                        then [eid e0] else []
                                      | SyntheticRow _ => []
                                      end) rows) = true).
    { apply existsb_exists. exists (eid e). split; [|apply Nat.eqb_refl].
      apply (in_emailRow_ids hiddenUnbundled). exists e. auto. }
    rewrite H. reflexivity.
  - destruct (existsb _ _) eqn:H; [|reflexivity]. exfalso.
    apply existsb_exists in H as (i & Hi & Heq). apply Nat.eqb_eq in Heq. subst i.
    apply (in_emailRow_ids hiddenUnbundled) in Hi as (e' & Hin' & Hsel' & Hid).
    rewrite (NoDup_same_email rows e' e Hnd Hin' Hin Hid) in Hsel'.
    cbn in Hsel'. congruence.
Qed.

(** ** The orphan pass *)

Lemma get_delete {V} (k k' : string) (o : JsObject.t V) :
  JsObject.get k (JsObject.delete k' o)
  = if String.eqb k k' then None else JsObject.get k o.
Proof.
  induction o as [|[k0 v0] o IH]; cbn.
  - destruct (String.eqb k k'); reflexivity.
  - destruct (String.eqb k' k0) eqn:E0.
    + apply String.eqb_eq in E0; subst k0. rewrite IH.
      destruct (String.eqb k k'); reflexivity.
    + cbn. destruct (String.eqb k k0) eqn:E1.
      * apply String.eqb_eq in E1; subst k0. rewrite String.eqb_sym, E0. reflexivity.
      * exact IH.
Qed.

Lemma refOf_showUnbundled rows : map refOf (showUnbundled rows) = map refOf rows.
Proof.
  unfold showUnbundled. rewrite map_map. apply map_ext.
  intros [e|b]; [|reflexivity]. destruct (hiddenUnbundled (EmailRow e)); reflexivity.
Qed.

Lemma NoDup_removeRow ref rows :
  NoDup (map refOf rows) -> NoDup (map refOf (removeRow ref rows)).
Proof.
  unfold removeRow. induction rows as [|r rows IH]; cbn; [auto|].
  intros Hnd. inversion Hnd as [|? ? Hnotin Hnd']; subst.
  destruct (negb (Ref_eqb (refOf r) ref)); cbn; [|auto].
  constructor; [|auto]. intros Hin. apply Hnotin.
  apply in_map_iff in Hin as (x & Hx & Hin). apply filter_In in Hin as [Hin _].
  rewrite <- Hx. now apply in_map.
Qed.

Lemma removeIfOrphaned_returns t b0 u o names b : forall v rows ev,
  NoDup (map refOf rows) ->
  removeIfOrphaned names b (mkWorld (mkState t b0 v u o) (Some rows) ev)
  = Returns tt (mkWorld (mkState t b0 (fst (orphanStep names (v, rows) b)) u o)
                        (Some (snd (orphanStep names (v, rows) b)))
                        (ev ++ orphanTrace names v b)).
Proof.
  intros v rows ev Hnd. unfold removeIfOrphaned, orphanStep, orphanTrace, isOrphan. cbv zeta.
  destruct (includes (bundlename b) names); cbn [negb fst snd].
  - rewrite app_nil_r. reflexivity.
  - run. cbn [state bundlesVisibility].
    destruct (truthy (JsObject.get (bundlename b) v)).
    + assert (Hshow : (emit (EvShowUnbundled (bundlename b)) ;; showUnbundledEmails)
                        (mkWorld (mkState t b0 v u o) (Some rows) ev)
                      = Returns tt (mkWorld (mkState t b0 v u o) (Some (showUnbundled rows))
                                            (ev ++ [EvShowUnbundled (bundlename b)]))).
      { unfold bind, emit. cbn [state emailTable effects].
        apply showUnbundledEmails_returns. exact Hnd. }
      run_by Hshow. run. run. unfold emit. cbn [state emailTable effects option_map].
      rewrite <- app_assoc. reflexivity.
    + reflexivity.
Qed.

Lemma orphanStep_NoDup names s b :
  NoDup (map refOf (snd s)) -> NoDup (map refOf (snd (orphanStep names s b))).
Proof.
  intros Hnd. unfold orphanStep. destruct (isOrphan names b); [|exact Hnd].
  cbn [snd]. apply NoDup_removeRow.
  destruct (truthy _); [rewrite refOf_showUnbundled|]; exact Hnd.
Qed.

Lemma orphanPass_fold t b0 u o names bs : forall v rows ev,
  NoDup (map refOf rows) ->
  forEach bs (removeIfOrphaned names) (mkWorld (mkState t b0 v u o) (Some rows) ev)
  = Returns tt (mkWorld (mkState t b0 (fst (fold_left (orphanStep names) bs (v, rows))) u o)
                        (Some (snd (fold_left (orphanStep names) bs (v, rows))))
                        (ev ++ orphanEffects names bs v)).
Proof.
  induction bs as [|b bs IH]; intros v rows ev Hnd.
  - cbn [orphanEffects]. rewrite app_nil_r. reflexivity.
  - cbn [forEach fold_left orphanEffects].
    run_by (removeIfOrphaned_returns t b0 u o names b v rows ev Hnd).
    rewrite app_assoc.
    assert (Hv : fst (orphanStep names (v, rows) b)
                 = if isOrphan names b then JsObject.delete (bundlename b) v else v).
    { unfold orphanStep. destruct (isOrphan names b); reflexivity. }
    rewrite <- Hv.
    destruct (orphanStep names (v, rows) b) as [v1 rows1] eqn:Hstep.
    cbn [fst snd]. apply IH.
    change rows1 with (snd (v1, rows1)). rewrite <- Hstep.
    now apply orphanStep_NoDup.
Qed.

Lemma orphanStep_eq names v rows b :
  orphanStep names (v, rows) b
  = if isOrphan names b
    then (JsObject.delete (bundlename b) v,
          removeRow (BundleRef (bid b))
                    (if truthy (JsObject.get (bundlename b) v)
                     then showUnbundled rows else rows))
    else (v, rows).
Proof. reflexivity. Qed.

Lemma orphan_flags names bs label : forall v rows,
  JsObject.get label (fst (fold_left (orphanStep names) bs (v, rows)))
  = if orphanLabel names label bs then None else JsObject.get label v.
Proof.
  unfold orphanLabel.
  induction bs as [|b bs IH]; intros v rows; [reflexivity|].
  cbn [fold_left existsb]. rewrite orphanStep_eq.
  destruct (isOrphan names b); cbn [andb orb].
  - rewrite IH, get_delete. rewrite (String.eqb_sym (bundlename b) label).
    destruct (existsb _ bs); [destruct (String.eqb label (bundlename b)); reflexivity|].
    destruct (String.eqb label (bundlename b)); reflexivity.
  - apply IH.
Qed.

Lemma showUnbundled_idem rows : showUnbundled (showUnbundled rows) = showUnbundled rows.
Proof.
  unfold showUnbundled. rewrite map_map. apply map_ext.
  intros [e|b]; [|reflexivity]. cbn [hiddenUnbundled].
  destruct (hiddenClass e && negb (isBundledClass e)) eqn:E; [reflexivity|].
  cbn [hiddenUnbundled]. rewrite E. reflexivity.
Qed.

Lemma showUnbundled_removeRow ref rows :
  showUnbundled (removeRow ref rows) = removeRow ref (showUnbundled rows).
Proof.
  unfold showUnbundled, removeRow. induction rows as [|r rows IH]; [reflexivity|].
  cbn [map filter].
  assert (Href : refOf (match r with
                        | EmailRow e =>
                          if hiddenUnbundled r
                          then EmailRow (setHidden false EMAIL_DEFAULT_DISPLAY e) else r
                        | SyntheticRow _ => r
                        end) = refOf r).
  { destruct r as [e|b]; [|reflexivity]. destruct (hiddenUnbundled (EmailRow e)); reflexivity. }
  rewrite Href. destruct (negb (Ref_eqb (refOf r) ref)); cbn [map]; now rewrite IH.
Qed.

Lemma openOrphan_delete names b bs v :
  truthy (JsObject.get (bundlename b) v) = false ->
  openOrphan names (JsObject.delete (bundlename b) v) bs = openOrphan names v bs.
Proof.
  intros Hb. unfold openOrphan. induction bs as [|b' bs IH]; [reflexivity|].
  cbn [existsb]. rewrite IH. f_equal. f_equal. rewrite get_delete.
  destruct (String.eqb (bundlename b') (bundlename b)) eqn:E; [|reflexivity].
  apply String.eqb_eq in E. rewrite E, Hb. reflexivity.
Qed.

Lemma filter_true {A} (l : list A) : filter (fun _ => true) l = l.
Proof. induction l as [|x l IH]; cbn; [|rewrite IH]; reflexivity. Qed.

Lemma filter_twice {A} (p q : A -> bool) (l : list A) :
  filter p (filter q l) = filter (fun x => q x && p x) l.
Proof.
  induction l as [|x l IH]; cbn; [reflexivity|].
  destruct (q x); cbn; [destruct (p x)|]; now rewrite IH.
Qed.

(** The table after the pass: the rows of the orphans are gone, and the
    hidden unbundled rows have been revealed if an orphan was open. *)
Lemma orphan_rows names bs : forall v rows,
  snd (fold_left (orphanStep names) bs (v, rows))
  = filter (notRemoved names bs)
           (if openOrphan names v bs then showUnbundled rows else rows).
Proof.
  induction bs as [|b bs IH]; intros v rows.
  - cbn. unfold notRemoved. cbn. now rewrite filter_true.
  - cbn [fold_left]. rewrite orphanStep_eq.
    unfold openOrphan at 1. cbn [existsb]. fold (openOrphan names v bs).
    destruct (isOrphan names b) eqn:Eo; cbn [andb orb].
    + rewrite IH.
      assert (Hn : forall l, filter (notRemoved names (b :: bs)) l
                             = filter (notRemoved names bs)
                                      (removeRow (BundleRef (bid b)) l)).
      { intros l. unfold removeRow. rewrite filter_twice. apply filter_ext.
        intros row. unfold notRemoved. cbn [existsb]. rewrite Eo. cbn [andb].
        now rewrite negb_orb. }
      rewrite Hn.
      destruct (truthy (JsObject.get (bundlename b) v)) eqn:Et; cbn [orb].
      * f_equal. rewrite showUnbundled_removeRow, showUnbundled_idem.
        destruct (openOrphan _ _ bs); reflexivity.
      * rewrite (openOrphan_delete names b bs v Et), showUnbundled_removeRow.
        destruct (openOrphan names v bs); reflexivity.
    + rewrite IH. apply filter_ext. intros row. unfold notRemoved.
      cbn [existsb]. rewrite Eo. reflexivity.
Qed.

Lemma In_syntheticRows b rows : In b (syntheticRows rows) <-> In (SyntheticRow b) rows.
Proof.
  unfold syntheticRows. rewrite in_flat_map. split.
  - intros ([e|b'] & Hin & Hb); [destruct Hb|]. destruct Hb as [<-|[]]. exact Hin.
  - intros Hin. exists (SyntheticRow b). split; [exact Hin | now left].
Qed.

Lemma NoDup_same_bundle rows b b' :
  NoDup (map refOf rows) -> In (SyntheticRow b) rows -> In (SyntheticRow b') rows ->
  bid b = bid b' -> b = b'.
Proof.
  intros Hnd Hb Hb' Hid.
  pose proof (findRow_NoDup rows _ Hnd Hb) as H1.
  pose proof (findRow_NoDup rows _ Hnd Hb') as H2.
  cbn [refOf] in H1, H2. rewrite Hid in H1. congruence.
Qed.

Lemma In_showUnbundled_synthetic b rows :
  In (SyntheticRow b) (showUnbundled rows) <-> In (SyntheticRow b) rows.
Proof.
  unfold showUnbundled. rewrite in_map_iff. split.
  - intros ([e|b'] & Hx & Hin).
    + destruct (hiddenUnbundled (EmailRow e)); discriminate.
    + now injection Hx as ->.
  - intros Hin. exists (SyntheticRow b). auto.
Qed.

Lemma notRemoved_kept names rows row :
  NoDup (map refOf rows) ->
  (forall b, row = SyntheticRow b -> In (SyntheticRow b) rows) ->
  notRemoved names (syntheticRows rows) row = keptRow names row.
Proof.
  intros Hnd Hrow. unfold notRemoved. destruct row as [e|b]; cbn [keptRow refOf].
  - destruct (existsb _ _) eqn:E; [|reflexivity].
    apply existsb_exists in E as (b & _ & H). rewrite andb_comm in H. discriminate.
  - specialize (Hrow b eq_refl).
    destruct (includes (bundlename b) names) eqn:Ei.
    + destruct (existsb _ _) eqn:E; [|reflexivity].
      apply existsb_exists in E as (b' & Hin & H). apply andb_prop in H as [Ho Hr].
      apply In_syntheticRows in Hin. cbn in Hr. apply Nat.eqb_eq in Hr.
      rewrite <- (NoDup_same_bundle rows b b' Hnd Hrow Hin Hr) in Ho.
      unfold isOrphan in Ho. rewrite Ei in Ho. discriminate.
    + assert (E : existsb (fun b0 => isOrphan names b0
                                     && Ref_eqb (BundleRef (bid b)) (BundleRef (bid b0)))
                          (syntheticRows rows) = true).
      { apply existsb_exists. exists b. split; [now apply In_syntheticRows|].
        unfold isOrphan. rewrite Ei. cbn. apply Nat.eqb_refl. }
      rewrite E. reflexivity.
Qed.

Lemma bind_assoc {A B C} (c : Js A) (k : A -> Js B) (h : B -> Js C) w :
  bind (bind c k) h w = bind c (fun a => bind (k a) h) w.
Proof. unfold bind. destruct (c w); reflexivity. Qed.

Lemma bind_cong {A B} (c : Js A) (k1 k2 : A -> Js B) w :
  (forall a w', k1 a w' = k2 a w') -> bind c k1 w = bind c k2 w.
Proof. intros H. unfold bind. destruct (c w); [apply H | reflexivity]. Qed.

(** The cycle runs the orphan pass with the labels of its recompute. *)
Lemma runBundlizer_orphanPass w rows :
  emailTable w = Some rows ->
  bundleTemplateHTML (state w) <> EmptyHTML ->
  runBundlizer w
  = (setBundleStateToEmails (map refOf rows) ;;
     s <- getState ;;
     orphanPass (JsObject.keys (bundles s)) ;;
     afterOrphans (JsObject.keys (bundles s))) w.
Proof.
  intros Htbl Hne. unfold runBundlizer.
  run_by (initBundleTemplateHTML_cached w Hne). rewrite Htbl.
  cbv zeta. apply bind_cong; intros [] w1. apply bind_cong; intros s w2.
  unfold orphanPass. rewrite bind_assoc. reflexivity.
Qed.

(** The orphan pass run with any names. *)
Lemma orphanPass_returns (w : World) (rows : list Row) (bundleNames : list string) :
  emailTable w = Some rows ->
  NoDup (map refOf rows) ->
  exists w',
    orphanPass bundleNames w = Returns tt w' /\
    visibleRows w'
    = filter (keptRow bundleNames)
             (if openOrphan bundleNames (bundlesVisibility (state w)) (syntheticRows rows)
              then showUnbundled rows else rows) /\
    (forall b, In (SyntheticRow b) (visibleRows w') <->
               In (SyntheticRow b) rows /\ In (bundlename b) bundleNames) /\
    (forall label,
       JsObject.get label (bundlesVisibility (state w'))
       = if orphanLabel bundleNames label (syntheticRows rows) then None
         else JsObject.get label (bundlesVisibility (state w))) /\
    bundles (state w') = bundles (state w).
Proof.
  intros Htbl Hnd. destruct w as [[t b0 v u o] tbl ev]. cbn in Htbl. subst tbl.
  cbn [state bundlesVisibility bundles].
  pose proof (orphanPass_fold t b0 u o bundleNames (syntheticRows rows) v rows ev Hnd)
    as Hrun.
  eexists. split; [unfold orphanPass; run; exact Hrun|].
  unfold visibleRows. cbn [emailTable state bundlesVisibility bundles].
  rewrite orphan_rows.
  assert (Hrows : filter (notRemoved bundleNames (syntheticRows rows))
                         (if openOrphan bundleNames v (syntheticRows rows)
                          then showUnbundled rows else rows)
                  = filter (keptRow bundleNames)
                           (if openOrphan bundleNames v (syntheticRows rows)
                            then showUnbundled rows else rows)).
  { apply filter_ext_in. intros row Hin. apply notRemoved_kept; [exact Hnd|].
    intros b ->. destruct (openOrphan _ _ _); [|exact Hin].
    now apply In_showUnbundled_synthetic. }
  rewrite Hrows. split; [reflexivity|]. split; [|split; [|reflexivity]].
  - intros b. rewrite filter_In. cbn [keptRow]. rewrite includes_In.
    destruct (openOrphan _ _ _); [rewrite In_showUnbundled_synthetic|]; reflexivity.
  - intros label. apply orphan_flags.
Qed.

Lemma firstSeenFrom_In x l : forall seen,
  In x (firstSeenFrom seen l) <-> In x l /\ ~ In x seen.
Proof.
  induction l as [|y l IH]; intros seen; cbn [firstSeenFrom].
  - cbn. tauto.
  - destruct (includes y seen) eqn:E.
    + apply includes_In in E. rewrite IH. cbn.
      split; [tauto|]. intros [[->|H] Hn]; tauto.
    + assert (Hy : ~ In y seen).
      { intros H. apply includes_In in H. congruence. }
      cbn [In]. rewrite IH, in_app_iff. cbn [In].
      destruct (string_dec y x) as [->|Hne]; [tauto|]. tauto.
Qed.

Lemma refOf_markBundled refs rows :
  map refOf (map (markBundled refs) rows) = map refOf rows.
Proof.
  rewrite map_map. apply map_ext. intros [e|b]; [|reflexivity].
  cbn [markBundled]. destruct (existsb _ _); reflexivity.
Qed.

Lemma syntheticRows_markBundled refs rows :
  syntheticRows (map (markBundled refs) rows) = syntheticRows rows.
Proof.
  unfold syntheticRows. induction rows as [|[e|b] rows IH]; cbn; [reflexivity| |].
  - destruct (existsb _ _); exact IH.
  - now rewrite IH.
Qed.

(** The labels a recompute finds are the labels the rows carry. *)
Lemma recompute_labels w rows w' label :
  emailTable w = Some rows ->
  NoDup (map refOf rows) ->
  setBundleStateToEmails (map refOf rows) w = Returns tt w' ->
  (In label (JsObject.keys (bundles (state w'))) <->
   exists e, In (EmailRow e) rows /\ In label (map chipText (labels e))).
Proof.
  intros Htbl Hnd Hrun.
  destruct (recompute_members w rows Htbl Hnd
              (setBundleStateToEmails_own w rows w' Htbl Hnd Hrun))
    as (w1 & Hrun1 & _ & _ & Ho & Hk).
  rewrite Hrun in Hrun1. injection Hrun1 as <-.
  rewrite Hk, Ho. unfold firstSeen. rewrite firstSeenFrom_In. cbn [In].
  unfold incidences. rewrite in_map_iff. split.
  - intros [(p & Hp & Hin) _]. apply in_flat_map in Hin as ([e|b] & Hrow & Hin);
      [|destruct Hin].
    apply in_map_iff in Hin as (c & Hc & Hin). subst p. cbn in Hp. subst label.
    exists e. split; [exact Hrow | now apply in_map].
  - intros (e & He & Hl). split; [|tauto].
    apply in_map_iff in Hl as (c & Hc & Hin).
    exists (eid e, unread e, chipText c). split; [exact Hc|].
    apply in_flat_map. exists (EmailRow e). split; [exact He|].
    apply in_map_iff. exists c. auto.
Qed.







(** * Further properties of the script *)

(** ** The debounce wrapper, in both modes *)

(** X1.  However the wrapper built by [debounce] is called, in either mode,
    the browser holds at most one of its timers at any time, and that timer
    is the one the private variable [timeout] names: every call clears the
    timer of the call before it. *)
Theorem debounce_one_pending_timer {Args : Type} (wait : nat) (immediate : bool)
        (events : list (nat * Args)) (horizon : nat) :
  let st := Debounce.elapse immediate horizon
              (Debounce.run wait immediate events Debounce.fresh) in
  List.length (Debounce.pending st) <= 1 /\
  (forall t, In t (Debounce.pending st) ->
     Debounce.timeout st = Debounce.TimerId (Debounce.timerId t)) /\
  (Debounce.pending st = [] -> Debounce.isTruthy (Debounce.timeout st) = false).
Proof.
  intros st.
  assert (H : onePending st).
  { apply elapse_onePending, run_onePending, fresh_onePending. }
  destruct H as [[Hp Ht] | (id & d & a & Hp & Ht)]; rewrite Hp.
  - repeat split; [cbn; lia | intros t [] | intros _; exact Ht].
  - repeat split; [cbn; lia | | discriminate].
    intros t [<- | []]. exact Ht.
Qed.

(** X2.  In either mode the wrapped function never runs more often than the
    wrapper has been called, whatever the times of the calls and however long
    the clock runs afterwards. *)
Theorem debounce_runs_at_most_calls {Args : Type} (wait : nat) (immediate : bool)
        (events : list (nat * Args)) (horizon : nat) :
  List.length
    (Debounce.invocations
       (Debounce.elapse immediate horizon
          (Debounce.run wait immediate events Debounce.fresh)))
  <= List.length events.
Proof.
  pose proof (run_count wait immediate events Debounce.fresh 0 fresh_onePending) as Hrun.
  cbv zeta in Hrun.
  pose proof (elapse_count immediate horizon _
                (run_onePending wait immediate events _ fresh_onePending)) as Hel.
  assert (H0 : List.length (Debounce.invocations (@Debounce.fresh Args))
               + (if immediate then 0 else List.length (Debounce.pending (@Debounce.fresh Args)))
               <= 0) by (destruct immediate; cbn; lia).
  specialize (Hrun H0). lia.
Qed.

(** X3.  With [immediate] set the wrapper is leading-edge only.  For a
    [wait] in the range [setTimeout] takes a delay as it is (up to 2^31 - 1
    milliseconds): over a burst of calls, each less than [wait] after the one
    before it, the wrapped function runs once, at the time of the first call
    and with that call's arguments, and the timers that fire later never run
    it. *)
Theorem debounce_immediate_leading_edge {Args : Type} (wait t0 : nat) (a0 : Args)
        (events : list (nat * Args)) (horizon : nat) :
  (N.of_nat wait <= 2147483647)%N ->
  burstAfter wait t0 events ->
  let st := Debounce.run wait true ((t0, a0) :: events) Debounce.fresh in
  Debounce.invocations st = [(t0, a0)] /\
  Debounce.invocations (Debounce.elapse true horizon st) = [(t0, a0)].
Proof.
  intros Hw Hb st. subst st. cbn [Debounce.run].
  rewrite <- (timerDelay_small wait Hw) in Hb.
  change (Debounce.call wait true t0 a0 (Debounce.elapse true t0 Debounce.fresh))
    with (armedWith (Debounce.timerDelay wait) 1 t0 a0 [(t0, a0)]).
  destruct (run_burst wait true events 1 t0 a0 [(t0, a0)] Hb) as [id Hrun].
  rewrite Hrun, elapse_armedWith. split; [reflexivity|].
  destruct (Nat.leb _ horizon); reflexivity.
Qed.

Lemma debounce_immediate_leading_edge_witness :
  burstAfter 100 0 [(40, "m2"); (130, "m3")] /\
  Debounce.invocations
    (Debounce.elapse true 1000
       (Debounce.run 100 true [(0, "m1"); (40, "m2"); (130, "m3")] Debounce.fresh))
  = [(0, "m1")].
Proof.
  assert (Hb : burstAfter 100 0 [(40, "m2"); (130, "m3")]) by (cbn; lia).
  assert (Hw : (N.of_nat 100 <= 2147483647)%N) by (vm_compute; discriminate).
  split; [exact Hb|].
  exact (proj2 (debounce_immediate_leading_edge 100 0 "m1" _ 1000 Hw Hb)).
Defined.

(** X4.  Calls that come more than [wait] after one another are not merged,
    for a [wait] in the range [setTimeout] takes a delay as it is (up to
    2^31 - 1 milliseconds).  Without [immediate] each call leads to a run of
    its own, [wait] after the call and with the call's arguments, in the
    order of the calls (the run for the last call once the clock has reached
    it); with [immediate] each call runs the function at once. *)
Theorem debounce_spaced_calls_each_run {Args : Type} (wait : nat)
        (events : list (nat * Args)) (horizon : nat) :
  (N.of_nat wait <= 2147483647)%N ->
  spaced wait events ->
  (forall c, In c events -> fst c + wait <= horizon) ->
  Debounce.invocations
    (Debounce.elapse false horizon (Debounce.run wait false events Debounce.fresh))
  = map (delivered wait) events /\
  Debounce.invocations (Debounce.run wait false events Debounce.fresh)
  = map (delivered wait) (removelast events) /\
  Debounce.invocations
    (Debounce.elapse true horizon (Debounce.run wait true events Debounce.fresh))
  = events.
Proof.
  intros Hw. pose proof (timerDelay_small wait Hw) as Hd.
  destruct events as [|[t0 a0] events]; intros Hs Hh; [repeat split|].
  cbn [spaced] in Hs. cbn [Debounce.run].
  rewrite <- Hd in Hs.
  change (Debounce.call wait false t0 a0 (Debounce.elapse false t0 Debounce.fresh))
    with (armedWith (Debounce.timerDelay wait) 1 t0 a0 []).
  change (Debounce.call wait true t0 a0 (Debounce.elapse true t0 Debounce.fresh))
    with (armedWith (Debounce.timerDelay wait) 1 t0 a0 [(t0, a0)]).
  destruct (run_spaced wait false events 1 t0 a0 [] Hs) as [id Hrun].
  destruct (run_spaced wait true events 1 t0 a0 [(t0, a0)] Hs) as [id' Hrun'].
  rewrite Hrun, Hrun', !elapse_armedWith, Hd.
  assert (Hsplit : (t0, a0) :: events
                   = removelast ((t0, a0) :: events) ++ [last events (t0, a0)]).
  { rewrite <- (last_cons_cons (t0, a0) events (t0, a0)).
    apply app_removelast_last. discriminate. }
  assert (Hleb : Nat.leb (fst (last events (t0, a0)) + wait) horizon = true).
  { apply Nat.leb_le, Hh. rewrite Hsplit. apply in_or_app. right. left. reflexivity. }
  rewrite Hleb. cbn [Debounce.invocations armedWith app].
  split; [|split; reflexivity].
  transitivity (map (delivered wait)
                    (removelast ((t0, a0) :: events) ++ [last events (t0, a0)])).
  - rewrite map_app. reflexivity.
  - f_equal. symmetry. exact Hsplit.
Qed.

Lemma debounce_spaced_calls_each_run_witness :
  spaced 100 [(0, "m1"); (101, "m2"); (250, "m3")] /\
  Debounce.invocations
    (Debounce.elapse false 350
       (Debounce.run 100 false [(0, "m1"); (101, "m2"); (250, "m3")] Debounce.fresh))
  = [(100, "m1"); (201, "m2"); (350, "m3")].
Proof.
  assert (Hs : spaced 100 [(0, "m1"); (101, "m2"); (250, "m3")]) by (cbn; lia).
  assert (Hw : (N.of_nat 100 <= 2147483647)%N) by (vm_compute; discriminate).
  split; [exact Hs|].
  refine (proj1 (debounce_spaced_calls_each_run 100 _ 350 Hw Hs _)).
  intros c [<- | [<- | [<- | []]]]; cbn; lia.
Defined.

(** ** Cleaning the attributes of the template *)

Lemma removeAttribute_first (kept : list Dom.Attr) (a : Dom.Attr) (rest : list Dom.Attr) :
  parsedName a ->
  Forall (fun b => Dom.name b <> Dom.name a) kept ->
  Dom.removeAttribute (Dom.name a) (kept ++ a :: rest) = kept ++ rest.
Proof.
  intros Ha Hkept. induction Hkept as [|b kept Hb _ IH]; cbn.
  - rewrite Ha, String.eqb_refl. reflexivity.
  - rewrite Ha. destruct (String.eqb_spec (Dom.name b) (Dom.name a)) as [E|E]; [contradiction|].
    rewrite IH. reflexivity.
Qed.

Lemma cleanAttributes_loop (snapshot : list Dom.Attr) : forall kept,
  Forall parsedName snapshot ->
  Forall (fun b => keptAttribute b = true) kept ->
  fold_left
    (fun (live : list Dom.Attr) (attribute : Dom.Attr) =>
       if Dom.isCleanedName (Dom.toLowerCase (Dom.name attribute))
       then Dom.removeAttribute (Dom.name attribute) live
       else live)
    snapshot (kept ++ snapshot)
  = kept ++ filter keptAttribute snapshot.
Proof.
  induction snapshot as [|a snapshot IH]; intros kept Hp Hkept; [reflexivity|].
  inversion Hp as [|? ? Ha Hp']; subst. cbn [fold_left filter].
  assert (Hk : keptAttribute a = negb (Dom.isCleanedName (Dom.toLowerCase (Dom.name a))))
    by reflexivity.
  rewrite Hk.
  destruct (Dom.isCleanedName (Dom.toLowerCase (Dom.name a))) eqn:Hc; cbn [negb].
  - rewrite removeAttribute_first; [apply IH; assumption | exact Ha |].
    apply Forall_impl with (2 := Hkept). intros b Hb E.
    unfold keptAttribute in Hb. rewrite E, Hc in Hb. discriminate.
  - change (kept ++ a :: snapshot) with (kept ++ [a] ++ snapshot).
    rewrite app_assoc, IH; [rewrite <- app_assoc; reflexivity | assumption |].
    apply Forall_app. split; [exact Hkept|]. constructor; [|constructor].
    unfold keptAttribute. rewrite Hc. reflexivity.
Qed.

(** X5.  On an element whose attribute names are as the HTML parser leaves
    them (no capital A-Z), [cleanAttributes] removes every attribute whose
    lower-cased name starts with js, data- or aria- or is id, name or email,
    and nothing else: the attributes left are the others, each with its
    value and in the order they had, also when a name occurs twice. *)
Theorem cleanAttributes_keeps_the_others (attributes : list Dom.Attr) :
  Forall parsedName attributes ->
  Dom.cleanAttributes attributes = filter keptAttribute attributes.
Proof.
  intros Hp. exact (cleanAttributes_loop attributes [] Hp (Forall_nil _)).
Qed.

Lemma cleanAttributes_keeps_the_others_witness :
  Dom.cleanAttributes
    [Dom.mkAttr "class" "zA zE"; Dom.mkAttr "id" ":2a"; Dom.mkAttr "jsaction" "x";
     Dom.mkAttr "tabindex" "-1"; Dom.mkAttr "aria-labelledby" ":2b";
     Dom.mkAttr "data-legacy-id" "17"; Dom.mkAttr "style" "display: flex"]
  = [Dom.mkAttr "class" "zA zE"; Dom.mkAttr "tabindex" "-1";
     Dom.mkAttr "style" "display: flex"].
Proof.
  rewrite cleanAttributes_keeps_the_others; [reflexivity|].
  repeat constructor.
Defined.

(** ** The writes of the script's functions *)

Section Writes.
Variable allowed : Kind -> bool.

Lemma writes_trans w1 w2 w3 :
  writes allowed w1 w2 -> writes allowed w2 w3 -> writes allowed w1 w3.
Proof.
  induction 1 as [|k w w1 w2 Hk Hw _ IH]; intros H3; [exact H3|].
  eapply writes_more; eauto.
Qed.

Lemma writes_one k w w' : allowed k = true -> Write k w w' -> writes allowed w w'.
Proof. intros Hk Hw. eapply writes_more; [exact Hk | exact Hw | apply writes_none]. Qed.

Lemma does_ret {A} (a : A) : does allowed (ret a).
Proof. intro w. apply writes_none. Qed.

Lemma does_throw {A} : does allowed (@throw A).
Proof. intro w. apply writes_none. Qed.

Lemma does_defined {A} (o : option A) : does allowed (defined o).
Proof. destruct o; intro w; apply writes_none. Qed.

Lemma does_getState : does allowed getState.
Proof. intro w. apply writes_none. Qed.

Lemma does_getRows : does allowed getRows.
Proof. intro w. apply writes_none. Qed.

Lemma does_bind {A B} (c : Js A) (k : A -> Js B) :
  does allowed c -> (forall a, does allowed (k a)) -> does allowed (bind c k).
Proof.
  intros Hc Hk w. unfold bind. specialize (Hc w).
  destruct (c w) as [a w'|w']; cbn in Hc; [|exact Hc].
  eapply writes_trans; [exact Hc | apply Hk].
Qed.

(** A continuation that is given the rows of the table it runs on. *)
Lemma does_getRows_bind {B} (k : list Row -> Js B) :
  (forall w, writes allowed w (worldOf (k (visibleRows w) w))) ->
  does allowed (bind getRows k).
Proof. intros Hk w. exact (Hk w). Qed.

Lemma does_getState_bind {B} (k : State -> Js B) :
  (forall w, writes allowed w (worldOf (k (state w) w))) ->
  does allowed (bind getState k).
Proof. intros Hk w. exact (Hk w). Qed.

Lemma does_forEach {A} (l : list A) (f : A -> Js unit) :
  (forall x, does allowed (f x)) -> does allowed (forEach l f).
Proof.
  intros Hf. induction l as [|x l IH]; cbn.
  - apply does_ret.
  - apply does_bind; [apply Hf | intros _; exact IH].
Qed.

Lemma does_emit ev : allowed Emits = true -> does allowed (emit ev).
Proof. intros Ha w. eapply writes_one; [exact Ha | apply W_emit]. Qed.

Lemma does_updateBundle i f :
  allowed WritesSlot = true ->
  (forall b, bundleIdentity (f b) = bundleIdentity b) ->
  does allowed (updateBundle i f).
Proof. intros Ha Hf w. eapply writes_one; [exact Ha | apply W_slot, Hf]. Qed.

Lemma does_updateEmail i f :
  allowed WritesMessage = true ->
  (forall e, hostFields (f e) = hostFields e) ->
  does allowed (updateEmail i f).
Proof. intros Ha Hf w. eapply writes_one; [exact Ha | apply W_message, Hf]. Qed.

Lemma does_removeRow i :
  allowed RemovesBundle = true ->
  does allowed (modifyRows (removeRow (BundleRef i))).
Proof. intros Ha w. eapply writes_one; [exact Ha | apply W_remove]. Qed.

End Writes.

Lemma writes_mono (a a' : Kind -> bool) w w' :
  (forall k, a k = true -> a' k = true) -> writes a w w' -> writes a' w w'.
Proof.
  intros Hsub. induction 1 as [|k w w1 w2 Hk Hw _ IH]; [apply writes_none|].
  eapply writes_more; [apply Hsub, Hk | exact Hw | exact IH].
Qed.

Lemma does_mono {A} (a a' : Kind -> bool) (c : Js A) :
  (forall k, a k = true -> a' k = true) -> does a c -> does a' c.
Proof. intros Hsub Hc w. eapply writes_mono; [exact Hsub | apply Hc]. Qed.

(** What every allowed kind of write keeps, a sequence of writes keeps. *)
Lemma writes_invariant (allowed : Kind -> bool) (P : World -> Prop) :
  (forall k w w', allowed k = true -> Write k w w' -> P w -> P w') ->
  forall w w', writes allowed w w' -> P w -> P w'.
Proof.
  intros Hstep w w'. induction 1 as [|k w w1 w2 Hk Hw _ IH]; intros HP; [exact HP|].
  apply IH. exact (Hstep k w w1 Hk Hw HP).
Qed.

Lemma writes_preserves {X} (allowed : Kind -> bool) (obs : World -> X) :
  (forall k w w', allowed k = true -> Write k w w' -> obs w' = obs w) ->
  forall w w', writes allowed w w' -> obs w' = obs w.
Proof.
  intros Hstep w w' Hw.
  apply (writes_invariant allowed (fun v => obs v = obs w)) with (w := w); auto.
  intros k v v' Hk Hwr Hv. rewrite <- Hv. exact (Hstep k v v' Hk Hwr).
Qed.

Create HintDb foot.
#[export] Hint Resolve does_ret does_throw does_defined does_getState does_getRows : foot.
#[export] Hint Extern 1 (subKinds _ _) =>
  solve [assumption | intros []; cbn; (reflexivity || discriminate)] : foot.

(** Walk through a computation, closing the leaves with the [foot]
    database. *)
Ltac foot_step Hsub :=
  first
    [ solve [auto with foot]
    | apply does_bind; [|intros ?]
    | apply does_forEach; intros ?
    | apply does_emit; apply Hsub; reflexivity
    | apply does_removeRow; apply Hsub; reflexivity
    | apply does_updateBundle; [apply Hsub; reflexivity | intros ?; reflexivity]
    | apply does_updateEmail; [apply Hsub; reflexivity | intros ?; reflexivity]
    | progress cbv zeta
    | match goal with
      | |- does _ (if ?b then _ else _) => destruct b
      | |- does _ (match ?x with _ => _ end) => destruct x
      end ].

Ltac foot Hsub := cbv zeta; repeat foot_step Hsub.

Section BundleWrites.
Variable allowed : Kind -> bool.
Hypothesis Hsub : subKinds bundleKinds allowed.

Lemma does_email i : does allowed (email i).
Proof. unfold email. foot Hsub. Qed.

#[local] Hint Resolve does_email : foot.

Lemma does_recentSendersLoop n : forall l, does allowed (recentSendersLoop n l).
Proof. induction n as [|n IH]; intros l; cbn; foot Hsub. Qed.

#[local] Hint Resolve does_recentSendersLoop : foot.

Lemma does_getRecentSenders name : does allowed (getRecentSenders name).
Proof. unfold getRecentSenders. foot Hsub. Qed.

#[local] Hint Resolve does_getRecentSenders : foot.

Lemma does_updateBundleDom name : does allowed (updateBundleDom name).
Proof. unfold updateBundleDom. foot Hsub. Qed.

#[local] Hint Resolve does_updateBundleDom : foot.

Lemma does_insertBundleDom e name after : does allowed (insertBundleDom e name after).
Proof.
  intro w. unfold insertBundleDom. cbv zeta.
  unfold bind at 1. cbn [getState].
  unfold bind at 1. destruct (JsObject.get name (bundles (state w))) as [bundle|];
    [|apply writes_none].
  cbn [defined ret]. unfold bind at 1. cbn [getRows].
  destruct (querySelectorClass (getBundleClass name)
              match emailTable w with Some rows => rows | None => [] end) eqn:Hq;
    [apply writes_none|].
  unfold bind at 1.
  destruct ((i <- defined (nth_error bundle 0) ;; email i) w) as [latest w1|w1] eqn:Hl.
  2:{ pose proof (does_bind allowed (defined (nth_error bundle 0)) (fun i => email i)
                    (does_defined allowed (nth_error bundle 0))
                    (fun i => does_email i) w) as H. rewrite Hl in H. exact H. }
  assert (Hw1 : w1 = w).
  { cbv [bind defined email getRows ret throw] in Hl.
    destruct (nth_error bundle 0); [|discriminate].
    destruct (findEmail _ _); [|discriminate]. now injection Hl as _ <-. }
  subst w1. unfold bind at 1. destruct e as [i|]; [|apply writes_none].
  cbn [defined ret]. unfold bind at 1.
  destruct (getEmailLabelWrapperOfBundle latest name) as [chip|]; [|apply writes_none].
  cbn [defined ret].
  destruct (bundleTemplateHTML (state w)) as [|slotName slotSubject slotDate];
    [apply writes_none|].
  unfold bind at 1.
  destruct (insertAdjacent after i _ _) as [rows'|] eqn:Hins; [|apply writes_none].
  cbn [defined ret].
  destruct (emailTable w) as [rows|] eqn:Ht; [|discriminate].
  unfold bind at 1. cbn [modifyRows]. rewrite Ht. cbn [option_map].
  eapply (writes_more allowed InsertsBundle).
  - apply Hsub. reflexivity.
  - exact (W_insert after i _ rows rows' w Ht Hins eq_refl Hq).
  - change (writes allowed (mkWorld (state w) (Some rows') (effects w))
              (worldOf ((emit (EvInsertBundle name) ;; updateBundleDom name)
                          (mkWorld (state w) (Some rows') (effects w))))).
    revert rows' Hins. intros rows' _.
    generalize (mkWorld (state w) (Some rows') (effects w)).
    change (does allowed (emit (EvInsertBundle name) ;; updateBundleDom name)).
    foot Hsub.
Qed.

#[local] Hint Resolve does_insertBundleDom : foot.

Lemma does_moveBundleDoms e names after : does allowed (moveBundleDoms e names after).
Proof. unfold moveBundleDoms. foot Hsub. Qed.

#[local] Hint Resolve does_moveBundleDoms : foot.

Lemma does_resetBundleDomsPosition args : does allowed (resetBundleDomsPosition args).
Proof. unfold resetBundleDomsPosition. foot Hsub. Qed.

End BundleWrites.

#[export] Hint Resolve does_email does_recentSendersLoop does_getRecentSenders
  does_updateBundleDom does_insertBundleDom does_moveBundleDoms
  does_resetBundleDomsPosition : foot.

Lemma subKinds_trans a b c : subKinds a b -> subKinds b c -> subKinds a c.
Proof. intros Hab Hbc k Hk. apply Hbc, Hab, Hk. Qed.

Lemma bundleKinds_rowKinds : subKinds bundleKinds rowKinds.
Proof. intros []; cbn; (reflexivity || discriminate). Qed.

Lemma rowKinds_clickKinds : subKinds rowKinds clickKinds.
Proof. intros []; cbn; (reflexivity || discriminate). Qed.

Lemma rowKinds_cycleKinds : subKinds rowKinds cycleKinds.
Proof. intros []; cbn; (reflexivity || discriminate). Qed.

Section RowWrites.
Variable allowed : Kind -> bool.
Hypothesis Hsub : subKinds rowKinds allowed.

Let Hbundle : subKinds bundleKinds allowed := subKinds_trans _ _ _ bundleKinds_rowKinds Hsub.

Lemma does_hideEmails l : does allowed (hideEmails l).
Proof.
  unfold hideEmails. apply does_forEach. intros i.
  apply does_updateEmail; [apply Hsub; reflexivity|].
  intros e. destruct (hiddenClass e); reflexivity.
Qed.

Lemma does_showUnbundledEmails : does allowed showUnbundledEmails.
Proof. unfold showUnbundledEmails. foot Hsub. Qed.

Lemma does_unhideBundle bundle : forall toHide, does allowed (unhideBundle bundle toHide).
Proof.
  induction bundle as [|i rest IH]; intros toHide; cbn; [apply does_ret|].
  apply does_bind; [|intros _; apply IH].
  apply does_updateEmail; [apply Hsub; reflexivity|].
  intros e. destruct (hiddenClass e); reflexivity.
Qed.

#[local] Hint Resolve does_hideEmails does_showUnbundledEmails does_unhideBundle : foot.

Lemma does_showBundledEmails name : does allowed (showBundledEmails name).
Proof. unfold showBundledEmails. foot Hsub. Qed.

Lemma does_turnOffBundleVisibility name : does allowed (turnOffBundleVisibility name).
Proof. unfold turnOffBundleVisibility. foot Hsub. Qed.

Lemma does_groupEmails emails : forall g, does allowed (groupEmails emails g).
Proof. induction emails as [|r rest IH]; intros g; cbn; foot Hsub. Qed.

End RowWrites.

#[export] Hint Resolve does_hideEmails does_showUnbundledEmails does_unhideBundle
  does_showBundledEmails does_turnOffBundleVisibility does_groupEmails : foot.

(** The writes to [state]. *)
Section StateWrites.
Variable allowed : Kind -> bool.

Lemma does_closeFlags (f : State -> JsObject.t bool) :
  allowed ClosesFlag = true ->
  (forall s k, JsObject.get k (f s) = Some true ->
               JsObject.get k (bundlesVisibility s) = Some true) ->
  does allowed (modifyState (fun s => withVisibility (f s) s)).
Proof.
  intros Ha Hf w. eapply writes_one; [exact Ha|].
  exact (W_close (f (state w)) w (Hf (state w))).
Qed.

Lemma does_toggleFlags (f : State -> JsObject.t bool) :
  allowed TogglesFlag = true ->
  does allowed (modifyState (fun s => withVisibility (f s) s)).
Proof.
  intros Ha w. eapply writes_one; [exact Ha|]. exact (W_toggle (f (state w)) w).
Qed.

Lemma does_regroup b u o :
  allowed Regroups = true -> does allowed (modifyState (withBundles b u o)).
Proof. intros Ha w. eapply writes_one; [exact Ha|]. exact (W_regroup b u o w). Qed.

Lemma does_cacheTemplate t :
  allowed CachesTemplate = true -> does allowed (modifyState (withTemplate t)).
Proof. intros Ha w. eapply writes_one; [exact Ha|]. exact (W_template t w). Qed.

End StateWrites.

Lemma does_onBundleClick bundleName : does clickKinds (onBundleClick bundleName).
Proof.
  unfold onBundleClick.
  apply does_bind; [apply does_getState | intros s].
  apply does_bind; [|intros _].
  - destruct (JsObject.get bundleName (bundlesVisibility s)) as [[|]|]; try apply does_ret.
    destruct (truthyName (getVisibleBundleName s)) as [visible|]; [|apply does_ret].
    apply does_bind; [|intros _; auto with foot].
    apply does_closeFlags; [reflexivity|].
    intros s' k. rewrite get_set.
    destruct (String.eqb k visible); [discriminate | auto].
  - apply does_bind; [apply does_toggleFlags; reflexivity | intros _].
    assert (Hsub : subKinds rowKinds clickKinds) by exact rowKinds_clickKinds.
    foot Hsub.
Qed.

Lemma does_setBundleStateToEmails emails : does cycleKinds (setBundleStateToEmails emails).
Proof.
  unfold setBundleStateToEmails.
  apply does_bind; [auto with foot | intros g]. apply does_regroup. reflexivity.
Qed.

Lemma does_removeIfOrphaned names b : does cycleKinds (removeIfOrphaned names b).
Proof.
  unfold removeIfOrphaned. cbv zeta.
  destruct (includes (bundlename b) names); [apply does_ret|].
  apply does_bind; [apply does_getState | intros s].
  apply does_bind;
    [destruct (truthy _);
       [apply does_bind; [apply does_emit; reflexivity | intros _; auto with foot]
       | auto with foot]
    | intros _].
  apply does_bind; [|intros _].
  - apply does_closeFlags; [reflexivity|].
    intros s' k. rewrite get_delete.
    destruct (String.eqb k (bundlename b)); [discriminate | auto].
  - apply does_bind; [apply does_removeRow; reflexivity | intros _].
    apply does_emit. reflexivity.
Qed.

Lemma does_initBundleTemplateHTML : does cycleKinds initBundleTemplateHTML.
Proof.
  unfold initBundleTemplateHTML.
  apply does_bind; [apply does_getState | intros s].
  destruct (bundleTemplateHTML s); [|apply does_ret].
  apply does_bind; [apply does_getRows | intros rows].
  apply does_bind; [apply does_defined | intros row].
  apply does_bind; [apply does_emit; reflexivity | intros _].
  apply does_cacheTemplate. reflexivity.
Qed.

#[export] Hint Resolve does_onBundleClick does_setBundleStateToEmails does_removeIfOrphaned
  does_initBundleTemplateHTML : foot.

Lemma does_runBundlizer : does cycleKinds runBundlizer.
Proof.
  unfold runBundlizer.
  apply does_bind; [apply does_initBundleTemplateHTML | intros _].
  intro w. destruct (emailTable w) as [emailTable_|]; [|apply writes_none].
  revert w. change (does cycleKinds
    (let emails := map refOf emailTable_ in
     setBundleStateToEmails emails ;;
     s <- getState ;;
     let bundleNames := JsObject.keys (bundles s) in
     rows <- getRows ;;
     forEach (syntheticRows rows) (removeIfOrphaned bundleNames) ;;
     forEach bundleNames (fun bundleName =>
       s <- getState ;;
       bundle <- defined (JsObject.get bundleName (bundles s)) ;;
       let bundleClass := getBundleClass bundleName in
       let latestEmail := nth_error bundle 0 in
       modifyState (fun s =>
         withVisibility
           (JsObject.set bundleName
                         (truthy (JsObject.get bundleName (bundlesVisibility s)))
                         (bundlesVisibility s)) s) ;;
       rows <- getRows ;;
       (match querySelectorClass bundleClass rows with
        | None => insertBundleDom latestEmail bundleName false
        | Some _ => updateBundleDom bundleName
        end) ;;
       s <- getState ;;
       if truthy (JsObject.get bundleName (bundlesVisibility s))
       then ret tt
       else hideEmails bundle) ;;
     resetBundleDomsPosition [] ;;
     s <- getState ;;
     match truthyName (getVisibleBundleName s) with
     | Some visibleBundleName => showBundledEmails visibleBundleName
     | None => ret tt
     end)).
  cbv zeta.
  assert (Hsub : subKinds rowKinds cycleKinds) by exact rowKinds_cycleKinds.
  apply does_bind; [apply does_setBundleStateToEmails | intros _].
  apply does_bind; [apply does_getState | intros s].
  apply does_bind; [apply does_getRows | intros rows].
  apply does_bind; [apply does_forEach; intros b; apply does_removeIfOrphaned | intros _].
  apply does_bind; [|intros _; foot Hsub].
  apply does_forEach. intros bundleName.
  apply does_bind; [apply does_getState | intros s'].
  apply does_bind; [apply does_defined | intros bundle].
  apply does_bind; [|intros _; foot Hsub].
  apply does_closeFlags; [reflexivity|].
  intros s0 k. rewrite get_set.
  destruct (String.eqb_spec k bundleName) as [->|]; [|auto].
  destruct (JsObject.get bundleName (bundlesVisibility s0)) as [[|]|]; cbn; congruence.
Qed.

(** ** What the kinds of writes leave alone *)

Lemma messages_app l1 l2 : messages (l1 ++ l2) = messages l1 ++ messages l2.
Proof. unfold messages. apply flat_map_app. Qed.

Lemma syntheticRows_app l1 l2 :
  syntheticRows (l1 ++ l2) = syntheticRows l1 ++ syntheticRows l2.
Proof. unfold syntheticRows. apply flat_map_app. Qed.

Lemma messages_onBundle i f rows : messages (map (onBundle i f) rows) = messages rows.
Proof.
  induction rows as [|[e|b] rows IH]; cbn; [reflexivity | f_equal; exact IH |].
  destruct (Nat.eqb (bid b) i); cbn; exact IH.
Qed.

Lemma messages_removeRow i rows : messages (removeRow (BundleRef i) rows) = messages rows.
Proof.
  induction rows as [|[e|b] rows IH]; cbn; [reflexivity | f_equal; exact IH |].
  destruct (Nat.eqb (bid b) i); cbn; exact IH.
Qed.

Lemma insertAdjacent_split after i new rows rows' :
  insertAdjacent after i new rows = Some rows' ->
  exists l1 l2, rows = l1 ++ l2 /\ rows' = l1 ++ new :: l2.
Proof.
  revert rows'. induction rows as [|row rows IH]; intros rows' H; [discriminate|].
  cbn in H. destruct (Ref_eqb (refOf row) (EmailRef i)).
  - injection H as <-. destruct after.
    + exists [row], rows. split; reflexivity.
    + exists [], (row :: rows). split; reflexivity.
  - destruct (insertAdjacent after i new rows) as [rows1|]; [|discriminate].
    injection H as <-. destruct (IH rows1 eq_refl) as (l1 & l2 & -> & ->).
    exists (row :: l1), l2. split; reflexivity.
Qed.

Lemma messages_insert after i b rows rows' :
  insertAdjacent after i (SyntheticRow b) rows = Some rows' ->
  messages rows' = messages rows.
Proof.
  intros H. destruct (insertAdjacent_split _ _ _ _ _ H) as (l1 & l2 & -> & ->).
  rewrite !messages_app. reflexivity.
Qed.

Lemma hostFields_onEmail i f rows :
  (forall e, hostFields (f e) = hostFields e) ->
  map hostFields (messages (map (onEmail i f) rows)) = map hostFields (messages rows).
Proof.
  intros Hf. induction rows as [|[e|b] rows IH]; cbn; [reflexivity | | exact IH].
  destruct (Nat.eqb (eid e) i); cbn; rewrite ?Hf; f_equal; exact IH.
Qed.

Lemma syntheticRows_onEmail i f rows :
  syntheticRows (map (onEmail i f) rows) = syntheticRows rows.
Proof.
  induction rows as [|[e|b] rows IH]; cbn; [reflexivity | | f_equal; exact IH].
  destruct (Nat.eqb (eid e) i); cbn; exact IH.
Qed.

Lemma bundleIdentity_onBundle i f rows :
  (forall b, bundleIdentity (f b) = bundleIdentity b) ->
  map bundleIdentity (syntheticRows (map (onBundle i f) rows))
  = map bundleIdentity (syntheticRows rows).
Proof.
  intros Hf. induction rows as [|[e|b] rows IH]; cbn; [reflexivity | exact IH |].
  destruct (Nat.eqb (bid b) i); cbn; rewrite ?Hf; f_equal; exact IH.
Qed.

Lemma bundlename_identity l l' :
  map bundleIdentity l = map bundleIdentity l' -> map bundlename l = map bundlename l'.
Proof.
  intros H.
  assert (E : forall k, map bundlename k = map (fun p => snd (fst (fst p))) (map bundleIdentity k)).
  { intros k. rewrite map_map. reflexivity. }
  rewrite !E, H. reflexivity.
Qed.

(** Rendering and placing synthetic rows writes neither [state] nor a
    message row. *)
Lemma bundle_write_keeps k w w' :
  bundleKinds k = true -> Write k w w' ->
  (state w', messageRows w') = (state w, messageRows w).
Proof.
  intros Hk Hw. destruct Hw; try discriminate; unfold messageRows; cbn [state emailTable].
  - reflexivity.
  - destruct (emailTable w); cbn [option_map]; [rewrite messages_onBundle|]; reflexivity.
  - destruct (emailTable w); cbn [option_map]; [rewrite messages_removeRow|]; reflexivity.
  - rewrite H. cbn [option_map]. erewrite messages_insert by eassumption. reflexivity.
Qed.

(** No write changes what the host owns of the message rows. *)
Lemma write_keeps_hostContent k w w' : Write k w w' -> hostContent w' = hostContent w.
Proof.
  intros Hw. destruct Hw; unfold hostContent; cbn [state emailTable]; try reflexivity.
  - destruct (emailTable w); cbn [option_map]; [rewrite messages_onBundle|]; reflexivity.
  - destruct (emailTable w); cbn [option_map]; [rewrite messages_removeRow|]; reflexivity.
  - rewrite H. cbn [option_map]. erewrite messages_insert by eassumption. reflexivity.
  - destruct (emailTable w); cbn [option_map];
      [rewrite hostFields_onEmail by assumption|]; reflexivity.
Qed.

Lemma positioning_never_touches_messages_aux (w : World) :
  (forall bundleName,
     let w' := worldOf (updateBundleDom bundleName w) in
     state w' = state w /\ messageRows w' = messageRows w) /\
  (forall email_ bundleName isPlacedAfter,
     let w' := worldOf (insertBundleDom email_ bundleName isPlacedAfter w) in
     state w' = state w /\ messageRows w' = messageRows w) /\
  (forall email_ bundleNames isPlacedAfter,
     let w' := worldOf (moveBundleDoms email_ bundleNames isPlacedAfter w) in
     state w' = state w /\ messageRows w' = messageRows w) /\
  (forall arguments,
     let w' := worldOf (resetBundleDomsPosition arguments w) in
     state w' = state w /\ messageRows w' = messageRows w).
Proof.
  assert (H : forall A (c : Js A), does bundleKinds c ->
            state (worldOf (c w)) = state w /\ messageRows (worldOf (c w)) = messageRows w).
  { intros A c Hc.
    pose proof (writes_preserves bundleKinds (fun v => (state v, messageRows v))
                  bundle_write_keeps w _ (Hc w)) as E.
    now injection E. }
  repeat split; intros; apply H; auto with foot.
Qed.


Lemma handle_writes w ev :
  writes (fun _ => true) w (handle w ev).
Proof.
  destruct ev as [|bundleName]; unfold handle.
  - apply (writes_mono cycleKinds); [intros k _; reflexivity | exact (does_runBundlizer w)].
  - apply (writes_mono clickKinds); [intros k _; reflexivity|].
    exact (does_onBundleClick bundleName w).
Qed.

Lemma handles_writes events : forall w,
  writes (fun _ => true) w (fold_left handle events w).
Proof.
  induction events as [|ev events IH]; intros w; cbn; [apply writes_none|].
  eapply writes_trans; [apply handle_writes | apply IH].
Qed.


Lemma click_write_keeps_grouping k w w' :
  clickKinds k = true -> Write k w w' -> groupingOf w' = groupingOf w.
Proof. intros Hk Hw. destruct Hw; try discriminate; reflexivity. Qed.

(** X8.  A click changes nothing of [state] but the open flags: the
    bundles with their members, the unread marks, the label ordering and the
    cached template are after [onBundleClick] what they were before, whether
    it returns or throws. *)
Theorem click_never_regroups (w : World) (bundleName : string) :
  groupingOf (click w bundleName) = groupingOf w.
Proof.
  apply (writes_preserves clickKinds groupingOf click_write_keeps_grouping).
  apply does_onBundleClick.
Qed.

Lemma cycle_write_narrows k w w' label :
  cycleKinds k = true -> Write k w w' -> isOpen label w' -> isOpen label w.
Proof.
  intros Hk Hw. unfold isOpen. destruct Hw; try discriminate; cbn; auto.
Qed.

(** X9.  A cycle never opens a bundle: a label whose open flag is [true]
    after [runBundlizer], returned or thrown, had it [true] before.  So a
    cycle keeps it that at most one bundle is open. *)
Theorem cycle_never_opens_a_bundle (w : World) :
  (forall label, isOpen label (worldOf (runBundlizer w)) -> isOpen label w) /\
  (atMostOneOpen w -> atMostOneOpen (worldOf (runBundlizer w))).
Proof.
  assert (H : forall label, isOpen label (worldOf (runBundlizer w)) -> isOpen label w).
  { intros label Hopen. revert Hopen.
    pose proof (does_runBundlizer w) as Hw.
    induction Hw as [|k v v1 v2 Hk Hwr _ IH]; intros Hopen; [exact Hopen|].
    eapply cycle_write_narrows; eauto. }
  split; [exact H|]. intros Hone a b Ha Hb. apply Hone; apply H; assumption.
Qed.

Lemma syntheticRows_removeRow i rows :
  syntheticRows (removeRow (BundleRef i) rows)
  = filter (fun b => negb (Nat.eqb (bid b) i)) (syntheticRows rows).
Proof.
  induction rows as [|[e|b] rows IH]; cbn; [reflexivity | exact IH |].
  destruct (Nat.eqb (bid b) i); cbn; [exact IH | f_equal; exact IH].
Qed.

Lemma distinct_labels_filter (keep : BundleRow -> bool) (bs : list BundleRow) :
  NoDup (map bundlename bs) -> NoDup (map bundlename (filter keep bs)).
Proof.
  intros Hnd. induction bs as [|b bs IH]; cbn in *; [constructor|].
  apply NoDup_cons_iff in Hnd as [Hb Hbs].
  destruct (keep b); cbn; [|exact (IH Hbs)].
  apply NoDup_cons; [|exact (IH Hbs)].
  rewrite in_map_iff. intros (b' & Hname & Hin).
  apply Hb. rewrite <- Hname. apply in_map. apply filter_In in Hin. tauto.
Qed.

Lemma querySelectorClass_none name rows b :
  querySelectorClass (getBundleClass name) rows = None ->
  In b (syntheticRows rows) -> bundlename b <> name.
Proof.
  unfold querySelectorClass. intros Hnone Hin E.
  pose proof (find_none _ _ Hnone b Hin) as Hb. cbn in Hb.
  rewrite E, String.eqb_refl in Hb. discriminate.
Qed.

Lemma write_keeps_one_row_per_label k w w' :
  Write k w w' -> NoDup (boundLabels w) -> NoDup (boundLabels w').
Proof.
  intros Hw. destruct Hw; unfold boundLabels, visibleRows; cbn [emailTable]; auto.
  - destruct (emailTable w) as [rows|]; cbn [option_map]; auto.
    rewrite (bundlename_identity _ _ (bundleIdentity_onBundle i f rows H)). auto.
  - destruct (emailTable w) as [rows|]; cbn [option_map]; auto.
    rewrite syntheticRows_removeRow. apply distinct_labels_filter.
  - rewrite H. intros Hnd.
    destruct (insertAdjacent_split _ _ _ _ _ H0) as (l1 & l2 & -> & ->).
    rewrite syntheticRows_app in *. cbn. rewrite map_app in *. cbn.
    apply NoDup_Add with (a := bundlename new)
                         (l := map bundlename (syntheticRows l1)
                               ++ map bundlename (syntheticRows l2)).
    + apply Add_app.
    + split; [exact Hnd|]. rewrite <- map_app. intros Hin.
      apply in_map_iff in Hin as (b & Hb & Hin).
      rewrite <- syntheticRows_app in Hin.
      exact (querySelectorClass_none _ _ b H2 Hin Hb).
  - destruct (emailTable w) as [rows|]; cbn [option_map]; auto.
    rewrite syntheticRows_onEmail. auto.
Qed.

(** X10.  No label ever gets a second synthetic row.  On a page whose label
    texts are plain ones (letters, digits, [-] and [_], no name of a member
    of Object.prototype, not digits only: the labels for which the class
    selector of [insertBundleDom] finds the row of a label), if the synthetic
    rows of the table are bound to distinct labels (as when there is none
    yet), they still are after any sequence of cycles and of clicks on rows
    of such labels, whether the handlers return or throw. *)
Theorem one_row_per_label (w : World) (events : list PageEvent) :
  plainPage w ->
  Forall plainEvent events ->
  NoDup (boundLabels w) -> NoDup (boundLabels (fold_left handle events w)).
Proof.
  intros _ _.
  apply (writes_invariant (fun _ => true) (fun v => NoDup (boundLabels v)));
    [|apply handles_writes].
  intros k v v' _. apply write_keeps_one_row_per_label.
Qed.

Lemma one_row_per_label_witness :
  NoDup (boundLabels Sample.start) /\
  plainPage Sample.start /\
  boundLabels (fold_left handle [Cycle; Click "Work"; Cycle; Click "Personal"] Sample.start)
  = ["Work"; "Personal"] /\
  NoDup (boundLabels
           (fold_left handle [Cycle; Click "Work"; Cycle; Click "Personal"] Sample.start)).
Proof.
  assert (H : NoDup (boundLabels Sample.start)) by constructor.
  split; [exact H|]. split; [reflexivity|]. split; [vm_compute; reflexivity|].
  apply (one_row_per_label Sample.start _ eq_refl); [|exact H].
  repeat constructor.
Defined.

(** ** Hiding and showing message rows *)

Lemma applyTo_twice f ids rows :
  (forall e, eid (f e) = eid e) ->
  (forall e, f (f e) = f e) ->
  map (applyTo f ids) (map (applyTo f ids) rows) = map (applyTo f ids) rows.
Proof.
  intros Hid Hidem. rewrite map_map. apply map_ext. intros [e|b]; [|reflexivity].
  cbn. destruct (existsb (Nat.eqb (eid e)) ids) eqn:E; cbn; rewrite ?Hid, E, ?Hidem; reflexivity.
Qed.

Lemma hideOne_eid e : eid (hideOne e) = eid e.
Proof. unfold hideOne. destruct (hiddenClass e); reflexivity. Qed.

Lemma hideOne_twice e : hideOne (hideOne e) = hideOne e.
Proof. unfold hideOne. destruct (hiddenClass e) eqn:E; cbn; rewrite ?E; reflexivity. Qed.

Lemma unhideOne_eid e : eid (unhideOne e) = eid e.
Proof. unfold unhideOne. destruct (hiddenClass e); reflexivity. Qed.

Lemma unhideOne_twice e : unhideOne (unhideOne e) = unhideOne e.
Proof. unfold unhideOne. destruct (hiddenClass e) eqn:E; cbn; rewrite ?E; reflexivity. Qed.

Lemma hideEmails_returns st tbl ev ids :
  hideEmails ids (mkWorld st tbl ev)
  = Returns tt (mkWorld st (option_map (map (applyTo hideOne ids)) tbl) ev).
Proof.
  exact (forEach_updateEmail hideOne st ev hideOne_eid hideOne_twice ids tbl).
Qed.

(** X11.  [hideEmails] never throws.  It gives every message row it is
    given the hidden class and [display: none], but a row that carries the
    class already is left as it is, whatever its display; no other row and
    nothing of [state] changes; and hiding the same rows again changes
    nothing. *)
Theorem hideEmails_hides_the_listed_rows (w : World) (emails : list nat) :
  exists w',
    hideEmails emails w = Returns tt w' /\
    state w' = state w /\
    emailTable w' = option_map (map (applyTo hideOne emails)) (emailTable w) /\
    (forall e, In (EmailRow e) (visibleRows w') -> listed emails e = true ->
               hiddenClass e = true) /\
    hideEmails emails w' = Returns tt w'.
Proof.
  destruct w as [st tbl ev]. rewrite hideEmails_returns. eexists. split; [reflexivity|].
  split; [reflexivity|]. split; [reflexivity|]. split.
  - unfold visibleRows. cbn [emailTable]. destruct tbl as [rows|]; cbn [option_map]; [|intros ? []].
    intros e Hin Hl. apply in_map_iff in Hin as ([e0|b] & He & _); [|discriminate].
    cbn in He. unfold listed in Hl.
    destruct (existsb (Nat.eqb (eid e0)) emails) eqn:E; injection He as <-.
    + unfold hideOne. destruct (hiddenClass e0) eqn:Hh; [exact Hh | reflexivity].
    + congruence.
  - rewrite hideEmails_returns. do 2 f_equal.
    destruct tbl as [rows|]; cbn [option_map]; [|reflexivity].
    f_equal. apply applyTo_twice; [apply hideOne_eid | apply hideOne_twice].
Qed.

(** X12.  On a table of distinct rows [showUnbundledEmails] never throws and
    reveals exactly the message rows that carry the hidden class without the
    bundled marker: each loses the class and gets the display [flex].  Rows
    with the marker and rows that are not hidden stay as they are, so every
    row still hidden afterwards is a marked one; [state] is not written, and
    a second call changes nothing. *)
Theorem showUnbundledEmails_reveals_unmarked_rows (w : World) (rows : list Row) :
  emailTable w = Some rows ->
  NoDup (map refOf rows) ->
  exists w',
    showUnbundledEmails w = Returns tt w' /\
    state w' = state w /\
    emailTable w' = Some (showUnbundled rows) /\
    (forall e, In (EmailRow e) rows -> hiddenClass e = true -> isBundledClass e = false ->
       In (EmailRow (setHidden false EMAIL_DEFAULT_DISPLAY e)) (visibleRows w')) /\
    (forall e, In (EmailRow e) rows -> isBundledClass e = true \/ hiddenClass e = false ->
       In (EmailRow e) (visibleRows w')) /\
    (forall e, In (EmailRow e) (visibleRows w') -> hiddenClass e = true ->
       isBundledClass e = true) /\
    showUnbundledEmails w' = Returns tt w'.
Proof.
  intros Ht Hnd. destruct w as [st tbl ev]. cbn in Ht. subst tbl.
  rewrite showUnbundledEmails_returns by exact Hnd.
  eexists. split; [reflexivity|]. split; [reflexivity|]. split; [reflexivity|].
  unfold visibleRows. cbn [emailTable].
  split; [|split; [|split]].
  - intros e Hin Hh Hb. unfold showUnbundled. apply in_map_iff.
    exists (EmailRow e). split; [|exact Hin]. cbn. rewrite Hh, Hb. reflexivity.
  - intros e Hin Hcase. unfold showUnbundled. apply in_map_iff.
    exists (EmailRow e). split; [|exact Hin]. cbn.
    destruct Hcase as [-> | ->]; [rewrite andb_false_r|]; reflexivity.
  - intros e Hin Hh. unfold showUnbundled in Hin.
    apply in_map_iff in Hin as ([e0|b] & He & _); [|discriminate].
    cbn in He. destruct (hiddenClass e0) eqn:Hh0; destruct (isBundledClass e0) eqn:Hb0;
      cbn in He; injection He as <-; cbn in *; congruence.
  - rewrite showUnbundledEmails_returns.
    + rewrite showUnbundled_idem. reflexivity.
    + rewrite refOf_showUnbundled. exact Hnd.
Qed.

Lemma showUnbundledEmails_reveals_unmarked_rows_witness :
  exists w',
    showUnbundledEmails Sample.workGone = Returns tt w' /\
    findEmail 3 (visibleRows Sample.workGone) = Some (setHidden true "none" Sample.cid) /\
    findEmail 3 (visibleRows w') = Some (setHidden false "flex" Sample.cid) /\
    showUnbundledEmails w' = Returns tt w'.
Proof.
  destruct (showUnbundledEmails_reveals_unmarked_rows Sample.workGone _ eq_refl)
    as (w' & Hrun & _ & Htbl & _ & _ & _ & Hidem).
  - vm_compute. repeat constructor; cbn; intuition discriminate.
  - exists w'. split; [exact Hrun|]. split; [reflexivity|]. split; [|exact Hidem].
    unfold visibleRows. rewrite Htbl. reflexivity.
Defined.

(** The loop of [showBundledEmails]: the members are revealed, and the
    local array is spliced once for each. *)
Lemma unhideBundle_returns st ev : forall bundle toHide tbl,
  unhideBundle bundle toHide (mkWorld st tbl ev)
  = Returns (spliceMembers bundle toHide)
            (mkWorld st (option_map (map (applyTo unhideOne bundle)) tbl) ev).
Proof.
  induction bundle as [|i rest IH]; intros toHide tbl.
  - cbn. destruct tbl as [rows|]; cbn; [rewrite applyTo_nil|]; reflexivity.
  - cbn [unhideBundle spliceMembers fold_left]. cbv zeta. run.
    unfold updateEmail, modifyRows. cbn [state emailTable effects].
    rewrite IH. destruct tbl as [rows|]; cbn [option_map]; [|reflexivity].
    change (fun e => if hiddenClass e then setHidden false EMAIL_DEFAULT_DISPLAY e else e)
      with unhideOne.
    rewrite applyTo_cons; [reflexivity | apply unhideOne_eid | apply unhideOne_twice].
Qed.

Lemma indexOf_In i l : In i l -> exists k, indexOf Nat.eqb i l = Some k.
Proof.
  induction l as [|y l IH]; intros Hin; [destruct Hin|]. cbn.
  destruct (Nat.eqb_spec i y) as [->|Hne]; [eauto|].
  destruct Hin as [->|Hin]; [contradiction|].
  destruct (IH Hin) as [k ->]. cbn. eauto.
Qed.

Lemma filter_absent i l :
  ~ In i l -> filter (fun j => negb (Nat.eqb j i)) l = l.
Proof.
  induction l as [|y l IH]; intros Hni; [reflexivity|]. cbn.
  destruct (Nat.eqb_spec y i) as [->|Hne]; [exfalso; apply Hni; now left|].
  cbn. f_equal. apply IH. intros Hin. apply Hni. now right.
Qed.

(** Splicing at the index of an element that occurs once takes that element
    out. *)
Lemma spliceOne_present i l :
  NoDup l -> In i l ->
  spliceOne (indexOf Nat.eqb i l) l = filter (fun j => negb (Nat.eqb j i)) l.
Proof.
  induction l as [|y l IH]; intros Hnd Hin; [destruct Hin|].
  apply NoDup_cons_iff in Hnd as [Hy Hl]. cbn [indexOf filter].
  destruct (Nat.eqb_spec i y) as [->|Hne].
  - rewrite Nat.eqb_refl. cbn. symmetry. apply filter_absent, Hy.
  - destruct Hin as [->|Hin]; [contradiction|].
    assert (Hyi : Nat.eqb y i = false) by (apply Nat.eqb_neq; congruence).
    rewrite Hyi. cbn [negb]. rewrite <- (IH Hl Hin).
    destruct (indexOf_In i l Hin) as [k ->]. reflexivity.
Qed.

Lemma spliceMembers_present : forall bundle toHide,
  NoDup toHide -> NoDup bundle -> incl bundle toHide ->
  spliceMembers bundle toHide
  = filter (fun j => negb (existsb (Nat.eqb j) bundle)) toHide.
Proof.
  induction bundle as [|i rest IH]; intros toHide Hnd Hb Hincl.
  - cbn. symmetry. clear. induction toHide; cbn; [|f_equal]; auto.
  - apply NoDup_cons_iff in Hb as [Hi Hrest].
    cbn [spliceMembers fold_left].
    rewrite spliceOne_present; [|exact Hnd | apply Hincl; now left].
    change (fold_left _ rest ?l) with (spliceMembers rest l).
    rewrite IH.
    + rewrite filter_twice. apply filter_ext. intros j. cbn [existsb].
      rewrite negb_orb. reflexivity.
    + apply NoDup_filter, Hnd.
    + exact Hrest.
    + intros j Hj. apply filter_In. split; [apply Hincl; now right|].
      apply negb_true_iff, Nat.eqb_neq. intros ->. contradiction.
Qed.

Lemma emailRefs_In i rows :
  In i (emailRefs rows) <-> exists e, In (EmailRow e) rows /\ eid e = i.
Proof.
  unfold emailRefs. rewrite in_flat_map. split.
  - intros ([e|b] & Hin & Hi); [|destruct Hi]. destruct Hi as [<-|[]]. eauto.
  - intros (e & Hin & <-). exists (EmailRow e). split; [exact Hin | now left].
Qed.

Lemma emailRefs_NoDup rows : NoDup (map refOf rows) -> NoDup (emailRefs rows).
Proof.
  induction rows as [|[e|b] rows IH]; cbn; intros Hnd; [constructor | |].
  - apply NoDup_cons_iff in Hnd as [He Hnd]. constructor; [|exact (IH Hnd)].
    intros Hin. apply emailRefs_In in Hin as (e' & Hin & Heq).
    apply He. apply in_map_iff. exists (EmailRow e'). cbn. split; [congruence | exact Hin].
  - apply NoDup_cons_iff in Hnd as [_ Hnd]. exact (IH Hnd).
Qed.

Lemma messages_applyTo f ids rows :
  messages (map (applyTo f ids) rows)
  = map (fun e => if listed ids e then f e else e) (messages rows).
Proof.
  induction rows as [|[e|b] rows IH]; cbn; [reflexivity | | exact IH].
  unfold listed at 1. destruct (existsb (Nat.eqb (eid e)) ids); cbn; f_equal; exact IH.
Qed.

Lemma messages_In e rows : In e (messages rows) <-> In (EmailRow e) rows.
Proof.
  unfold messages. rewrite in_flat_map. split.
  - intros ([e'|b] & Hin & He); [|destruct He]. destruct He as [<-|[]]. exact Hin.
  - intros Hin. exists (EmailRow e). split; [exact Hin | now left].
Qed.

Lemma showBundledEmails_messages
        (w : World) (rows : list Row) (bundleName : string) (members : list nat) :
  emailTable w = Some rows ->
  NoDup (map refOf rows) ->
  JsObject.get bundleName (bundles (state w)) = Some members ->
  NoDup members ->
  incl members (emailRefs rows) ->
  let w' := worldOf (showBundledEmails bundleName w) in
  messageRows w' = Some (map (showOnly members) (messages rows)) /\
  (forall e, In (EmailRow e) (visibleRows w') ->
             hiddenClass e = negb (listed members e)).
Proof.
  intros Ht Hnd Hget Hm Hincl w'.
  assert (Hrows : messageRows w' = Some (map (showOnly members) (messages rows))).
  { subst w'. destruct w as [st tbl ev]. cbn in Ht, Hget. subst tbl.
    unfold showBundledEmails. run. cbv zeta. run. cbn [state emailTable].
    rewrite Hget. run.
    run_by (unhideBundle_returns st ev members (emailRefs rows) (Some rows)).
    run_by (hideEmails_returns st (option_map (map (applyTo unhideOne members)) (Some rows))
              ev (spliceMembers members (emailRefs rows))).
    cbn [option_map].
    match goal with
    | |- messageRows (worldOf (resetBundleDomsPosition [] ?v)) = _ =>
      rewrite (proj2 (proj2 (proj2 (proj2 (positioning_never_touches_messages_aux v))) []))
    end.
    unfold messageRows. cbn [emailTable option_map]. f_equal.
    rewrite !messages_applyTo, map_map. apply map_ext_in. intros e He.
    apply messages_In in He. unfold showOnly.
    rewrite spliceMembers_present;
      [|apply emailRefs_NoDup, Hnd | exact Hm | exact Hincl].
    destruct (listed members e) eqn:Hl.
    - unfold listed at 1. rewrite unhideOne_eid.
      assert (E : existsb (Nat.eqb (eid e))
                    (filter (fun j => negb (existsb (Nat.eqb j) members)) (emailRefs rows))
                  = false).
      { apply not_true_iff_false. intros Hex.
        apply existsb_exists in Hex as (j & Hj & Hej). apply Nat.eqb_eq in Hej. subst j.
        apply filter_In in Hj as [_ Hj]. unfold listed in Hl. rewrite Hl in Hj. discriminate. }
      rewrite E. reflexivity.
    - unfold listed at 1.
      assert (E : existsb (Nat.eqb (eid e))
                    (filter (fun j => negb (existsb (Nat.eqb j) members)) (emailRefs rows))
                  = true).
      { apply existsb_exists. exists (eid e). split; [|apply Nat.eqb_refl].
        apply filter_In. split; [apply emailRefs_In; eauto|].
        unfold listed in Hl. rewrite Hl. reflexivity. }
      rewrite E. reflexivity. }
  split; [exact Hrows|].
  intros e Hin. unfold messageRows in Hrows. unfold visibleRows in Hin.
  destruct (emailTable w') as [rows'|]; [|destruct Hin].
  cbn in Hrows. injection Hrows as Hrows.
  apply messages_In in Hin. rewrite Hrows in Hin.
  apply in_map_iff in Hin as (e0 & <- & _). unfold showOnly, listed.
  destruct (existsb (Nat.eqb (eid e0)) members) eqn:Hl.
  - rewrite unhideOne_eid, Hl. unfold unhideOne. destruct (hiddenClass e0) eqn:Hh; cbn; auto.
  - rewrite hideOne_eid, Hl. unfold hideOne. destruct (hiddenClass e0) eqn:Hh; cbn; auto.
Qed.



(** ** The rows stay distinct nodes *)

Lemma freshBid_fresh rows : ~ In (BundleRef (freshBid rows)) (map refOf rows).
Proof.
  intros Hin. apply in_map_iff in Hin as ([e|b] & Href & Hin); [discriminate|].
  cbn in Href. injection Href as Hb.
  assert (Hle : forall l, In (bid b) l -> bid b <= fold_right Nat.max 0 l).
  { induction l as [|x l IH]; intros H; [destruct H|]. cbn.
    destruct H as [->|H]; [lia | specialize (IH H); lia]. }
  specialize (Hle (map bid (syntheticRows rows))).
  unfold freshBid in Hb.
  assert (In (bid b) (map bid (syntheticRows rows))).
  { apply in_map, In_syntheticRows, Hin. }
  specialize (Hle H). lia.
Qed.

Lemma refOf_onBundle i f rows :
  (forall b, bundleIdentity (f b) = bundleIdentity b) ->
  map refOf (map (onBundle i f) rows) = map refOf rows.
Proof.
  intros Hf. rewrite map_map. apply map_ext. intros [e|b]; cbn; [reflexivity|].
  destruct (Nat.eqb (bid b) i); cbn; [|reflexivity].
  specialize (Hf b). unfold bundleIdentity in Hf. congruence.
Qed.

Lemma refOf_onEmail_host i f rows :
  (forall e, hostFields (f e) = hostFields e) ->
  map refOf (map (onEmail i f) rows) = map refOf rows.
Proof.
  intros Hf. rewrite map_map. apply map_ext. intros row. apply refOf_onEmail.
  intros e. specialize (Hf e). unfold hostFields in Hf. congruence.
Qed.

Lemma write_keeps_distinctRows k w w' :
  Write k w w' -> distinctRows w -> distinctRows w'.
Proof.
  intros Hw. destruct Hw; unfold distinctRows, visibleRows; cbn [emailTable]; auto.
  - destruct (emailTable w) as [rows|]; cbn [option_map]; auto.
    rewrite refOf_onBundle by assumption. auto.
  - destruct (emailTable w) as [rows|]; cbn [option_map]; auto.
    apply NoDup_removeRow.
  - rewrite H. intros Hnd.
    pose proof (freshBid_fresh rows) as Hfresh. rewrite <- H1 in Hfresh.
    destruct (insertAdjacent_split _ _ _ _ _ H0) as (l1 & l2 & -> & ->).
    rewrite map_app in *. cbn [map].
    apply NoDup_Add with (a := refOf (SyntheticRow new)) (l := map refOf l1 ++ map refOf l2).
    + apply Add_app.
    + split; [exact Hnd | exact Hfresh].
  - destruct (emailTable w) as [rows|]; cbn [option_map]; auto.
    rewrite refOf_onEmail_host by assumption. auto.
Qed.

Lemma writes_keep_distinctRows allowed w w' :
  writes allowed w w' -> distinctRows w -> distinctRows w'.
Proof.
  apply (writes_invariant allowed distinctRows).
  intros k v v' _. apply write_keeps_distinctRows.
Qed.

Lemma write_keeps_list k w w' :
  Write k w w' -> emailTable w <> None -> emailTable w' <> None.
Proof.
  intros Hw. destruct Hw; cbn [emailTable]; auto;
    try (destruct (emailTable w); cbn; congruence).
Qed.

(** ** Opening and closing a bundle *)



Lemma preserves_messageRows_reset args :
  preserves messageRows (resetBundleDomsPosition args).
Proof.
  intro w.
  exact (proj2 (proj2 (proj2 (proj2 (positioning_never_touches_messages_aux w))) args)).
Qed.

Lemma getVisibleBundleName_closed s :
  (forall k, JsObject.get k (bundlesVisibility s) <> Some true) ->
  getVisibleBundleName s = None.
Proof.
  intros Hclosed. destruct (getVisibleBundleName s) as [v|] eqn:E; [|reflexivity].
  exfalso. exact (Hclosed v (getVisibleBundleName_open s v E)).
Qed.











(** ** More on the recompute *)

Lemma group_unread label inc : forall g,
  JsObject.get label (gBundlesUnread (fold_left groupIncidence inc g))
  = if existsb (fun p => snd (fst p) && String.eqb label (incidenceLabel p)) inc
    then Some true
    else JsObject.get label (gBundlesUnread g).
Proof.
  induction inc as [|p inc IH]; intros g; [reflexivity|].
  cbn [fold_left existsb]. rewrite IH.
  destruct (existsb _ inc); [now rewrite orb_true_r|]. rewrite orb_false_r.
  unfold groupIncidence, groupLabel. cbn [gBundlesUnread].
  destruct (snd (fst p)); cbn [andb]; [|reflexivity].
  rewrite get_set. reflexivity.
Qed.

Lemma unread_incidences label rows :
  existsb (fun p => snd (fst p) && String.eqb label (incidenceLabel p)) (incidences rows)
  = existsb (unreadCarrier label) rows.
Proof.
  induction rows as [|[e|b] rows IH]; [reflexivity | | exact IH].
  cbn [incidences flat_map existsb unreadCarrier].
  change (flat_map _ rows) with (incidences rows).
  rewrite existsb_app, IH. f_equal.
  unfold includes. induction (labels e) as [|c l IHl]; cbn; [now rewrite andb_false_r|].
  rewrite IHl. unfold incidenceLabel. cbn.
  destruct (unread e); reflexivity.
Qed.

(** X15.  After the recompute over a table of distinct rows, none of whose
    labels names a member of Object.prototype, [state.bundlesUnread] has the
    entry [true] for a label exactly when some unread message row of the
    table carries the label, and no entry for any other label: an entry is
    never [false]. *)
Theorem recompute_marks_unread_bundles (w : World) (rows : list Row) :
  emailTable w = Some rows ->
  NoDup (map refOf rows) ->
  ownLabels rows ->
  exists w',
    setBundleStateToEmails (map refOf rows) w = Returns tt w' /\
    forall label,
      JsObject.get label (bundlesUnread (state w'))
      = if existsb (unreadCarrier label) rows then Some true else None.
Proof.
  intros Ht Hnd Hown. eexists. split; [now apply setBundleStateToEmails_returns|].
  intros label. cbn [state bundlesUnread withBundles].
  rewrite group_unread, unread_incidences. reflexivity.
Qed.

Lemma recompute_marks_unread_bundles_witness :
  exists w',
    setBundleStateToEmails (map refOf Sample.inbox) Sample.start = Returns tt w' /\
    JsObject.get "Work" (bundlesUnread (state w')) = Some true /\
    JsObject.get "Personal" (bundlesUnread (state w')) = Some true /\
    JsObject.get "Other" (bundlesUnread (state w')) = None.
Proof.
  assert (Hnd : NoDup (map refOf Sample.inbox)).
  { repeat constructor; cbn; intuition discriminate. }
  destruct (recompute_marks_unread_bundles Sample.start Sample.inbox eq_refl Hnd eq_refl)
    as (w' & Hrun & Hunread).
  exists w'. split; [exact Hrun|].
  repeat split; rewrite Hunread; reflexivity.
Defined.

Lemma carrying_cons label row rows :
  carrying label (row :: rows)
  = match row with
    | EmailRow e =>
      map (fun _ => eid e) (filter (fun c => String.eqb (chipText c) label) (labels e))
    | SyntheticRow _ => []
    end ++ carrying label rows.
Proof.
  unfold carrying. cbn [incidences flat_map].
  change (flat_map _ rows) with (incidences rows).
  rewrite filter_app, map_app. f_equal.
  destruct row as [e|b]; [|reflexivity].
  induction (labels e) as [|c l IH]; [reflexivity|]. cbn.
  unfold incidenceLabel at 1. cbn.
  destruct (String.eqb (chipText c) label); cbn; [f_equal|]; exact IH.
Qed.

Lemma carrying_top label rows :
  (exists e, In (EmailRow e) rows /\ In label (map chipText (labels e))) ->
  exists before e after,
    rows = before ++ EmailRow e :: after /\
    In label (map chipText (labels e)) /\
    (forall row, In row before -> ~ In label (rowLabels row)) /\
    nth_error (carrying label rows) 0 = Some (eid e).
Proof.
  induction rows as [|row rows IH]; intros (e0 & Hin & Hl); [destruct Hin|].
  destruct (in_dec string_dec label (rowLabels row)) as [Hcarry | Hno].
  - destruct row as [e|b]; [|destruct Hcarry]. cbn [rowLabels] in Hcarry.
    exists [], e, rows. split; [reflexivity|]. split; [exact Hcarry|].
    split; [intros ? []|]. rewrite carrying_cons.
    apply in_map_iff in Hcarry as (c & Hc & Hcin).
    assert (Hf : In c (filter (fun c => String.eqb (chipText c) label) (labels e))).
    { apply filter_In. split; [exact Hcin|]. apply String.eqb_eq, Hc. }
    destruct (filter _ (labels e)); [destruct Hf | reflexivity].
  - assert (Hrest : exists e, In (EmailRow e) rows /\ In label (map chipText (labels e))).
    { destruct Hin as [->|Hin]; [contradiction | eauto]. }
    destruct (IH Hrest) as (before & e & after & -> & He & Hbefore & Hnth).
    exists (row :: before), e, after. split; [reflexivity|]. split; [exact He|]. split.
    + intros r [<-|Hr]; [exact Hno | exact (Hbefore r Hr)].
    + rewrite carrying_cons.
      assert (Hnone : match row with
                      | EmailRow e1 =>
                        map (fun _ => eid e1)
                            (filter (fun c => String.eqb (chipText c) label) (labels e1))
                      | SyntheticRow _ => []
                      end = []).
      { destruct row as [e1|b]; [|reflexivity]. cbn [rowLabels] in Hno.
        destruct (filter _ (labels e1)) as [|c l] eqn:Hf; [reflexivity|]. exfalso.
        assert (Hc : In c (filter (fun c => String.eqb (chipText c) label) (labels e1)))
          by (rewrite Hf; now left).
        apply filter_In in Hc as [Hcin Hc]. apply String.eqb_eq in Hc.
        apply Hno. rewrite <- Hc. now apply in_map. }
      rewrite Hnone. exact Hnth.
Qed.

(** X16.  After the recompute over a table of distinct rows, none of whose
    labels names a member of Object.prototype, every bundle has a first
    member, and it is the topmost message row of the table that carries the
    label: the row [runBundlizer] takes as the bundle's latest email and
    places the synthetic row at. *)
Theorem recompute_first_member_is_top_row (w : World) (rows : list Row) :
  emailTable w = Some rows ->
  NoDup (map refOf rows) ->
  ownLabels rows ->
  exists w',
    setBundleStateToEmails (map refOf rows) w = Returns tt w' /\
    forall label, In label (JsObject.keys (bundles (state w'))) ->
      exists before e after,
        rows = before ++ EmailRow e :: after /\
        In label (map chipText (labels e)) /\
        (forall row, In row before -> ~ In label (rowLabels row)) /\
        nth_error (membersOf label w') 0 = Some (eid e).
Proof.
  intros Ht Hnd Hown.
  destruct (recompute_members w rows Ht Hnd Hown) as (w' & Hrun & _ & Hmem & _ & _).
  exists w'. split; [exact Hrun|]. intros label Hkey.
  rewrite Hmem. apply carrying_top.
  exact (proj1 (recompute_labels w rows w' label Ht Hnd Hrun) Hkey).
Qed.

Lemma recompute_first_member_is_top_row_witness :
  exists w',
    setBundleStateToEmails (map refOf Sample.inbox) Sample.start = Returns tt w' /\
    JsObject.keys (bundles (state w')) = ["Work"; "Personal"] /\
    nth_error (membersOf "Personal" w') 0 = Some 2.
Proof.
  assert (Hnd : NoDup (map refOf Sample.inbox)).
  { repeat constructor; cbn; intuition discriminate. }
  destruct (recompute_first_member_is_top_row Sample.start Sample.inbox eq_refl Hnd eq_refl)
    as (w' & Hrun & _).
  exists w'. split; [exact Hrun|].
  vm_compute in Hrun. injection Hrun as <-. split; reflexivity.
Defined.

Lemma incidences_markBundled refs rows :
  incidences (map (markBundled refs) rows) = incidences rows.
Proof.
  induction rows as [|[e|b] rows IH]; [reflexivity | | exact IH].
  cbn [map markBundled].
  destruct (existsb _ refs); cbn [incidences flat_map]; f_equal; exact IH.
Qed.

Lemma labelled_markBundled refs rows :
  map refOf (filter labelled (map (markBundled refs) rows))
  = map refOf (filter labelled rows).
Proof.
  induction rows as [|[e|b] rows IH]; [reflexivity | | exact IH].
  cbn [map markBundled].
  destruct (existsb _ refs); cbn [filter labelled addIsBundled labels];
    destruct (labels e); cbn [map refOf addIsBundled eid]; rewrite IH; reflexivity.
Qed.

Lemma markBundled_twice refs rows :
  map (markBundled refs) (map (markBundled refs) rows) = map (markBundled refs) rows.
Proof.
  rewrite map_map. apply map_ext. intros [e|b]; [|reflexivity]. cbn.
  destruct (existsb _ refs) eqn:E; cbn; rewrite E; reflexivity.
Qed.

Lemma rowLabels_markBundled refs row : rowLabels (markBundled refs row) = rowLabels row.
Proof.
  destruct row as [e|b]; [|reflexivity]. cbn [markBundled].
  destruct (existsb _ refs); reflexivity.
Qed.

Lemma ownLabels_markBundled refs rows :
  ownLabels rows -> ownLabels (map (markBundled refs) rows).
Proof.
  unfold ownLabels. intros H. rewrite forallb_forall in *.
  intros row Hin. apply in_map_iff in Hin as (r & <- & Hr).
  rewrite rowLabels_markBundled. apply H. exact Hr.
Qed.

(** X17.  The recompute is idempotent: run again over the same rows of a
    table of distinct rows, right after it has returned, it returns and leaves
    the world as the first run left it.  The grouping depends on the nodes,
    labels and read state of the rows only, and the bundled marker is added to
    a row that has it already without effect. *)
Theorem recompute_twice_is_once (w w' : World) (rows : list Row) :
  emailTable w = Some rows ->
  NoDup (map refOf rows) ->
  setBundleStateToEmails (map refOf rows) w = Returns tt w' ->
  setBundleStateToEmails (map refOf rows) w' = Returns tt w'.
Proof.
  intros Ht Hnd Hrun.
  pose proof (setBundleStateToEmails_own w rows w' Ht Hnd Hrun) as Hown.
  rewrite (setBundleStateToEmails_returns w rows Ht Hnd Hown) in Hrun. cbv zeta in Hrun.
  injection Hrun as <-.
  set (refs := map refOf (filter labelled rows)).
  rewrite <- (refOf_markBundled refs rows).
  rewrite setBundleStateToEmails_returns;
    [|reflexivity | rewrite refOf_markBundled; exact Hnd
     | apply ownLabels_markBundled; exact Hown].
  cbv zeta. cbn [state emailTable effects].
  rewrite incidences_markBundled, labelled_markBundled. fold refs.
  rewrite markBundled_twice. reflexivity.
Qed.

Lemma recompute_twice_is_once_witness :
  exists w',
    setBundleStateToEmails (map refOf Sample.inbox) Sample.start = Returns tt w' /\
    setBundleStateToEmails (map refOf Sample.inbox) w' = Returns tt w'.
Proof.
  assert (Hnd : NoDup (map refOf Sample.inbox)).
  { repeat constructor; cbn; intuition discriminate. }
  eexists. split; [reflexivity|].
  exact (recompute_twice_is_once Sample.start _ Sample.inbox eq_refl Hnd eq_refl).
Defined.

(** ** A cycle, step by step *)

Lemma bind_returns_inv {A B} (c : Js A) (k : A -> Js B) w b w' :
  bind c k w = Returns b w' ->
  exists a w1, c w = Returns a w1 /\ k a w1 = Returns b w'.
Proof.
  unfold bind. destruct (c w) as [a w1|w1]; [|discriminate]. eauto.
Qed.

Lemma forEach_returns_inv {A} (f : A -> Js unit) x l w w' :
  forEach (x :: l) f w = Returns tt w' ->
  exists w1, f x w = Returns tt w1 /\ forEach l f w1 = Returns tt w'.
Proof.
  cbn [forEach]. intros H. apply bind_returns_inv in H as ([] & w1 & Hx & Hl). eauto.
Qed.

Lemma preserves_returns {X A} (obs : World -> X) (c : Js A) w a w' :
  preserves obs c -> c w = Returns a w' -> obs w' = obs w.
Proof. intros Hc Hrun. specialize (Hc w). rewrite Hrun in Hc. exact Hc. Qed.

(** A cycle that returns on a page with a list has gone through its five
    steps: the template, the recompute, the orphan pass, the loop over the
    bundle names, and the settling. *)
Lemma runBundlizer_steps w w' rows :
  emailTable w = Some rows ->
  runBundlizer w = Returns tt w' ->
  exists w0 w1 w2 w3,
    initBundleTemplateHTML w = Returns tt w0 /\
    setBundleStateToEmails (map refOf rows) w0 = Returns tt w1 /\
    orphanPass (JsObject.keys (bundles (state w1))) w1 = Returns tt w2 /\
    forEach (JsObject.keys (bundles (state w1))) renderBundle w2 = Returns tt w3 /\
    settleCycle w3 = Returns tt w'.
Proof.
  intros Ht Hrun. unfold runBundlizer in Hrun.
  apply bind_returns_inv in Hrun as ([] & w0 & Hinit & Hrun).
  assert (Ht0 : emailTable w0 = Some rows).
  { pose proof (preserves_returns emailTable initBundleTemplateHTML w tt w0) as P.
    rewrite P; [exact Ht | | exact Hinit].
    intro v. unfold initBundleTemplateHTML, bind, getState, getRows, defined, emit,
               modifyState, ret, throw.
    destruct (bundleTemplateHTML (state v)); [|reflexivity].
    cbn. destruct (nth_error _ _); reflexivity. }
  rewrite Ht0 in Hrun. cbv zeta in Hrun.
  apply bind_returns_inv in Hrun as ([] & w1 & Hgroup & Hrun).
  apply bind_returns_inv in Hrun as (s & w1' & Hs & Hrun).
  injection Hs as <- <-.
  apply bind_returns_inv in Hrun as (rows1 & w1' & Hr & Hrun).
  injection Hr as <- <-.
  apply bind_returns_inv in Hrun as ([] & w2 & Horphan & Hrun).
  apply bind_returns_inv in Hrun as ([] & w3 & Hloop & Hrun).
  exists w0, w1, w2, w3. repeat split; try assumption.
Qed.

(** Observations of [state]. *)
Section StateObservations.
Context {X : Type} (g : State -> X).

#[export] Instance stateFn_RowBlind : RowBlind (fun w => g (state w)).
Proof. split; intros; intro w; reflexivity. Qed.

Lemma preserves_modifyState_fn f :
  (forall s, g (f s) = g s) -> preserves (fun w => g (state w)) (modifyState f).
Proof. intros Hf w. cbn. apply Hf. Qed.

Lemma preserves_groupEmails_fn emails : forall gr,
  preserves (fun w => g (state w)) (groupEmails emails gr).
Proof. induction emails as [|r rest IH]; intros gr; cbn; frame. Qed.

Lemma preserves_setBundleStateToEmails_fn emails :
  (forall b u o s, g (withBundles b u o s) = g s) ->
  preserves (fun w => g (state w)) (setBundleStateToEmails emails).
Proof.
  intros Hg. unfold setBundleStateToEmails.
  apply preserves_bind; [apply preserves_groupEmails_fn | intros gr].
  apply preserves_modifyState_fn. intros s. apply Hg.
Qed.

Lemma preserves_initBundleTemplateHTML_fn :
  (forall t s, g (withTemplate t s) = g s) ->
  preserves (fun w => g (state w)) initBundleTemplateHTML.
Proof.
  intros Hg w. unfold initBundleTemplateHTML, bind, getState, getRows, defined, emit,
                 modifyState, ret, throw.
  destruct (bundleTemplateHTML (state w)); [|reflexivity].
  cbn. destruct (nth_error _ _); cbn; [apply Hg | reflexivity].
Qed.

Lemma preserves_removeIfOrphaned_fn names b :
  (forall v s, g (withVisibility (JsObject.delete (bundlename b) v) s)
               = g (withVisibility v s)) ->
  (forall s, g (withVisibility (bundlesVisibility s) s) = g s) ->
  includes (bundlename b) names = false ->
  preserves (fun w => g (state w)) (removeIfOrphaned names b).
Proof.
  intros Hdel Hsame Hb. unfold removeIfOrphaned. cbv zeta. rewrite Hb.
  apply preserves_bind; [frame | intros s].
  apply preserves_bind; [destruct (truthy _); frame | intros _].
  apply preserves_bind; [|intros _; frame].
  apply preserves_modifyState_fn. intros s'. rewrite Hdel. apply Hsame.
Qed.

End StateObservations.

Lemma preserves_state_settleCycle : preserves state settleCycle.
Proof. unfold settleCycle. frame. Qed.

Lemma orphanPass_keeps_bundles names :
  preserves (fun w => bundles (state w)) (orphanPass names).
Proof.
  unfold orphanPass. apply preserves_bind; [frame | intros rows].
  apply preserves_forEach. intros b.
  destruct (includes (bundlename b) names) eqn:Hb.
  - unfold removeIfOrphaned. cbv zeta. rewrite Hb. frame.
  - apply (preserves_removeIfOrphaned_fn bundles); auto.
Qed.

Lemma orphanPass_keeps_flag names label :
  In label names -> preserves (flagOf label) (orphanPass names).
Proof.
  intros Hin. unfold orphanPass. apply preserves_bind; [frame | intros rows].
  apply preserves_forEach. intros b.
  destruct (includes (bundlename b) names) eqn:Hb.
  - unfold removeIfOrphaned. cbv zeta. rewrite Hb. frame.
  - apply (preserves_removeIfOrphaned_fn
             (fun s => JsObject.get label (bundlesVisibility s))); auto.
    intros v s. cbn. rewrite get_delete.
    destruct (String.eqb_spec label (bundlename b)) as [->|]; [|reflexivity].
    apply includes_In in Hin. congruence.
Qed.

Lemma renderBundle_state bundleName w w' :
  renderBundle bundleName w = Returns tt w' ->
  state w'
  = withVisibility
      (JsObject.set bundleName (truthy (flagOf bundleName w)) (bundlesVisibility (state w)))
      (state w).
Proof.
  unfold renderBundle. intros Hrun.
  apply bind_returns_inv in Hrun as (s & w1 & Hs & Hrun). injection Hs as <- <-.
  apply bind_returns_inv in Hrun as (bundle & w1 & Hb & Hrun).
  destruct (JsObject.get bundleName (bundles (state w))); [|discriminate].
  injection Hb as <- <-. cbv zeta in Hrun.
  apply bind_returns_inv in Hrun as ([] & w1 & Hm & Hrun). injection Hm as <-.
  revert Hrun. match goal with |- ?c ?v = _ -> _ => intros Hrun;
    rewrite (preserves_returns state c v tt w' ltac:(frame) Hrun) end.
  reflexivity.
Qed.

Lemma truthy_truthy v : truthy (Some (truthy v)) = truthy v.
Proof. destruct v as [[|]|]; reflexivity. Qed.

Lemma renderBundles_flags : forall names w w',
  forEach names renderBundle w = Returns tt w' ->
  bundles (state w') = bundles (state w) /\
  forall label,
    flagOf label w'
    = if includes label names then Some (truthy (flagOf label w)) else flagOf label w.
Proof.
  induction names as [|name names IH]; intros w w' Hrun.
  - injection Hrun as <-. split; [reflexivity | intros label; reflexivity].
  - apply forEach_returns_inv in Hrun as (w1 & Hone & Hrest).
    apply renderBundle_state in Hone. destruct (IH w1 w' Hrest) as [Hb Hf].
    split; [rewrite Hb, Hone; reflexivity|].
    intros label. rewrite Hf.
    assert (H1 : flagOf label w1
                 = if String.eqb label name then Some (truthy (flagOf name w))
                   else flagOf label w).
    { unfold flagOf at 1. rewrite Hone. cbn [bundlesVisibility withVisibility].
      apply get_set. }
    rewrite H1. unfold includes. cbn [existsb].
    destruct (String.eqb_spec label name) as [E|Hne]; cbn [orb].
    + rewrite E. destruct (existsb (String.eqb name) names);
        [rewrite truthy_truthy|]; reflexivity.
    + reflexivity.
Qed.

(** X18.  After a cycle that returns on a page with a message list, every
    bundle of [state.bundles] has a boolean open flag: [true] when the label's
    flag was [true] before the cycle, [false] otherwise, so a new bundle
    starts closed and an open one stays open. *)
Theorem cycle_gives_every_bundle_a_flag (w w' : World) :
  emailTable w <> None ->
  runBundlizer w = Returns tt w' ->
  forall label, In label (JsObject.keys (bundles (state w'))) ->
    flagOf label w' = Some (truthy (flagOf label w)).
Proof.
  intros Ht Hrun label Hkey.
  destruct (emailTable w) as [rows|] eqn:Hrows; [clear Ht | contradiction].
  destruct (runBundlizer_steps w w' rows Hrows Hrun)
    as (w0 & w1 & w2 & w3 & Hinit & Hgroup & Horphan & Hloop & Hsettle).
  pose proof (preserves_returns state settleCycle w3 tt w'
                preserves_state_settleCycle Hsettle) as Hs3.
  destruct (renderBundles_flags _ w2 w3 Hloop) as [Hb3 Hf3].
  pose proof (preserves_returns _ _ w1 tt w2
                (orphanPass_keeps_bundles (JsObject.keys (bundles (state w1)))) Horphan)
    as Hb2. cbn in Hb2.
  assert (Hnames : In label (JsObject.keys (bundles (state w1)))).
  { rewrite <- Hb2, <- Hb3, <- Hs3. exact Hkey. }
  pose proof (preserves_returns _ _ w1 tt w2
                (orphanPass_keeps_flag _ label Hnames) Horphan) as Hf2.
  pose proof (preserves_returns _ _ w0 tt w1
                (preserves_setBundleStateToEmails_fn
                   (fun s => JsObject.get label (bundlesVisibility s)) (map refOf rows)
                   (fun b u o s => eq_refl)) Hgroup) as Hf1.
  pose proof (preserves_returns _ _ w tt w0
                (preserves_initBundleTemplateHTML_fn
                   (fun s => JsObject.get label (bundlesVisibility s))
                   (fun t s => eq_refl)) Hinit) as Hf0.
  cbn in Hf1, Hf0.
  unfold flagOf at 1. rewrite Hs3. fold (flagOf label w3). rewrite Hf3.
  rewrite (proj2 (includes_In label _) Hnames).
  rewrite Hf2. unfold flagOf. rewrite Hf1, Hf0. reflexivity.
Qed.

Lemma cycle_gives_every_bundle_a_flag_witness :
  exists w',
    runBundlizer Sample.workOpen = Returns tt w' /\
    JsObject.keys (bundles (state w')) = ["Work"; "Personal"] /\
    flagOf "Work" w' = Some true /\ flagOf "Personal" w' = Some false.
Proof.
  destruct (runBundlizer Sample.workOpen) as [[] w'|w'] eqn:Hrun;
    [|vm_compute in Hrun; discriminate].
  exists w'. split; [reflexivity|].
  assert (Hkeys : JsObject.keys (bundles (state w')) = ["Work"; "Personal"]).
  { vm_compute in Hrun. injection Hrun as <-. reflexivity. }
  split; [exact Hkeys|].
  assert (Ht : emailTable Sample.workOpen <> None) by discriminate.
  split.
  - apply (cycle_gives_every_bundle_a_flag Sample.workOpen w' Ht Hrun "Work").
    rewrite Hkeys. now left.
  - apply (cycle_gives_every_bundle_a_flag Sample.workOpen w' Ht Hrun "Personal").
    rewrite Hkeys. right. now left.
Defined.

(** ** The bundles after a bundle *)

Lemma indexOf_split name : forall order idx,
  indexOf String.eqb name order = Some idx ->
  exists before,
    order = before ++ name :: skipn (idx + 1) order /\ ~ In name before.
Proof.
  induction order as [|x order IH]; intros idx H; [discriminate|]. cbn in H.
  destruct (String.eqb_spec name x) as [->|Hne].
  - injection H as <-. exists []. split; [reflexivity | intros []].
  - destruct (indexOf String.eqb name order) as [k|] eqn:Hk; [|discriminate].
    injection H as <-. destruct (IH k eq_refl) as (before & Horder & Hnot).
    exists (x :: before). split.
    + cbn [Nat.add skipn app]. f_equal. exact Horder.
    + intros [E|Hin]; [congruence | contradiction].
Qed.

Lemma indexOf_absent name : forall order,
  ~ In name order -> indexOf String.eqb name order = None.
Proof.
  induction order as [|x order IH]; intros Hnot; [reflexivity|]. cbn.
  destruct (String.eqb_spec name x) as [->|Hne]; [exfalso; apply Hnot; now left|].
  rewrite IH; [reflexivity|]. intros Hin. apply Hnot. now right.
Qed.

Lemma indexOf_present name : forall order,
  In name order -> exists idx, indexOf String.eqb name order = Some idx.
Proof.
  induction order as [|x order IH]; intros Hin; [destruct Hin|]. cbn.
  destruct (String.eqb_spec name x) as [->|Hne]; [eauto|].
  destruct Hin as [E|Hin]; [congruence|]. destruct (IH Hin) as [k ->]. cbn. eauto.
Qed.

(** X19.  The names the script takes as coming after a bundle (the
    [splice] from [indexOf + 1]) are the part of the label ordering behind
    the first occurrence of the bundle's name.  For a name that is not in the
    ordering [indexOf] is -1 and the part starts at 0: every bundle of the
    ordering counts as coming after it. *)
Theorem bundles_after_a_bundle (bundleName : string) (order : list string) :
  (In bundleName order ->
   exists before,
     order = before ++ bundleName :: bundlesAfter bundleName order /\
     ~ In bundleName before) /\
  (~ In bundleName order -> bundlesAfter bundleName order = order).
Proof.
  unfold bundlesAfter. split.
  - intros Hin. destruct (indexOf_present _ _ Hin) as [idx Hidx]. rewrite Hidx.
    apply indexOf_split, Hidx.
  - intros Hnot. rewrite (indexOf_absent _ _ Hnot). reflexivity.
Qed.

(** ** The recent senders *)




(** ** What a click does to the flags *)

Lemma closeVisible_clicked bundleName s :
  JsObject.get bundleName (closeVisible bundleName s)
  = JsObject.get bundleName (bundlesVisibility s).
Proof.
  unfold closeVisible.
  destruct (JsObject.get bundleName (bundlesVisibility s)) as [[|]|] eqn:Hflag;
    try exact Hflag.
  destruct (getVisibleBundleName s) as [v|] eqn:Hv; cbn [truthyName]; [|exact Hflag].
  destruct v as [|c v']; [exact Hflag|].
  rewrite get_set_other; [exact Hflag|].
  intros ->. apply getVisibleBundleName_open in Hv. congruence.
Qed.

Lemma closeVisible_narrows bundleName s label :
  JsObject.get label (closeVisible bundleName s) = Some true ->
  JsObject.get label (bundlesVisibility s) = Some true.
Proof.
  unfold closeVisible.
  destruct (JsObject.get bundleName (bundlesVisibility s)) as [[|]|]; auto.
  destruct (truthyName (getVisibleBundleName s)) as [v|]; auto.
  rewrite get_set. destruct (String.eqb label v); [discriminate | auto].
Qed.

(** X21.  A click that returns flips the clicked bundle's flag: [true]
    becomes [false], and [false] or no flag becomes [true].  It opens no other
    bundle: any other label whose flag is [true] afterwards had it [true]
    before. *)
Theorem click_flips_the_flag (w w' : World) (bundleName : string) :
  onBundleClick bundleName w = Returns tt w' ->
  flagOf bundleName w' = Some (negb (truthy (flagOf bundleName w))) /\
  (forall label, label <> bundleName -> isOpen label w' -> isOpen label w).
Proof.
  intros Hrun. rewrite onBundleClick_phases in Hrun.
  apply bind_returns_inv in Hrun as (s & w0 & Hs & Hrun). injection Hs as <- <-.
  apply bind_returns_inv in Hrun as ([] & w1 & Hclose & Hrender).
  pose proof (closeOpenBundle_flags bundleName w) as H1. rewrite Hclose in H1. cbn in H1.
  pose proof (toggleAndRender_flags bundleName w1) as H2. rewrite Hrender in H2.
  cbn [worldOf] in H2. unfold flagOf, isOpen. rewrite H2, H1. unfold toggle. split.
  - rewrite get_set_same, closeVisible_clicked. reflexivity.
  - intros label Hne. rewrite get_set_other by exact Hne. apply closeVisible_narrows.
Qed.

Lemma click_flips_the_flag_witness :
  exists w1 w2,
    onBundleClick "Work" Sample.bundled = Returns tt w1 /\
    flagOf "Work" Sample.bundled = Some false /\ flagOf "Work" w1 = Some true /\
    onBundleClick "Work" w1 = Returns tt w2 /\ flagOf "Work" w2 = Some false.
Proof.
  destruct (onBundleClick "Work" Sample.bundled) as [[] w1|w1] eqn:H1;
    [|vm_compute in H1; discriminate].
  destruct (onBundleClick "Work" w1) as [[] w2|w2] eqn:H2.
  - exists w1, w2. split; [reflexivity|]. split; [reflexivity|].
    pose proof (proj1 (click_flips_the_flag _ _ _ H1)) as F1.
    pose proof (proj1 (click_flips_the_flag _ _ _ H2)) as F2.
    rewrite F1 in F2. split; [exact F1|]. split; [exact H2 | exact F2].
  - exfalso. vm_compute in H1. injection H1 as <-. vm_compute in H2. discriminate.
Defined.

(** ** Rows that are in position *)




(** ** What a cycle leaves hidden *)

Lemma staysHidden_refl w : staysHidden w w.
Proof. intros e He. exists e. auto. Qed.

Lemma staysHidden_trans w1 w2 w3 :
  staysHidden w1 w2 -> staysHidden w2 w3 -> staysHidden w1 w3.
Proof.
  intros H12 H23 e3 He3. destruct (H23 e3 He3) as (e2 & He2 & Hf2 & Hh2).
  destruct (H12 e2 He2) as (e1 & He1 & Hf1 & Hh1).
  exists e1. split; [exact He1|]. split; [congruence | auto].
Qed.

Lemma staysHidden_same w w' : messageRows w' = messageRows w -> staysHidden w w'.
Proof.
  unfold messageRows, staysHidden, messagesOf, visibleRows. intros E e' He'.
  destruct (emailTable w') as [rows'|], (emailTable w) as [rows|];
    cbn in E; try discriminate; [|destruct He'].
  injection E as E. rewrite E in He'. exists e'. auto.
Qed.

Lemma listed_host members e e' :
  hostFields e' = hostFields e -> listed members e' = listed members e.
Proof. unfold hostFields, listed. intros E. injection E as -> _ _ _ _ _. reflexivity. Qed.

(** One round of the loop: the flag is made a boolean, the synthetic row is
    inserted or rendered, and the members are hidden unless the bundle is
    open. *)
Lemma renderBundle_hides bundleName w w' members :
  renderBundle bundleName w = Returns tt w' ->
  JsObject.get bundleName (bundles (state w)) = Some members ->
  staysHidden w w' /\
  (truthy (flagOf bundleName w) = false ->
   forall e', In e' (messagesOf w') -> listed members e' = true -> hiddenClass e' = true).
Proof.
  unfold renderBundle. intros Hrun Hget.
  apply bind_returns_inv in Hrun as (s & w0 & Hs & Hrun). injection Hs as <- <-.
  rewrite Hget in Hrun.
  apply bind_returns_inv in Hrun as (bundle & w0 & Hb & Hrun). injection Hb as <- <-.
  cbv zeta in Hrun.
  apply bind_returns_inv in Hrun as ([] & w1 & Hm & Hrun). injection Hm as <-.
  apply bind_returns_inv in Hrun as (rows & w1 & Hr & Hrun). injection Hr as <- <-.
  apply bind_returns_inv in Hrun as ([] & w2 & Hrow & Hrun).
  apply bind_returns_inv in Hrun as (s2 & w2' & Hs2 & Hrun). injection Hs2 as <- <-.
  match type of Hrow with ?c ?v = _ =>
    assert (Hstate2 : state w2 = state v /\ messageRows w2 = messageRows v)
  end.
  { match type of Hrow with ?c ?v = _ =>
      pose proof (positioning_never_touches_messages_aux v) as (Hu & Hi & _) end.
    destruct (querySelectorClass _ _).
    - specialize (Hu bundleName). cbv zeta in Hu. rewrite Hrow in Hu. exact Hu.
    - specialize (Hi (nth_error members 0) bundleName false). cbv zeta in Hi.
      rewrite Hrow in Hi. exact Hi. }
  destruct Hstate2 as [Hstate2 Hrows2]. cbn [state] in Hstate2.
  rewrite Hstate2 in Hrun. cbn [bundlesVisibility withVisibility] in Hrun.
  rewrite get_set_same, truthy_truthy in Hrun. fold (flagOf bundleName w) in Hrun.
  assert (Hw2 : staysHidden w w2).
  { apply staysHidden_same. rewrite Hrows2. reflexivity. }
  destruct (truthy (flagOf bundleName w)).
  - injection Hrun as <-. split; [exact Hw2 | discriminate].
  - destruct w2 as [st2 tbl2 ev2]. rewrite hideEmails_returns in Hrun. injection Hrun as <-.
    assert (Hmsg : messagesOf (mkWorld st2 (option_map (map (applyTo hideOne members)) tbl2) ev2)
                   = map (fun e => if listed members e then hideOne e else e)
                         (messagesOf (mkWorld st2 tbl2 ev2))).
    { unfold messagesOf, visibleRows. cbn [emailTable].
      destruct tbl2 as [rows2|]; [apply messages_applyTo | reflexivity]. }
    split.
    + apply (staysHidden_trans _ _ _ Hw2). intros e' He'. rewrite Hmsg in He'.
      apply in_map_iff in He' as (e & <- & He). exists e. split; [exact He|].
      destruct (listed members e); [|auto]. unfold hideOne.
      destruct (hiddenClass e) eqn:Hh; cbn; auto.
    + intros _ e' He' Hl. rewrite Hmsg in He'.
      apply in_map_iff in He' as (e & <- & He).
      destruct (listed members e) eqn:Hle.
      * unfold hideOne. destruct (hiddenClass e) eqn:Hh; [exact Hh | reflexivity].
      * congruence.
Qed.

Lemma renderBundles_hide : forall names w w',
  forEach names renderBundle w = Returns tt w' ->
  (forall label, ~ isOpen label w') ->
  staysHidden w w' /\
  forall bundleName members,
    In bundleName names ->
    JsObject.get bundleName (bundles (state w)) = Some members ->
    forall e', In e' (messagesOf w') -> listed members e' = true -> hiddenClass e' = true.
Proof.
  induction names as [|name names IH]; intros w w' Hrun Hclosed.
  - injection Hrun as <-. split; [apply staysHidden_refl | intros ? ? []].
  - apply forEach_returns_inv in Hrun as (w1 & Hone & Hrest).
    destruct (IH w1 w' Hrest Hclosed) as [Hstay IHmembers].
    pose proof (renderBundle_state _ _ _ Hone) as Hstate1.
    assert (Hb1 : bundles (state w1) = bundles (state w)) by (rewrite Hstate1; reflexivity).
    assert (Hget : exists members, JsObject.get name (bundles (state w)) = Some members).
    { unfold renderBundle in Hone.
      apply bind_returns_inv in Hone as (s & w0 & Hs & Hone). injection Hs as <- <-.
      apply bind_returns_inv in Hone as (bundle & w0 & Hb & _).
      destruct (JsObject.get name (bundles (state w))); [eauto | discriminate]. }
    destruct Hget as [members0 Hget0].
    destruct (renderBundle_hides _ _ _ _ Hone Hget0) as [Hstay1 Hhide1].
    split; [exact (staysHidden_trans _ _ _ Hstay1 Hstay)|].
    intros bundleName members Hin Hget e' He' Hl.
    destruct (String.eqb_spec bundleName name) as [->|Hne].
    + assert (Hflag : truthy (flagOf name w) = false).
      { destruct (truthy (flagOf name w)) eqn:Hopen; [exfalso | reflexivity].
        apply (Hclosed name). unfold isOpen. fold (flagOf name w').
        destruct (renderBundles_flags _ _ _ Hrest) as [_ Hf]. rewrite Hf.
        assert (H1 : flagOf name w1 = Some true).
        { unfold flagOf at 1. rewrite Hstate1. cbn [bundlesVisibility withVisibility].
          rewrite get_set_same. reflexivity. }
        rewrite H1. destruct (includes name names); reflexivity. }
      assert (members0 = members) by congruence. subst members0.
      destruct (Hstay e' He') as (e1 & He1 & Hhost & Hmono).
      apply Hmono. apply (Hhide1 Hflag e1 He1).
      rewrite <- (listed_host members e1 e' Hhost). exact Hl.
    + destruct Hin as [E|Hin]; [congruence|].
      apply (IHmembers bundleName members Hin); [rewrite Hb1; exact Hget | exact He' | exact Hl].
Qed.

Lemma initBundleTemplateHTML_table w w0 :
  initBundleTemplateHTML w = Returns tt w0 -> emailTable w0 = emailTable w.
Proof.
  intros Hinit. apply (preserves_returns emailTable initBundleTemplateHTML w tt w0);
    [|exact Hinit].
  intro v. unfold initBundleTemplateHTML, bind, getState, getRows, defined, emit,
             modifyState, ret, throw.
  destruct (bundleTemplateHTML (state v)); [|reflexivity].
  cbn. destruct (nth_error _ _); reflexivity.
Qed.

Lemma settleCycle_closed w w' :
  settleCycle w = Returns tt w' ->
  (forall label, ~ isOpen label w') ->
  state w' = state w /\ messageRows w' = messageRows w.
Proof.
  intros Hrun Hclosed.
  pose proof (preserves_returns state settleCycle w tt w' preserves_state_settleCycle Hrun)
    as Hstate.
  split; [exact Hstate|]. unfold settleCycle in Hrun.
  apply bind_returns_inv in Hrun as ([] & w1 & Hreset & Hrun).
  apply bind_returns_inv in Hrun as (s & w1' & Hs & Hrun). injection Hs as <- <-.
  pose proof (preserves_returns _ _ w tt w1 (preserves_messageRows_reset []) Hreset) as Hrows.
  pose proof (preserves_returns state _ w tt w1
                (preserves_resetBundleDomsPosition state []) Hreset) as Hstate1.
  rewrite getVisibleBundleName_closed in Hrun.
  - injection Hrun as <-. exact Hrows.
  - intros k Hk. apply (Hclosed k). unfold isOpen. rewrite Hstate, <- Hstate1. exact Hk.
Qed.

Lemma hostContent_In w w' e' :
  hostContent w' = hostContent w ->
  In e' (messagesOf w') ->
  exists e, In e (messagesOf w) /\ hostFields e = hostFields e'.
Proof.
  unfold hostContent, messagesOf, visibleRows. intros E He'.
  destruct (emailTable w') as [rows'|], (emailTable w) as [rows|];
    cbn in E; try discriminate; [|destruct He'].
  injection E as E.
  assert (Hin : In (hostFields e') (map hostFields (messages rows'))) by now apply in_map.
  rewrite E in Hin. apply in_map_iff in Hin as (e & He & Hin). eauto.
Qed.

Lemma cycle_hides_labelled_rows_aux (w w' : World) (rows : list Row) :
  emailTable w = Some rows ->
  NoDup (map refOf rows) ->
  runBundlizer w = Returns tt w' ->
  (forall label, ~ isOpen label w') ->
  forall e, In (EmailRow e) (visibleRows w') -> labels e <> [] -> hiddenClass e = true.
Proof.
  intros Ht Hnd Hrun Hclosed e' He' Hlabels.
  destruct (runBundlizer_steps w w' rows Ht Hrun)
    as (w0 & w1 & w2 & w3 & Hinit & Hgroup & Horphan & Hloop & Hsettle).
  destruct (settleCycle_closed w3 w' Hsettle Hclosed) as [Hstate3 Hrows3].
  assert (Hclosed3 : forall label, ~ isOpen label w3).
  { intros label H. apply (Hclosed label). unfold isOpen in *. rewrite Hstate3. exact H. }
  destruct (renderBundles_hide _ w2 w3 Hloop Hclosed3) as [_ Hhidden].
  assert (Ht0 : emailTable w0 = Some rows).
  { rewrite (initBundleTemplateHTML_table w w0 Hinit). exact Ht. }
  destruct (recompute_members w0 rows Ht0 Hnd
              (setBundleStateToEmails_own w0 rows w1 Ht0 Hnd Hgroup))
    as (w1' & Hgroup' & _ & Hmem & _ & _).
  rewrite Hgroup in Hgroup'. injection Hgroup' as <-.
  pose proof (preserves_returns _ _ w1 tt w2
                (orphanPass_keeps_bundles (JsObject.keys (bundles (state w1)))) Horphan)
    as Hb2. cbn in Hb2.
  (* the row as the host has it *)
  pose proof (does_runBundlizer w) as Hwrites. rewrite Hrun in Hwrites. cbn in Hwrites.
  assert (Hhost : hostContent w' = hostContent w).
  { apply (writes_preserves cycleKinds hostContent
             (fun k v v' _ => write_keeps_hostContent k v v') w w' Hwrites). }
  apply messages_In in He'. fold (messagesOf w') in He'.
  destruct (hostContent_In w w' e' Hhost He') as (e & He & Hfields).
  unfold messagesOf, visibleRows in He. rewrite Ht in He. apply messages_In in He.
  assert (Heid : eid e = eid e' /\ labels e = labels e').
  { unfold hostFields in Hfields. injection Hfields as -> -> _ _ _ _. auto. }
  destruct Heid as [Heid Hlab].
  destruct (labels e') as [|c rest] eqn:Hl'; [contradiction|].
  set (label := chipText c).
  assert (Hcarries : In label (map chipText (labels e))).
  { rewrite Hlab. now left. }
  assert (Hmember : In (eid e) (membersOf label w1)).
  { rewrite Hmem. apply (carrying_iff rows label e Hnd He). exact Hcarries. }
  assert (Hkey : In label (JsObject.keys (bundles (state w1)))).
  { apply (recompute_labels w0 rows w1 label Ht0 Hnd Hgroup). eauto. }
  unfold membersOf in Hmember.
  destruct (JsObject.get label (bundles (state w1))) as [members|] eqn:Hget;
    [|destruct Hmember].
  apply (Hhidden label members Hkey).
  - rewrite Hb2. exact Hget.
  - unfold messagesOf, visibleRows. unfold messageRows in Hrows3.
    unfold messagesOf, visibleRows in He'.
    destruct (emailTable w') as [rows'|], (emailTable w3) as [rows3|];
      cbn in Hrows3; try discriminate; [|destruct He'].
    injection Hrows3 as <-. exact He'.
  - unfold listed. apply existsb_exists. exists (eid e). split; [exact Hmember|].
    apply Nat.eqb_eq. symmetry. exact Heid.
Qed.

(** X23.  A cycle that ends with no bundle open leaves every labelled
    message hidden.  On a table of distinct rows, if [runBundlizer] returns and
    no open flag is [true] afterwards, then every message row that carries a
    label has the hidden class: it is shown through the synthetic row of its
    bundles only. *)
Theorem cycle_hides_labelled_rows (w w' : World) (rows : list Row) :
  emailTable w = Some rows ->
  NoDup (map refOf rows) ->
  runBundlizer w = Returns tt w' ->
  (forall label, ~ isOpen label w') ->
  forall e, In (EmailRow e) (visibleRows w') -> labels e <> [] -> hiddenClass e = true.
Proof. exact (cycle_hides_labelled_rows_aux w w' rows). Qed.

Lemma cycle_hides_labelled_rows_witness :
  exists w',
    runBundlizer Sample.start = Returns tt w' /\
    map (fun e => (eid e, hiddenClass e)) (messagesOf w')
    = [(1, true); (2, true); (3, false); (4, true)] /\
    forall e, In (EmailRow e) (visibleRows w') -> labels e <> [] -> hiddenClass e = true.
Proof.
  exists Sample.bundled. split; [reflexivity|]. split; [reflexivity|].
  apply (cycle_hides_labelled_rows Sample.start Sample.bundled Sample.inbox eq_refl).
  - repeat constructor; cbn; intuition discriminate.
  - reflexivity.
  - intros label H. unfold isOpen in H. cbn in H.
    destruct (String.eqb label "Work"); [discriminate|].
    destruct (String.eqb label "Personal"); discriminate.
Defined.

(** The steps of a cycle, by their writes. *)
Lemma does_orphanPass names : does cycleKinds (orphanPass names).
Proof.
  unfold orphanPass. apply does_bind; [apply does_getRows | intros rows].
  apply does_forEach. intros b. apply does_removeIfOrphaned.
Qed.

Lemma does_renderBundle bundleName : does cycleKinds (renderBundle bundleName).
Proof.
  unfold renderBundle.
  assert (Hsub : subKinds rowKinds cycleKinds) by exact rowKinds_cycleKinds.
  apply does_bind; [apply does_getState | intros s'].
  apply does_bind; [apply does_defined | intros bundle].
  cbv zeta. apply does_bind; [|intros _; foot Hsub].
  apply does_closeFlags; [reflexivity|].
  intros s0 k. rewrite get_set.
  destruct (String.eqb_spec k bundleName) as [->|]; [|auto].
  destruct (JsObject.get bundleName (bundlesVisibility s0)) as [[|]|]; cbn; congruence.
Qed.

Lemma does_returns {A} allowed (c : Js A) w a w' :
  does allowed c -> c w = Returns a w' -> writes allowed w w'.
Proof. intros Hc Hrun. specialize (Hc w). rewrite Hrun in Hc. exact Hc. Qed.

(** From the start of a returning cycle to the end of its loop. *)
Lemma cycle_loop_writes w w0 w1 w2 w3 rows :
  initBundleTemplateHTML w = Returns tt w0 ->
  setBundleStateToEmails (map refOf rows) w0 = Returns tt w1 ->
  orphanPass (JsObject.keys (bundles (state w1))) w1 = Returns tt w2 ->
  forEach (JsObject.keys (bundles (state w1))) renderBundle w2 = Returns tt w3 ->
  writes cycleKinds w w3.
Proof.
  intros Hinit Hgroup Horphan Hloop.
  eapply writes_trans; [exact (does_returns _ _ _ _ _ does_initBundleTemplateHTML Hinit)|].
  eapply writes_trans;
    [exact (does_returns _ _ _ _ _ (does_setBundleStateToEmails _) Hgroup)|].
  eapply writes_trans; [exact (does_returns _ _ _ _ _ (does_orphanPass _) Horphan)|].
  refine (does_returns _ _ _ _ _ _ Hloop).
  apply does_forEach. intros name. apply does_renderBundle.
Qed.

Lemma carrying_NoDup label rows :
  NoDup (map refOf rows) ->
  (forall e, In (EmailRow e) rows -> NoDup (map chipText (labels e))) ->
  NoDup (carrying label rows).
Proof.
  induction rows as [|row rows IH]; intros Hnd Hchips; [constructor|].
  rewrite carrying_cons. cbn [map] in Hnd. apply NoDup_cons_iff in Hnd as [Hrow Hnd].
  assert (IH' : NoDup (carrying label rows)).
  { apply IH; [exact Hnd | intros e He; apply Hchips; now right]. }
  destruct row as [e|b]; [|exact IH'].
  specialize (Hchips e (or_introl eq_refl)).
  assert (Hfresh : ~ In (eid e) (carrying label rows)).
  { intros Hin. apply carrying_In in Hin as (e1 & He1 & Heq & _).
    apply Hrow. apply in_map_iff. exists (EmailRow e1). cbn. split; [congruence | exact He1]. }
  assert (Hone : forall l, NoDup (map chipText l) ->
            map (fun _ : LabelChip => eid e)
                (filter (fun c => String.eqb (chipText c) label) l) = [] \/
            map (fun _ : LabelChip => eid e)
                (filter (fun c => String.eqb (chipText c) label) l) = [eid e]).
  { clear. induction l as [|c l IHl]; intros Hl; [now left|].
    cbn [map] in Hl. apply NoDup_cons_iff in Hl as [Hc Hl]. cbn [filter].
    destruct (String.eqb_spec (chipText c) label) as [E|Hne]; [|exact (IHl Hl)].
    right. cbn [map]. f_equal.
    destruct (filter _ l) as [|c' l'] eqn:Hf; [reflexivity|]. exfalso.
    assert (Hc' : In c' (filter (fun c => String.eqb (chipText c) label) l))
      by (rewrite Hf; now left).
    apply filter_In in Hc' as [Hin Heq]. apply String.eqb_eq in Heq.
    apply Hc. rewrite E, <- Heq. now apply in_map. }
  destruct (Hone (labels e) Hchips) as [-> | ->]; [exact IH'|].
  constructor; assumption.
Qed.

Lemma cycle_shows_the_open_bundle_aux (w w' : World) (rows : list Row) (open : string) :
  emailTable w = Some rows ->
  NoDup (map refOf rows) ->
  (forall e, In (EmailRow e) rows -> NoDup (map chipText (labels e))) ->
  runBundlizer w = Returns tt w' ->
  truthyName (getVisibleBundleName (state w')) = Some open ->
  forall e, In (EmailRow e) (visibleRows w') ->
    hiddenClass e = negb (includes open (map chipText (labels e))).
Proof.
  intros Ht Hnd Hchips Hrun Hopen e' He'.
  destruct (runBundlizer_steps w w' rows Ht Hrun)
    as (w0 & w1 & w2 & w3 & Hinit & Hgroup & Horphan & Hloop & Hsettle).
  pose proof (preserves_returns state settleCycle w3 tt w' preserves_state_settleCycle Hsettle)
    as Hstate3.
  unfold settleCycle in Hsettle.
  apply bind_returns_inv in Hsettle as ([] & w4 & Hreset & Hsettle).
  apply bind_returns_inv in Hsettle as (s & w4' & Hs & Hshow). injection Hs as <- <-.
  pose proof (preserves_returns state _ w3 tt w4
                (preserves_resetBundleDomsPosition state []) Hreset) as Hstate4.
  rewrite Hstate4, <- Hstate3, Hopen in Hshow.
  (* the world the open bundle is shown on *)
  assert (Hwrites : writes cycleKinds w w4).
  { eapply writes_trans; [exact (cycle_loop_writes _ _ _ _ _ _ Hinit Hgroup Horphan Hloop)|].
    refine (does_returns _ _ _ _ _ _ Hreset).
    apply (does_resetBundleDomsPosition cycleKinds). auto with foot. }
  assert (Hnd4 : distinctRows w4).
  { apply (writes_keep_distinctRows _ _ _ Hwrites). unfold distinctRows, visibleRows.
    rewrite Ht. exact Hnd. }
  assert (Hlist4 : emailTable w4 <> None).
  { apply (writes_invariant cycleKinds (fun v => emailTable v <> None)
             (fun k v v' _ => write_keeps_list k v v') w w4 Hwrites).
    rewrite Ht. discriminate. }
  assert (Hhost4 : hostContent w4 = hostContent w).
  { apply (writes_preserves cycleKinds hostContent
             (fun k v v' _ => write_keeps_hostContent k v v') w w4 Hwrites). }
  destruct (emailTable w4) as [rows4|] eqn:Ht4; [clear Hlist4 | contradiction].
  unfold distinctRows, visibleRows in Hnd4. rewrite Ht4 in Hnd4.
  (* the bundle *)
  assert (Ht0 : emailTable w0 = Some rows).
  { rewrite (initBundleTemplateHTML_table w w0 Hinit). exact Ht. }
  destruct (recompute_members w0 rows Ht0 Hnd
              (setBundleStateToEmails_own w0 rows w1 Ht0 Hnd Hgroup))
    as (w1' & Hgroup' & _ & Hmem & _ & _).
  rewrite Hgroup in Hgroup'. injection Hgroup' as <-.
  pose proof (preserves_returns _ _ w1 tt w2
                (orphanPass_keeps_bundles (JsObject.keys (bundles (state w1)))) Horphan)
    as Hb2. cbn in Hb2.
  destruct (renderBundles_flags _ w2 w3 Hloop) as [Hb3 _].
  assert (Hb4 : bundles (state w4) = bundles (state w1)).
  { rewrite Hstate4, Hb3, Hb2. reflexivity. }
  destruct (JsObject.get open (bundles (state w4))) as [members|] eqn:Hget.
  2:{ exfalso. unfold showBundledEmails in Hshow.
      apply bind_returns_inv in Hshow as (s & v & Hs & Hshow). injection Hs as <- <-.
      rewrite Hget in Hshow. cbv zeta in Hshow.
      apply bind_returns_inv in Hshow as (r & v & Hr & Hshow). injection Hr as <- <-.
      apply bind_returns_inv in Hshow as (x & v & Hx & _). discriminate. }
  assert (Hmembers : members = carrying open rows).
  { rewrite <- Hmem. unfold membersOf. rewrite <- Hb4, Hget. reflexivity. }
  assert (Hm : NoDup members).
  { rewrite Hmembers. apply carrying_NoDup; assumption. }
  assert (Hsame : forall e4, In (EmailRow e4) rows4 ->
            exists e, In (EmailRow e) rows /\ hostFields e = hostFields e4).
  { intros e4 He4.
    assert (H4 : In e4 (messagesOf w4)).
    { unfold messagesOf, visibleRows. rewrite Ht4. apply messages_In, He4. }
    destruct (hostContent_In w w4 e4 Hhost4 H4) as (e & He & Hf).
    unfold messagesOf, visibleRows in He. rewrite Ht in He. apply messages_In in He. eauto. }
  assert (Hsame' : forall e, In (EmailRow e) rows ->
            exists e4, In (EmailRow e4) rows4 /\ hostFields e4 = hostFields e).
  { intros e He.
    assert (H0 : In e (messagesOf w)).
    { unfold messagesOf, visibleRows. rewrite Ht. apply messages_In, He. }
    destruct (hostContent_In w4 w e (eq_sym Hhost4) H0) as (e4 & He4 & Hf).
    unfold messagesOf, visibleRows in He4. rewrite Ht4 in He4. apply messages_In in He4.
    eauto. }
  assert (Hincl : incl members (emailRefs rows4)).
  { intros i Hi. rewrite Hmembers in Hi. apply carrying_In in Hi as (e & He & Heq & _).
    destruct (Hsame' e He) as (e4 & He4 & Hf). apply emailRefs_In. exists e4.
    split; [exact He4|]. unfold hostFields in Hf. injection Hf as -> _ _ _ _ _. exact Heq. }
  destruct (showBundledEmails_messages w4 rows4 open members Ht4 Hnd4 Hget Hm Hincl)
    as [Hrows' Hshown].
  cbv zeta in Hrows', Hshown. rewrite Hshow in Hrows', Hshown. cbn [worldOf] in Hrows', Hshown.
  rewrite (Hshown e' He').
  (* membership is carrying the label *)
  f_equal.
  assert (He4 : exists e4, In (EmailRow e4) rows4 /\ hostFields e4 = hostFields e').
  { unfold visibleRows in He'. unfold messageRows in Hrows'.
    destruct (emailTable w') as [rows'|]; [|destruct He'].
    cbn in Hrows'. injection Hrows' as Hrows'.
    apply messages_In in He'. rewrite Hrows' in He'.
    apply in_map_iff in He' as (e4 & <- & He4). exists e4.
    split; [apply messages_In, He4|]. unfold showOnly, unhideOne, hideOne.
    destruct (listed members e4), (hiddenClass e4); reflexivity. }
  destruct He4 as (e4 & He4 & Hf4). destruct (Hsame e4 He4) as (e & He & Hf).
  assert (Hf' : hostFields e = hostFields e') by congruence.
  assert (Heid : eid e = eid e' /\ labels e = labels e').
  { unfold hostFields in Hf'. injection Hf' as -> -> _ _ _ _. auto. }
  destruct Heid as [Heid Hlab]. rewrite <- Hlab.
  apply eq_true_iff_eq. unfold listed. rewrite existsb_exists, includes_In, Hmembers.
  rewrite <- (carrying_iff rows open e Hnd He). rewrite <- Heid. split.
  - intros (i & Hi & Heq). apply Nat.eqb_eq in Heq. now subst.
  - intros Hi. exists (eid e). split; [exact Hi | apply Nat.eqb_refl].
Qed.

(** X24.  A cycle that ends with a bundle open shows that bundle and
    nothing else.  On a table of distinct rows none of which carries two label
    chips of the same text, if [runBundlizer] returns with a bundle open,
    then afterwards a message row is shown exactly when it carries the open
    bundle's label; every other message row, labelled or not, has the hidden
    class. *)
Theorem cycle_shows_the_open_bundle (w w' : World) (rows : list Row) (open : string) :
  emailTable w = Some rows ->
  NoDup (map refOf rows) ->
  (forall e, In (EmailRow e) rows -> NoDup (map chipText (labels e))) ->
  runBundlizer w = Returns tt w' ->
  truthyName (getVisibleBundleName (state w')) = Some open ->
  forall e, In (EmailRow e) (visibleRows w') ->
    hiddenClass e = negb (includes open (map chipText (labels e))).
Proof. exact (cycle_shows_the_open_bundle_aux w w' rows open). Qed.

Lemma cycle_shows_the_open_bundle_witness :
  exists w',
    runBundlizer Sample.workOpen = Returns tt w' /\
    getVisibleBundleName (state w') = Some "Work" /\
    map (fun e => (eid e, hiddenClass e)) (messagesOf w')
    = [(1, false); (2, false); (3, true); (4, true)] /\
    forall e, In (EmailRow e) (visibleRows w') ->
      hiddenClass e = negb (includes "Work" (map chipText (labels e))).
Proof.
  destruct (runBundlizer Sample.workOpen) as [[] w'|w'] eqn:Hrun;
    [|vm_compute in Hrun; discriminate].
  exists w'. split; [reflexivity|].
  assert (Hopen : getVisibleBundleName (state w') = Some "Work").
  { vm_compute in Hrun. injection Hrun as <-. reflexivity. }
  split; [exact Hopen|]. split.
  - vm_compute in Hrun. injection Hrun as <-. reflexivity.
  - apply (cycle_shows_the_open_bundle Sample.workOpen w' (visibleRows Sample.workOpen) "Work").
    + reflexivity.
    + vm_compute. repeat constructor; cbn; intuition discriminate.
    + intros e He. apply messages_In in He. vm_compute in He.
      destruct He as [<-|[<-|[<-|[<-|[]]]]]; cbn;
        repeat constructor; cbn; intuition discriminate.
    + exact Hrun.
    + rewrite Hopen. reflexivity.
Defined.

(** ** The labels of the synthetic rows *)

Lemma boundLabels_updateEmail i f : preserves boundLabels (updateEmail i f).
Proof.
  intro w. unfold boundLabels, visibleRows. cbn.
  destruct (emailTable w) as [rows|]; cbn; [|reflexivity].
  induction rows as [|[e|b] rows IH]; cbn; [reflexivity | | f_equal; exact IH].
  destruct (Nat.eqb (eid e) i); cbn; exact IH.
Qed.

Lemma boundLabels_updateBundle i f :
  (forall b, bundlename (f b) = bundlename b) ->
  preserves boundLabels (updateBundle i f).
Proof.
  intros Hf w. unfold boundLabels, visibleRows. cbn.
  destruct (emailTable w) as [rows|]; cbn; [|reflexivity].
  induction rows as [|[e|b] rows IH]; cbn; [reflexivity | exact IH |].
  destruct (Nat.eqb (bid b) i); cbn; rewrite ?Hf; f_equal; exact IH.
Qed.

Lemma boundLabels_emit ev : preserves boundLabels (emit ev).
Proof. intro w. reflexivity. Qed.

Lemma boundLabels_modifyState f : preserves boundLabels (modifyState f).
Proof. intro w. reflexivity. Qed.

Create HintDb labels.
#[export] Hint Resolve preserves_ret preserves_throw preserves_defined preserves_getState
  preserves_getRows boundLabels_updateEmail boundLabels_emit boundLabels_modifyState : labels.
#[export] Hint Extern 1 (preserves boundLabels (updateBundle _ _)) =>
  apply boundLabels_updateBundle; intros ?; reflexivity : labels.

Ltac labels_step :=
  first
    [ solve [auto with labels]
    | apply preserves_bind; [|intros ?]
    | apply preserves_forEach; intros ?
    | progress cbv zeta
    | match goal with
      | |- preserves _ (if ?b then _ else _) => destruct b
      | |- preserves _ (match ?x with _ => _ end) => destruct x
      end ].

Ltac labels := cbv zeta; repeat labels_step.

Lemma boundLabels_email i : preserves boundLabels (email i).
Proof. unfold email. labels. Qed.

#[export] Hint Resolve boundLabels_email : labels.

Lemma boundLabels_recentSendersLoop n : forall l, preserves boundLabels (recentSendersLoop n l).
Proof. induction n as [|n IH]; intros l; cbn; labels. Qed.

#[export] Hint Resolve boundLabels_recentSendersLoop : labels.

Lemma boundLabels_getRecentSenders name : preserves boundLabels (getRecentSenders name).
Proof. unfold getRecentSenders. labels. Qed.

#[export] Hint Resolve boundLabels_getRecentSenders : labels.

Lemma boundLabels_updateBundleDom name : preserves boundLabels (updateBundleDom name).
Proof. unfold updateBundleDom. labels. Qed.

Lemma boundLabels_hideEmails l : preserves boundLabels (hideEmails l).
Proof. unfold hideEmails. labels. Qed.

Lemma boundLabels_unhideBundle bundle : forall toHide,
  preserves boundLabels (unhideBundle bundle toHide).
Proof. induction bundle as [|i rest IH]; intros toHide; cbn; labels. Qed.

Lemma boundLabels_showUnbundledEmails : preserves boundLabels showUnbundledEmails.
Proof. unfold showUnbundledEmails. labels. Qed.

#[export] Hint Resolve boundLabels_updateBundleDom boundLabels_hideEmails
  boundLabels_unhideBundle boundLabels_showUnbundledEmails : labels.

Lemma sameLabels_refl w : sameLabels w w.
Proof. intro label. reflexivity. Qed.

Lemma sameLabels_eq w w' : boundLabels w' = boundLabels w -> sameLabels w w'.
Proof. intros E label. rewrite E. reflexivity. Qed.

Lemma sameLabels_trans w1 w2 w3 : sameLabels w1 w2 -> sameLabels w2 w3 -> sameLabels w1 w3.
Proof.
  intros H12 H23 label. split; intros H.
  - apply H12, H23, H.
  - apply H23, H12, H.
Qed.

Lemma getBundleClass_inj a b : getBundleClass a = getBundleClass b -> a = b.
Proof. unfold getBundleClass, BUNDLE_CLASS_PREFIX. cbn. intros H. now injection H. Qed.

Lemma querySelectorClass_In bundleName rows :
  querySelectorClass (getBundleClass bundleName) rows <> None <->
  In bundleName (map bundlename (syntheticRows rows)).
Proof.
  unfold querySelectorClass. split.
  - intros H. destruct (find _ _) as [b|] eqn:Hf; [|contradiction].
    apply find_some in Hf as [Hin Heq]. apply String.eqb_eq, getBundleClass_inj in Heq.
    apply in_map_iff. eauto.
  - intros Hin Hnone. apply in_map_iff in Hin as (b & Hb & Hin).
    pose proof (find_none _ _ Hnone b Hin) as Hne. cbn in Hne.
    rewrite Hb, String.eqb_refl in Hne. discriminate.
Qed.

Lemma querySelectorBundlename_In bundleName rows b :
  querySelectorBundlename bundleName rows = Some b ->
  In b (syntheticRows rows) /\ bundlename b = bundleName.
Proof.
  unfold querySelectorBundlename. intros Hf. apply find_some in Hf as [Hin Heq].
  apply String.eqb_eq in Heq. auto.
Qed.

Lemma boundLabels_insert after i new rows rows' st ev :
  insertAdjacent after i (SyntheticRow new) rows = Some rows' ->
  oneMoreLabel (bundlename new) (mkWorld st (Some rows) ev) (mkWorld st (Some rows') ev).
Proof.
  intros Hins label. unfold boundLabels, visibleRows. cbn [emailTable].
  destruct (insertAdjacent_split _ _ _ _ _ Hins) as (l1 & l2 & -> & ->).
  rewrite !syntheticRows_app, !map_app. cbn. rewrite !in_app_iff. cbn.
  split; intros H; intuition congruence.
Qed.

Lemma insertBundleDom_labels email_ bundleName after w w' :
  insertBundleDom email_ bundleName after w = Returns tt w' ->
  oneMoreLabel bundleName w w'.
Proof.
  unfold insertBundleDom. cbv zeta. intros Hrun.
  apply bind_returns_inv in Hrun as (s & w0 & Hs & Hrun). injection Hs as <- <-.
  apply bind_returns_inv in Hrun as (bundle & w0 & Hb & Hrun).
  destruct (JsObject.get bundleName (bundles (state w))); [|discriminate].
  injection Hb as <- <-.
  apply bind_returns_inv in Hrun as (rows & w0 & Hr & Hrun). injection Hr as <- <-.
  destruct (querySelectorClass (getBundleClass bundleName)
              match emailTable w with Some rows => rows | None => [] end) as [b|] eqn:Hq.
  - injection Hrun as <-. intros label. split; [auto|].
    intros [->|H]; [|exact H]. apply querySelectorClass_In. unfold visibleRows.
    rewrite Hq. discriminate.
  - apply bind_returns_inv in Hrun as (latest & w1 & Hl & Hrun).
    assert (Hw1 : w1 = w).
    { cbv [bind defined email getRows ret throw] in Hl.
      destruct (nth_error _ 0); [|discriminate].
      destruct (findEmail _ _); [|discriminate]. now injection Hl as _ <-. }
    subst w1.
    apply bind_returns_inv in Hrun as (i & w1 & Hi & Hrun).
    destruct email_ as [i0|]; [|discriminate]. injection Hi as <- <-.
    apply bind_returns_inv in Hrun as (chip & w1 & Hc & Hrun).
    destruct (getEmailLabelWrapperOfBundle latest bundleName); [|discriminate].
    injection Hc as <- <-.
    destruct (bundleTemplateHTML (state w)) as [|slotName slotSubject slotDate];
      [discriminate|].
    apply bind_returns_inv in Hrun as (rows' & w1 & Hins & Hrun).
    destruct (insertAdjacent after i0 _ _) as [rows1|] eqn:Hadj; [|discriminate].
    injection Hins as <- <-.
    destruct (emailTable w) as [rows|] eqn:Ht; [|discriminate].
    apply bind_returns_inv in Hrun as ([] & w1 & Hm & Hrun).
    unfold modifyRows in Hm. rewrite Ht in Hm. cbn [option_map] in Hm. injection Hm as <-.
    apply bind_returns_inv in Hrun as ([] & w2 & He & Hrun). injection He as <-.
    pose proof (preserves_returns _ _ _ _ _ (boundLabels_updateBundleDom bundleName) Hrun)
      as Hsame.
    intros label. rewrite Hsame.
    pose proof (boundLabels_insert after i0 _ rows rows1 (state w) (effects w) Hadj label)
      as Hone.
    cbn [bundlename] in Hone.
    assert (E : boundLabels w = boundLabels (mkWorld (state w) (Some rows) (effects w))).
    { unfold boundLabels, visibleRows. rewrite Ht. reflexivity. }
    rewrite E. exact Hone.
Qed.

Lemma boundLabels_removeRow b w :
  distinctRows w ->
  In b (syntheticRows (visibleRows w)) ->
  oneMoreLabel (bundlename b)
    (mkWorld (state w) (option_map (removeRow (BundleRef (bid b))) (emailTable w)) (effects w))
    w.
Proof.
  intros Hnd Hb label. unfold boundLabels, distinctRows, visibleRows in *.
  cbn [emailTable]. destruct (emailTable w) as [rows|]; [|destruct Hb].
  cbn [option_map]. rewrite syntheticRows_removeRow, !in_map_iff. split.
  - intros (b' & Hname & Hin).
    destruct (Nat.eqb_spec (bid b') (bid b)) as [Heq|Hne].
    + left. rewrite <- Hname. f_equal.
      apply (NoDup_same_bundle rows b' b Hnd); [| |exact Heq]; apply In_syntheticRows; assumption.
    + right. exists b'. split; [exact Hname|]. apply filter_In. split; [exact Hin|].
      apply negb_true_iff, Nat.eqb_neq, Hne.
  - intros [->|(b' & Hname & Hin)]; [eauto|].
    apply filter_In in Hin as [Hin _]. eauto.
Qed.

Lemma moveBundleDoms_labels email_ bundleNames after w w' :
  distinctRows w ->
  moveBundleDoms email_ bundleNames after w = Returns tt w' ->
  sameLabels w w' /\ distinctRows w'.
Proof.
  unfold moveBundleDoms. generalize (rev bundleNames) as names. intros names. revert w.
  induction names as [|name names IH]; intros w Hnd Hrun.
  - injection Hrun as <-. split; [apply sameLabels_refl | exact Hnd].
  - apply forEach_returns_inv in Hrun as (w1 & Hone & Hrest).
    assert (Hstep : sameLabels w w1 /\ distinctRows w1).
    { clear Hrest IH.
      apply bind_returns_inv in Hone as (rows & w0 & Hr & Hone). injection Hr as <- <-.
      cbv zeta in Hone.
      apply bind_returns_inv in Hone as (i & w0 & Hi & Hone).
      destruct email_ as [i0|]; [|discriminate]. injection Hi as <- <-.
      apply bind_returns_inv in Hone as (idx & w0 & Hidx & Hone).
      destruct (indexOf Ref_eqb (EmailRef i0) _) as [idx0|]; [|discriminate].
      injection Hidx as <- <-.
      destruct (querySelectorBundlename name _) as [b|] eqn:Hq; [|discriminate].
      destruct (existsb _ _).
      - injection Hone as <-. split; [apply sameLabels_refl | exact Hnd].
      - apply querySelectorBundlename_In in Hq as [Hb Hname].
        fold (visibleRows w) in Hb.
        apply bind_returns_inv in Hone as ([] & v1 & Hm & Hone). injection Hm as <-.
        apply bind_returns_inv in Hone as ([] & v2 & He & Hone). injection He as <-.
        pose proof (boundLabels_removeRow b w Hnd Hb) as Hremoved.
        pose proof (insertBundleDom_labels _ _ _ _ _ Hone) as Hinserted.
        split.
        + intros label. rewrite (Hinserted label), (Hremoved label), Hname. reflexivity.
        + apply (writes_keep_distinctRows bundleKinds _ w1
                   (does_returns _ _ _ _ _
                      (does_insertBundleDom bundleKinds (fun k H => H) _ _ _) Hone)).
          apply (write_keeps_distinctRows RemovesBundle w _ (W_remove (bid b) w)) in Hnd.
          exact Hnd. }
    destruct Hstep as [Hsame1 Hnd1].
    destruct (IH w1 Hnd1 Hrest) as [Hsame Hnd'].
    split; [exact (sameLabels_trans _ _ _ Hsame1 Hsame) | exact Hnd'].
Qed.

Lemma forEach_labels {A} (f : A -> Js unit) :
  (forall x w w', distinctRows w -> f x w = Returns tt w' ->
                  sameLabels w w' /\ distinctRows w') ->
  forall l w w', distinctRows w -> forEach l f w = Returns tt w' ->
                 sameLabels w w' /\ distinctRows w'.
Proof.
  intros Hf. induction l as [|x l IH]; intros w w' Hnd Hrun.
  - injection Hrun as <-. split; [apply sameLabels_refl | exact Hnd].
  - apply forEach_returns_inv in Hrun as (w1 & Hone & Hrest).
    destruct (Hf x w w1 Hnd Hone) as [Hs1 Hnd1].
    destruct (IH w1 w' Hnd1 Hrest) as [Hs Hnd'].
    split; [exact (sameLabels_trans _ _ _ Hs1 Hs) | exact Hnd'].
Qed.

Lemma resetBundleDomsPosition_labels args w w' :
  distinctRows w ->
  resetBundleDomsPosition args w = Returns tt w' ->
  sameLabels w w' /\ distinctRows w'.
Proof.
  unfold resetBundleDomsPosition. intros Hnd Hrun.
  apply bind_returns_inv in Hrun as (s & w0 & Hs & Hrun). injection Hs as <- <-.
  cbv zeta in Hrun.
  destruct (truthyName (getVisibleBundleName (state w))) as [visible|].
  - apply bind_returns_inv in Hrun as (bundle & w0 & Hb & Hrun).
    destruct (JsObject.get visible (bundles (state w))); [|discriminate].
    injection Hb as <- <-.
    exact (moveBundleDoms_labels _ _ _ _ _ Hnd Hrun).
  - revert Hnd Hrun. apply forEach_labels. clear. intros name w w' Hnd Hrun.
    apply bind_returns_inv in Hrun as (s & w0 & Hs & Hrun). injection Hs as <- <-.
    apply bind_returns_inv in Hrun as (bundle & w0 & Hb & Hrun).
    destruct (JsObject.get name (bundles (state w))); [|discriminate].
    injection Hb as <- <-.
    exact (moveBundleDoms_labels _ _ _ _ _ Hnd Hrun).
Qed.

Lemma preserved_labels {A} (c : Js A) w a w' :
  preserves boundLabels c -> does rowKinds c ->
  distinctRows w -> c w = Returns a w' ->
  sameLabels w w' /\ distinctRows w'.
Proof.
  intros Hp Hd Hnd Hrun. split.
  - apply sameLabels_eq. exact (preserves_returns _ _ _ _ _ Hp Hrun).
  - exact (writes_keep_distinctRows _ _ _ (does_returns _ _ _ _ _ Hd Hrun) Hnd).
Qed.

Lemma showBundledEmails_labels bundleName w w' :
  distinctRows w ->
  showBundledEmails bundleName w = Returns tt w' ->
  sameLabels w w' /\ distinctRows w'.
Proof.
  unfold showBundledEmails. intros Hnd Hrun.
  apply bind_returns_inv in Hrun as (s & w0 & Hs & Hrun). injection Hs as <- <-.
  cbv zeta in Hrun.
  apply bind_returns_inv in Hrun as (rows & w0 & Hr & Hrun). injection Hr as <- <-.
  apply bind_returns_inv in Hrun as (bundle & w0 & Hb & Hrun).
  destruct (JsObject.get bundleName (bundles (state w))); [|discriminate].
  injection Hb as <- <-.
  apply bind_returns_inv in Hrun as (toHide & w1 & Hunhide & Hrun).
  apply bind_returns_inv in Hrun as ([] & w2 & Hhide & Hreset).
  assert (Hsub : subKinds rowKinds rowKinds) by (intros k H; exact H).
  destruct (preserved_labels _ _ _ _ (boundLabels_unhideBundle _ _)
              (does_unhideBundle rowKinds Hsub _ _) Hnd Hunhide) as [Hs1 Hnd1].
  destruct (preserved_labels _ _ _ _ (boundLabels_hideEmails _)
              (does_hideEmails rowKinds Hsub _) Hnd1 Hhide) as [Hs2 Hnd2].
  destruct (resetBundleDomsPosition_labels _ _ _ Hnd2 Hreset) as [Hs3 Hnd3].
  split; [|exact Hnd3].
  exact (sameLabels_trans _ _ _ (sameLabels_trans _ _ _ Hs1 Hs2) Hs3).
Qed.

Lemma settleCycle_labels w w' :
  distinctRows w ->
  settleCycle w = Returns tt w' ->
  sameLabels w w' /\ distinctRows w'.
Proof.
  unfold settleCycle. intros Hnd Hrun.
  apply bind_returns_inv in Hrun as ([] & w1 & Hreset & Hrun).
  apply bind_returns_inv in Hrun as (s & w0 & Hs & Hrun). injection Hs as <- <-.
  destruct (resetBundleDomsPosition_labels _ _ _ Hnd Hreset) as [Hs1 Hnd1].
  destruct (truthyName (getVisibleBundleName (state w1))) as [visible|].
  - destruct (showBundledEmails_labels _ _ _ Hnd1 Hrun) as [Hs2 Hnd2].
    split; [exact (sameLabels_trans _ _ _ Hs1 Hs2) | exact Hnd2].
  - injection Hrun as <-. split; assumption.
Qed.

Lemma renderBundle_labels bundleName w w' :
  renderBundle bundleName w = Returns tt w' -> oneMoreLabel bundleName w w'.
Proof.
  unfold renderBundle. intros Hrun.
  apply bind_returns_inv in Hrun as (s & w0 & Hs & Hrun). injection Hs as <- <-.
  apply bind_returns_inv in Hrun as (bundle & w0 & Hb & Hrun).
  destruct (JsObject.get bundleName (bundles (state w))) as [members|]; [|discriminate].
  injection Hb as <- <-. cbv zeta in Hrun.
  apply bind_returns_inv in Hrun as ([] & w1 & Hm & Hrun). injection Hm as <-.
  apply bind_returns_inv in Hrun as (rows & w1 & Hr & Hrun). injection Hr as <- <-.
  apply bind_returns_inv in Hrun as ([] & w2 & Hrow & Hrun).
  apply bind_returns_inv in Hrun as (s2 & w2' & Hs2 & Hrun). injection Hs2 as <- <-.
  assert (Hlast : boundLabels w' = boundLabels w2).
  { revert Hrun.
    destruct (truthy (JsObject.get bundleName (bundlesVisibility (state w2)))); intros Hrun.
    - injection Hrun as <-. reflexivity.
    - exact (preserves_returns _ _ _ _ _ (boundLabels_hideEmails members) Hrun). }
  intros label. rewrite Hlast. cbn [emailTable] in Hrow.
  change (match emailTable w with Some rows => rows | None => [] end)
    with (visibleRows w) in Hrow.
  destruct (querySelectorClass (getBundleClass bundleName) (visibleRows w)) as [b|] eqn:Hq.
  - rewrite (preserves_returns _ _ _ _ _ (boundLabels_updateBundleDom bundleName) Hrow).
    change (boundLabels (mkWorld _ (emailTable w) (effects w))) with (boundLabels w).
    split; [auto|]. intros [->|H]; [|exact H].
    apply querySelectorClass_In. rewrite Hq. discriminate.
  - exact (insertBundleDom_labels _ _ _ _ _ Hrow label).
Qed.

Lemma renderBundles_labels : forall names w w',
  forEach names renderBundle w = Returns tt w' ->
  forall label, In label (boundLabels w') <-> In label names \/ In label (boundLabels w).
Proof.
  induction names as [|name names IH]; intros w w' Hrun label.
  - injection Hrun as <-. cbn. tauto.
  - apply forEach_returns_inv in Hrun as (w1 & Hone & Hrest).
    rewrite (IH w1 w' Hrest label), (renderBundle_labels _ _ _ Hone label). cbn.
    split; intros H; intuition congruence.
Qed.

Lemma cycle_rows_are_the_bundles_aux (w w' : World) (rows : list Row) :
  emailTable w = Some rows ->
  NoDup (map refOf rows) ->
  runBundlizer w = Returns tt w' ->
  (forall label,
     In label (boundLabels w') <-> In label (JsObject.keys (bundles (state w')))) /\
  (NoDup (boundLabels w) -> NoDup (boundLabels w')).
Proof.
  intros Ht Hnd Hrun. split.
  2:{ pose proof (does_runBundlizer w) as Hwrites. rewrite Hrun in Hwrites.
      apply (writes_invariant cycleKinds (fun v => NoDup (boundLabels v))
               (fun k v v' _ => write_keeps_one_row_per_label k v v') w w' Hwrites). }
  destruct (runBundlizer_steps w w' rows Ht Hrun)
    as (w0 & w1 & w2 & w3 & Hinit & Hgroup & Horphan & Hloop & Hsettle).
  assert (Ht0 : emailTable w0 = Some rows).
  { rewrite (initBundleTemplateHTML_table w w0 Hinit). exact Ht. }
  pose proof Hgroup as Hgroup'.
  rewrite (setBundleStateToEmails_returns w0 rows Ht0 Hnd
             (setBundleStateToEmails_own w0 rows w1 Ht0 Hnd Hgroup)) in Hgroup'.
  cbv zeta in Hgroup'.
  set (names := JsObject.keys (bundles (state w1))) in *.
  assert (Ht1 : exists rows1, emailTable w1 = Some rows1 /\ NoDup (map refOf rows1)).
  { injection Hgroup' as <-. eexists. split; [reflexivity|].
    rewrite refOf_markBundled. exact Hnd. }
  destruct Ht1 as (rows1 & Ht1 & Hnd1).
  destruct (orphanPass_returns w1 rows1 names Ht1 Hnd1) as (w2' & Horphan' & _ & Hkept & _).
  rewrite Horphan in Horphan'. injection Horphan' as <-.
  assert (Hsub2 : forall label, In label (boundLabels w2) -> In label names).
  { intros label Hin. unfold boundLabels in Hin.
    apply in_map_iff in Hin as (b & <- & Hb). apply In_syntheticRows in Hb.
    apply Hkept in Hb. tauto. }
  assert (Hnd3 : distinctRows w3).
  { apply (writes_keep_distinctRows cycleKinds w w3
             (cycle_loop_writes _ _ _ _ _ _ Hinit Hgroup Horphan Hloop)).
    unfold distinctRows, visibleRows. rewrite Ht. exact Hnd. }
  destruct (settleCycle_labels w3 w' Hnd3 Hsettle) as [Hsame _].
  pose proof (preserves_returns state settleCycle w3 tt w' preserves_state_settleCycle Hsettle)
    as Hstate3.
  destruct (renderBundles_flags _ w2 w3 Hloop) as [Hb3 _].
  pose proof (preserves_returns _ _ w1 tt w2 (orphanPass_keeps_bundles names) Horphan)
    as Hb2. cbn in Hb2.
  assert (Hkeys : JsObject.keys (bundles (state w')) = names).
  { unfold names. rewrite Hstate3, Hb3, Hb2. reflexivity. }
  intros label. rewrite Hkeys, (Hsame label), (renderBundles_labels _ _ _ Hloop label).
  split; [intros [H|H]; auto | auto].
Qed.



(** ** Where [insertBundleDom] puts the row *)

Section SlotWrites.
Let Hsub : subKinds slotKinds slotKinds := fun k H => H.

Lemma slot_email i : does slotKinds (email i).
Proof. unfold email. foot Hsub. Qed.

Lemma slot_recentSendersLoop n : forall l, does slotKinds (recentSendersLoop n l).
Proof.
  induction n as [|n IH]; intros l; cbn; [apply does_ret|].
  destruct l as [|i rest]; [apply does_ret|].
  apply does_bind; [apply slot_email | intros e].
  apply does_bind; [apply IH | intros more]. apply does_ret.
Qed.

Lemma slot_getRecentSenders name : does slotKinds (getRecentSenders name).
Proof.
  unfold getRecentSenders.
  apply does_bind; [apply does_getState | intros s].
  apply does_bind; [apply does_defined | intros bundle]. apply slot_recentSendersLoop.
Qed.

Lemma slot_updateBundleDom name : does slotKinds (updateBundleDom name).
Proof.
  unfold updateBundleDom. cbv zeta.
  apply does_bind; [apply does_getState | intros s].
  apply does_bind; [apply does_getRows | intros rows].
  destruct (querySelectorClass _ rows) as [row|]; [|apply does_ret].
  apply does_bind; [apply does_defined | intros bundle].
  apply does_bind; [|intros latest].
  { apply does_bind; [apply does_defined | intros i; apply slot_email]. }
  apply does_bind; [apply slot_getRecentSenders | intros senders].
  repeat (apply does_bind; [|intros _]);
    match goal with
    | |- does _ (if ?b then _ else _) =>
      destruct b; [apply does_ret|];
      (apply does_bind; [|intros _; apply does_emit; reflexivity]);
      apply does_updateBundle; [reflexivity | intros ?; reflexivity]
    end.
Qed.

End SlotWrites.

Lemma slot_write_keeps k w w' :
  slotKinds k = true -> Write k w w' ->
  (state w', messageRows w', nodesOf w', map bundleIdentity (syntheticRows (visibleRows w')))
  = (state w, messageRows w, nodesOf w, map bundleIdentity (syntheticRows (visibleRows w))).
Proof.
  intros Hk Hw. destruct Hw; try discriminate; [reflexivity|].
  unfold messageRows, nodesOf, visibleRows. cbn [state emailTable].
  destruct (emailTable w) as [rows|]; cbn [option_map]; [|reflexivity].
  rewrite messages_onBundle, refOf_onBundle, bundleIdentity_onBundle by assumption.
  reflexivity.
Qed.

Lemma insertAdjacent_at isPlacedAfter i new before e after_ :
  eid e = i ->
  (forall r, In r before -> refOf r <> EmailRef i) ->
  insertAdjacent isPlacedAfter i new (before ++ EmailRow e :: after_)
  = Some (if isPlacedAfter then before ++ EmailRow e :: new :: after_
          else before ++ new :: EmailRow e :: after_).
Proof.
  intros He Hbefore. induction before as [|r before IH]; cbn.
  - rewrite He, Nat.eqb_refl. destruct isPlacedAfter; reflexivity.
  - destruct (Ref_eqb (refOf r) (EmailRef i)) eqn:E.
    + apply Ref_eqb_eq in E. exfalso. exact (Hbefore r (or_introl eq_refl) E).
    + rewrite IH by (intros r' Hr'; apply Hbefore; now right).
      destruct isPlacedAfter; reflexivity.
Qed.

Lemma querySelectorClass_new cls new l1 l2 :
  querySelectorClass cls (l1 ++ l2) = None ->
  getBundleClass (bundlename new) = cls ->
  querySelectorClass cls (l1 ++ SyntheticRow new :: l2) = Some new.
Proof.
  unfold querySelectorClass. rewrite !syntheticRows_app. cbn [syntheticRows flat_map app].
  intros Hnone Hcls.
  assert (H1 : find (fun b => String.eqb (getBundleClass (bundlename b)) cls)
                    (syntheticRows l1) = None).
  { destruct (find _ (syntheticRows l1)) as [b|] eqn:Hf; [|reflexivity]. exfalso.
    apply find_some in Hf as [Hin Hb].
    pose proof (find_none _ _ Hnone b (in_or_app _ _ _ (or_introl Hin))) as Hn.
    cbv beta in Hn. congruence. }
  clear Hnone. induction (syntheticRows l1) as [|b l IH]; cbn [find app] in *.
  - rewrite Hcls, String.eqb_refl. reflexivity.
  - destruct (String.eqb (getBundleClass (bundlename b)) cls); [discriminate|].
    apply IH. exact H1.
Qed.

Lemma findEmail_app i l1 l2 :
  findEmail i (l1 ++ l2)
  = match findEmail i l1 with Some e => Some e | None => findEmail i l2 end.
Proof.
  induction l1 as [|[e|b] l1 IH]; cbn; [reflexivity | | exact IH].
  destruct (Nat.eqb (eid e) i); [reflexivity | exact IH].
Qed.

Lemma findEmail_insert i new l1 l2 :
  findEmail i (l1 ++ SyntheticRow new :: l2) = findEmail i (l1 ++ l2).
Proof. rewrite !findEmail_app. reflexivity. Qed.

Lemma writes_keep_identity bundleName rendered senders date row :
  bundleIdentity
    (fst (writeDate bundleName date
            (fst (writeSenders bundleName senders
                    (fst (writeName bundleName rendered row))))))
  = bundleIdentity row.
Proof.
  unfold writeDate, writeSenders, writeName.
  repeat match goal with
         | |- context [if ?b then _ else _] => destruct b; cbn [fst]
         end; reflexivity.
Qed.

Lemma insertBundleDom_places_the_row_aux
      (w : World) (before after_ : list Row) (e : Email) (bundleName : string)
      (isPlacedAfter : bool) (members : list nat) (latestId : nat) (latest : Email)
      (chip : LabelChip) (slotName slotSubject slotDate : string) :
  let rows := before ++ EmailRow e :: after_ in
  plainLabel bundleName = true ->
  emailTable w = Some rows ->
  (forall r, In r before -> refOf r <> EmailRef (eid e)) ->
  renderedRow bundleName w = None ->
  bundleTemplateHTML (state w) = Markup slotName slotSubject slotDate ->
  JsObject.get bundleName (bundles (state w)) = Some members ->
  nth_error members 0 = Some latestId ->
  findEmail latestId rows = Some latest ->
  getEmailLabelWrapperOfBundle latest bundleName = Some chip ->
  Forall (fun j => findEmail j rows <> None) (firstn MAX_SENDERS_BUNDLE_DESC members) ->
  exists w' row,
    insertBundleDom (Some (eid e)) bundleName isPlacedAfter w = Returns tt w' /\
    state w' = state w /\
    messageRows w' = messageRows w /\
    nodesOf w'
    = map refOf before
      ++ (if isPlacedAfter then [EmailRef (eid e); BundleRef (freshBid rows)]
          else [BundleRef (freshBid rows); EmailRef (eid e)])
      ++ map refOf after_ /\
    renderedRow bundleName w' = Some row /\
    bundleIdentity row = (freshBid rows, bundleName, chipBackground chip, chipColor chip).
Proof.
  intros rows _ Ht Hbefore Hnone Htemplate Hget Hnth Hlatest Hchip Hall.
  set (new := mkBundleRow (freshBid rows) bundleName slotName slotSubject slotDate
                          (chipBackground chip) (chipColor chip)).
  set (rows' := if isPlacedAfter then before ++ EmailRow e :: SyntheticRow new :: after_
                else before ++ SyntheticRow new :: EmailRow e :: after_).
  set (w1 := mkWorld (state w) (Some rows') (effects w ++ [EvInsertBundle bundleName])).
  assert (Hvis : visibleRows w = rows) by (unfold visibleRows; rewrite Ht; reflexivity).
  assert (Hrun : insertBundleDom (Some (eid e)) bundleName isPlacedAfter w
                 = updateBundleDom bundleName w1).
  { unfold insertBundleDom. cbv zeta. run. rewrite Hget. run. run.
    unfold renderedRow in Hnone. rewrite Hvis in Hnone. rewrite Ht, Hnone, Hnth.
    assert (Hl : (i <- defined (Some latestId) ;; email i) w = Returns latest w).
    { unfold bind at 1. cbn [defined ret]. apply email_returns. rewrite Hvis. exact Hlatest. }
    run_by Hl. run. rewrite Hchip. run. rewrite Htemplate.
    unfold rows. rewrite (insertAdjacent_at isPlacedAfter (eid e) _ before e after_ eq_refl Hbefore).
    run. unfold bind at 1. unfold modifyRows at 1. rewrite Ht. cbn [option_map].
    run. reflexivity. }
  assert (Hsplit : exists l1 l2, rows = l1 ++ l2 /\ rows' = l1 ++ SyntheticRow new :: l2).
  { unfold rows, rows'. destruct isPlacedAfter.
    - exists (before ++ [EmailRow e]), after_. rewrite <- !app_assoc. split; reflexivity.
    - exists before, (EmailRow e :: after_). split; reflexivity. }
  destruct Hsplit as (l1 & l2 & Hrows & Hrows').
  assert (Hfind : forall j, findEmail j rows' = findEmail j rows).
  { intros j. rewrite Hrows', Hrows. apply findEmail_insert. }
  destruct (updateBundleDom_returns w1 bundleName new members latestId latest)
    as (senders & w' & _ & Hupd & Hstate & Hrow & _ & _).
  - unfold renderedRow, w1, visibleRows. cbn [emailTable]. rewrite Hrows'.
    apply querySelectorClass_new; [|reflexivity].
    rewrite <- Hrows. unfold renderedRow in Hnone. rewrite Hvis in Hnone. exact Hnone.
  - exact Hget.
  - exact Hnth.
  - unfold w1, visibleRows. cbn [emailTable]. rewrite Hfind. exact Hlatest.
  - apply Forall_impl with (2 := Hall). intros j Hj.
    unfold w1, visibleRows. cbn [emailTable]. rewrite Hfind. exact Hj.
  - cbv zeta in Hrow.
    pose proof (writes_preserves slotKinds _ slot_write_keeps w1 w'
                  (does_returns _ _ _ _ _ (slot_updateBundleDom bundleName) Hupd)) as Hkeep.
    injection Hkeep as _ Hmsg Hnodes _.
    eexists w', _. split; [rewrite Hrun; exact Hupd|].
    split; [rewrite Hstate; reflexivity|]. split; [|split; [|split; [exact Hrow|]]].
    + rewrite Hmsg. unfold messageRows, w1. cbn [emailTable]. rewrite Ht. cbn [option_map].
      f_equal. rewrite Hrows', Hrows, !messages_app. reflexivity.
    + rewrite Hnodes. unfold nodesOf, w1, visibleRows, rows'. cbn [emailTable].
      destruct isPlacedAfter; rewrite map_app; reflexivity.
    + rewrite writes_keep_identity. reflexivity.
Qed.

(** X26.  [insertBundleDom] puts the new synthetic row next to the message
    row it is given.  For a label whose text is a plain one (letters, digits,
    [-] and [_], so that the class selector built from it finds the row of
    the label): when the label has no synthetic row yet, the template
    is there, the message row is in the table, and the bundle's latest member
    carries the label's chip, the call returns; the table then has one more
    row, directly before the message row (directly after it, if
    [isPlacedAfter]), every other row where it was; the new row is the one
    rendered for the label, it is bound to the label and has the colours of
    the chip; [state] and the message rows are untouched. *)
Theorem insertBundleDom_places_the_row
        (w : World) (before after_ : list Row) (e : Email) (bundleName : string)
        (isPlacedAfter : bool) (members : list nat) (latestId : nat) (latest : Email)
        (chip : LabelChip) (slotName slotSubject slotDate : string) :
  let rows := before ++ EmailRow e :: after_ in
  plainLabel bundleName = true ->
  emailTable w = Some rows ->
  (forall r, In r before -> refOf r <> EmailRef (eid e)) ->
  renderedRow bundleName w = None ->
  bundleTemplateHTML (state w) = Markup slotName slotSubject slotDate ->
  JsObject.get bundleName (bundles (state w)) = Some members ->
  nth_error members 0 = Some latestId ->
  findEmail latestId rows = Some latest ->
  getEmailLabelWrapperOfBundle latest bundleName = Some chip ->
  Forall (fun j => findEmail j rows <> None) (firstn MAX_SENDERS_BUNDLE_DESC members) ->
  exists w' row,
    insertBundleDom (Some (eid e)) bundleName isPlacedAfter w = Returns tt w' /\
    state w' = state w /\
    messageRows w' = messageRows w /\
    nodesOf w'
    = map refOf before
      ++ (if isPlacedAfter then [EmailRef (eid e); BundleRef (freshBid rows)]
          else [BundleRef (freshBid rows); EmailRef (eid e)])
      ++ map refOf after_ /\
    renderedRow bundleName w' = Some row /\
    bundleIdentity row = (freshBid rows, bundleName, chipBackground chip, chipColor chip).
Proof.
  exact (insertBundleDom_places_the_row_aux w before after_ e bundleName isPlacedAfter
           members latestId latest chip slotName slotSubject slotDate).
Qed.

Lemma insertBundleDom_places_the_row_witness :
  exists w' row,
    insertBundleDom (Some 2) "Personal" true
                    (mkWorld (state Sample.bundled) (Some Sample.inbox) [])
    = Returns tt w' /\
    nodesOf w' = [EmailRef 1; EmailRef 2; BundleRef 1; EmailRef 3; EmailRef 4] /\
    renderedRow "Personal" w' = Some row /\
    bundleIdentity row = (1, "Personal", "rgb(1, 2, 3)", "rgb(4, 5, 6)").
Proof.
  destruct (insertBundleDom_places_the_row
              (mkWorld (state Sample.bundled) (Some Sample.inbox) [])
              [EmailRow Sample.ann] [EmailRow Sample.cid; EmailRow Sample.dan] Sample.bob
              "Personal" true [2; 4] 2 Sample.bob (Sample.chip "Personal")
              "Dan" "Photos" "Oct 29")
    as (w' & row & Hrun & _ & _ & Hnodes & Hrow & Hid).
  - reflexivity.
  - reflexivity.
  - intros r [<-|[]]. discriminate.
  - reflexivity.
  - reflexivity.
  - reflexivity.
  - reflexivity.
  - reflexivity.
  - reflexivity.
  - repeat constructor; discriminate.
  - exists w', row. split; [exact Hrun|]. split; [exact Hnodes|]. split; [exact Hrow|exact Hid].
Defined.

(** ** A cycle goes through *)

Lemma findEmail_find i rows :
  findEmail i rows = find (fun e => Nat.eqb (eid e) i) (messages rows).
Proof.
  induction rows as [|[e|b] rows IH]; cbn; [reflexivity| |exact IH].
  destruct (Nat.eqb (eid e) i); [reflexivity | exact IH].
Qed.

Lemma find_host i : forall l l' e,
  map hostFields l' = map hostFields l ->
  find (fun e => Nat.eqb (eid e) i) l = Some e ->
  exists e', find (fun e => Nat.eqb (eid e) i) l' = Some e' /\ hostFields e' = hostFields e.
Proof.
  induction l as [|x l IH]; intros [|x' l'] e Hmap Hfind; try discriminate.
  cbn [map] in Hmap. apply (f_equal (@tl _)) in Hmap as Hl. cbn [tl] in Hl.
  apply (f_equal (@hd_error _)) in Hmap as Hx. cbn [hd_error] in Hx.
  assert (Hx' : hostFields x' = hostFields x) by congruence.
  clear Hx Hmap. rename Hx' into Hx. cbn [find].
  cbn [find] in Hfind.
  assert (Hid : eid x' = eid x).
  { unfold hostFields in Hx. congruence. }
  rewrite Hid. destruct (Nat.eqb (eid x) i).
  - injection Hfind as <-. exists x'. split; [reflexivity | exact Hx].
  - apply IH; assumption.
Qed.

Lemma hostContent_messages w w' :
  hostContent w' = hostContent w ->
  map hostFields (messagesOf w') = map hostFields (messagesOf w).
Proof.
  unfold hostContent, messagesOf, visibleRows.
  destruct (emailTable w'), (emailTable w); cbn; congruence.
Qed.

Lemma carries_host name i w w' :
  hostContent w' = hostContent w -> carries name i w -> carries name i w'.
Proof.
  intros Hhost (e & He & Hchip). rewrite findEmail_find in He.
  destruct (find_host i _ _ e (hostContent_messages w w' Hhost) He) as (e' & He' & Hf).
  exists e'. split; [rewrite findEmail_find; exact He'|].
  unfold getEmailLabelWrapperOfBundle in *. unfold hostFields in Hf.
  replace (labels e') with (labels e) by congruence. exact Hchip.
Qed.

Lemma grouped_host w w' :
  hostContent w' = hostContent w ->
  bundles (state w') = bundles (state w) ->
  bundleTemplateHTML (state w') = bundleTemplateHTML (state w) ->
  grouped w -> grouped w'.
Proof.
  intros Hhost Hb Ht [Htemplate Hmembers]. split; [rewrite Ht; exact Htemplate|].
  intros name members Hget. rewrite Hb in Hget.
  destruct (Hmembers name members Hget) as [Hne Hall]. split; [exact Hne|].
  intros i Hi. apply (carries_host name i w w' Hhost). auto.
Qed.

Lemma rearranged_refl w : rearranged w w.
Proof. repeat split; auto. Qed.

Lemma rearranged_trans w1 w2 w3 :
  rearranged w1 w2 -> rearranged w2 w3 -> rearranged w1 w3.
Proof.
  intros (Hs & Hh & Hl & Hd) (Hs' & Hh' & Hl' & Hd').
  split; [congruence|]. split; [congruence|]. split; [|auto].
  apply (sameLabels_trans w1 w2 w3); assumption.
Qed.

Lemma grouped_rearranged w w' : rearranged w w' -> grouped w -> grouped w'.
Proof.
  intros (Hs & Hh & _ & _). apply grouped_host; [exact Hh | |]; rewrite Hs; reflexivity.
Qed.

Lemma placed_rearranged w w' : rearranged w w' -> placed w -> placed w'.
Proof.
  intros (Hs & _ & Hl & Hd) (Hdist & Horder & Hrows & Hopen).
  split; [auto|]. unfold isOpen in *. rewrite Hs. split; [exact Horder|].
  split; [|exact Hopen].
  intros name Hname. apply Hl. auto.
Qed.

Lemma row_write_keeps_state k w w' :
  rowKinds k = true -> Write k w w' -> state w' = state w.
Proof. intros Hk Hw. destruct Hw; try discriminate; reflexivity. Qed.

Lemma row_writes_rearranged w w' :
  writes rowKinds w w' -> sameLabels w w' -> rearranged w w'.
Proof.
  intros Hw Hl. split; [|split; [|split; [exact Hl|]]].
  - exact (writes_preserves rowKinds state row_write_keeps_state w w' Hw).
  - apply (writes_preserves rowKinds hostContent); [|exact Hw].
    intros k w1 w2 _. apply write_keeps_hostContent.
  - apply (writes_keep_distinctRows rowKinds); exact Hw.
Qed.

Lemma rows_rearranged {A} (c : Js A) w a w' :
  does rowKinds c -> preserves boundLabels c -> c w = Returns a w' -> rearranged w w'.
Proof.
  intros Hdoes Hkeep Hrun. apply row_writes_rearranged.
  - exact (does_returns rowKinds c w a w' Hdoes Hrun).
  - apply sameLabels_eq. exact (preserves_returns boundLabels c w a w' Hkeep Hrun).
Qed.

Lemma moveBundleDoms_rearranged email_ names after w w' :
  distinctRows w ->
  moveBundleDoms email_ names after w = Returns tt w' -> rearranged w w'.
Proof.
  intros Hd Hrun. apply row_writes_rearranged.
  - exact (does_returns rowKinds _ w tt w'
             (does_moveBundleDoms rowKinds bundleKinds_rowKinds email_ names after) Hrun).
  - exact (proj1 (moveBundleDoms_labels email_ names after w w' Hd Hrun)).
Qed.

Lemma tracked_carries name i w : carries name i w -> findEmail i (visibleRows w) <> None.
Proof. intros (e & He & _). congruence. Qed.

Lemma insertAdjacent_defined after i new : forall rows,
  findEmail i rows <> None -> insertAdjacent after i new rows <> None.
Proof.
  induction rows as [|[e|b] rows IH]; cbn; intros H; [congruence| |].
  - destruct (Nat.eqb (eid e) i); [discriminate|].
    destruct (insertAdjacent after i new rows); [discriminate | auto].
  - destruct (insertAdjacent after i new rows); [discriminate | auto].
Qed.

Lemma indexOf_tracked i : forall rows,
  findEmail i rows <> None -> indexOf Ref_eqb (EmailRef i) (map refOf rows) <> None.
Proof.
  induction rows as [|[e|b] rows IH]; cbn; intros H; [congruence| |].
  - rewrite Nat.eqb_sym. destruct (Nat.eqb (eid e) i); [discriminate|].
    destruct (indexOf Ref_eqb (EmailRef i) (map refOf rows)); [discriminate | auto].
  - destruct (indexOf Ref_eqb (EmailRef i) (map refOf rows)); [discriminate | auto].
Qed.

Lemma firstn_incl {A} n : forall (l : list A) x, In x (firstn n l) -> In x l.
Proof.
  induction n as [|n IH]; intros [|y l] x; cbn; try tauto.
  intros [H|H]; [left; exact H | right; apply IH; exact H].
Qed.

(** [updateBundleDom] returns for a bundle of a grouping that fits the
    table. *)
Lemma updateBundleDom_total name w :
  grouped w -> JsObject.get name (bundles (state w)) <> None ->
  exists w', updateBundleDom name w = Returns tt w'.
Proof.
  intros [_ Hmembers] Hget.
  destruct (renderedRow name w) as [row|] eqn:Hrow.
  - destruct (JsObject.get name (bundles (state w))) as [members|] eqn:Hm; [|congruence].
    destruct (Hmembers name members Hm) as [Hne Hall].
    destruct members as [|i rest]; [congruence|].
    destruct (Hall i (or_introl eq_refl)) as (latest & Hlatest & _).
    destruct (updateBundleDom_returns w name row (i :: rest) i latest Hrow Hm eq_refl Hlatest)
      as (senders & w' & _ & Hrun & _).
    + apply Forall_forall. intros j Hj. apply (tracked_carries name).
      apply Hall. apply (firstn_incl _ _ _ Hj).
    + exists w'. exact Hrun.
  - exists w. unfold updateBundleDom. cbv zeta. run. run.
    unfold renderedRow, visibleRows in Hrow. rewrite Hrow. reflexivity.
Qed.

(** [insertBundleDom] returns when the reference row is a message row of the
    table and the label is a bundle of a grouping that fits the table. *)
Lemma insertBundleDom_total i name after w :
  grouped w -> findEmail i (visibleRows w) <> None ->
  JsObject.get name (bundles (state w)) <> None ->
  exists w', insertBundleDom (Some i) name after w = Returns tt w'.
Proof.
  intros Hg Hi Hget. pose proof Hg as [Htemplate Hmembers].
  destruct (JsObject.get name (bundles (state w))) as [members|] eqn:Hm; [|congruence].
  destruct (Hmembers name members Hm) as [Hne Hall].
  destruct members as [|j rest]; [congruence|].
  destruct (Hall j (or_introl eq_refl)) as (latest & Hlatest & Hchip).
  destruct (getEmailLabelWrapperOfBundle latest name) as [chip|] eqn:Hc; [|congruence].
  destruct (bundleTemplateHTML (state w)) as [|slotName slotSubject slotDate] eqn:Ht;
    [congruence|].
  destruct (emailTable w) as [rows|] eqn:Hrows;
    [|unfold visibleRows in Hi; rewrite Hrows in Hi; cbn in Hi; congruence].
  assert (Hvis : visibleRows w = rows) by (unfold visibleRows; rewrite Hrows; reflexivity).
  rewrite Hvis in Hi, Hlatest.
  destruct (querySelectorClass (getBundleClass name) rows) as [row|] eqn:Hrow.
  - exists w. unfold insertBundleDom. cbv zeta. run. rewrite Hm. run. run.
    rewrite Hrows, Hrow. reflexivity.
  - set (new := mkBundleRow (freshBid rows) name slotName slotSubject slotDate
                            (chipBackground chip) (chipColor chip)).
    destruct (insertAdjacent after i (SyntheticRow new) rows) as [rows'|] eqn:Hins;
      [|exfalso; revert Hins; apply insertAdjacent_defined; exact Hi].
    set (w1 := mkWorld (state w) (Some rows') (effects w ++ [EvInsertBundle name])).
    assert (Hrun : insertBundleDom (Some i) name after w = updateBundleDom name w1).
    { unfold insertBundleDom. cbv zeta. run. rewrite Hm. run. run.
      rewrite Hrows, Hrow. cbn [nth_error].
      assert (Hl : (x <- defined (Some j) ;; email x) w = Returns latest w).
      { unfold bind at 1. cbn [defined ret]. apply email_returns. rewrite Hvis. exact Hlatest. }
      run_by Hl. run. rewrite Hc. run. rewrite Ht. fold new. rewrite Hins.
      run. unfold bind at 1. unfold modifyRows at 1. rewrite Hrows. cbn [option_map].
      run. reflexivity. }
    destruct (insertAdjacent_split after i _ rows rows' Hins) as (l1 & l2 & E & E').
    destruct (updateBundleDom_total name w1) as [w' Hupd].
    + apply (grouped_host w w1); [| reflexivity | reflexivity | exact Hg].
      unfold hostContent, w1. cbn [emailTable]. rewrite Hrows. cbn [option_map].
      rewrite E, E', !messages_app. reflexivity.
    + cbn [w1 state]. congruence.
    + exists w'. rewrite Hrun. exact Hupd.
Qed.

Lemma renderBundle_keeps_grouped name w w' :
  renderBundle name w = Returns tt w' -> grouped w -> grouped w'.
Proof.
  intros Hrun. apply grouped_host.
  - apply (writes_preserves cycleKinds hostContent).
    + intros k w1 w2 _. apply write_keeps_hostContent.
    + exact (does_returns cycleKinds _ w tt w' (does_renderBundle name) Hrun).
  - rewrite (renderBundle_state name w w' Hrun). reflexivity.
  - rewrite (renderBundle_state name w w' Hrun). reflexivity.
Qed.

(** The body of the loop of [runBundlizer] returns for a bundle of a grouping
    that fits the table. *)
Lemma renderBundle_total name w :
  grouped w -> JsObject.get name (bundles (state w)) <> None ->
  exists w', renderBundle name w = Returns tt w'.
Proof.
  intros Hg Hget.
  destruct (JsObject.get name (bundles (state w))) as [members|] eqn:Hm; [|congruence].
  set (w1 := mkWorld (withVisibility
                        (JsObject.set name
                           (truthy (JsObject.get name (bundlesVisibility (state w))))
                           (bundlesVisibility (state w))) (state w))
                     (emailTable w) (effects w)).
  assert (Hg1 : grouped w1).
  { apply (grouped_host w w1); [reflexivity | reflexivity | reflexivity | exact Hg]. }
  assert (Hm1 : JsObject.get name (bundles (state w1)) = Some members) by exact Hm.
  assert (Hstep : exists w2,
             (match querySelectorClass (getBundleClass name) (visibleRows w1) with
              | Some _ => updateBundleDom name
              | None => insertBundleDom (nth_error members 0) name false
              end) w1 = Returns tt w2).
  { destruct (querySelectorClass (getBundleClass name) (visibleRows w1)).
    - apply updateBundleDom_total; [exact Hg1 | congruence].
    - destruct (proj2 Hg1 name members Hm1) as [Hne Hall].
      destruct members as [|j rest]; [congruence|].
      apply insertBundleDom_total; [exact Hg1 | | congruence].
      apply (tracked_carries name). apply Hall. left. reflexivity. }
  destruct Hstep as [w2 Hstep].
  assert (Hhide : exists w3,
             (if truthy (JsObject.get name (bundlesVisibility (state w2)))
              then ret tt else hideEmails members) w2 = Returns tt w3).
  { destruct (truthy (JsObject.get name (bundlesVisibility (state w2))));
      [exists w2; reflexivity|].
    destruct w2 as [st tbl ev]. eexists. apply hideEmails_returns. }
  destruct Hhide as [w3 Hhide]. exists w3.
  unfold renderBundle. run. rewrite Hm. run. cbv zeta. run. run.
  change (match emailTable _ with Some rows => rows | None => [] end) with (visibleRows w1).
  run_by Hstep. run. exact Hhide.
Qed.

Lemma renderBundles_total : forall names w,
  grouped w ->
  (forall name, In name names -> JsObject.get name (bundles (state w)) <> None) ->
  exists w', forEach names renderBundle w = Returns tt w' /\ grouped w'.
Proof.
  induction names as [|name names IH]; intros w Hg Hnames.
  - exists w. split; [reflexivity | exact Hg].
  - destruct (renderBundle_total name w Hg (Hnames name (or_introl eq_refl))) as [w1 H1].
    pose proof (renderBundle_keeps_grouped name w w1 H1 Hg) as Hg1.
    destruct (IH w1 Hg1) as (w' & Hrun & Hg').
    + intros n Hn. rewrite (renderBundle_state name w w1 H1). apply Hnames. right. exact Hn.
    + exists w'. split; [|exact Hg']. cbn [forEach]. run_by H1. exact Hrun.
Qed.

Lemma tracked_host i w w' :
  hostContent w' = hostContent w ->
  findEmail i (visibleRows w) <> None -> findEmail i (visibleRows w') <> None.
Proof.
  intros Hhost Hi. destruct (findEmail i (visibleRows w)) as [e|] eqn:He; [|congruence].
  rewrite findEmail_find in He.
  destruct (find_host i _ _ e (hostContent_messages w w' Hhost) He) as (e' & He' & _).
  rewrite findEmail_find. unfold messagesOf in He'. congruence.
Qed.

Lemma querySelectorBundlename_some name rows :
  In name (map bundlename (syntheticRows rows)) ->
  querySelectorBundlename name rows <> None.
Proof.
  intros Hin Hnone. apply in_map_iff in Hin. destruct Hin as (b & Hb & Hin).
  unfold querySelectorBundlename in Hnone.
  pose proof (find_none _ _ Hnone b Hin) as H. cbv beta in H.
  rewrite Hb, String.eqb_refl in H. discriminate.
Qed.

Lemma forEach_snoc {A} (f : A -> Js unit) x : forall l w,
  forEach (l ++ [x]) f w = (forEach l f ;; forEach [x] f) w.
Proof.
  induction l as [|y l IH]; intros w; [reflexivity|].
  change (match f y w with
          | Returns _ w1 => forEach (l ++ [x]) f w1
          | Throws w1 => Throws w1
          end
          = match (match f y w with
                   | Returns _ w1 => forEach l f w1
                   | Throws w1 => Throws w1
                   end) with
            | Returns _ w2 => forEach [x] f w2
            | Throws w2 => Throws w2
            end).
  destruct (f y w) as [[] w1|w1]; [|reflexivity]. rewrite IH. reflexivity.
Qed.

Lemma moveBundleDoms_cons email_ name names after w :
  moveBundleDoms email_ (name :: names) after w
  = (moveBundleDoms email_ names after ;; moveBundleDoms email_ [name] after) w.
Proof. unfold moveBundleDoms. cbn [rev app]. apply forEach_snoc. Qed.

(** [moveBundleDoms] returns for one bundle that has a synthetic row, when the
    reference row is a message row of the table. *)
Lemma moveBundleDoms_one_total i name after w :
  grouped w -> In name (boundLabels w) ->
  findEmail i (visibleRows w) <> None ->
  JsObject.get name (bundles (state w)) <> None ->
  exists w', moveBundleDoms (Some i) [name] after w = Returns tt w'.
Proof.
  intros Hg Hrow Hi Hget.
  destruct (querySelectorBundlename name (visibleRows w)) as [b|] eqn:Hb;
    [|exfalso; revert Hb; apply querySelectorBundlename_some; exact Hrow].
  destruct (indexOf Ref_eqb (EmailRef i) (map refOf (visibleRows w))) as [idx|] eqn:Hidx;
    [|exfalso; revert Hidx; apply indexOf_tracked; exact Hi].
  set (positioned := existsb (Ref_eqb (BundleRef (bid b)))
                       (if after then skipn idx (map refOf (visibleRows w))
                        else firstn idx (map refOf (visibleRows w)))).
  set (w1 := mkWorld (state w) (option_map (removeRow (BundleRef (bid b))) (emailTable w))
                     (effects w ++ [EvRemoveBundle name])).
  assert (Hhost : hostContent w1 = hostContent w).
  { unfold hostContent, w1. cbn [emailTable]. destruct (emailTable w); [|reflexivity].
    cbn [option_map]. rewrite messages_removeRow. reflexivity. }
  assert (Hins : exists w', insertBundleDom (Some i) name after w1 = Returns tt w').
  { apply insertBundleDom_total.
    - apply (grouped_host w w1); [exact Hhost | reflexivity | reflexivity | exact Hg].
    - apply (tracked_host i w w1 Hhost Hi).
    - exact Hget. }
  destruct Hins as [w2 Hins].
  exists (if positioned then w else w2).
  unfold moveBundleDoms. cbn [rev app forEach]. unfold bind at 1.
  assert (Hstep : (rows <- getRows ;;
                   i0 <- defined (Some i) ;;
                   idx0 <- defined (indexOf Ref_eqb (EmailRef i0) (map refOf rows)) ;;
                   match querySelectorBundlename name rows with
                   | None => throw
                   | Some b0 =>
                     if existsb (Ref_eqb (BundleRef (bid b0)))
                          (if after then skipn idx0 (map refOf rows)
                           else firstn idx0 (map refOf rows))
                     then ret tt
                     else modifyRows (removeRow (BundleRef (bid b0))) ;;
                          emit (EvRemoveBundle name) ;;
                          insertBundleDom (Some i) name after
                   end) w = Returns tt (if positioned then w else w2)).
  { run. change (match emailTable w with Some rows => rows | None => [] end)
      with (visibleRows w).
    run. rewrite Hidx. run. rewrite Hb. fold positioned.
    destruct positioned; [reflexivity|]. run. run. exact Hins. }
  cbv zeta. rewrite Hstep. reflexivity.
Qed.

Lemma moveBundleDoms_total i after : forall names w,
  grouped w -> placed w -> findEmail i (visibleRows w) <> None ->
  (forall name, In name names -> In name (JsObject.keys (bundles (state w)))) ->
  exists w', moveBundleDoms (Some i) names after w = Returns tt w' /\ rearranged w w'.
Proof.
  induction names as [|name names IH]; intros w Hg Hp Hi Hnames.
  - exists w. split; [reflexivity | apply rearranged_refl].
  - destruct (IH w Hg Hp Hi) as (w1 & H1 & R1).
    { intros n Hn. apply Hnames. right. exact Hn. }
    pose proof (grouped_rearranged w w1 R1 Hg) as Hg1.
    pose proof (placed_rearranged w w1 R1 Hp) as Hp1.
    assert (Hkey : In name (JsObject.keys (bundles (state w1)))).
    { rewrite (proj1 R1). apply Hnames. left. reflexivity. }
    destruct (moveBundleDoms_one_total i name after w1) as [w2 H2].
    + exact Hg1.
    + apply (proj1 (proj2 (proj2 Hp1))). exact Hkey.
    + exact (tracked_host i w w1 (proj1 (proj2 R1)) Hi).
    + apply get_in_keys. exact Hkey.
    + exists w2. split.
      * rewrite moveBundleDoms_cons. run_by H1. exact H2.
      * apply (rearranged_trans w w1 w2 R1).
        apply (moveBundleDoms_rearranged (Some i) [name] after);
          [exact (proj1 Hp1) | exact H2].
Qed.

Lemma skipn_incl {A} n : forall (l : list A) x, In x (skipn n l) -> In x l.
Proof.
  induction n as [|n IH]; intros [|y l] x; cbn; try tauto.
  intros H. right. apply IH. exact H.
Qed.

Lemma last_member (members : list nat) :
  members <> [] ->
  exists i, nth_error members (List.length members - 1) = Some i /\ In i members.
Proof.
  intros Hne.
  destruct (nth_error members (List.length members - 1)) as [i|] eqn:Hn.
  - exists i. split; [reflexivity|]. apply (nth_error_In _ _ Hn).
  - apply nth_error_None in Hn. destruct members; [congruence | cbn in Hn; lia].
Qed.

Lemma truthyName_some x v : truthyName x = Some v -> x = Some v.
Proof. destruct x as [[|]|]; cbn; congruence. Qed.

(** The loop of [resetBundleDomsPosition] when no bundle is open. *)
Lemma resetLoop_total : forall names w,
  grouped w -> placed w ->
  (forall name, In name names -> In name (JsObject.keys (bundles (state w)))) ->
  exists w',
    forEach names (fun bundleName =>
      s <- getState ;;
      bundle <- defined (JsObject.get bundleName (bundles s)) ;;
      moveBundleDoms (nth_error bundle 0) [bundleName] false) w = Returns tt w' /\
    rearranged w w'.
Proof.
  induction names as [|name names IH]; intros w Hg Hp Hnames.
  - exists w. split; [reflexivity | apply rearranged_refl].
  - assert (Hkey : In name (JsObject.keys (bundles (state w)))) by (apply Hnames; now left).
    apply get_in_keys in Hkey as Hget.
    destruct (JsObject.get name (bundles (state w))) as [members|] eqn:Hm; [|congruence].
    destruct (proj2 Hg name members Hm) as [Hne Hall].
    destruct members as [|i rest]; [congruence|].
    destruct (moveBundleDoms_total i false [name] w Hg Hp) as (w1 & H1 & R1).
    { apply (tracked_carries name). apply Hall. now left. }
    { intros n [<-|[]]. exact Hkey. }
    destruct (IH w1 (grouped_rearranged w w1 R1 Hg) (placed_rearranged w w1 R1 Hp))
      as (w' & Hrun & R').
    { intros n Hn. rewrite (proj1 R1). apply Hnames. now right. }
    exists w'. split; [|exact (rearranged_trans w w1 w' R1 R')].
    cbn [forEach]. unfold bind at 1. unfold bind at 1. cbn [getState].
    rewrite Hm. unfold bind at 1. cbn [defined ret nth_error]. rewrite H1. exact Hrun.
Qed.

(** [resetBundleDomsPosition] returns, and only moves synthetic rows. *)
Lemma resetBundleDomsPosition_total args w :
  grouped w -> placed w ->
  exists w', resetBundleDomsPosition args w = Returns tt w' /\ rearranged w w'.
Proof.
  intros Hg Hp. pose proof Hp as (Hdist & Horder & Hrows & Hopen).
  unfold resetBundleDomsPosition. run. cbv zeta.
  destruct (truthyName (getVisibleBundleName (state w))) as [v|] eqn:Hv.
  - apply truthyName_some, getVisibleBundleName_open in Hv.
    assert (Hkey : In v (JsObject.keys (bundles (state w)))) by (apply Hopen; exact Hv).
    apply get_in_keys in Hkey as Hget.
    destruct (JsObject.get v (bundles (state w))) as [members|] eqn:Hm; [|congruence].
    destruct (proj2 Hg v members Hm) as [Hne Hall].
    destruct (last_member members Hne) as (i & Hlast & Hin).
    run. rewrite Hlast. apply moveBundleDoms_total; [exact Hg | exact Hp | |].
    + apply (tracked_carries v). apply Hall. exact Hin.
    + intros n Hn. apply Horder. unfold bundlesAfter in Hn.
      destruct (indexOf String.eqb v (bundlesOrder (state w)));
        [apply (skipn_incl _ _ _ Hn) | exact Hn].
  - apply resetLoop_total; [exact Hg | exact Hp | auto].
Qed.

Lemma rowKinds_refl : subKinds rowKinds rowKinds.
Proof. intros k Hk. exact Hk. Qed.

(** [showBundledEmails] returns for a bundle, and only hides, shows and moves
    rows. *)
Lemma showBundledEmails_total name w :
  grouped w -> placed w -> JsObject.get name (bundles (state w)) <> None ->
  exists w', showBundledEmails name w = Returns tt w' /\ rearranged w w'.
Proof.
  intros Hg Hp Hget.
  destruct (JsObject.get name (bundles (state w))) as [members|] eqn:Hm; [|congruence].
  destruct (unhideBundle members (emailRefs (visibleRows w)) w) as [toHide w1|w1] eqn:H1;
    [|destruct w as [st tbl ev]; rewrite unhideBundle_returns in H1; discriminate].
  destruct (hideEmails toHide w1) as [[] w2|w2] eqn:H2;
    [|destruct w1 as [st tbl ev]; rewrite hideEmails_returns in H2; discriminate].
  pose proof (rows_rearranged _ w toHide w1
                (does_unhideBundle rowKinds rowKinds_refl _ _)
                (boundLabels_unhideBundle _ _) H1) as R1.
  pose proof (rows_rearranged _ w1 tt w2
                (does_hideEmails rowKinds rowKinds_refl _)
                (boundLabels_hideEmails _) H2) as R2.
  pose proof (rearranged_trans w w1 w2 R1 R2) as R.
  destruct (resetBundleDomsPosition_total [] w2
              (grouped_rearranged w w2 R Hg) (placed_rearranged w w2 R Hp))
    as (w' & H3 & R3).
  exists w'. split; [|exact (rearranged_trans w w2 w' R R3)].
  unfold showBundledEmails. run. cbv zeta. run. rewrite Hm. run.
  change (match emailTable w with Some rows => rows | None => [] end) with (visibleRows w).
  run_by H1. run_by H2. exact H3.
Qed.

(** The end of a cycle returns, and only hides, shows and moves rows. *)
Lemma settleCycle_total w :
  grouped w -> placed w ->
  exists w', settleCycle w = Returns tt w' /\ rearranged w w'.
Proof.
  intros Hg Hp.
  destruct (resetBundleDomsPosition_total [] w Hg Hp) as (w1 & H1 & R1).
  pose proof (grouped_rearranged w w1 R1 Hg) as Hg1.
  pose proof (placed_rearranged w w1 R1 Hp) as Hp1.
  unfold settleCycle. run_by H1. run.
  destruct (truthyName (getVisibleBundleName (state w1))) as [v|] eqn:Hv.
  - apply truthyName_some, getVisibleBundleName_open in Hv.
    destruct (showBundledEmails_total v w1 Hg1 Hp1) as (w' & H2 & R2).
    + apply get_in_keys. apply (proj2 (proj2 (proj2 Hp1))). exact Hv.
    + exists w'. split; [exact H2 | exact (rearranged_trans w w1 w' R1 R2)].
  - exists w1. split; [reflexivity | exact R1].
Qed.

Lemma findEmail_NoDup rows e :
  NoDup (map refOf rows) -> In (EmailRow e) rows -> findEmail (eid e) rows = Some e.
Proof.
  induction rows as [|[e0|b] rows IH]; intros Hnd Hin; [destruct Hin| |].
  - cbn [findEmail]. destruct (Nat.eqb_spec (eid e0) (eid e)) as [E|Hne].
    + f_equal. apply (NoDup_same_email (EmailRow e0 :: rows)); auto; now left.
    + destruct Hin as [Hin|Hin]; [congruence|].
      apply IH; [|exact Hin]. cbn [map] in Hnd. apply NoDup_cons_iff in Hnd. tauto.
  - cbn [findEmail]. destruct Hin as [Hin|Hin]; [discriminate|].
    apply IH; [|exact Hin]. cbn [map] in Hnd. apply NoDup_cons_iff in Hnd. tauto.
Qed.

Lemma chip_found e name :
  In name (map chipText (labels e)) -> getEmailLabelWrapperOfBundle e name <> None.
Proof.
  intros Hin Hnone. apply in_map_iff in Hin. destruct Hin as (c & Hc & Hin).
  pose proof (find_none _ _ Hnone c Hin) as H. cbv beta in H.
  rewrite Hc, String.eqb_refl in H. discriminate.
Qed.

Lemma last_row (rows : list Row) :
  rows <> [] -> nth_error rows (List.length rows - 1) <> None.
Proof.
  intros Hne Hn. apply nth_error_None in Hn.
  destruct rows; [congruence | cbn in Hn; lia].
Qed.

(** The template is there, or can be derived: [initBundleTemplateHTML]
    returns. *)
Lemma initBundleTemplateHTML_total w rows :
  emailTable w = Some rows ->
  bundleTemplateHTML (state w) <> EmptyHTML \/ rows <> [] ->
  exists w0, initBundleTemplateHTML w = Returns tt w0.
Proof.
  intros Ht Hor.
  destruct (bundleTemplateHTML (state w)) as [|a b c] eqn:Htemplate.
  - destruct Hor as [H|Hne]; [congruence|].
    destruct (nth_error rows (List.length rows - 1)) as [r|] eqn:Hr;
      [|exfalso; revert Hr; apply last_row; exact Hne].
    unfold initBundleTemplateHTML. run. rewrite Htemplate. run. rewrite Ht, Hr.
    run. run. eexists. reflexivity.
  - exists w. apply initBundleTemplateHTML_cached. congruence.
Qed.

Lemma orphanPass_keeps_fn {X} (g : State -> X) names :
  (forall v s, g (withVisibility v s) = g s) ->
  preserves (fun w => g (state w)) (orphanPass names).
Proof.
  intros Hg. unfold orphanPass. apply preserves_bind; [frame | intros rows].
  apply preserves_forEach. intros b.
  destruct (includes (bundlename b) names) eqn:Hb.
  - unfold removeIfOrphaned. cbv zeta. rewrite Hb. frame.
  - apply (preserves_removeIfOrphaned_fn g); [| |exact Hb].
    + intros v s. rewrite !Hg. reflexivity.
    + intros s. apply Hg.
Qed.

Lemma renderBundles_keep_fn {X} (g : State -> X) :
  (forall v s, g (withVisibility v s) = g s) ->
  forall names w w',
    forEach names renderBundle w = Returns tt w' -> g (state w') = g (state w).
Proof.
  intros Hg. induction names as [|name names IH]; intros w w' Hrun.
  - injection Hrun as <-. reflexivity.
  - apply forEach_returns_inv in Hrun as (w1 & H1 & Hrun).
    rewrite (IH w1 w' Hrun), (renderBundle_state name w w1 H1). apply Hg.
Qed.

Lemma runBundlizer_run w w0 w1 w2 w3 rows :
  emailTable w0 = Some rows ->
  initBundleTemplateHTML w = Returns tt w0 ->
  setBundleStateToEmails (map refOf rows) w0 = Returns tt w1 ->
  orphanPass (JsObject.keys (bundles (state w1))) w1 = Returns tt w2 ->
  forEach (JsObject.keys (bundles (state w1))) renderBundle w2 = Returns tt w3 ->
  runBundlizer w = settleCycle w3.
Proof.
  intros Ht0 Hinit Hgroup Horphan Hloop.
  unfold runBundlizer. run_by Hinit. rewrite Ht0. cbv zeta.
  run_by Hgroup. run. unfold orphanPass in Horphan.
  apply bind_returns_inv in Horphan as (rows1 & w1' & Hr & Horphan).
  injection Hr as <- <-. run. run_by Horphan.
  change (forEach (JsObject.keys (bundles (state w1))) renderBundle w2 = Returns tt w3)
    in Hloop.
  unfold renderBundle in Hloop. run_by Hloop. reflexivity.
Qed.

(** The cycle up to the end of its loop: the four steps return, and the page
    is ready for the last step. *)
Lemma cycle_loop_total (w : World) (rows : list Row) :
  emailTable w = Some rows ->
  NoDup (map refOf rows) ->
  ownLabels rows ->
  bundleTemplateHTML (state w) <> EmptyHTML \/ rows <> [] ->
  exists w3,
    runBundlizer w = settleCycle w3 /\
    grouped w3 /\
    distinctRows w3 /\
    (forall name, In name (bundlesOrder (state w3)) ->
                  In name (JsObject.keys (bundles (state w3)))) /\
    (forall name, In name (JsObject.keys (bundles (state w3))) -> In name (boundLabels w3)) /\
    (forall name, In name (JsObject.keys (bundles (state w3))) <->
                  exists e, In (EmailRow e) rows /\ In name (map chipText (labels e))) /\
    (forall label, ~ In label (JsObject.keys (bundles (state w3))) ->
       flagOf label w3
       = if orphanLabel (JsObject.keys (bundles (state w3))) label (syntheticRows rows)
         then None else flagOf label w) /\
    (forall label, isOpen label w3 -> isOpen label w).
Proof.
  intros Ht Hnd Hown Hor.
  destruct (initBundleTemplateHTML_total w rows Ht Hor) as [w0 Hinit].
  pose proof (initBundleTemplateHTML_table w w0 Hinit) as Ht0. rewrite Ht in Ht0.
  destruct (initBundleTemplateHTML_returns w w0 Hinit) as [Htemplate0 _].
  destruct (recompute_members w0 rows Ht0 Hnd Hown)
    as (w1 & Hgroup & Hrows1 & Hmembers & _ & Hkeys).
  assert (Ht1 : emailTable w1 = Some (visibleRows w1)).
  { pose proof (setBundleStateToEmails_returns w0 rows Ht0 Hnd Hown) as Hexp.
    cbv zeta in Hexp.
    rewrite Hgroup in Hexp. injection Hexp as ->. reflexivity. }
  set (names := JsObject.keys (bundles (state w1))).
  destruct (orphanPass_returns w1 (visibleRows w1) names Ht1)
    as (w2 & Horphan & _ & _ & Hflags2 & Hb2).
  { rewrite Hrows1, refOf_markBundled. exact Hnd. }
  assert (Hhost2 : hostContent w2 = hostContent w).
  { apply (writes_preserves cycleKinds hostContent).
    - intros k v v' _. apply write_keeps_hostContent.
    - eapply writes_trans;
        [exact (does_returns _ _ _ _ _ does_initBundleTemplateHTML Hinit)|].
      eapply writes_trans;
        [exact (does_returns _ _ _ _ _ (does_setBundleStateToEmails _) Hgroup)|].
      exact (does_returns _ _ _ _ _ (does_orphanPass _) Horphan). }
  assert (Hlabels : forall name, In name names <->
            exists e, In (EmailRow e) rows /\ In name (map chipText (labels e))).
  { intros name. apply (recompute_labels w0 rows w1 name Ht0 Hnd Hgroup). }
  assert (Hg2 : grouped w2).
  { split.
    - rewrite (preserves_returns _ _ w1 tt w2
                 (orphanPass_keeps_fn bundleTemplateHTML names (fun _ _ => eq_refl)) Horphan).
      rewrite (preserves_returns _ _ w0 tt w1
                 (preserves_setBundleStateToEmails_fn bundleTemplateHTML (map refOf rows)
                    (fun _ _ _ _ => eq_refl)) Hgroup).
      exact Htemplate0.
    - intros name members Hget. rewrite Hb2 in Hget.
      assert (Hm : carrying name rows = members).
      { rewrite <- Hmembers. unfold membersOf. rewrite Hget. reflexivity. }
      split.
      + assert (Hname : In name names) by (apply get_in_keys; congruence).
        apply Hlabels in Hname as (e & He & Hlabel). intros Hnil.
        assert (Hin : In (eid e) (carrying name rows)).
        { apply carrying_In. exists e. auto. }
        rewrite Hm, Hnil in Hin. destruct Hin.
      + intros i Hi. rewrite <- Hm in Hi.
        apply carrying_In in Hi as (e & He & Heid & Hlabel).
        apply (carries_host name i w w2 Hhost2). exists e. split.
        * unfold visibleRows. rewrite Ht, <- Heid. apply findEmail_NoDup; assumption.
        * apply chip_found. exact Hlabel. }
  destruct (renderBundles_total names w2 Hg2) as (w3 & Hloop & Hg3).
  { intros name Hname. rewrite Hb2. apply get_in_keys. exact Hname. }
  destruct (renderBundles_flags names w2 w3 Hloop) as [Hb3 Hf3].
  assert (Hnames3 : JsObject.keys (bundles (state w3)) = names).
  { rewrite Hb3, Hb2. reflexivity. }
  assert (Hflag0 : forall label, flagOf label w1 = flagOf label w).
  { intros label. unfold flagOf.
    rewrite (preserves_returns _ _ w0 tt w1
               (preserves_setBundleStateToEmails_fn
                  (fun s => JsObject.get label (bundlesVisibility s)) (map refOf rows)
                  (fun _ _ _ _ => eq_refl)) Hgroup).
    rewrite (preserves_returns _ _ w tt w0
               (preserves_initBundleTemplateHTML_fn
                  (fun s => JsObject.get label (bundlesVisibility s))
                  (fun _ _ => eq_refl)) Hinit).
    reflexivity. }
  assert (Hflag2 : forall label, flagOf label w2
            = if orphanLabel names label (syntheticRows rows) then None else flagOf label w).
  { intros label. unfold flagOf at 1. rewrite Hflags2, Hrows1, syntheticRows_markBundled.
    fold (flagOf label w1). rewrite Hflag0. reflexivity. }
  exists w3. rewrite Hnames3.
  split; [exact (runBundlizer_run w w0 w1 w2 w3 rows Ht0 Hinit Hgroup Horphan Hloop)|].
  split; [exact Hg3|]. split; [|split; [|split; [|split; [exact Hlabels|split]]]].
  - apply (writes_keep_distinctRows cycleKinds w w3
             (cycle_loop_writes w w0 w1 w2 w3 rows Hinit Hgroup Horphan Hloop)).
    unfold distinctRows, visibleRows. rewrite Ht. exact Hnd.
  - intros name Hname.
    rewrite (renderBundles_keep_fn bundlesOrder (fun _ _ => eq_refl) names w2 w3 Hloop)
      in Hname.
    rewrite (preserves_returns _ _ w1 tt w2
               (orphanPass_keeps_fn bundlesOrder names (fun _ _ => eq_refl)) Horphan)
      in Hname.
    unfold names. rewrite Hkeys. exact Hname.
  - intros name Hname. apply (renderBundles_labels names w2 w3 Hloop). left. exact Hname.
  - intros label Hnot. rewrite Hf3.
    destruct (includes label names) eqn:Hin; [apply includes_In in Hin; contradiction|].
    apply Hflag2.
  - intros label Hl. unfold isOpen in Hl. fold (flagOf label w3) in Hl.
    rewrite Hf3, Hflag2 in Hl. unfold isOpen. fold (flagOf label w).
    destruct (orphanLabel names label (syntheticRows rows)), (includes label names);
      try discriminate; [|exact Hl].
    destruct (flagOf label w) as [[|]|]; [reflexivity | discriminate | discriminate].
Qed.

Lemma ownLabels_hostFields rows :
  forallb (fun row => negb (existsb JsObject.inherited (rowLabels row))) rows
  = forallb (fun h => match h with
                      | (_, ls, _, _, _, _) =>
                        negb (existsb JsObject.inherited (map chipText ls))
                      end)
            (map hostFields (messages rows)).
Proof.
  induction rows as [|[e|b] rows IH]; [reflexivity| |exact IH].
  cbn [forallb rowLabels messages flat_map app map hostFields]. rewrite IH. reflexivity.
Qed.

Lemma ownLabels_host w w' :
  hostContent w' = hostContent w ->
  ownLabels (visibleRows w) -> ownLabels (visibleRows w').
Proof.
  intros Hhost. unfold ownLabels. rewrite !ownLabels_hostFields.
  pose proof (hostContent_messages w w' Hhost) as H. unfold messagesOf in H.
  rewrite H. auto.
Qed.

Lemma plainLabel_own label : plainLabel label = true -> JsObject.inherited label = false.
Proof.
  unfold plainLabel. intros H.
  apply andb_true_iff in H as [H _]. apply andb_true_iff in H as [_ H].
  apply negb_true_iff in H. exact H.
Qed.

Lemma plainPage_own w : plainPage w -> ownLabels (visibleRows w).
Proof.
  unfold plainPage, pageLabels, ownLabels. rewrite forallb_app. intros H.
  apply andb_true_iff in H as [H _]. rewrite forallb_forall in *.
  intros row Hrow. apply negb_true_iff.
  destruct (existsb JsObject.inherited (rowLabels row)) eqn:E; [exfalso | reflexivity].
  apply existsb_exists in E as (label & Hl & Hin).
  destruct row as [e|b]; [|destruct Hl].
  rewrite (plainLabel_own label) in Hin; [discriminate|].
  apply H. apply in_flat_map. exists (EmailRow e). split; [exact Hrow | exact Hl].
Qed.


(** A cycle returns, and leaves the page ready for the next event. *)
Lemma cycle_ready (w : World) (rows : list Row) :
  emailTable w = Some rows ->
  NoDup (map refOf rows) ->
  ownLabels rows ->
  bundleTemplateHTML (state w) <> EmptyHTML \/ rows <> [] ->
  (forall label, isOpen label w ->
     In label (boundLabels w) \/
     exists e, In (EmailRow e) rows /\ In label (map chipText (labels e))) ->
  exists w', runBundlizer w = Returns tt w' /\ ready w'.
Proof.
  intros Ht Hnd Hown Hor Hopen.
  destruct (cycle_loop_total w rows Ht Hnd Hown Hor)
    as (w3 & Hrun & Hg3 & Hd3 & Horder3 & Hrows3 & Hlabels & Hflag3 & Hopen3).
  assert (Hp3 : placed w3).
  { split; [exact Hd3|]. split; [exact Horder3|]. split; [exact Hrows3|].
    intros label Hl.
    destruct (in_dec string_dec label (JsObject.keys (bundles (state w3)))) as [Hin|Hnot];
      [exact Hin | exfalso].
    pose proof (Hflag3 label Hnot) as Hf. unfold isOpen in Hl. fold (flagOf label w3) in Hl.
    rewrite Hl in Hf.
    destruct (orphanLabel _ label (syntheticRows rows)) eqn:Horph; [discriminate|].
    destruct (Hopen label (Hopen3 label Hl)) as [Hrow|Hcarried].
    - unfold boundLabels, visibleRows in Hrow. rewrite Ht in Hrow.
      apply in_map_iff in Hrow as (b & Hb & Hin').
      unfold orphanLabel in Horph.
      assert (Hex : existsb (fun b0 => isOrphan (JsObject.keys (bundles (state w3))) b0
                                       && String.eqb (bundlename b0) label)
                      (syntheticRows rows) = true).
      { apply existsb_exists. exists b. split; [exact Hin'|].
        unfold isOrphan. rewrite Hb, String.eqb_refl.
        destruct (includes label (JsObject.keys (bundles (state w3)))) eqn:Hinc;
          [apply includes_In in Hinc; contradiction | reflexivity]. }
      congruence.
    - apply Hlabels in Hcarried. contradiction. }
  destruct (settleCycle_total w3 Hg3 Hp3) as (w' & Hsettle & R).
  assert (Hrun' : runBundlizer w = Returns tt w') by (rewrite Hrun; exact Hsettle).
  exists w'. split; [exact Hrun'|].
  pose proof (does_runBundlizer w) as Hwrites. rewrite Hrun' in Hwrites.
  cbn [worldOf] in Hwrites.
  split; [|split; [exact (grouped_rearranged w3 w' R Hg3)|
                   split; [exact (placed_rearranged w3 w' R Hp3)|split]]].
  - apply (writes_invariant cycleKinds (fun v => emailTable v <> None)) with (w := w);
      [|exact Hwrites | congruence].
    intros k v v' _ Hw. exact (write_keeps_list k v v' Hw).
  - intros name Hname.
    apply (proj1 (cycle_rows_are_the_bundles_aux w w' rows Ht Hnd Hrun')). exact Hname.
  - apply (ownLabels_host w w').
    + apply (writes_preserves cycleKinds hostContent); [|exact Hwrites].
      intros k v v' _. apply write_keeps_hostContent.
    + unfold visibleRows. rewrite Ht. exact Hown.
Qed.









(** ** A run of events goes through *)

Lemma ready_rearranged w w' : rearranged w w' -> ready w -> ready w'.
Proof.
  intros R (Ht & Hg & Hp & Hrows & Hown).
  split; [|split; [exact (grouped_rearranged w w' R Hg)|
                   split; [exact (placed_rearranged w w' R Hp)|split]]].
  - destruct R as (_ & Hhost & _). unfold hostContent in Hhost.
    destruct (emailTable w'), (emailTable w); cbn in Hhost; congruence.
  - destruct R as (Hs & _ & Hl & _). intros name Hname. rewrite Hs. apply Hrows, Hl, Hname.
  - destruct R as (_ & Hhost & _). exact (ownLabels_host w w' Hhost Hown).
Qed.

Lemma ready_flags w v :
  ready w ->
  (forall l, JsObject.get l v = Some true ->
             isOpen l w \/ In l (JsObject.keys (bundles (state w)))) ->
  ready (mkWorld (withVisibility v (state w)) (emailTable w) (effects w)).
Proof.
  intros (Ht & Hg & (Hd & Horder & Hrows & Hopen) & Hbound) Hv.
  split; [exact Ht|]. split; [|split; [|exact Hbound]].
  - apply (grouped_host w); [reflexivity | reflexivity | reflexivity | exact Hg].
  - split; [exact Hd|]. split; [exact Horder|]. split; [exact Hrows|].
    intros l Hl. destruct (Hv l Hl) as [H|H]; [apply Hopen; exact H | exact H].
Qed.

Lemma forEach_modify_total {A} (g : A -> list Row -> list Row) : forall (l : list A) w,
  exists w', forEach l (fun x => modifyRows (g x)) w = Returns tt w'.
Proof.
  induction l as [|x l IH]; intros w; [exists w; reflexivity|].
  cbn [forEach]. run. apply IH.
Qed.

Lemma showUnbundledEmails_total w : exists w', showUnbundledEmails w = Returns tt w'.
Proof.
  unfold showUnbundledEmails. run. cbv zeta.
  apply (forEach_modify_total (fun i => map (onEmail i (setHidden false EMAIL_DEFAULT_DISPLAY)))).
Qed.

(** [turnOffBundleVisibility] returns for a bundle, and only hides, shows and
    moves rows. *)
Lemma turnOffBundleVisibility_total name w :
  grouped w -> placed w -> JsObject.get name (bundles (state w)) <> None ->
  exists w', turnOffBundleVisibility name w = Returns tt w' /\ rearranged w w'.
Proof.
  intros Hg Hp Hget.
  destruct (JsObject.get name (bundles (state w))) as [members|] eqn:Hm; [|congruence].
  destruct (hideEmails members w) as [[] w1|w1] eqn:H1;
    [|destruct w as [st tbl ev]; rewrite hideEmails_returns in H1; discriminate].
  destruct (showUnbundledEmails_total w1) as [w2 H2].
  pose proof (rows_rearranged _ w tt w1
                (does_hideEmails rowKinds rowKinds_refl _)
                (boundLabels_hideEmails _) H1) as R1.
  pose proof (rows_rearranged _ w1 tt w2
                (does_showUnbundledEmails rowKinds rowKinds_refl)
                boundLabels_showUnbundledEmails H2) as R2.
  pose proof (rearranged_trans w w1 w2 R1 R2) as R.
  destruct (resetBundleDomsPosition_total
              [bundlesAfter name (bundlesOrder (state w2))] w2
              (grouped_rearranged w w2 R Hg) (placed_rearranged w w2 R Hp))
    as (w' & H3 & R3).
  exists w'. split; [|exact (rearranged_trans w w2 w' R R3)].
  unfold turnOffBundleVisibility. run. rewrite Hm. run. run_by H1. run_by H2. run.
  exact H3.
Qed.

(** A click on the synthetic row of a bundle returns, and leaves the page
    ready for the next event. *)
Lemma onBundleClick_total name w :
  ready w -> In name (boundLabels w) ->
  exists w', onBundleClick name w = Returns tt w' /\ ready w'.
Proof.
  intros Hr Hrow.
  (* the other bundle is closed first *)
  assert (Hclose : exists wa,
            (match JsObject.get name (bundlesVisibility (state w)),
                   truthyName (getVisibleBundleName (state w)) with
             | Some false, Some visibleBundleName =>
               modifyState (fun s =>
                 withVisibility (JsObject.set visibleBundleName false (bundlesVisibility s)) s) ;;
               turnOffBundleVisibility visibleBundleName
             | _, _ => ret tt
             end) w = Returns tt wa /\ ready wa /\ In name (boundLabels wa)).
  { destruct (JsObject.get name (bundlesVisibility (state w))) as [[|]|];
      try (exists w; split; [reflexivity | split; assumption]).
    destruct (truthyName (getVisibleBundleName (state w))) as [v|] eqn:Hv;
      [|exists w; split; [reflexivity | split; assumption]].
    apply truthyName_some, getVisibleBundleName_open in Hv.
    set (wm := mkWorld (withVisibility (JsObject.set v false (bundlesVisibility (state w)))
                                       (state w))
                       (emailTable w) (effects w)).
    assert (Hrm : ready wm).
    { apply ready_flags; [exact Hr|]. intros l Hl. left. rewrite get_set in Hl.
      destruct (String.eqb l v); [discriminate | exact Hl]. }
    pose proof Hrm as (Htm & Hgm & Hpm & Hbm).
    destruct (turnOffBundleVisibility_total v wm Hgm Hpm) as (wa & Ha & Ra).
    { apply get_in_keys. destruct Hr as (_ & _ & (_ & _ & _ & Hopen) & _).
      apply Hopen. exact Hv. }
    exists wa. split; [run; exact Ha|].
    split; [exact (ready_rearranged wm wa Ra Hrm)|].
    destruct Ra as (_ & _ & Hl & _). apply Hl. exact Hrow. }
  destruct Hclose as (wa & Hclose & Hra & Hrowa).
  (* the flag of the clicked bundle is flipped *)
  set (wb := mkWorld (withVisibility
                        (JsObject.set name
                           (negb (truthy (JsObject.get name (bundlesVisibility (state wa)))))
                           (bundlesVisibility (state wa))) (state wa))
                     (emailTable wa) (effects wa)).
  assert (Hkey : In name (JsObject.keys (bundles (state wa)))).
  { destruct Hra as (_ & _ & _ & Hbound). apply Hbound. exact Hrowa. }
  assert (Hrb : ready wb).
  { apply ready_flags; [exact Hra|]. intros l Hl. rewrite get_set in Hl.
    destruct (String.eqb_spec l name) as [E|_]; [right; rewrite E; exact Hkey | left; exact Hl]. }
  (* its messages are shown, or hidden again *)
  assert (Hshow : exists wc,
            (if truthy (JsObject.get name (bundlesVisibility (state wb)))
             then showBundledEmails name else turnOffBundleVisibility name) wb
            = Returns tt wc /\ rearranged wb wc).
  { destruct Hrb as (_ & Hgb & Hpb & _).
    destruct (truthy (JsObject.get name (bundlesVisibility (state wb))));
      [apply showBundledEmails_total | apply turnOffBundleVisibility_total];
      try assumption; apply get_in_keys; exact Hkey. }
  destruct Hshow as (wc & Hshow & Rc).
  pose proof (ready_rearranged wb wc Rc Hrb) as Hrc.
  (* the synthetic row is rendered *)
  destruct (updateBundleDom_total name wc) as [w' Hupd].
  { destruct Hrc as (_ & Hgc & _). exact Hgc. }
  { destruct Rc as (Hs & _). rewrite Hs. apply get_in_keys. exact Hkey. }
  exists w'. split.
  - unfold onBundleClick. run. cbv zeta. run_by Hclose. run. run. fold wb.
    run_by Hshow. exact Hupd.
  - apply (ready_rearranged wc w'); [|exact Hrc].
    exact (rows_rearranged _ wc tt w'
             (does_updateBundleDom rowKinds bundleKinds_rowKinds name)
             (boundLabels_updateBundleDom name) Hupd).
Qed.

Lemma ready_cycle w : ready w -> exists w', runBundlizer w = Returns tt w' /\ ready w'.
Proof.
  intros (Ht & (Htemplate & _) & (Hd & _ & Hrows & Hopen) & _ & Hown).
  destruct (emailTable w) as [rows|] eqn:Hrows0; [clear Ht | congruence].
  apply (cycle_ready w rows Hrows0).
  - unfold distinctRows, visibleRows in Hd. rewrite Hrows0 in Hd. exact Hd.
  - unfold visibleRows in Hown. rewrite Hrows0 in Hown. exact Hown.
  - left. exact Htemplate.
  - intros label Hl. left. apply Hrows, Hopen, Hl.
Qed.

Lemma ready_goesThrough : forall evs w, ready w -> goesThrough evs w.
Proof.
  induction evs as [|[|name] evs IH]; intros w Hr; cbn [goesThrough]; [exact I| |].
  - destruct (ready_cycle w Hr) as (w' & Hrun & Hr'). exists w'. split; [exact Hrun | auto].
  - intros Hrow. destruct (onBundleClick_total name w Hr Hrow) as (w' & Hrun & Hr').
    exists w'. split; [exact Hrun | auto].
Qed.

(** X29.  Once a cycle has run, no handler throws while the host leaves the
    list alone.  On a page as in X27 (a list of distinct rows, plain label
    texts, the template derived or a row to derive it from, every open label
    with a synthetic row or carried by a message row), a cycle followed by
    any run of cycles and of clicks, each click on a label that has a
    synthetic row at that time, goes through: every [runBundlizer] and every
    [onBundleClick] of the run returns. *)
Theorem session_goes_through (w : World) (rows : list Row) (evs : list PageEvent) :
  emailTable w = Some rows ->
  NoDup (map refOf rows) ->
  plainPage w ->
  bundleTemplateHTML (state w) <> EmptyHTML \/ rows <> [] ->
  (forall label, isOpen label w ->
     In label (boundLabels w) \/
     exists e, In (EmailRow e) rows /\ In label (map chipText (labels e))) ->
  goesThrough (Cycle :: evs) w.
Proof.
  intros Ht Hnd Hplain Hor Hopen. cbn [goesThrough].
  assert (Hown : ownLabels rows).
  { pose proof (plainPage_own w Hplain) as H. unfold visibleRows in H.
    rewrite Ht in H. exact H. }
  destruct (cycle_ready w rows Ht Hnd Hown Hor Hopen) as (w' & Hrun & Hr).
  exists w'. split; [exact Hrun | apply ready_goesThrough; exact Hr].
Qed.

Lemma session_goes_through_witness :
  boundLabels Sample.bundled = ["Work"; "Personal"] /\
  plainPage Sample.start /\
  goesThrough [Cycle; Click "Work"; Cycle; Click "Personal"; Click "Personal"; Cycle]
              Sample.start.
Proof.
  split; [reflexivity|]. split; [reflexivity|].
  apply (session_goes_through Sample.start Sample.inbox _ eq_refl).
  - repeat constructor; cbn; intuition discriminate.
  - reflexivity.
  - right. discriminate.
  - intros label H. discriminate H.
Defined.
